(* ===== verification/_CoqProject ===== *)
-Q . S2P
Prelude.v
PyValue.v
PyFloat.v
PyNumber.v
Bookmarks.v
Runtime.v
IsoTime.v
PostProcess.v
Typing.v
Fixtures.v
Version.v
SyncRecords.v
Resume.v
SyncStream.v
Interrupt.v
Frame.v
Activation.v
Restart.v
Handover.v
Delivery.v
JobDelivery.v
IsoRuns.v
