(* ===== verification/Prelude.v ===== *)
(** * The incremental sync of the Salesforce tap, verified

    The program is [src/tap_salesforce/sync.py] of pipelinewise-tap-salesforce:
    the code that drives one stream of a Singer tap from a source of records
    to a stream of messages, and keeps the bookmarks from which the next run
    resumes.  This library is a shallow embedding of the whole file in Rocq
    with stdpp, and the theorems that say what each function does, alone and
    across the restarts of a process that may be stopped after any message.

    ** The program and the files that model it

    - [remove_blacklisted_fields], [transform_bulk_data_hook],
      [fix_record_anytype] (sync.py 11-28, 163-185): PostProcess.v.  A record
      is a [VDict], an association list in insertion order; the loop of
      [fix_record_anytype] is [fix_items], which assigns into the record it
      iterates over, the way the code does.  Typing.v holds the
      well-formedness of values and the JSON types of repaired fields.
    - [get_stream_version] (sync.py 30-38): Version.v.
    - [sync_records] (sync.py 99-161): SyncRecords.v.  [sync_record] is the
      body of the loop, [sync_loop] the loop, [finish_pass] what follows it.
    - [resume_syncing_bulk_query] (sync.py 40-80): Resume.v.  [resume_record]
      and [drain_batch] are the inner loop, [finish_batch] the three
      statements after it, [drain_batches] the outer loop.
    - [sync_stream] (sync.py 82-97): SyncStream.v, with [translate_error] for
      the two [except] clauses.
    - Interrupt.v, Frame.v, Activation.v, Restart.v, Handover.v,
      JobDelivery.v and Delivery.v model no further function of sync.py:
      they follow the functions above on an output that refuses a write
      (Interrupt.v; Frame.v for the fields of the stores flushed,
      Activation.v for the end of a pass over a full table), along the
      restarts of a batch job (Restart.v: the job of the specification as
      the transition system [job_step], the relation [restart] between the
      store a run starts from and the store it flushed last, the simulation
      between the two; Handover.v: from a stopped chunked pass to the
      resumption; JobDelivery.v: the relation [job_pass], which also keeps
      the records sent so far), and along the restarts of the simple cursor
      (Delivery.v: the relation [pass], the contract [honours_cursor] of a
      source that yields its records from the cursor on, oldest key first).

    What the code calls but does not contain is modelled from the
    specification and from the documented behaviour of the libraries:
    - PyValue.v: Python values, truthiness, exception objects with their
      class, message and cause; schemas and catalog entries.
    - PyFloat.v: the binary64 floats of Python and the rounding [float()]
      performs, [round_ratio]: the nearest float to a quotient of integers,
      ties to the even mantissa, with subnormals, signed zeros and overflow
      to infinity.
    - PyNumber.v: [int()] and [float()], which [fix_record_anytype] tries on
      every untyped value: the grammar of numeric strings and the conversions
      between the numeric types.
    - Bookmarks.v: [singer.get_bookmark] and [singer.write_bookmark] on a
      [gmap] from stream id to a [gmap] from field to value.
    - Runtime.v: the world a pass runs in ([world]: the store, the messages
      written so far, the record counter, the number of clock readings), the
      primitive effects on it, and four interfaces: [Emitter] (the standard
      output: whether the next write goes through, given what was written),
      [Clock] (the wall clock), [TimeCodec] (the timestamp format of
      [singer_utils], with the law that what is formatted parses back to the
      same instant) and [Transformer] (the singer transformer, any function
      of the pre-hook, the record and the schema).  The Salesforce client is
      the record [salesforce]; a generator is the list of records it yields
      and the exception it may end with.
    - IsoTime.v: the timestamps of [singer_utils] in ISO 8601, an instance
      of [TimeCodec]: [iso_format] writes ["%Y-%m-%dT%H:%M:%S.%fZ"],
      [iso_parse] reads a date, a time of day and a zone, over the
      proleptic Gregorian calendar ([days_from_civil], [civil_from_days]).
    - Fixtures.v: instances of the interfaces on which the functions run by
      computation; only the witnesses use them.  Its codec writes an instant
      as a decimal number, which keeps the witnesses short; IsoRuns.v runs
      the drivers on ISO 8601 timestamps.

    ** How effects are modelled

    sync.py mutates one [state] object in place, writes messages and raises.
    A function of it is a computation in [M A = world -> (exn + A) * world]
    (this file, [SE]): the world after a raise is the world at the raise, so
    that what a failed pass has written and flushed can be stated.  [state]
    is one shared store: [write_bookmark_m] updates it for every holder, and
    [batch_ids.remove] ([remove_batch_id]) changes the list the store holds.
    [write_message] asks the emitter: the message is appended to the output,
    or the write raises [BrokenPipeError] and nothing is written.  A process
    that is stopped is a run on the emitter [capped c], which takes [c]
    messages and refuses the next: what it leaves on the output is all that a
    restart can read.  The theorems on what a function does when it is left
    to run are stated for a [Reliable] emitter, one that takes every message.
    All loops run over finite lists and are structural [Fixpoint]s: no fuel
    is needed and every function is total.  (The one fuel is in
    [IsoTime.digits_needed], which counts the digits of a year beyond 9999:
    [1 + log2 n] steps are enough, as [digits_needed_enough] shows.)  Integers are unbounded, as
    Python's are; the one bounded number is the float, kept at its width: a
    mantissa of 53 bits and the exponent of its last bit between -1074 and
    971 ([PyFloat.canonical]).

    ** What is proved

    Each driver has its equation in direct style ([sync_record_run],
    [sync_records_run], [resume_record_run], [drain_batches_cons],
    [resume_run], [sync_stream_run]), reference definitions for what its loop
    computes ([cursor_after], [watermark_after], [watermark_of],
    [plain_trace]), and on top of them the theorems, each with a witness on
    the fixtures:
    - post-processor: the filter as a lookup law; the pre-hook on every
      branch, with the inputs on which it raises; [fix_record_anytype] equal
      to a map over the record ([fix_field]), its [KeyError] on an undeclared
      field, and the value repaired: always the float for a numeric string,
      never an [int]; well-formed records stay well formed, with the same
      keys; the JSON type of a repaired field for every value it may hold;
      the float an integer becomes, which is the nearest one, and the bound
      from which it stays an integer; dicts that are equal up to the order
      of their entries ([dict_equiv], with its [Proper] instances) are
      repaired into equal dicts;
    - timestamps (IsoTime.v): the calendar is a bijection between the day
      numbers and the dates with a month from 1 to 12 and a day that the
      month has, leap years included ([civil_of_days_from_civil],
      [days_from_civil_of_days], [civil_from_days_valid]); digits written
      read back ([read_fixed_pad], [read_digits_pad]); so what
      [iso_format] writes, [iso_parse] reads as the same instant at UTC
      ([iso_parse_format]), which makes the pair a [TimeCodec];
    - floats (PyFloat.v): rounding gives a canonical float within half a
      unit in the last place of the quotient, or an infinity
      ([round_ratio_cases]); a quotient that is a float rounds to itself
      ([round_ratio_exact]); rounding overflows exactly from
      [2^1024 - 2^970] on ([round_ratio_overflow]), which is where
      [float(int)] raises [OverflowError] and [float(str)] gives [inf];
    - version: every case of key and bookmark, and rotation: two calls for
      an unkeyed stream differ when the clock advances;
    - simple driver: records emitted once, in order and tagged; the cursor an
      unchunked pass leaves ([cursor_after]: the last record within the pass
      wins, which is the maximum only for a sorted source); the watermark of a
      chunked pass (the maximum, stored in a form that parses back); the
      store in memory equal to the last store flushed at every exit of the
      loop ([in_sync]); that an unchunked pass returns exactly when every
      record goes through and carries a key that parses; and that a chunked
      pass
      never returns, because the promotion at sync.py 161 parses a datetime;
    - resumption: a run that returns drained every listed batch in order and
      left none; at every exit [BatchIDs] is a suffix of what it was and the
      store in memory is the one flushed; the watermark written parses back
      and is where the next run starts; a second run does nothing; only the
      listed batches are requested; a run returns exactly when the source
      delivers every batch and each watermark is at UTC ([drains]), and
      stops on a watermark that is not;
    - orchestrator: what a run that returns has written, what escapes it on
      failure (class, message, cause), and that nothing is flushed then;
    - a run that is cut short (Interrupt.v): a property of the output that
      every admitted write keeps is kept by every driver ([admits],
      [sync_stream_keeps_out]); a driver on any emitter is cut from its run
      on the reliable one ([tracks], proved for each driver by the tactic
      of that name): the same outcome, or the broken pipe raised at the
      refused write on a prefix of the output; so a refused write leaves
      [sync_stream] as the wrapped exception with the broken pipe as cause,
      a pass stopped after [c] messages has written exactly the first [c],
      every store flushed by a stopped loop records the record written
      just before it ([recorded_after_emitted]), and the watermarks a
      chunked loop flushes rise from the one it started with ([rising]);
    - frame (Frame.v): a pass writes only the fields it owns ([owned]); a
      property of the store that those writes keep ([pass_closed]) holds of
      the store in memory and of every store flushed, on any output
      ([kept_since]); so a chunked pass never writes the cursor, and nothing
      writes the version of a stream that has a replication key;
    - activation (Activation.v): the messages of a pass, whole or cut, are
      records and flushes of one version, then the activation of that
      version when the stream has no replication key and the source
      delivered every record ([pass_shape]); so an activation in the output
      of a pass stopped anywhere comes after every record of the source;
    - restarts of a job (Restart.v): every store a run flushes is a
      checkpoint of the job ([checkpoints]), a run on any output flushes a
      prefix of them; so the stores found along any number of restarts are
      those of the abstract job finishing its batches in order (a
      refinement, by the generic [rtc_simulation] of this file), the list
      only shrinks, the watermark never moves back, and [n] batches take at
      most [n] restarts that find a new store;
    - from a chunked pass to the resumption (Handover.v): the store a
      stopped chunked pass of [sync_stream] flushed last holds a watermark
      beyond the start date ([rises_from]), the resumption starts from
      exactly that instant and no restart moves it back ([hands_over]);
    - records of a job (JobDelivery.v): a run writes, batch by batch, the
      records of the batch and then a store that lists the batches after it
      ([job_trace]), and so does every beginning of a run; hence a batch
      leaves the list only after all of its records were sent ([job_sent]),
      and a run that returns after any number of stopped runs has sent, with
      them, every record of every batch.  Here too delivery is at least
      once: the records of a batch that was cut are sent again;
    - restarts of the simple cursor (Delivery.v): the trace of an unchunked
      pass as an explicit list ([plain_trace]); of a stopped pass the
      consumer has the first [n] records and the store holds the cursor
      after the first [m <= n] ([pass_trace_cut]); so, against a source that
      honours the cursor, every record before the cursor was sent, the
      cursor never moves back, and a pass that returns after any number of
      stopped passes has sent every record with them.  Delivery is at least
      once: a record written just before the stop is written again.

    ** What is not modelled

    The HTTP client and the bulk job machinery behind [salesforce]; the JSON
    encoding of messages; logging and the metric a counter logs when closed;
    the validation the singer [Transformer] performs (any function may stand
    for it: the library is not in the sources and the specification leaves it
    out of scope); the notations of timestamps that [dateutil] reads
    besides ISO 8601 (the theorems hold of any codec with the round-trip
    law; IsoTime.v gives the one of ISO 8601) and the bounds of a Python
    [datetime], the years 1 to 9999 (an instant is any integer); the
    whitespace and the decimal digits
    of Unicode beyond ASCII, which [int()] and [float()] accept as well, and
    arithmetic on floats, which sync.py does not use; [__context__] chaining
    of exceptions; signals that are not exceptions of a write; the
    [TypeError] of [singer.write_message] on a record that JSON cannot
    encode; the laziness of the generators (the records a source yields do
    not depend on what the pass writes while it consumes them).  A catalog
    entry is a record that has its keys ['tap_stream_id'], ['stream'] and
    ['schema'], as discovery writes them: the [KeyError] of an entry without
    one of them (which at sync.py 83, outside the [try], would leave
    [sync_stream] untranslated) has no counterpart.  What [sf.query] yields is decided by the query engine, which is
    not in the sources: the theorems of Delivery.v hold for every source that
    meets [honours_cursor], and say nothing of one that does not.  A chunked
    pass never returns (sync.py 161), so its watermark is never promoted to
    the cursor: what is followed is the watermark it flushes and the
    resumption that reads it (Handover.v).  The choice between [sync_stream]
    and [resume_syncing_bulk_query], and the batch ids the engine adds to the
    store, are in the caller of sync.py and in the bulk engine, not in the
    sources: Handover.v holds for every store that carries the watermark of
    the stopped pass. *)

From Stdlib Require Import ZArith String Ascii List Lia.
From stdpp Require Import base option list strings relations sorting.

(** ** Hint databases

    [tap]: the rules of the program logic and the facts the primitive effects
    keep, for [auto with tap] and the tactics [keeps] and [fails] at the end
    of this file.  [tap_rw]: the round trips of the store and of dicts, for
    [autorewrite with tap_rw]. *)

Create HintDb tap discriminated.
Create Rewrite HintDb tap_rw.

(** ** The state-and-error monad

    Python code that mutates a shared object and may raise becomes a function
    from the state before to an outcome and the state after.  The state is
    kept when an exception is raised: what was written is written. *)

Definition SE (S E A : Type) : Type := S -> (E + A) * S.

#[export] Instance se_ret {S E} : MRet (SE S E) := fun A a s => (inr a, s).

#[export] Instance se_bind {S E} : MBind (SE S E) := fun A B k m s =>
  match m s with
  | (inr a, s') => k a s'
  | (inl e, s') => (inl e, s')
  end.

#[export] Instance se_fmap {S E} : FMap (SE S E) := fun A B f m s =>
  match m s with
  | (inr a, s') => (inr (f a), s')
  | (inl e, s') => (inl e, s')
  end.

Definition se_get {S E} : SE S E S := fun s => (inr s, s).

Definition se_gets {S E A} (f : S -> A) : SE S E A := fun s => (inr (f s), s).

Definition se_modify {S E} (f : S -> S) : SE S E unit := fun s => (inr tt, f s).

Definition se_raise {S E A} (e : E) : SE S E A := fun s => (inl e, s).

(** A pure computation that may fail, run inside the monad. *)
Definition se_lift {S E A} (r : E + A) : SE S E A := fun s => (r, s).

(** [try: m except e: h e]. *)
Definition se_catch {S E A} (m : SE S E A) (h : E -> SE S E A) : SE S E A :=
  fun s =>
    match m s with
    | (inl e, s') => h e s'
    | (inr a, s') => (inr a, s')
    end.

(** The error monad of pure code that may raise. *)
#[export] Instance sum_ret {E} : MRet (sum E) := fun A a => inr a.

#[export] Instance sum_bind {E} : MBind (sum E) := fun A B k r =>
  match r with
  | inr a => k a
  | inl e => inl e
  end.

#[export] Instance sum_fmap {E} : FMap (sum E) := fun A B f r =>
  match r with
  | inr a => inr (f a)
  | inl e => inl e
  end.

Declare Scope tap_scope.
Delimit Scope tap_scope with tap.

(** Outcomes of a run, as they read in statements. *)
Notation "'RET' a 'IN' s" := (@inr _ _ a, s)
  (at level 10, a at level 9, s at level 9, only parsing) : tap_scope.
Notation "'EXN' e 'IN' s" := (@inl _ _ e, s)
  (at level 10, e at level 9, s at level 9, only parsing) : tap_scope.

Open Scope tap_scope.

Definition is_ok {E A} (r : E + A) : bool :=
  match r with inr _ => true | inl _ => false end.

Section StateError.
Context {S E : Type}.

Lemma se_bind_run {A B} (m : SE S E A) (k : A -> SE S E B) s :
  (m ≫= k) s =
  match m s with
  | (inr a, s') => k a s'
  | (inl e, s') => (inl e, s')
  end.
Proof. reflexivity. Qed.

Lemma se_bind_ok {A B} (m : SE S E A) (k : A -> SE S E B) s a s' :
  m s = (RET a IN s') -> (m ≫= k) s = k a s'.
Proof. intros Hm. by rewrite se_bind_run, Hm. Qed.

Lemma se_bind_err {A B} (m : SE S E A) (k : A -> SE S E B) s e s' :
  m s = (EXN e IN s') -> (m ≫= k) s = (EXN e IN s').
Proof. intros Hm. by rewrite se_bind_run, Hm. Qed.

(** The monad laws, pointwise. *)
Lemma se_ret_bind {A B} (a : A) (k : A -> SE S E B) s : (mret a ≫= k) s = k a s.
Proof. reflexivity. Qed.

Lemma se_bind_ret {A} (m : SE S E A) s : (m ≫= mret) s = m s.
Proof. rewrite se_bind_run. by destruct (m s) as [[e|a] s']. Qed.

Lemma se_bind_assoc {A B C} (m : SE S E A) (k : A -> SE S E B) (h : B -> SE S E C) s :
  ((m ≫= k) ≫= h) s = (m ≫= (fun a => k a ≫= h)) s.
Proof. rewrite !se_bind_run. by destruct (m s) as [[e|a] s']. Qed.

(** Inversion of a successful bind: both halves succeeded. *)
Lemma se_bind_inv_ok {A B} (m : SE S E A) (k : A -> SE S E B) s b s2 :
  (m ≫= k) s = (RET b IN s2) ->
  exists a s1, m s = (RET a IN s1) /\ k a s1 = (RET b IN s2).
Proof.
  rewrite se_bind_run. destruct (m s) as [[e|a] s1]; [done|]. eauto.
Qed.

Lemma se_catch_ok {A} (m : SE S E A) h s a s' :
  m s = (RET a IN s') -> se_catch m h s = (RET a IN s').
Proof. unfold se_catch. by intros ->. Qed.

Lemma se_catch_err {A} (m : SE S E A) h s e s' :
  m s = (EXN e IN s') -> se_catch m h s = h e s'.
Proof. unfold se_catch. by intros ->. Qed.

End StateError.

#[export] Hint Rewrite @se_ret_bind @se_bind_ret : tap_rw.

(** ** Python containers

    A [dict] keeps insertion order and has one entry per key: an association
    list.  [dict_set] is [d[k] = v]: the entry is replaced where it stands, or
    added at the end. *)

Section Dict.
Context {V : Type}.

Fixpoint dict_get (k : string) (d : list (string * V)) : option V :=
  match d with
  | [] => None
  | (k', v) :: d' => if decide (k = k') then Some v else dict_get k d'
  end.

Fixpoint dict_set (k : string) (v : V) (d : list (string * V)) : list (string * V) :=
  match d with
  | [] => [(k, v)]
  | (k', v') :: d' =>
      if decide (k = k') then (k, v) :: d' else (k', v') :: dict_set k v d'
  end.

Definition dict_keys (d : list (string * V)) : list string := d.*1.

Lemma dict_get_set_eq k v d : dict_get k (dict_set k v d) = Some v.
Proof.
  induction d as [|[k' v'] d IH]; simpl; repeat case_decide; simpl;
    repeat case_decide; congruence.
Qed.

Lemma dict_get_set_ne k k' v d : k <> k' -> dict_get k' (dict_set k v d) = dict_get k' d.
Proof.
  intros Hne. induction d as [|[k2 v2] d IH]; simpl; repeat case_decide; simpl;
    repeat case_decide; congruence.
Qed.

Lemma dict_keys_set k v d : is_Some (dict_get k d) -> dict_keys (dict_set k v d) = dict_keys d.
Proof.
  unfold dict_keys. induction d as [|[k2 v2] d IH]; simpl; intros [x Hx].
  - done.
  - case_decide; simpl; [congruence|]. f_equal. apply IH. eauto.
Qed.

Lemma dict_get_Some_elem k v d : dict_get k d = Some v -> (k, v) ∈ d.
Proof.
  induction d as [|[k2 v2] d IH]; simpl; [done|].
  case_decide; intros ?; simplify_eq; [left | right; auto].
Qed.

Lemma dict_get_None k d : dict_get k d = None <-> k ∉ dict_keys d.
Proof.
  unfold dict_keys. induction d as [|[k2 v2] d IH]; simpl.
  - split; [intros _; apply not_elem_of_nil | done].
  - rewrite not_elem_of_cons. case_decide; split; try done; tauto.
Qed.

Lemma dict_get_is_Some k d : is_Some (dict_get k d) <-> k ∈ dict_keys d.
Proof.
  rewrite <- not_eq_None_Some, dict_get_None.
  destruct (decide (k ∈ dict_keys d)); tauto.
Qed.

(** With one entry per key, every entry is the one [dict_get] finds. *)
Lemma dict_get_elem k v d : NoDup (dict_keys d) -> (k, v) ∈ d -> dict_get k d = Some v.
Proof.
  unfold dict_keys. induction d as [|[k2 v2] d IH]; simpl; intros Hnd Hin.
  - by apply elem_of_nil in Hin.
  - apply NoDup_cons in Hnd as [Hk2 Hnd]. apply elem_of_cons in Hin as [Heq|Hin].
    + simplify_eq. by rewrite decide_True.
    + rewrite decide_False; [auto|]. intros ->. apply Hk2.
      apply list_elem_of_fmap. by exists (k2, v).
Qed.

(** Assigning to a key that stands after a prefix without it. *)
Lemma dict_set_app_notin k v v0 pre post :
  k ∉ dict_keys pre -> dict_set k v (pre ++ (k, v0) :: post) = pre ++ (k, v) :: post.
Proof.
  unfold dict_keys. induction pre as [|[k1 v1] pre IH]; simpl; intros Hk.
  - by rewrite decide_True.
  - apply not_elem_of_cons in Hk as [Hne Hk]. rewrite decide_False by done.
    f_equal. auto.
Qed.

Lemma dict_keys_app d1 d2 : dict_keys (d1 ++ d2) = dict_keys d1 ++ dict_keys d2.
Proof. unfold dict_keys. apply fmap_app. Qed.

(** Looking up what a filter on the keys has kept. *)
Lemma dict_get_filter (P : string -> Prop) `{!forall k, Decision (P k)} k d :
  dict_get k (filter (fun kv => P kv.1) d) = if decide (P k) then dict_get k d else None.
Proof.
  induction d as [|[k' v] d IH]; [by case_decide|]. rewrite filter_cons. simpl.
  destruct (decide (P k')) as [Hk'|Hk']; simpl; rewrite ?IH;
    repeat (case_decide; simplify_eq); done.
Qed.

(** *** Dicts up to the order of their entries

    Python compares dicts by what each key holds: two association lists
    stand for the same dict when every lookup agrees. *)

Definition dict_equiv (d1 d2 : list (string * V)) : Prop :=
  forall k, dict_get k d1 = dict_get k d2.

#[export] Instance dict_equiv_equivalence : Equivalence dict_equiv.
Proof.
  split; [by intros d k|by intros d1 d2 H12 k|].
  intros d1 d2 d3 H12 H23 k. by rewrite H12.
Qed.

#[export] Instance dict_get_proper k : Proper (dict_equiv ==> eq) (dict_get k).
Proof. intros d1 d2 H12. apply H12. Qed.

#[export] Instance dict_set_proper k v : Proper (dict_equiv ==> dict_equiv) (dict_set k v).
Proof.
  intros d1 d2 H12 k'. destruct (decide (k = k')) as [->|Hne].
  - by rewrite !dict_get_set_eq.
  - by rewrite !dict_get_set_ne, H12.
Qed.

(** Equal dicts have the same keys. *)
Lemma dict_equiv_keys d1 d2 k : dict_equiv d1 d2 -> k ∈ dict_keys d1 <-> k ∈ dict_keys d2.
Proof. intros H12. rewrite <- !dict_get_is_Some. by setoid_rewrite H12. Qed.

(** A map over the values that keeps the keys commutes with the lookup. *)
Lemma dict_get_fmap (f : string * V -> string * V) k d :
  (forall kv, (f kv).1 = kv.1) ->
  dict_get k (f <$> d) = (fun v => (f (k, v)).2) <$> dict_get k d.
Proof.
  intros Hf. induction d as [|[k' v] d IH]; [done|]. rewrite fmap_cons.
  specialize (Hf (k', v)). destruct (f (k', v)) as [k2 v2] eqn:Hkv. simpl in *. subst k2.
  case_decide; [subst; simpl; by rewrite Hkv|done].
Qed.

End Dict.

(** [l.remove(x)]: the first element equal to [x] goes; [None] stands for the
    [ValueError] of a list that holds no such element.  The comparison is a
    parameter: Python compares with [is] and then [==]. *)

Section ListRemove.
Context {A : Type} (eqb : A -> A -> bool).

Fixpoint list_remove (x : A) (l : list A) : option (list A) :=
  match l with
  | [] => None
  | y :: l' => if eqb y x then Some l' else (y ::.) <$> list_remove x l'
  end.

Lemma list_remove_head x l : eqb x x = true -> list_remove x (x :: l) = Some l.
Proof. simpl. by intros ->. Qed.

Lemma list_remove_length x l l' : list_remove x l = Some l' -> length l = S (length l').
Proof.
  revert l'. induction l as [|y l IH]; simpl; intros l' H; [done|].
  destruct (eqb y x); [by simplify_eq|].
  destruct (list_remove x l) as [l2|]; simplify_eq/=. f_equal. by apply IH.
Qed.

Lemma list_remove_None x l : list_remove x l = None <-> Forall (fun y => eqb y x = false) l.
Proof.
  induction l as [|y l IH]; simpl.
  - split; [constructor | done].
  - rewrite Forall_cons. destruct (eqb y x); [split; [done | intros [? _]; done]|].
    destruct (list_remove x l); simpl; split; try done; try tauto.
    intros [_ H]. by apply IH in H.
Qed.

End ListRemove.

(** What holds of every element holds of every element that is kept. *)
Lemma Forall_sublist {A} (P : A -> Prop) l1 l2 :
  l1 `sublist_of` l2 -> Forall P l2 -> Forall P l1.
Proof.
  rewrite !Forall_forall. intros Hsub Hall x Hx. apply Hall. by eapply elem_of_sublist.
Qed.

(** What is kept of a sorted list is sorted. *)
Lemma StronglySorted_sublist {A} (R : relation A) l1 l2 :
  l1 `sublist_of` l2 -> StronglySorted R l2 -> StronglySorted R l1.
Proof.
  induction 1 as [|x l1 l2 Hsub IH|x l1 l2 Hsub IH]; [done| |];
    rewrite !StronglySorted_cons; intros [Hx Hsort]; [|by auto].
  split; [by eapply Forall_sublist|auto].
Qed.

(** A prefix of two lists, one after the other, is a prefix of the first
    or the first followed by a prefix of the second. *)
Lemma prefix_app_cases {A} (p l1 l2 : list A) :
  p `prefix_of` l1 ++ l2 ->
  p `prefix_of` l1 \/ exists p', p = l1 ++ p' /\ p' `prefix_of` l2.
Proof.
  intros Hp. destruct (prefix_weak_total p l1 (l1 ++ l2) Hp (prefix_app_r l1 l1 l2 (reflexivity l1)))
    as [Hleft|[p' ->]]; [by left|].
  right. exists p'. split; [done|]. by apply prefix_app_inv in Hp.
Qed.

Lemma Forall_prefix {A} (P : A -> Prop) (p l : list A) :
  p `prefix_of` l -> Forall P l -> Forall P p.
Proof. intros [k ->]. by intros [? _]%Forall_app. Qed.

(** In a sorted list, what is strictly smaller stands before. *)
Lemma StronglySorted_lookup_lt {A} (f : A -> Z) (l : list A) i j x y :
  StronglySorted Z.le (f <$> l) -> l !! i = Some x -> l !! j = Some y ->
  (f x < f y)%Z -> (i < j)%nat.
Proof.
  intros Hsort Hi Hj Hlt. destruct (decide (i < j)%nat) as [|Hge]; [done|].
  destruct (decide (i = j)) as [->|Hne]; [simplify_eq; lia|].
  assert (j < i)%nat as Hji by lia.
  assert (f y <= f x)%Z; [|lia].
  apply (StronglySorted_app_1_elem_of Z.le (take i (f <$> l)) (drop i (f <$> l)));
    [by rewrite take_drop| |].
  - apply list_elem_of_lookup. exists j. rewrite lookup_take_lt by done.
    by rewrite list_lookup_fmap, Hj.
  - apply list_elem_of_lookup. exists 0%nat. rewrite lookup_drop, Nat.add_0_r.
    by rewrite list_lookup_fmap, Hi.
Qed.

(** [needle in haystack] on strings: substring. *)
Definition is_substring (needle haystack : string) : bool :=
  bool_decide (is_Some (String.index 0 needle haystack)).

#[export] Hint Rewrite @dict_get_set_eq : tap_rw.
#[export] Hint Rewrite @dict_get_set_ne using congruence : tap_rw.

(** ** Simulations

    A step of [R] is matched by one step or more of [S]: so is a sequence
    of steps, which is matched by a sequence at least as long. *)

Section Simulation.
Context {A B : Type} (R : relation A) (S : relation B) (sim : B -> A -> Prop).
Hypothesis step : forall a a' b, R a a' -> sim b a -> exists b', tc S b b' /\ sim b' a'.

Lemma nsteps_simulation n a a' b :
  nsteps R n a a' -> sim b a -> exists m b', (n <= m)%nat /\ nsteps S m b b' /\ sim b' a'.
Proof.
  intros Hsteps. revert b. induction Hsteps as [a|n a a1 a' Hstep _ IH]; intros b Hsim.
  - exists 0%nat, b. split; [done|]. split; [constructor|done].
  - destruct (step _ _ _ Hstep Hsim) as (b1 & Hb1 & Hsim1).
    apply tc_nsteps in Hb1 as (k & Hk & Hb1).
    destruct (IH _ Hsim1) as (m & b' & Hm & Hb' & Hsim').
    exists (k + m)%nat, b'. split; [lia|]. split; [by eapply nsteps_trans|done].
Qed.

Lemma rtc_simulation a a' b :
  rtc R a a' -> sim b a -> exists b', rtc S b b' /\ sim b' a'.
Proof.
  intros (n & Hn)%rtc_nsteps Hsim.
  destruct (nsteps_simulation _ _ _ _ Hn Hsim) as (m & b' & _ & Hb' & Hsim').
  exists b'. split; [by eapply rtc_nsteps_2|done].
Qed.

End Simulation.

(** ** A small program logic for the monad

    [se_keeps I m]: a run of [m] from a state in [I] ends in a state in [I],
    whether it returns or raises.  [se_fails m]: [m] never returns. *)

Section Logic.
Context {S E : Type}.
Implicit Types (I P : S -> Prop).

Definition se_keeps {A} I (m : SE S E A) : Prop := forall s, I s -> I (m s).2.

Definition se_fails {A} (m : SE S E A) : Prop := forall s, is_ok (m s).1 = false.

Lemma se_keeps_run {A} I (m : SE S E A) s r s' :
  se_keeps I m -> I s -> m s = (r, s') -> I s'.
Proof. intros Hm Hs Hrun. specialize (Hm s Hs). by rewrite Hrun in Hm. Qed.

Lemma se_keeps_ret {A} I (a : A) : se_keeps I (mret a).
Proof. by intros s. Qed.

Lemma se_keeps_bind {A B} I (m : SE S E A) (k : A -> SE S E B) :
  se_keeps I m -> (forall a, se_keeps I (k a)) -> se_keeps I (m ≫= k).
Proof.
  intros Hm Hk s Hs. rewrite se_bind_run. specialize (Hm s Hs).
  destruct (m s) as [[e|a] s1]; [done|]. by apply Hk.
Qed.

Lemma se_keeps_fmap {A B} I (f : A -> B) (m : SE S E A) :
  se_keeps I m -> se_keeps I (f <$> m).
Proof.
  intros Hm s Hs. specialize (Hm s Hs). unfold fmap, se_fmap.
  by destruct (m s) as [[e|a] s1].
Qed.

Lemma se_keeps_lift {A} I (r : E + A) : se_keeps I (se_lift r).
Proof. by intros s. Qed.

Lemma se_keeps_raise {A} I (e : E) : se_keeps I (se_raise (A:=A) e).
Proof. by intros s. Qed.

Lemma se_keeps_gets {A} I (f : S -> A) : se_keeps I (se_gets f).
Proof. by intros s. Qed.

Lemma se_keeps_modify I (f : S -> S) : (forall s, I s -> I (f s)) -> se_keeps I (se_modify f).
Proof. intros Hf s Hs. by apply Hf. Qed.

Lemma se_keeps_catch {A} I (m : SE S E A) h :
  se_keeps I m -> (forall e, se_keeps I (h e)) -> se_keeps I (se_catch m h).
Proof.
  intros Hm Hh s Hs. unfold se_catch. specialize (Hm s Hs).
  destruct (m s) as [[e|a] s1]; [by apply Hh|done].
Qed.

Lemma se_fails_raise {A} (e : E) : se_fails (se_raise (A:=A) e).
Proof. by intros s. Qed.

Lemma se_fails_lift {A} (e : E) : se_fails (se_lift (A:=A) (inl e)).
Proof. by intros s. Qed.

Lemma se_fails_bind_l {A B} (m : SE S E A) (k : A -> SE S E B) :
  se_fails m -> se_fails (m ≫= k).
Proof.
  intros Hm s. rewrite se_bind_run. specialize (Hm s).
  by destruct (m s) as [[e|a] s1].
Qed.

Lemma se_fails_bind_r {A B} (m : SE S E A) (k : A -> SE S E B) :
  (forall a, se_fails (k a)) -> se_fails (m ≫= k).
Proof.
  intros Hk s. rewrite se_bind_run.
  destruct (m s) as [[e|a] s1]; [done|]. apply Hk.
Qed.

Lemma se_fails_catch {A} (m : SE S E A) h :
  se_fails m -> (forall e, se_fails (h e)) -> se_fails (se_catch m h).
Proof.
  intros Hm Hh s. unfold se_catch. specialize (Hm s).
  destruct (m s) as [[e|a] s1]; [apply Hh|done].
Qed.

(** What follows a computation that never returns does not matter. *)
Lemma se_keeps_bind_fails {A B} I (m : SE S E A) (k : A -> SE S E B) :
  se_fails m -> se_keeps I m -> se_keeps I (m ≫= k).
Proof.
  intros Hf Hm s Hs. rewrite se_bind_run. specialize (Hm s Hs). specialize (Hf s).
  by destruct (m s) as [[e|a] s1].
Qed.

End Logic.

#[export] Hint Resolve se_keeps_ret se_keeps_bind se_keeps_fmap se_keeps_lift se_keeps_raise
  se_keeps_gets se_keeps_catch se_fails_raise se_fails_lift : tap.

(** [keeps]: walks a computation along its binds and case distinctions and
    leaves what [auto with tap] does not close. *)
Ltac keeps_step :=
  match goal with
  | |- se_keeps _ (_ ≫= _) => apply se_keeps_bind; [|intros ?]
  | |- se_keeps _ (if ?b then _ else _) => destruct b eqn:?
  | |- se_keeps _ (match ?x with _ => _ end) => destruct x eqn:?
  | |- se_keeps _ _ => solve [auto with tap]
  end.

Ltac keeps := repeat keeps_step.

(** [fails]: finds the step of a computation that never returns: at a bind,
    the first part when it can be shown to fail, what follows it otherwise. *)
Ltac fails :=
  match goal with
  | |- se_fails (_ ≫= _) =>
      first [apply se_fails_bind_l; solve [fails] | apply se_fails_bind_r; intros ?; fails]
  | |- se_fails (se_catch _ _) => apply se_fails_catch; [fails|intros ?; fails]
  | |- se_fails (if ?b then _ else _) => destruct b eqn:?; fails
  | |- se_fails (match ?x with _ => _ end) => destruct x eqn:?; fails
  | |- se_fails _ => auto with tap
  end.
