(* ===== verification/PyValue.v ===== *)
(** * Python values, exceptions and the stream descriptor

    The data that flows through sync.py: JSON-like values with Python's
    truthiness, the exception classes the handlers tell apart, the JSON
    schema of a stream and its catalog entry. *)

From Stdlib Require Import ZArith String Ascii List Lia.
From stdpp Require Import base option list strings.
From S2P Require Import Prelude.

(** ** Values *)

(** A [float], a binary64 number: the finite [(-1)^neg * m * 2^e], with
    its sign kept apart so that [-0.0] is a value, or a special value. *)
Inductive pyfloat :=
| FNan
| FInf (neg : bool)
| FFin (neg : bool) (m e : Z).

(** An aware [datetime.datetime]: the instant in microseconds since the
    epoch, and its UTC offset in seconds. *)
Record datetime := mk_datetime { dt_instant : Z; dt_offset : Z }.

Unset Elimination Schemes.
Inductive value :=
| VNone
| VBool (b : bool)
| VInt (z : Z)
| VFloat (f : pyfloat)
| VStr (s : string)
| VList (l : list value)
| VDict (d : list (string * value))
| VDatetime (t : datetime).
Set Elimination Schemes.

(** Induction that reaches the elements of lists and dicts. *)
Definition value_nested_ind (P : value -> Prop)
    (HNone : P VNone) (HBool : forall b, P (VBool b)) (HInt : forall z, P (VInt z))
    (HFloat : forall f, P (VFloat f)) (HStr : forall s, P (VStr s))
    (HList : forall l, Forall P l -> P (VList l))
    (HDict : forall d, Forall (fun kv => P kv.2) d -> P (VDict d))
    (HDatetime : forall t, P (VDatetime t)) : forall v, P v :=
  fix go v :=
    match v with
    | VNone => HNone
    | VBool b => HBool b
    | VInt z => HInt z
    | VFloat f => HFloat f
    | VStr s => HStr s
    | VList l =>
        HList l ((fix gol l : Forall P l :=
          match l with
          | [] => Forall_nil_2 P
          | x :: l' => Forall_cons_2 P x l' (go x) (gol l')
          end) l)
    | VDict d =>
        HDict d ((fix god d : Forall (fun kv => P kv.2) d :=
          match d with
          | [] => Forall_nil_2 _
          | kv :: d' => Forall_cons_2 (fun kv => P kv.2) kv d' (go kv.2) (god d')
          end) d)
    | VDatetime t => HDatetime t
    end.

#[export] Instance pyfloat_eq_dec : EqDecision pyfloat.
Proof. solve_decision. Defined.

#[export] Instance datetime_eq_dec : EqDecision datetime.
Proof. solve_decision. Defined.

(** Structural equality, as a boolean. *)
Fixpoint value_eqb (a b : value) : bool :=
  match a, b with
  | VNone, VNone => true
  | VBool x, VBool y => bool_decide (x = y)
  | VInt x, VInt y => bool_decide (x = y)
  | VFloat x, VFloat y => bool_decide (x = y)
  | VStr x, VStr y => bool_decide (x = y)
  | VList x, VList y =>
      (fix go (x y : list value) : bool :=
         match x, y with
         | [], [] => true
         | a :: x', b :: y' => value_eqb a b && go x' y'
         | _, _ => false
         end) x y
  | VDict x, VDict y =>
      (fix go (x y : list (string * value)) : bool :=
         match x, y with
         | [], [] => true
         | (k, a) :: x', (k', b) :: y' => bool_decide (k = k') && value_eqb a b && go x' y'
         | _, _ => false
         end) x y
  | VDatetime x, VDatetime y => bool_decide (x = y)
  | _, _ => false
  end.

(** [bool(v)]. *)
Definition truthy (v : value) : bool :=
  match v with
  | VNone => false
  | VBool b => b
  | VInt z => negb (z =? 0)%Z
  | VFloat (FFin _ m _) => negb (m =? 0)%Z
  | VFloat _ => true
  | VStr s => negb (bool_decide (s = ""))
  | VList l => negb (bool_decide (l = []))
  | VDict d => negb (bool_decide (d.*1 = []))
  | VDatetime _ => true
  end.

(** Truthiness of an optional string such as [catalog_entry.get('replication_key')]:
    [None] and [""] are false. *)
Definition truthy_key (k : option string) : option string :=
  match k with
  | Some s => if bool_decide (s = "") then None else Some s
  | None => None
  end.

(** ** Exceptions *)

Inductive exn_class :=
| TapSalesforceException
| TapSalesforceQuotaExceededException
| SchemaMismatch
| KeyError
| TypeError
| ValueError
| AttributeError
| OverflowError
| BrokenPipeError
| Exception
| KeyboardInterrupt.

#[export] Instance exn_class_eq_dec : EqDecision exn_class.
Proof. solve_decision. Defined.

(** An exception object: its class, [str(ex)] and [__cause__]. *)
#[warnings="-register-all"]
Inductive exn :=
| Exn (cls : exn_class) (msg : string) (cause : option exn).

Definition exn_cls (e : exn) : exn_class := let 'Exn c _ _ := e in c.
Definition exn_msg (e : exn) : string := let 'Exn _ m _ := e in m.
Definition exn_cause (e : exn) : option exn := let 'Exn _ _ c := e in c.

(** [isinstance(ex, TapSalesforceException)]. *)
Definition is_tap_exception (c : exn_class) : bool :=
  match c with
  | TapSalesforceException | TapSalesforceQuotaExceededException => true
  | _ => false
  end.

(** [isinstance(ex, Exception)]: everything but the [BaseException]-only classes. *)
Definition is_exception (c : exn_class) : bool :=
  match c with
  | KeyboardInterrupt => false
  | _ => true
  end.

Abbreviation result A := (exn + A)%type.

Definition raise_ {A} (c : exn_class) (msg : string) : result A := inl (Exn c msg None).

(** ** Schemas and catalog entries *)

(** A JSON schema as sync.py reads it: the value under ["type"], if the key
    is there, and the sub-schemas under ["properties"], if the key is there. *)
Unset Elimination Schemes.
Inductive schema :=
| Schema (ty : option value) (props : option (list (string * schema))).
Set Elimination Schemes.

Definition schema_type (s : schema) : option value := let 'Schema t _ := s in t.
Definition schema_properties (s : schema) : option (list (string * schema)) :=
  let 'Schema _ p := s in p.

(** [schema.get("type") is None]: the key is missing or holds [None]. *)
Definition schema_untyped (s : schema) : bool :=
  match schema_type s with
  | None | Some VNone => true
  | Some _ => false
  end.

(** The keys of a catalog entry that sync.py reads.  [stream_alias] and
    [replication_key] are read with [.get]: they may be absent. *)
Record catalog_entry := mk_catalog_entry {
  tap_stream_id : string;
  stream : string;
  stream_alias : option string;
  replication_key : option string;
  entry_schema : schema
}.

(** [stream_alias or stream]. *)
Definition stream_name (ce : catalog_entry) : string :=
  match truthy_key (stream_alias ce) with
  | Some a => a
  | None => stream ce
  end.

(** ** Facts *)

Lemma value_eqb_refl v : value_eqb v v = true.
Proof.
  induction v as [| | | | |l IH|d IH|] using value_nested_ind; simpl; try by apply bool_decide_eq_true.
  - done.
  - induction IH as [|x l Hx _ IHl]; [done|]. by rewrite Hx, IHl.
  - induction IH as [|[k x] d Hx _ IHd]; [done|].
    simpl in Hx. by rewrite bool_decide_eq_true_2, Hx, IHd.
Qed.

Lemma value_eqb_eq a b : value_eqb a b = true <-> a = b.
Proof.
  split; [|intros ->; apply value_eqb_refl].
  revert b. induction a as [| | | | |l IH|d IH|] using value_nested_ind; intros [] H; simpl in H;
    try done; try (apply bool_decide_eq_true in H; by subst).
  - f_equal. revert l0 H. induction IH as [|x l Hx _ IHl]; intros [|y l0] H; try done.
    apply andb_true_iff in H as [H1 H2]. f_equal; auto.
  - f_equal. revert d0 H.
    induction IH as [|[k x] d Hx _ IHd]; intros [|[k' y] d0] H; try done.
    apply andb_true_iff in H as [H1 H3]. apply andb_true_iff in H1 as [H1 H2].
    apply bool_decide_eq_true in H1. simpl in Hx. f_equal; [f_equal|]; auto.
Qed.

#[export] Instance value_eq_dec : EqDecision value.
Proof.
  intros a b. destruct (value_eqb a b) eqn:E.
  - left. by apply value_eqb_eq.
  - right. intros H. apply value_eqb_eq in H. congruence.
Defined.

Lemma truthy_key_Some k s : truthy_key k = Some s <-> k = Some s /\ s <> "".
Proof.
  unfold truthy_key. destruct k as [s'|]; [|by split; [|intros []]].
  case_bool_decide; split; intros; destruct_and?; simplify_eq; done.
Qed.

Lemma truthy_key_None k : truthy_key k = None <-> k = None \/ k = Some "".
Proof.
  unfold truthy_key. destruct k as [s'|]; [|by split; [left|]].
  case_bool_decide; split; intros; destruct_or?; simplify_eq; auto.
Qed.
