(* ===== verification/PyFloat.v ===== *)
(** * Binary64 floats

    Python's [float] is an IEEE 754 binary64 number.  The conversions that
    produce one, [float(int)] and [float(str)], round a rational to the
    nearest binary64, ties to the even mantissa, and overflow to infinity;
    [round_ratio] is that rounding, of the quotient of two integers.  A
    finite float is a mantissa of at most 53 bits and the exponent of its
    last bit, from -1074 (the subnormals) to 971. *)

From Stdlib Require Import ZArith Bool Lia.
From stdpp Require Import base tactics.
From S2P Require Import Prelude PyValue.

Local Open Scope Z_scope.

(** ** Rounding *)

(** The exponent of the last bit of a subnormal is [- bias]; the exponents
    of the last bit of the finite floats are [top + 1] in number. *)
Definition bias : Z := 1074.
Definition top : Z := 2045.

(** The integer nearest to [n / d], ties to the even one. *)
Definition round_half_even (n d : Z) : Z :=
  let q := n / d in
  let r := n mod d in
  if (d <? 2 * r) || ((d =? 2 * r) && Z.odd q) then q + 1 else q.

(** The number of low bits of [n / d] that do not fit a mantissa. *)
Definition ulp_shift (n d : Z) : Z := Z.max 0 (Z.log2 (n / d) - 52).

(** The binary64 nearest to [(-1)^neg * n / d], for [0 <= n] and [0 < d]:
    the quotient is counted in units of [2^-1074], cut to 53 bits, rounded,
    and renormalised when rounding carried into a 54th bit. *)
Definition round_ratio (neg : bool) (n d : Z) : pyfloat :=
  let n' := n * 2 ^ bias in
  let s := ulp_shift n' d in
  let m := round_half_even n' (d * 2 ^ s) in
  let '(m, s) := if m =? 2 ^ 53 then (2 ^ 52, s + 1) else (m, s) in
  if top <? s then FInf neg else FFin neg m (s - bias).

(** [float(z)] before the check for overflow. *)
Definition float_of_Z (z : Z) : pyfloat := round_ratio (z <? 0) (Z.abs z) 1.

(** The float nearest to the decimal [(-1)^neg * m * 10^e]. *)
Definition float_of_decimal (neg : bool) (m e : Z) : pyfloat :=
  if 0 <=? e then round_ratio neg (m * 10 ^ e) 1 else round_ratio neg m (10 ^ (- e)).

(** [int(x)] of a finite float: truncation toward zero. *)
Definition float_trunc (neg : bool) (m e : Z) : Z :=
  let a := if 0 <=? e then m * 2 ^ e else m / 2 ^ (- e) in
  if neg then - a else a.

(** The least magnitude that rounds to infinity: half a unit in the last
    place above the largest finite float. *)
Definition float_int_limit : Z := 2 ^ 1024 - 2 ^ 970.

(** ** Canonical floats *)

(** A finite float has one representation: the mantissa fills its 53 bits,
    or the exponent is the least one. *)
Definition canonical (m e : Z) : Prop :=
  0 <= m < 2 ^ 53 /\ - bias <= e <= top - bias /\ (2 ^ 52 <= m \/ e = - bias).

#[export] Instance canonical_dec m e : Decision (canonical m e).
Proof. unfold canonical. apply _. Defined.

(** [(-1)^neg * m * 2^e] is the rational [n / d]. *)
Definition float_is (neg : bool) (m e : Z) (n d : Z) : Prop :=
  (if neg then - m else m) * 2 ^ (e + bias) * d = n * 2 ^ bias.

(** ** Facts: rounding to an integer *)

Section RoundHalfEven.
Context (n d : Z) (Hd : 0 < d).

Lemma round_half_even_cases :
  (round_half_even n d = n / d /\ 2 * (n mod d) <= d) \/
  (round_half_even n d = n / d + 1 /\ d <= 2 * (n mod d)).
Proof.
  unfold round_half_even.
  destruct (Z.ltb_spec d (2 * (n mod d))); simpl; [right; lia|].
  destruct (Z.eqb_spec d (2 * (n mod d))); simpl; [|left; lia].
  destruct (Z.odd (n / d)); [right|left]; lia.
Qed.

(** The rounded integer is within a half of the quotient. *)
Lemma round_half_even_near : 2 * Z.abs (n - round_half_even n d * d) <= d.
Proof.
  pose proof (Z.div_mod n d ltac:(lia)). pose proof (Z.mod_pos_bound n d Hd).
  destruct round_half_even_cases as [[-> ?]|[-> ?]]; lia.
Qed.

(** Halfway between two integers, the even one is taken. *)
Lemma round_half_even_tie :
  2 * Z.abs (n - round_half_even n d * d) = d -> Z.even (round_half_even n d) = true.
Proof.
  pose proof (Z.div_mod n d ltac:(lia)) as Hdiv. pose proof (Z.mod_pos_bound n d Hd).
  unfold round_half_even.
  destruct (Z.ltb_spec d (2 * (n mod d))); simpl; [lia|].
  destruct (Z.eqb_spec d (2 * (n mod d))) as [Heq|Hne]; simpl; [|lia].
  intros _. destruct (Z.odd (n / d)) eqn:Hodd.
  - by rewrite Z.add_1_r, Z.even_succ.
  - by rewrite <- Z.negb_odd, Hodd.
Qed.

Lemma round_half_even_le k : n <= k * d -> round_half_even n d <= k.
Proof.
  pose proof (Z.div_mod n d ltac:(lia)). pose proof (Z.mod_pos_bound n d Hd).
  destruct round_half_even_cases as [[-> ?]|[-> ?]]; nia.
Qed.

Lemma round_half_even_ge k : k * d <= n -> k <= round_half_even n d.
Proof.
  pose proof (Z.div_mod n d ltac:(lia)). pose proof (Z.mod_pos_bound n d Hd).
  destruct round_half_even_cases as [[-> ?]|[-> ?]]; nia.
Qed.

(** An even integer is reached from halfway below it on. *)
Lemma round_half_even_ge_even k :
  Z.even k = true -> k <= round_half_even n d <-> (2 * k - 1) * d <= 2 * n.
Proof.
  intros Hk. pose proof (Z.div_mod n d ltac:(lia)) as Hdiv.
  pose proof (Z.mod_pos_bound n d Hd) as Hmod. unfold round_half_even.
  destruct (Z.lt_total (n / d) (k - 1)) as [Hlt|[Heq|Hgt]].
  - split; [|nia]. destruct (_ || _); nia.
  - assert (Z.odd (n / d) = true) as ->.
    { rewrite Heq, Z.sub_1_r, Z.odd_pred. done. }
    rewrite andb_true_r.
    destruct (Z.ltb_spec d (2 * (n mod d))); simpl; [nia|].
    destruct (Z.eqb_spec d (2 * (n mod d))); simpl; nia.
  - split; [nia|]. destruct (_ || _); lia.
Qed.
End RoundHalfEven.

Lemma round_half_even_exact m d : 0 < d -> round_half_even (m * d) d = m.
Proof.
  intros Hd. unfold round_half_even. rewrite Z.div_mul, Z.mod_mul by lia.
  rewrite Z.mul_0_r. destruct (Z.ltb_spec d 0); [lia|].
  destruct (Z.eqb_spec d 0); [lia|]. done.
Qed.

(** ** Facts: rounding to a float *)

Lemma div_lt_bound a b q : 0 < b -> a / b < q -> a < b * q.
Proof.
  intros Hb Hq. pose proof (Z.div_mod a b ltac:(lia)). pose proof (Z.mod_pos_bound a b Hb). nia.
Qed.

Lemma div_ge_bound a b q : 0 < b -> q <= a / b -> b * q <= a.
Proof.
  intros Hb Hq. pose proof (Z.div_mod a b ltac:(lia)). pose proof (Z.mod_pos_bound a b Hb). nia.
Qed.

Section RoundRatio.
Context (n d : Z) (Hn : 0 <= n) (Hd : 0 < d).

(** What is left of the quotient after the shift fits 53 bits, and fills
    them when there was a shift. *)
Lemma ulp_shift_mantissa :
  0 <= ulp_shift n d /\
  n / (d * 2 ^ ulp_shift n d) < 2 ^ 53 /\
  (0 < ulp_shift n d -> 2 ^ 52 <= n / (d * 2 ^ ulp_shift n d)).
Proof.
  unfold ulp_shift. set (y := n / d).
  assert (0 <= y) as Hy by (apply Z.div_pos; lia).
  split; [lia|]. rewrite <- Z.div_div by (try apply Z.pow_pos_nonneg; lia). fold y.
  destruct (decide (y = 0)) as [->|Hy0]; [by vm_compute|].
  pose proof (Z.log2_spec y ltac:(lia)) as [Hlo Hhi].
  destruct (Z.max_spec 0 (Z.log2 y - 52)) as [[Hs ->]|[Hs ->]].
  - replace (Z.log2 y) with (52 + (Z.log2 y - 52)) in Hlo by lia.
    replace (Z.succ (Z.log2 y)) with (53 + (Z.log2 y - 52)) in Hhi by lia.
    rewrite Z.pow_add_r in Hlo, Hhi by lia.
    assert (0 < 2 ^ (Z.log2 y - 52)) by (apply Z.pow_pos_nonneg; lia).
    split; [apply Z.div_lt_upper_bound; lia|].
    intros _. apply Z.div_le_lower_bound; lia.
  - change (2 ^ 0) with 1. rewrite Z.div_1_r. split; [|lia].
    eapply Z.lt_le_trans; [exact Hhi|]. apply Z.pow_le_mono_r; lia.
Qed.

(** The rounded mantissa, before it is renormalised. *)
Lemma round_mantissa_bounds :
  let s := ulp_shift n d in
  let m := round_half_even n (d * 2 ^ s) in
  0 <= m <= 2 ^ 53 /\ (0 < s -> 2 ^ 52 <= m).
Proof.
  intros s m. destruct ulp_shift_mantissa as (Hs & Hhi & Hlo). fold s in Hs, Hhi, Hlo.
  assert (0 < d * 2 ^ s) as HD by (apply Z.mul_pos_pos; [|apply Z.pow_pos_nonneg]; lia).
  pose proof (Z.div_mod n (d * 2 ^ s) ltac:(lia)) as Hdiv.
  pose proof (Z.mod_pos_bound n (d * 2 ^ s) HD) as Hmod.
  assert (0 <= n / (d * 2 ^ s)) by (apply Z.div_pos; lia).
  destruct (round_half_even_cases n (d * 2 ^ s)) as [[Hm _]|[Hm _]];
    fold m in Hm; rewrite Hm; split; try lia; intros Hpos; specialize (Hlo Hpos); lia.
Qed.
End RoundRatio.

(** ** Facts: the overflow threshold

    The large powers of two stay symbolic: [2^top] is [2 * (2^970 * 2^bias)]
    and [float_int_limit] is [(2^54 - 1) * 2^970]. *)

Lemma float_int_limit_eq : float_int_limit = (2 ^ 54 - 1) * 2 ^ 970.
Proof.
  unfold float_int_limit. replace 1024 with (54 + 970) by reflexivity.
  rewrite Z.pow_add_r by done. generalize (2 ^ 970). intros. lia.
Qed.

Lemma pow2_top : 2 ^ top = 2 * (2 ^ 970 * 2 ^ bias).
Proof.
  replace top with (1 + (970 + bias)) by reflexivity. by rewrite !Z.pow_add_r.
Qed.

Lemma pow2_below_top s : 0 <= s < top -> 2 * 2 ^ s <= 2 ^ top.
Proof.
  intros Hs. rewrite <- Z.pow_succ_r by lia. apply Z.pow_le_mono_r; lia.
Qed.

Lemma pow2_above_top s : top < s -> 2 * 2 ^ top <= 2 ^ s.
Proof.
  intros Hs. rewrite <- Z.pow_succ_r by done. apply Z.pow_le_mono_r; lia.
Qed.

Section Overflow.
Context (n d P : Z) (Hd : 0 < d).

Let A := 2 ^ 970.
Let K := 2 ^ bias.

(** Below the last exponent the quotient is below the threshold. *)
Lemma overflow_below :
  2 * P <= 2 ^ top -> n * 2 ^ bias < d * P * 2 ^ 53 -> ~ float_int_limit * d <= n.
Proof.
  rewrite pow2_top, float_int_limit_eq. fold A K.
  assert (0 < A) by (by apply Z.pow_pos_nonneg). assert (0 < K) by (by apply Z.pow_pos_nonneg).
  clearbody A K. change (2 ^ 53) with 9007199254740992. change (2 ^ 54) with 18014398509481984.
  intros HP Hn Hbig.
  assert (d * P <= d * (A * K)) by (apply Z.mul_le_mono_nonneg_l; lia).
  assert (n * K < (9007199254740992 * d * A) * K) as Hlt by lia.
  apply Z.mul_lt_mono_pos_r in Hlt; [|done].
  assert (0 < A * d) by (by apply Z.mul_pos_pos). lia.
Qed.

(** Beyond the last exponent the quotient is beyond the threshold. *)
Lemma overflow_above :
  2 * 2 ^ top <= P -> d * P * 2 ^ 52 <= n * 2 ^ bias -> float_int_limit * d <= n.
Proof.
  rewrite pow2_top, float_int_limit_eq. fold A K.
  assert (0 < A) by (by apply Z.pow_pos_nonneg). assert (0 < K) by (by apply Z.pow_pos_nonneg).
  clearbody A K. change (2 ^ 52) with 4503599627370496. change (2 ^ 54) with 18014398509481984.
  intros HP Hn.
  assert (d * (4 * (A * K)) <= d * P) by (apply Z.mul_le_mono_nonneg_l; lia).
  assert ((18014398509481984 * d * A) * K <= n * K) as Hle by lia.
  apply Z.mul_le_mono_pos_r in Hle; [|done].
  assert (0 < A * d) by (by apply Z.mul_pos_pos). lia.
Qed.

(** At the last exponent the threshold is where the mantissa carries. *)
Lemma overflow_at :
  float_int_limit * d <= n <-> (2 * 2 ^ 53 - 1) * (d * 2 ^ top) <= 2 * (n * 2 ^ bias).
Proof.
  rewrite pow2_top, float_int_limit_eq. fold A K.
  assert (0 < A) by (by apply Z.pow_pos_nonneg). assert (0 < K) by (by apply Z.pow_pos_nonneg).
  clearbody A K. change (2 ^ 53) with 9007199254740992. change (2 ^ 54) with 18014398509481984.
  rewrite (Z.mul_le_mono_pos_r _ _ (2 * K)) by lia. split; intros; lia.
Qed.
End Overflow.

Section RoundRatioSpec.
Context (neg : bool) (n d : Z) (Hn : 0 <= n) (Hd : 0 < d).

(** Rounding gives a canonical float of the sign asked for, within half
    a unit in its last place of the quotient, or that infinity. *)
Lemma round_ratio_cases :
  (exists m e, round_ratio neg n d = FFin neg m e /\ canonical m e /\
     2 * Z.abs (n * 2 ^ bias - m * 2 ^ (e + bias) * d) <= 2 ^ (e + bias) * d) \/
  round_ratio neg n d = FInf neg.
Proof.
  unfold round_ratio. set (n' := n * 2 ^ bias). set (s := ulp_shift n' d).
  assert (0 <= n') as Hn' by (apply Z.mul_nonneg_nonneg; [lia|by vm_compute]).
  destruct (ulp_shift_mantissa n' d Hn' Hd) as (Hs & _). fold s in Hs.
  destruct (round_mantissa_bounds n' d Hn' Hd) as [Hm Hfull]. fold s in Hm, Hfull.
  assert (0 < 2 ^ s) as Hpow by (by apply Z.pow_pos_nonneg).
  assert (0 < d * 2 ^ s) as HD by (by apply Z.mul_pos_pos).
  pose proof (round_half_even_near n' (d * 2 ^ s) HD) as Hnear.
  set (m := round_half_even n' (d * 2 ^ s)) in *.
  change (2 ^ 53) with 9007199254740992 in *. change (2 ^ 52) with 4503599627370496 in *.
  destruct (Z.eqb_spec m 9007199254740992) as [Hcarry|Hcarry].
  - destruct (Z.ltb_spec top (s + 1)); [by right|left].
    exists 4503599627370496, (s + 1 - bias). split; [done|]. unfold canonical, top, bias in *.
    replace (s + 1 - 1074 + 1074) with (Z.succ s) by lia. rewrite Z.pow_succ_r by lia.
    change (2 ^ 53) with 9007199254740992. change (2 ^ 52) with 4503599627370496.
    split; [lia|]. rewrite Hcarry in Hnear. lia.
  - destruct (Z.ltb_spec top s); [by right|left].
    exists m, (s - bias). split; [done|]. unfold canonical, top, bias in *.
    replace (s - 1074 + 1074) with s by lia.
    change (2 ^ 53) with 9007199254740992. change (2 ^ 52) with 4503599627370496.
    split; [lia|]. replace (m * 2 ^ s * d) with (m * (d * 2 ^ s)) by lia.
    rewrite (Z.mul_comm (2 ^ s) d). done.
Qed.

(** Rounding overflows from [float_int_limit] on. *)
Lemma round_ratio_overflow : round_ratio neg n d = FInf neg <-> float_int_limit * d <= n.
Proof.
  unfold round_ratio. set (n' := n * 2 ^ bias). set (s := ulp_shift n' d).
  assert (0 <= n') as Hn' by (apply Z.mul_nonneg_nonneg; [lia|by apply Z.pow_nonneg]).
  destruct (ulp_shift_mantissa n' d Hn' Hd) as (Hs & Hhi & Hlo). fold s in Hs, Hhi, Hlo.
  destruct (round_mantissa_bounds n' d Hn' Hd) as [Hm _]. fold s in Hm.
  assert (0 < d * 2 ^ s) as HD by (apply Z.mul_pos_pos; [|apply Z.pow_pos_nonneg]; lia).
  pose proof (round_half_even_ge_even n' (d * 2 ^ s) HD (2 ^ 53) eq_refl) as Hcarry.
  apply div_lt_bound in Hhi; [|done].
  set (m := round_half_even n' (d * 2 ^ s)) in *.
  destruct (Z.lt_total s top) as [Hlt|[Heq|Hgt]].
  - assert (~ float_int_limit * d <= n) as Hsmall
      by (apply (overflow_below n d (2 ^ s)); [done|apply pow2_below_top; lia|done]).
    split; [|done]. destruct (m =? 2 ^ 53).
    + destruct (Z.ltb_spec top (s + 1)); [lia|done].
    + destruct (Z.ltb_spec top s); [lia|done].
  - assert (float_int_limit * d <= n <-> 2 ^ 53 <= m) as ->
      by (rewrite Hcarry, Heq; apply overflow_at).
    destruct (Z.eqb_spec m (2 ^ 53)) as [->|Hne].
    + by destruct (Z.ltb_spec top (s + 1)); [|lia].
    + destruct (Z.ltb_spec top s); [lia|]. split; [done|lia].
  - specialize (Hlo ltac:(unfold top in *; lia)).
    apply div_ge_bound in Hlo; [|done].
    assert (float_int_limit * d <= n) as Hbig
      by (apply (overflow_above n d (2 ^ s)); [done|apply pow2_above_top; lia|done]).
    split; [done|]. intros _. destruct (m =? 2 ^ 53).
    + by destruct (Z.ltb_spec top (s + 1)); [|lia].
    + by destruct (Z.ltb_spec top s); [|lia].
Qed.
End RoundRatioSpec.

(** A rational that is a float rounds to that float. *)
Lemma round_ratio_exact neg n d m e :
  0 < d -> canonical m e -> n * 2 ^ bias = m * 2 ^ (e + bias) * d ->
  round_ratio neg n d = FFin neg m e.
Proof.
  intros Hd (Hm & He & Hnorm) Hval. unfold round_ratio, ulp_shift. rewrite Hval.
  set (s := e + bias). assert (0 <= s) as Hs by (unfold s; lia).
  assert (0 < 2 ^ s) as Hpow by (by apply Z.pow_pos_nonneg).
  rewrite Z.div_mul by lia.
  assert (Z.max 0 (Z.log2 (m * 2 ^ s) - 52) = s) as ->.
  { destruct (decide (m = 0)) as [->|Hm0]; [unfold s, canonical in *; simpl; lia|].
    rewrite <- Z.shiftl_mul_pow2, Z.log2_shiftl by lia.
    change (2 ^ 53) with (2 ^ Z.succ 52) in Hm.
    destruct Hnorm as [Hfull|Hsub].
    - rewrite (Z.log2_unique m 52) by lia. lia.
    - assert (Z.log2 m < 53) by (apply Z.log2_lt_pow2; lia). unfold s. lia. }
  replace (m * 2 ^ s * d) with (m * (d * 2 ^ s)) by lia.
  rewrite round_half_even_exact by (by apply Z.mul_pos_pos).
  destruct (Z.eqb_spec m (2 ^ 53)); [lia|].
  destruct (Z.ltb_spec top s); [unfold s in *; lia|].
  do 2 f_equal. unfold s. lia.
Qed.

(** ** Facts: the float of an integer *)

Lemma float_of_Z_cases z :
  (exists m e, float_of_Z z = FFin (z <? 0) m e /\ canonical m e /\
     2 * Z.abs (Z.abs z * 2 ^ bias - m * 2 ^ (e + bias)) <= 2 ^ (e + bias)) \/
  float_of_Z z = FInf (z <? 0).
Proof.
  destruct (round_ratio_cases (z <? 0) (Z.abs z) 1 ltac:(lia) ltac:(lia))
    as [(m & e & Hf & Hc & Hnear)|Hinf]; [left|by right].
  exists m, e. by rewrite !Z.mul_1_r in Hnear.
Qed.

Lemma float_of_Z_overflow z : float_of_Z z = FInf (z <? 0) <-> float_int_limit <= Z.abs z.
Proof.
  unfold float_of_Z. rewrite round_ratio_overflow by lia. by rewrite Z.mul_1_r.
Qed.

(** The canonical form of a positive integer below [2^53]. *)
Lemma canonical_small n :
  0 < n < 2 ^ 53 ->
  canonical (n * 2 ^ (52 - Z.log2 n)) (Z.log2 n - 52) /\
  n * 2 ^ bias = n * 2 ^ (52 - Z.log2 n) * 2 ^ (Z.log2 n - 52 + bias).
Proof.
  intros Hn. pose proof (Z.log2_spec n ltac:(lia)) as [Hlo Hhi].
  assert (Z.log2 n < 53) as HL by (apply Z.log2_lt_pow2; lia).
  pose proof (Z.log2_nonneg n) as HL0.
  assert (0 < 2 ^ (52 - Z.log2 n)) as Hpow by (apply Z.pow_pos_nonneg; lia).
  assert (2 ^ Z.log2 n * 2 ^ (52 - Z.log2 n) = 2 ^ 52) as H52.
  { rewrite <- Z.pow_add_r by lia. f_equal. lia. }
  assert (2 ^ Z.succ (Z.log2 n) * 2 ^ (52 - Z.log2 n) = 2 ^ 53) as H53.
  { rewrite <- Z.pow_add_r by lia. f_equal. lia. }
  split.
  - unfold canonical, top, bias. split; [nia|]. split; [lia|]. left. nia.
  - rewrite <- Z.mul_assoc, <- Z.pow_add_r by (unfold bias; lia). do 2 f_equal. lia.
Qed.

(** An integer of at most 53 bits is a float: the conversion is exact. *)
Lemma float_of_Z_small z :
  Z.abs z <= 2 ^ 53 ->
  exists m e, float_of_Z z = FFin (z <? 0) m e /\ canonical m e /\
    m * 2 ^ (e + bias) = Z.abs z * 2 ^ bias.
Proof.
  intros Hz. unfold float_of_Z.
  destruct (decide (z = 0)) as [->|Hz0].
  { exists 0, (- bias). split; [by vm_compute|].
    split; [apply (bool_decide_unpack _)|]; by vm_compute. }
  destruct (decide (Z.abs z = 2 ^ 53)) as [->|Hz53].
  { exists (2 ^ 52), 1. split; [by vm_compute|].
    split; [apply (bool_decide_unpack _)|]; by vm_compute. }
  destruct (canonical_small (Z.abs z) ltac:(lia)) as [Hc Hval].
  eexists _, _. split; [|split; [exact Hc|by rewrite Hval]].
  apply round_ratio_exact; [lia|done|lia].
Qed.

(** ** Facts: the float of a decimal *)

Lemma float_of_decimal_cases neg m e :
  0 <= m ->
  (exists m' e', float_of_decimal neg m e = FFin neg m' e' /\ canonical m' e') \/
  float_of_decimal neg m e = FInf neg.
Proof.
  intros Hm. unfold float_of_decimal. destruct (Z.leb_spec 0 e).
  - destruct (round_ratio_cases neg (m * 10 ^ e) 1) as [(m' & e' & ? & ? & _)|?];
      [apply Z.mul_nonneg_nonneg; [lia|by apply Z.pow_nonneg]|lia|left; eauto|by right].
  - destruct (round_ratio_cases neg m (10 ^ (- e))) as [(m' & e' & ? & ? & _)|?];
      [lia|apply Z.pow_pos_nonneg; lia|left; eauto|by right].
Qed.

(** A decimal overflows from [float_int_limit] on. *)
Lemma float_of_decimal_overflow neg m e :
  0 <= m -> 0 <= e ->
  float_of_decimal neg m e = FInf neg <-> float_int_limit <= m * 10 ^ e.
Proof.
  intros Hm He. unfold float_of_decimal. rewrite (proj2 (Z.leb_le 0 e) He).
  rewrite round_ratio_overflow; [by rewrite Z.mul_1_r| |lia].
  apply Z.mul_nonneg_nonneg; [lia|by apply Z.pow_nonneg].
Qed.

(** ** Examples *)

(** [float(2**60 + 1) == float(2**60)]; [0.1] is [0x1.999999999999ap-4];
    [float("1e400")] is [inf]; the largest finite float and its neighbours. *)
Example float_of_Z_rounds : float_of_Z (2 ^ 60 + 1) = float_of_Z (2 ^ 60).
Proof. by vm_compute. Qed.

Example float_tenth : float_of_decimal false 1 (-1) = FFin false 0x1999999999999a (-56).
Proof. by vm_compute. Qed.

Example float_huge : float_of_decimal false 1 400 = FInf false.
Proof. by vm_compute. Qed.

Example float_tiny : float_of_decimal true 1 (-400) = FFin true 0 (-1074).
Proof. by vm_compute. Qed.

Example float_max :
  float_of_Z (float_int_limit - 1) = FFin false (2 ^ 53 - 1) 971 /\
  float_of_Z (- float_int_limit) = FInf true.
Proof. by vm_compute. Qed.
