(* ===== verification/PyNumber.v ===== *)
(** * Python's [int()] and [float()]

    The two coercions that [fix_record_anytype] tries on a value: the grammar
    of numeric strings (surrounding whitespace, a sign, digits with single
    underscores between them, a fraction, an exponent, [inf] and [nan]) and
    the conversions between the numeric types.  A decimal is rounded to the
    nearest binary64 float, as [PyFloat] defines it.  Strings are taken as
    ASCII: beyond it Python also accepts the whitespace and the decimal
    digits of Unicode, which are not modelled. *)

From Stdlib Require Import ZArith String Ascii List Lia.
From stdpp Require Import base option list strings.
From S2P Require Import Prelude PyValue PyFloat.

Local Open Scope Z_scope.

(** ** Characters *)

(** The ASCII characters the numeric parsers skip around a number: tab to
    carriage return, and the space.  ([str.isspace] holds of the separators
    0x1C to 0x1F as well, but [int()] and [float()] do not skip them.) *)
Definition is_space (c : ascii) : bool :=
  let n := nat_of_ascii c in
  bool_decide (9 <= n <= 13)%nat || bool_decide (n = 32)%nat.

Definition digit_of (c : ascii) : option Z :=
  let n := nat_of_ascii c in
  if bool_decide (48 <= n <= 57)%nat then Some (Z.of_nat (n - 48)) else None.

Definition lower (c : ascii) : ascii :=
  let n := nat_of_ascii c in
  if bool_decide (65 <= n <= 90)%nat then ascii_of_nat (n + 32) else c.

Fixpoint skip_spaces (l : list ascii) : list ascii :=
  match l with
  | c :: l' => if is_space c then skip_spaces l' else l
  | [] => []
  end.

Definition strip (l : list ascii) : list ascii :=
  rev (skip_spaces (rev (skip_spaces l))).

(** ** The grammar *)

(** The rest of a [digitpart]: digits, each possibly preceded by one
    underscore.  Returns the value, the number of digits read and what is left. *)
Fixpoint digits_tail (acc : Z) (n : nat) (l : list ascii) : Z * nat * list ascii :=
  match l with
  | [] => (acc, n, [])
  | c :: l' =>
      match digit_of c with
      | Some d => digits_tail (acc * 10 + d) (S n) l'
      | None =>
          if bool_decide (c = "_"%char) then
            match l' with
            | c2 :: l'' =>
                match digit_of c2 with
                | Some d => digits_tail (acc * 10 + d) (S n) l''
                | None => (acc, n, l)
                end
            | [] => (acc, n, l)
            end
          else (acc, n, l)
      end
  end.

Definition digitpart (l : list ascii) : option (Z * nat * list ascii) :=
  match l with
  | c :: l' =>
      match digit_of c with
      | Some d => Some (digits_tail d 1 l')
      | None => None
      end
  | [] => None
  end.

Definition read_sign (l : list ascii) : bool * list ascii :=
  match l with
  | c :: l' =>
      if bool_decide (c = "-"%char) then (true, l')
      else if bool_decide (c = "+"%char) then (false, l')
      else (false, l)
  | [] => (false, [])
  end.

Definition apply_sign (neg : bool) (z : Z) : Z := if neg then - z else z.

(** [int(s)] in base 10. *)
Definition int_of_string (s : string) : option Z :=
  let '(neg, l) := read_sign (strip (list_ascii_of_string s)) in
  match digitpart l with
  | Some (v, _, []) => Some (apply_sign neg v)
  | _ => None
  end.

(** [number ::= [digitpart] "." digitpart | digitpart ["."]]: the digits as
    one integer, the number of digits after the point, and what is left. *)
Definition read_number (l : list ascii) : option (Z * nat * list ascii) :=
  match digitpart l with
  | Some (i, _, rest) =>
      match rest with
      | c :: rest' =>
          if bool_decide (c = "."%char) then
            match digitpart rest' with
            | Some (f, nf, rest'') => Some (i * 10 ^ Z.of_nat nf + f, nf, rest'')
            | None => Some (i, 0%nat, rest')
            end
          else Some (i, 0%nat, rest)
      | [] => Some (i, 0%nat, [])
      end
  | None =>
      match l with
      | c :: rest' => if bool_decide (c = "."%char) then digitpart rest' else None
      | [] => None
      end
  end.

(** [exponent ::= ("e" | "E") [sign] digitpart], or nothing. *)
Definition read_exponent (l : list ascii) : option (Z * list ascii) :=
  match l with
  | c :: l' =>
      if bool_decide (lower c = "e"%char) then
        let '(neg, l2) := read_sign l' in
        match digitpart l2 with
        | Some (v, _, rest) => Some (apply_sign neg v, rest)
        | None => None
        end
      else Some (0, l)
  | [] => Some (0, [])
  end.

(** [float(s)]. *)
Definition float_of_string (s : string) : option pyfloat :=
  let '(neg, l) := read_sign (strip (list_ascii_of_string s)) in
  let word := string_of_list_ascii (map lower l) in
  if bool_decide (word = "inf" \/ word = "infinity") then Some (FInf neg)
  else if bool_decide (word = "nan") then Some FNan
  else
    match read_number l with
    | Some (m, nf, rest) =>
        match read_exponent rest with
        | Some (ex, []) => Some (float_of_decimal neg m (ex - Z.of_nat nf))
        | _ => None
        end
    | None => None
    end.

(** ** The coercions on values *)

(** [int(v)]. *)
Definition py_int (v : value) : result value :=
  match v with
  | VStr s =>
      match int_of_string s with
      | Some z => inr (VInt z)
      | None => raise_ ValueError "invalid literal for int() with base 10"
      end
  | VInt z => inr (VInt z)
  | VBool b => inr (VInt (if b then 1 else 0))
  | VFloat (FFin neg m e) => inr (VInt (float_trunc neg m e))
  | VFloat FNan => raise_ ValueError "cannot convert float NaN to integer"
  | VFloat (FInf _) => raise_ OverflowError "cannot convert float infinity to integer"
  | VNone | VList _ | VDict _ | VDatetime _ =>
      raise_ TypeError "int() argument must be a string, a bytes-like object or a real number"
  end.

(** [float(v)]. *)
Definition py_float (v : value) : result value :=
  match v with
  | VStr s =>
      match float_of_string s with
      | Some f => inr (VFloat f)
      | None => raise_ ValueError "could not convert string to float"
      end
  | VInt z =>
      match float_of_Z z with
      | FInf _ => raise_ OverflowError "int too large to convert to float"
      | f => inr (VFloat f)
      end
  | VBool b => inr (VFloat (float_of_Z (if b then 1 else 0)))
  | VFloat f => inr (VFloat f)
  | VNone | VList _ | VDict _ | VDatetime _ =>
      raise_ TypeError "float() argument must be a string or a real number"
  end.


(** ** Facts *)

Lemma digit_of_range c d : digit_of c = Some d -> 0 <= d <= 9.
Proof. unfold digit_of. case_bool_decide; [|done]. intros [= <-]. lia. Qed.

(** The digits of a number denote a natural number. *)
Lemma digits_tail_nonneg l acc n : 0 <= acc -> 0 <= (digits_tail acc n l).1.1.
Proof.
  remember (length l) as k eqn:Hk. assert (length l <= k)%nat as Hlen by lia. clear Hk.
  revert l acc n Hlen. induction k as [|k IH]; intros [|c l] acc n Hlen Hacc; simpl in *;
    try done; [lia|].
  destruct (digit_of c) as [d|] eqn:Hc.
  { apply IH; [lia|]. apply digit_of_range in Hc. lia. }
  case_bool_decide; [|done]. destruct l as [|c2 l2]; [done|].
  destruct (digit_of c2) as [d|] eqn:Hc2; [|done].
  apply IH; [simpl in *; lia|]. apply digit_of_range in Hc2. lia.
Qed.

Lemma digitpart_nonneg l v n rest : digitpart l = Some (v, n, rest) -> 0 <= v.
Proof.
  destruct l as [|c l]; [done|]. simpl. destruct (digit_of c) as [d|] eqn:Hc; [|done].
  intros [= H]. pose proof (digits_tail_nonneg l d 1) as Hv. rewrite H in Hv.
  apply Hv. apply digit_of_range in Hc. lia.
Qed.

Lemma read_number_nonneg l m nf rest : read_number l = Some (m, nf, rest) -> 0 <= m.
Proof.
  unfold read_number. destruct (digitpart l) as [[[i ni] r]|] eqn:Hi.
  - apply digitpart_nonneg in Hi.
    destruct r as [|c r]; [by intros [= <- _ _]|].
    case_bool_decide; [|by intros [= <- _ _]].
    destruct (digitpart r) as [[[f nf'] r']|] eqn:Hf; [|by intros [= <- _ _]].
    apply digitpart_nonneg in Hf. intros [= <- _ _].
    assert (0 <= 10 ^ Z.of_nat nf') by (apply Z.pow_nonneg; lia). nia.
  - destruct l as [|c r]; [done|]. case_bool_decide; [|done]. apply digitpart_nonneg.
Qed.

(** What [float()] reads from a string is a canonical float, an infinity
    or [nan]. *)
Lemma float_of_string_cases s f :
  float_of_string s = Some f ->
  match f with FFin _ m e => canonical m e | FInf _ | FNan => True end.
Proof.
  unfold float_of_string. destruct (read_sign _) as [neg l].
  repeat case_bool_decide; try by intros [= <-].
  destruct (read_number l) as [[[m nf] rest]|] eqn:Hm; [|done].
  destruct (read_exponent rest) as [[ex [|c rest']]|]; try done. intros [= <-].
  apply read_number_nonneg in Hm.
  by destruct (float_of_decimal_cases neg m (ex - Z.of_nat nf) Hm) as [(m' & e' & -> & ?)| ->].
Qed.

(** [float(z)] raises from [float_int_limit] on, and gives a canonical
    float below. *)
Lemma py_float_int z :
  py_float (VInt z) =
  if float_int_limit <=? Z.abs z
  then raise_ OverflowError "int too large to convert to float"
  else inr (VFloat (float_of_Z z)).
Proof.
  simpl. pose proof (float_of_Z_overflow z) as Hover.
  destruct (Z.leb_spec float_int_limit (Z.abs z)) as [Hbig|Hsmall].
  - by rewrite (proj2 Hover Hbig).
  - destruct (float_of_Z_cases z) as [(m & e & -> & _)|Hinf]; [done|].
    apply Hover in Hinf. lia.
Qed.
