(* ===== verification/Bookmarks.v ===== *)
(** * The bookmark store

    The [state] object that sync.py threads through every call, seen through
    the two accessors it uses: [singer.get_bookmark] and
    [singer.write_bookmark].  The store maps a stream id to the fields
    bookmarked for it; [write_bookmark] updates the object in place, so there
    is one store and every holder of [state] sees each write. *)

From Stdlib Require Import ZArith String List Lia.
From stdpp Require Import base option list strings gmap.
From S2P Require Import Prelude PyValue.

(** [state['bookmarks']]: stream id, then field name. *)
Abbreviation state := (gmap string (gmap string value)).

(** [singer.get_bookmark(state, tap_stream_id, key)]: [None] when the stream
    or the field is missing. *)
Definition get_bookmark (st : state) (tap_stream_id key : string) : value :=
  default VNone (st !! tap_stream_id ≫= lookup key).

(** [singer.write_bookmark(state, tap_stream_id, key, val)]: the stream's
    entry is created when it is missing. *)
Definition write_bookmark (st : state) (tap_stream_id key : string) (val : value) : state :=
  <[tap_stream_id := <[key := val]> (default ∅ (st !! tap_stream_id))]> st.

(** The fields sync.py names. *)
Definition VERSION : string := "version".
Definition JOB_HIGHEST_BOOKMARK_SEEN : string := "JobHighestBookmarkSeen".
Definition BATCH_IDS : string := "BatchIDs".

(** ** Facts: insert/lookup round trips *)

Section Facts.
Implicit Types (st : state) (id key : string) (v : value).

Lemma get_write_bookmark_eq st id key v :
  get_bookmark (write_bookmark st id key v) id key = v.
Proof. unfold get_bookmark, write_bookmark. by simplify_map_eq. Qed.

Lemma get_write_bookmark_ne_key st id key key' v :
  key <> key' -> get_bookmark (write_bookmark st id key v) id key' = get_bookmark st id key'.
Proof.
  intros Hne. unfold get_bookmark, write_bookmark. simplify_map_eq.
  destruct (st !! id) as [bm|]; by simplify_map_eq.
Qed.

Lemma get_write_bookmark_ne_stream st id id' key key' v :
  id <> id' -> get_bookmark (write_bookmark st id key v) id' key' = get_bookmark st id' key'.
Proof. intros Hne. unfold get_bookmark, write_bookmark. by simplify_map_eq. Qed.

(** Writing a field twice keeps the last value. *)
Lemma write_bookmark_twice st id key v v' :
  write_bookmark (write_bookmark st id key v) id key v' = write_bookmark st id key v'.
Proof.
  unfold write_bookmark. simplify_map_eq.
  by rewrite insert_insert_eq, insert_insert_eq.
Qed.

(** Writing back what is read changes nothing, once the field exists. *)
Lemma write_bookmark_id st id key bm v :
  st !! id = Some bm -> bm !! key = Some v -> write_bookmark st id key v = st.
Proof.
  intros Hid Hkey. unfold write_bookmark. rewrite Hid. simpl.
  by rewrite (insert_id bm), insert_id.
Qed.

Lemma get_bookmark_empty id key : get_bookmark ∅ id key = VNone.
Proof. unfold get_bookmark. by simplify_map_eq. Qed.

End Facts.

#[export] Hint Rewrite get_write_bookmark_eq write_bookmark_twice get_bookmark_empty : tap_rw.
#[export] Hint Rewrite get_write_bookmark_ne_key using done : tap_rw.
#[export] Hint Rewrite get_write_bookmark_ne_stream using done : tap_rw.

(** [store]: reads a bookmark back through the writes that precede it. *)
Ltac store := simpl; autorewrite with tap_rw; try done.
