(* ===== verification/Runtime.v ===== *)
(** * What a sync pass runs against

    The effects of sync.py and the collaborators it calls: the messages it
    writes (in order) on an output that may refuse them, the store it
    mutates, the record counter, the clock; the [singer_utils] time
    functions over an abstract codec; the singer [Transformer]; the
    Salesforce client object [sf]. *)

From Stdlib Require Import ZArith String List Lia.
From stdpp Require Import base option list strings gmap.
From S2P Require Import Prelude PyValue Bookmarks.

Local Open Scope Z_scope.

(** ** Messages and the world *)

(** What [singer.write_message] and [singer.write_state] put on the output. *)
Inductive message :=
| RecordMessage (stream : string) (record : value) (version : value) (time_extracted : datetime)
| ActivateVersionMessage (stream : string) (version : value)
| StateMessage (st : state).

(** The store, the output so far (oldest first), the record counter and the
    number of clock readings taken. *)
Record world := mk_world {
  w_state : state;
  w_out : list message;
  w_count : nat;
  w_tick : nat
}.

Abbreviation M := (SE world exn).

Definition with_state (f : state -> state) (w : world) : world :=
  mk_world (f (w_state w)) (w_out w) (w_count w) (w_tick w).

Definition emit (m : message) (w : world) : world :=
  mk_world (w_state w) (w_out w ++ [m]) (w_count w) (w_tick w).

Definition count_one (w : world) : world :=
  mk_world (w_state w) (w_out w) (S (w_count w)) (w_tick w).

Definition tick (w : world) : world :=
  mk_world (w_state w) (w_out w) (w_count w) (S (w_tick w)).

(** The standard output the messages go to.  [can_write out] tells whether
    the next write succeeds once [out] has been written: the consumer may
    close the pipe, or the process may be stopped, after any message. *)
Class Emitter := can_write : list message -> bool.

(** An output that takes every message. *)
Class Reliable `{Emitter} : Prop := reliable : forall out, can_write out = true.

(** The output that always succeeds, and the one that takes [c] messages in
    all and fails from then on. *)
Definition reliable_emitter : Emitter := fun _ => true.
Definition capped (c : nat) : Emitter := fun out => bool_decide (length out < c)%nat.

(** What a write on a closed pipe raises. *)
Definition broken_pipe : exn := Exn BrokenPipeError "[Errno 32] Broken pipe" None.

(** [singer.write_message(m)]: the message goes out, or the write raises
    and nothing is written. *)
Definition write_message {emitter : Emitter} (m : message) : M unit :=
  out ← se_gets w_out;
  if can_write out then se_modify (emit m) else se_raise broken_pipe.

(** [singer.write_state(state)]: the store as it is now goes out. *)
Definition write_state {emitter : Emitter} (st : state) : M unit :=
  write_message (StateMessage st).

#[global] Arguments write_message : simpl never.
#[global] Arguments write_state : simpl never.

(** [state = singer.write_bookmark(state, id, key, val)]: the shared store is
    updated and handed back. *)
Definition write_bookmark_m (tap_stream_id key : string) (val : value) : M state :=
  se_modify (with_state (fun st => write_bookmark st tap_stream_id key val));;
  se_gets w_state.

(** [counter.increment()]. *)
Definition increment : M unit := se_modify count_one.

(** ** The clock *)

(** The [n]-th reading of the wall clock, in microseconds since the epoch. *)
Class Clock := clock_at : nat -> Z.

(** [int(time.time() * 1000)]. *)
Definition time_ms `{Clock} : M Z :=
  fun w => (inr (Z.quot (clock_at (w_tick w)) 1000), tick w).

(** [singer_utils.now()]: the current instant, pegged at UTC. *)
Definition now `{Clock} : M datetime :=
  fun w => (inr (mk_datetime (clock_at (w_tick w)) 0), tick w).

(** ** Timestamps as strings *)

(** The canonical string format of [singer_utils]: [format_utc] writes a UTC
    instant, [parse_datetime] reads any timestamp string, and what is written
    reads back as the same instant. *)
Class TimeCodec := {
  parse_datetime : string -> option datetime;
  format_utc : Z -> string;
  parse_format_utc : forall t, parse_datetime (format_utc t) = Some (mk_datetime t 0);
  format_utc_nonempty : forall t, format_utc t <> ""
}.

(** [singer_utils.strptime_with_tz(v)]. *)
Definition strptime_with_tz `{TimeCodec} (v : value) : result datetime :=
  match v with
  | VStr s =>
      match parse_datetime s with
      | Some t => inr t
      | None => raise_ ValueError "Unknown string format"
      end
  | _ => raise_ TypeError "Parser must be a string or character stream"
  end.

(** [singer_utils.strftime(t)]. *)
Definition strftime `{TimeCodec} (t : datetime) : result value :=
  if bool_decide (dt_offset t = 0) then inr (VStr (format_utc (dt_instant t)))
  else raise_ Exception "datetime must be pegged at UTC tzoneinfo".

(** [singer_utils.strptime(t)] for [t] a [datetime]: [datetime.strptime]
    wants a string. *)
Definition strptime (t : datetime) : result value :=
  raise_ TypeError "strptime() argument 1 must be str, not datetime.datetime".

(** [a <= b] and [a > b] on aware datetimes compare the instants. *)
Definition dt_le (a b : datetime) : bool := dt_instant a <=? dt_instant b.
Definition dt_gt (a b : datetime) : bool := dt_instant b <? dt_instant a.

(** ** Collaborators *)

(** The pre-hook signature of the singer [Transformer]: data, type name, schema. *)
Definition pre_hook : Type := value -> string -> schema -> result value.

(** [Transformer(pre_hook=h).transform(rec, schema)]. *)
Class Transformer := transform : pre_hook -> value -> schema -> result value.

(** A lazy, finite sequence of records that may end in a failure. *)
Definition record_stream : Type := list value * option exn.

(** The Salesforce client, as sync.py uses it. *)
Record salesforce := mk_salesforce {
  pk_chunking : bool;
  get_start_date : state -> catalog_entry -> result value;
  query : catalog_entry -> state -> record_stream;
  get_batch_results : value -> value -> catalog_entry -> record_stream
}.

(** ** Reading a trace *)

(** The records a trace holds, oldest first. *)
Definition emitted (out : list message) : list value :=
  omap (fun m => match m with RecordMessage _ r _ _ => Some r | _ => None end) out.

(** The stores a trace flushed, oldest first; the last of them is what a
    restart reads. *)
Definition flushed (out : list message) : list state :=
  omap (fun m => match m with StateMessage st => Some st | _ => None end) out.

(** The stores a run from [w] to [w'] flushed and the records it wrote,
    oldest first. *)
Definition flushed_by (w w' : world) : list state :=
  drop (length (flushed (w_out w))) (flushed (w_out w')).

Definition emitted_by (w w' : world) : list value :=
  drop (length (emitted (w_out w))) (emitted (w_out w')).

(** The store in memory is the one a restart would read: the last one
    flushed, or [s0] when none was. *)
Definition in_sync (s0 : state) (w : world) : Prop :=
  w_state w = default s0 (last (flushed (w_out w))).

(** A bookmark write and the flush that follows it. *)
Definition bookmark_and_flush (tap_stream_id key : string) (val : value) (w : world) : world :=
  let st := write_bookmark (w_state w) tap_stream_id key val in
  emit (StateMessage st) (with_state (fun _ => st) w).

(** ** Facts: how the primitive effects run *)

(** A write in general: it goes through or raises. *)
Lemma write_message_cases `{Emitter} m w :
  write_message m w =
  if can_write (w_out w) then (RET tt IN (emit m w)) else (EXN broken_pipe IN w).
Proof. unfold write_message. rewrite se_bind_run. simpl. by destruct (can_write _). Qed.

Lemma write_message_run `{Reliable} m w : write_message m w = (RET tt IN (emit m w)).
Proof. by rewrite write_message_cases, reliable. Qed.

Lemma write_state_run `{Reliable} st w :
  write_state st w = (RET tt IN (emit (StateMessage st) w)).
Proof. apply write_message_run. Qed.

#[export] Instance reliable_emitter_reliable : @Reliable reliable_emitter.
Proof. by intros out. Qed.

Lemma write_bookmark_m_run id key v w :
  write_bookmark_m id key v w =
  (RET (write_bookmark (w_state w) id key v)
   IN (with_state (fun st => write_bookmark st id key v) w)).
Proof. reflexivity. Qed.

(** A bookmark write, the flush of the store it returns, and what follows. *)
Lemma bookmark_and_flush_run `{Reliable} {A} id key v (k : M A) w :
  (state ← write_bookmark_m id key v; write_state state;; k) w =
  k (bookmark_and_flush id key v w).
Proof. by rewrite se_bind_run, write_bookmark_m_run, se_bind_run, write_state_run. Qed.

Lemma increment_run w : increment w = (RET tt IN (count_one w)).
Proof. reflexivity. Qed.

#[export] Hint Rewrite @write_message_run @write_state_run using exact _ : tap_rw.
#[export] Hint Rewrite write_bookmark_m_run increment_run : tap_rw.

(** ** Facts: what the primitive effects keep *)

Section Keeps.
Context `{Clock} `{Emitter}.
Implicit Types (I : world -> Prop).

(** Whether the write goes through or not. *)
Lemma se_keeps_write_message_open I m :
  (forall w, I w -> can_write (w_out w) = true -> I (emit m w)) -> se_keeps I (write_message m).
Proof.
  intros HI w Hw. rewrite write_message_cases. destruct (can_write _) eqn:Hcan; simpl; auto.
Qed.

Lemma se_keeps_write_message I m :
  (forall w, I w -> I (emit m w)) -> se_keeps I (write_message m).
Proof. intros HI. apply se_keeps_write_message_open. auto. Qed.

Lemma se_keeps_write_state I st :
  (forall w, I w -> I (emit (StateMessage st) w)) -> se_keeps I (write_state st).
Proof. apply se_keeps_write_message. Qed.

Lemma se_keeps_increment I : (forall w, I w -> I (count_one w)) -> se_keeps I increment.
Proof. apply se_keeps_modify. Qed.

Lemma se_keeps_write_bookmark_m I id key v :
  (forall w, I w -> I (with_state (fun st => write_bookmark st id key v) w)) ->
  se_keeps I (write_bookmark_m id key v).
Proof. intros HI w Hw. by apply HI. Qed.

Lemma se_keeps_now I : (forall w, I w -> I (tick w)) -> se_keeps I now.
Proof. intros HI w Hw. by apply HI. Qed.

Lemma se_keeps_time_ms I : (forall w, I w -> I (tick w)) -> se_keeps I time_ms.
Proof. intros HI w Hw. by apply HI. Qed.

End Keeps.

(** A property of the output alone: nothing but a write can break it, and
    a write only when it goes through. *)
Definition on_out (P : list message -> Prop) (w : world) : Prop := P (w_out w).

(** [P] holds of the output after every write the emitter lets through. *)
Definition admits `{Emitter} (P : list message -> Prop) : Prop :=
  forall out m, P out -> can_write out = true -> P (out ++ [m]).

Lemma on_out_with_state P f w : on_out P w -> on_out P (with_state f w).
Proof. done. Qed.

Lemma on_out_count_one P w : on_out P w -> on_out P (count_one w).
Proof. done. Qed.

Lemma on_out_tick P w : on_out P w -> on_out P (tick w).
Proof. done. Qed.

Lemma se_keeps_write_message_out `{Emitter} P m :
  admits P -> se_keeps (on_out P) (write_message m).
Proof. intros HP. apply se_keeps_write_message_open. intros w Hw Hcan. by apply HP. Qed.

Lemma se_keeps_write_state_out `{Emitter} P st :
  admits P -> se_keeps (on_out P) (write_state st).
Proof. apply se_keeps_write_message_out. Qed.

(** Two properties of the output that writes keep: to extend a given
    output, under any emitter; to hold [c] messages at most, under the
    emitter that takes no more. *)
Lemma admits_prefix `{Emitter} out0 : admits (prefix out0).
Proof. intros out m Hout _. by apply prefix_app_r. Qed.

Lemma admits_capped c : @admits (capped c) (fun out => (length out <= c)%nat).
Proof.
  intros out m _ Hcan. apply bool_decide_eq_true in Hcan. rewrite length_app. simpl. lia.
Qed.

(** A property of the store alone: nothing but a bookmark write can break it. *)
Definition on_state (P : state -> Prop) (w : world) : Prop := P (w_state w).

Lemma on_state_emit P m w : on_state P w -> on_state P (emit m w).
Proof. done. Qed.

Lemma on_state_count_one P w : on_state P w -> on_state P (count_one w).
Proof. done. Qed.

Lemma on_state_tick P w : on_state P w -> on_state P (tick w).
Proof. done. Qed.

Lemma emitted_record name r ver t out :
  emitted (RecordMessage name r ver t :: out) = r :: emitted out.
Proof. done. Qed.

Lemma emitted_state st out : emitted (StateMessage st :: out) = emitted out.
Proof. done. Qed.

Lemma flushed_record name r ver t out :
  flushed (RecordMessage name r ver t :: out) = flushed out.
Proof. done. Qed.

Lemma flushed_state st out : flushed (StateMessage st :: out) = st :: flushed out.
Proof. done. Qed.

(** The last store of a list that starts with [st]. *)
Lemma default_last_cons {A} (d x : A) l : default d (last (x :: l)) = default x (last l).
Proof. rewrite last_cons. by destruct (last l). Qed.

Lemma emitted_app out1 out2 : emitted (out1 ++ out2) = emitted out1 ++ emitted out2.
Proof. apply omap_app. Qed.

Lemma flushed_app out1 out2 : flushed (out1 ++ out2) = flushed out1 ++ flushed out2.
Proof. apply omap_app. Qed.

Lemma flushed_by_app w w' sts :
  flushed (w_out w') = flushed (w_out w) ++ sts -> flushed_by w w' = sts.
Proof. intros Hf. unfold flushed_by. by rewrite Hf, drop_app_length. Qed.

(** What a run flushed and wrote, read off the trace it added. *)
Lemma flushed_by_trace w w' trace :
  w_out w' = w_out w ++ trace -> flushed_by w w' = flushed trace.
Proof. intros Hout. apply flushed_by_app. by rewrite Hout, flushed_app. Qed.

(** What two runs flushed, one after the other. *)
Lemma flushed_by_split w w1 w2 :
  w_out w `prefix_of` w_out w1 -> w_out w1 `prefix_of` w_out w2 ->
  flushed_by w w2 = flushed_by w w1 ++ flushed_by w1 w2.
Proof.
  intros [t1 H1] [t2 H2].
  rewrite (flushed_by_trace w w1 t1 H1), (flushed_by_trace w1 w2 t2 H2).
  rewrite (flushed_by_trace w w2 (t1 ++ t2)), flushed_app; [done|].
  by rewrite H2, H1, app_assoc.
Qed.

Lemma emitted_by_trace w w' trace :
  w_out w' = w_out w ++ trace -> emitted_by w w' = emitted trace.
Proof. intros Hout. unfold emitted_by. by rewrite Hout, emitted_app, drop_app_length. Qed.

Lemma in_sync_emit_record s0 w name r ver t :
  in_sync s0 w -> in_sync s0 (emit (RecordMessage name r ver t) w).
Proof. unfold in_sync. simpl. by rewrite flushed_app, app_nil_r. Qed.

Lemma in_sync_emit_activate s0 w name ver :
  in_sync s0 w -> in_sync s0 (emit (ActivateVersionMessage name ver) w).
Proof. unfold in_sync. simpl. by rewrite flushed_app, app_nil_r. Qed.

Lemma in_sync_count_one s0 w : in_sync s0 w -> in_sync s0 (count_one w).
Proof. done. Qed.

Lemma in_sync_tick s0 w : in_sync s0 w -> in_sync s0 (tick w).
Proof. done. Qed.

(** Whatever the store was, it is in sync once it is flushed. *)
Lemma in_sync_bookmark_and_flush s0 id key v w : in_sync s0 (bookmark_and_flush id key v w).
Proof. unfold in_sync, bookmark_and_flush. simpl. rewrite flushed_app. simpl. by rewrite last_snoc. Qed.

#[export] Hint Resolve in_sync_emit_record in_sync_emit_activate in_sync_count_one in_sync_tick
  in_sync_bookmark_and_flush : tap.
#[export] Hint Resolve on_state_emit on_state_count_one on_state_tick : tap.
#[export] Hint Resolve on_out_with_state on_out_count_one on_out_tick : tap.
#[export] Hint Resolve se_keeps_write_message_out se_keeps_write_state_out | 2 : tap.
#[export] Hint Resolve se_keeps_write_message se_keeps_write_state se_keeps_increment
  se_keeps_write_bookmark_m se_keeps_now se_keeps_time_ms : tap.
