(* ===== verification/IsoTime.v ===== *)
(** * Timestamps in ISO 8601

    The timestamp format of [singer_utils], ["%Y-%m-%dT%H:%M:%S.%fZ"]
    ([iso_format]), and a reader for the timestamps a source sends
    ([iso_parse]): a date, then nothing or a [T] or a space and a time of
    day, with an optional fraction of a second, of which six digits count,
    and an optional zone, [Z] or an offset in hours and minutes, with or
    without a colon.  A timestamp without zone is taken at UTC, as
    [strptime_with_tz] does.  The two form a [TimeCodec]: what is written
    reads back as the same instant, for every instant ([iso_parse_format]).

    The calendar is the proleptic Gregorian one.  Day numbers are computed
    by eras of 400 years; [days_from_civil] and [civil_from_days] are
    inverse bijections between the day numbers and the dates of the
    calendar ([civil_of_days_from_civil], [days_from_civil_of_days],
    [civil_from_days_valid]).

    A Python [datetime] holds the years 1 to 9999 only.  An instant is any
    integer here, so the format is total: a year beyond 9999 is written
    with as many digits as it takes and a year before 0 with a minus sign,
    and both are read back.  [dateutil] reads many notations besides this
    one (names of months, dates without hyphens, two-digit years): on
    those [iso_parse] answers [None]. *)

From Stdlib Require Import ZArith String Ascii List Lia.
From stdpp Require Import base option list strings.
From S2P Require Import Prelude PyValue PyNumber Bookmarks Runtime.

Local Open Scope Z_scope.

(** ** The calendar *)

(** The rule of the Gregorian calendar. *)
Definition leap_year (y : Z) : bool :=
  (y mod 4 =? 0) && (negb (y mod 100 =? 0) || (y mod 400 =? 0)).

Definition days_in_month (y m : Z) : Z :=
  if m =? 2 then (if leap_year y then 29 else 28)
  else if (m =? 4) || (m =? 6) || (m =? 9) || (m =? 11) then 30 else 31.

(** What [datetime] accepts as a date, but for the bounds on the year. *)
Definition valid_date (y m d : Z) : bool :=
  bool_decide (1 <= m <= 12 /\ 1 <= d <= days_in_month y m).

(** Day numbers are computed by eras of 400 years, of 146097 days each, and
    in years that start on the first of March, so that the leap day is the
    last of its year.  [era_days yoe] is the number of days of an era
    before its year [yoe]; [march_day m d] is the number of the day [d] of
    the month [m] in such a year. *)
Definition era_days (yoe : Z) : Z := yoe * 365 + yoe / 4 - yoe / 100.

Definition march_day (m d : Z) : Z := (153 * ((m + 9) mod 12) + 2) / 5 + d - 1.

(** The year of its era, and the day of that year, of the day [doe] of an
    era. *)
Definition year_of_era (doe : Z) : Z :=
  (doe - doe / 1460 + doe / 36524 - doe / 146096) / 365.

Definition day_of_year (doe : Z) : Z := doe - era_days (year_of_era doe).

(** The number of the day [y]-[m]-[d], counted from 1970-01-01. *)
Definition days_from_civil (y m d : Z) : Z :=
  let y' := if m <=? 2 then y - 1 else y in
  y' / 400 * 146097 + (era_days (y' mod 400) + march_day m d) - 719468.

(** The year, the month and the day of the day number [z]. *)
Definition civil_from_days (z : Z) : Z * Z * Z :=
  let era := (z + 719468) / 146097 in
  let doe := (z + 719468) mod 146097 in
  let mp := (5 * day_of_year doe + 2) / 153 in
  let m := if mp <? 10 then mp + 3 else mp - 9 in
  (year_of_era doe + era * 400 + (if m <=? 2 then 1 else 0), m,
   day_of_year doe - (153 * mp + 2) / 5 + 1).

(** ** Digits *)

Definition digit_char (d : Z) : ascii :=
  match d with
  | 1 => "1" | 2 => "2" | 3 => "3" | 4 => "4" | 5 => "5"
  | 6 => "6" | 7 => "7" | 8 => "8" | 9 => "9" | _ => "0"
  end%char.

(** [n] in [w] decimal digits, before [acc]. *)
Fixpoint pad (w : nat) (n : Z) (acc : list ascii) : list ascii :=
  match w with
  | O => acc
  | S w' => pad w' (n / 10) (digit_char (n mod 10) :: acc)
  end.

(** Exactly [w] digits at the head of [l]: their value after [acc], and
    the rest. *)
Fixpoint read_fixed (w : nat) (acc : Z) (l : list ascii) : option (Z * list ascii) :=
  match w, l with
  | O, _ => Some (acc, l)
  | S w', c :: l' => d ← digit_of c; read_fixed w' (acc * 10 + d) l'
  | S _, [] => None
  end.

(** The digits at the head of [l], as many as there are: their value after
    [acc], their number after [k], and the rest. *)
Fixpoint read_digits (acc : Z) (k : nat) (l : list ascii) : Z * nat * list ascii :=
  match l with
  | c :: l' =>
      match digit_of c with
      | Some d => read_digits (acc * 10 + d) (S k) l'
      | None => (acc, k, l)
      end
  | [] => (acc, k, [])
  end.

(** The character [c], then the rest. *)
Definition expect (c : ascii) (l : list ascii) : option (list ascii) :=
  match l with
  | c' :: l' => if bool_decide (c' = c) then Some l' else None
  | [] => None
  end.

(** ** Writing *)

(** The number of decimal digits of [n], counted in at most [fuel] steps. *)
Fixpoint digits_needed (fuel : nat) (n : Z) : nat :=
  match fuel with
  | O => O
  | S fuel' => if n <? 10 then 1%nat else S (digits_needed fuel' (n / 10))
  end.

(** The digits a year takes: four at least, as [%Y] writes them; more
    beyond 9999, where a Python [datetime] does not reach. *)
Definition year_width (n : Z) : nat :=
  Nat.max 4 (digits_needed (S (Z.to_nat (Z.log2 n))) n).

Definition year_digits (y : Z) (acc : list ascii) : list ascii :=
  (if y <? 0 then ["-"%char] else []) ++ pad (year_width (Z.abs y)) (Z.abs y) acc.

Definition us_per_day : Z := 86400000000.

(** The date and the time of day, in digits, before [acc]. *)
Definition date_digits (y m d : Z) (acc : list ascii) : list ascii :=
  year_digits y ("-" :: pad 2 m ("-" :: pad 2 d acc))%char.

Definition time_digits (r : Z) (acc : list ascii) : list ascii :=
  pad 2 (r / 3600000000)
    (":" :: pad 2 (r / 60000000 mod 60)
       (":" :: pad 2 (r / 1000000 mod 60) ("." :: pad 6 (r mod 1000000) acc)))%char.

(** [singer_utils.strftime]'s [DATETIME_FMT], ["%Y-%m-%dT%H:%M:%S.%fZ"], on
    the UTC instant [t], in microseconds since the epoch. *)
Definition iso_format (t : Z) : string :=
  let '(y, m, d) := civil_from_days (t / us_per_day) in
  string_of_list_ascii
    (date_digits y m d ("T" :: time_digits (t mod us_per_day) ["Z"]))%char.

(** ** Reading *)

(** The year: four digits or more, after a minus sign before the year 0. *)
Definition read_year (l : list ascii) : option (Z * list ascii) :=
  let '(v, k, rest) := read_digits 0 0 l in
  if bool_decide (4 <= k)%nat then Some (v, rest)
  else
    l' ← expect "-" l;
    let '(v, k, rest) := read_digits 0 0 l' in
    if bool_decide (4 <= k)%nat then Some (- v, rest) else None.

(** The fraction of a second, in microseconds: a point and digits, of
    which the first six count, or nothing. *)
Definition read_fraction (l : list ascii) : option (Z * list ascii) :=
  match l with
  | c :: l' =>
      if bool_decide (c = "."%char) then
        let '(v, k, rest) := read_digits 0 0 l' in
        if bool_decide (1 <= k)%nat
        then Some (v * 10 ^ Z.of_nat (6 - k) / 10 ^ Z.of_nat (k - 6), rest) else None
      else Some (0, l)
  | [] => Some (0, l)
  end.

(** The zone, as its offset in seconds: nothing (a naive timestamp, which
    [strptime_with_tz] pegs at UTC), [Z], or a sign, two digits of hours
    and, with or without a colon, two digits of minutes. *)
Definition read_zone (l : list ascii) : option Z :=
  match l with
  | [] => Some 0
  | c :: l' =>
      if bool_decide (c = "Z"%char) then (match l' with [] => Some 0 | _ => None end)
      else
        sign ← (if bool_decide (c = "+"%char) then Some 1
                else if bool_decide (c = "-"%char) then Some (-1) else None);
        '(hh, l1) ← read_fixed 2 0 l';
        '(mm, l2) ← (match l1 with
                     | [] => Some (0, [])
                     | c1 :: l1' =>
                         read_fixed 2 0 (if bool_decide (c1 = ":"%char) then l1' else l1)
                     end);
        if bool_decide (l2 = [] /\ hh < 24 /\ mm < 60)
        then Some (sign * (hh * 3600 + mm * 60)) else None
  end.

(** The date: year, month and day, with hyphens. *)
Definition read_date (l : list ascii) : option (Z * Z * Z * list ascii) :=
  '(y, l) ← read_year l;
  l ← expect "-" l; '(m, l) ← read_fixed 2 0 l;
  l ← expect "-" l; '(d, l) ← read_fixed 2 0 l;
  Some (y, m, d, l).

(** The time of day, in microseconds: hours, minutes and seconds, with
    colons, and the fraction. *)
Definition read_time (l : list ascii) : option (Z * list ascii) :=
  '(hh, l) ← read_fixed 2 0 l;
  l ← expect ":" l; '(mm, l) ← read_fixed 2 0 l;
  l ← expect ":" l; '(ss, l) ← read_fixed 2 0 l;
  '(us, l) ← read_fraction l;
  if bool_decide (hh < 24 /\ mm < 60 /\ ss < 60)
  then Some (((hh * 60 + mm) * 60 + ss) * 1000000 + us, l) else None.

(** What follows the date: nothing, which is midnight, or a [T] or a space,
    the time of day and the zone. *)
Definition read_clock (l : list ascii) : option (Z * Z) :=
  match l with
  | [] => Some (0, 0)
  | c :: l' =>
      if bool_decide (c = "T" \/ c = " ")%char then
        '(r, l) ← read_time l';
        offset ← read_zone l;
        Some (r, offset)
      else None
  end.

(** [dateutil.parser.parse] on the timestamps of this syntax, with the
    zone [strptime_with_tz] gives a naive one: the instant in microseconds
    since the epoch, and the offset of the zone in seconds. *)
Definition iso_parse (s : string) : option datetime :=
  '(y, m, d, l) ← read_date (list_ascii_of_string s);
  '(r, offset) ← read_clock l;
  if valid_date y m d
  then Some (mk_datetime (days_from_civil y m d * us_per_day + r - offset * 1000000) offset)
  else None.

(** ** The calendar is a bijection of day numbers and dates *)

Lemma year_of_era_bounds doe : 0 <= doe < 146097 -> 0 <= year_of_era doe < 400.
Proof. unfold year_of_era. intros. Z.div_mod_to_equations. lia. Qed.

Lemma day_of_year_bounds doe : 0 <= doe < 146097 -> 0 <= day_of_year doe < 366.
Proof. unfold day_of_year, era_days, year_of_era. intros. Z.div_mod_to_equations. lia. Qed.

(** The last day of a year that starts in March is the 29th of February
    of a leap year. *)
Lemma day_of_year_leap doe :
  0 <= doe < 146097 -> day_of_year doe = 365 ->
  (year_of_era doe + 1) mod 4 = 0 /\
  ((year_of_era doe + 1) mod 100 <> 0 \/ year_of_era doe = 399).
Proof. unfold day_of_year, era_days, year_of_era. intros. Z.div_mod_to_equations. lia. Qed.

Lemma civil_from_days_bounds z y m d :
  civil_from_days z = (y, m, d) -> 1 <= m <= 12 /\ 1 <= d <= 31.
Proof.
  unfold civil_from_days. intros [= <- <- <-].
  pose proof (day_of_year_bounds ((z + 719468) mod 146097)
                ltac:(apply Z.mod_pos_bound; lia)) as Hdoy.
  destruct (Z.ltb_spec ((5 * day_of_year ((z + 719468) mod 146097) + 2) / 153) 10);
    Z.div_mod_to_equations; lia.
Qed.

Lemma year_of_era_days yoe doy :
  0 <= yoe < 400 ->
  0 <= doy <= 364 \/ (doy = 365 /\ (yoe + 1) mod 4 = 0 /\ ((yoe + 1) mod 100 <> 0 \/ yoe = 399)) ->
  year_of_era (era_days yoe + doy) = yoe.
Proof. unfold year_of_era, era_days. intros Hy Hd. Z.div_mod_to_equations. lia. Qed.

Lemma day_of_year_days yoe doy :
  0 <= yoe < 400 ->
  0 <= doy <= 364 \/ (doy = 365 /\ (yoe + 1) mod 4 = 0 /\ ((yoe + 1) mod 100 <> 0 \/ yoe = 399)) ->
  day_of_year (era_days yoe + doy) = doy.
Proof.
  intros Hy Hd. unfold day_of_year. rewrite year_of_era_days by done. unfold era_days. lia.
Qed.

Lemma leap_year_spec y :
  leap_year y = true <-> y mod 4 = 0 /\ (y mod 100 <> 0 \/ y mod 400 = 0).
Proof.
  unfold leap_year. rewrite andb_true_iff, orb_true_iff, negb_true_iff.
  rewrite !Z.eqb_eq, Z.eqb_neq. done.
Qed.

Lemma march_day_month y m d :
  1 <= m <= 12 -> 1 <= d <= days_in_month y m ->
  (5 * march_day m d + 2) / 153 = (m + 9) mod 12 /\
  (0 <= march_day m d <= 364 \/ march_day m d = 365 /\ m = 2 /\ leap_year y = true).
Proof.
  intros Hm Hd.
  assert (m = 1 \/ m = 2 \/ m = 3 \/ m = 4 \/ m = 5 \/ m = 6 \/ m = 7 \/ m = 8 \/ m = 9
          \/ m = 10 \/ m = 11 \/ m = 12) as Hcase by lia.
  unfold days_in_month in Hd.
  repeat destruct Hcase as [->|Hcase]; try subst m; unfold march_day; simpl in Hd;
    try (destruct (leap_year y));
    (split; [Z.div_mod_to_equations; lia|]);
    first [left; Z.div_mod_to_equations; lia
          |destruct (decide (d = 29)) as [->|];
           [right; split; [Z.div_mod_to_equations; lia|done]|left; Z.div_mod_to_equations; lia]].
Qed.

(** A date of the calendar is the date of its day number. *)
Lemma civil_of_days_from_civil y m d :
  1 <= m <= 12 -> 1 <= d <= days_in_month y m ->
  civil_from_days (days_from_civil y m d) = (y, m, d).
Proof.
  intros Hm Hd. destruct (march_day_month y m d Hm Hd) as [Hmp Hdoy].
  unfold civil_from_days, days_from_civil. fold (march_day m d).
  set (y' := if m <=? 2 then y - 1 else y). fold (era_days (y' mod 400)).
  pose proof (Z.mod_pos_bound y' 400 ltac:(lia)) as Hyoe.
  pose proof (Z.div_mod y' 400 ltac:(lia)) as Hy'.
  assert (0 <= march_day m d <= 364 \/
          march_day m d = 365 /\ (y' mod 400 + 1) mod 4 = 0 /\
            ((y' mod 400 + 1) mod 100 <> 0 \/ y' mod 400 = 399)) as Hleap.
  { destruct Hdoy as [?|(? & -> & Hleap)]; [by left|right].
    apply leap_year_spec in Hleap. subst y'. simpl in *. split; [done|].
    Z.div_mod_to_equations. lia. }
  assert (0 <= era_days (y' mod 400) + march_day m d < 146097) as Hdoe.
  { unfold era_days. Z.div_mod_to_equations. lia. }
  replace (y' / 400 * 146097 + (era_days (y' mod 400) + march_day m d) - 719468 + 719468)
    with ((era_days (y' mod 400) + march_day m d) + y' / 400 * 146097) by lia.
  rewrite Z.div_add, Z.mod_add, Z.div_small, Z.mod_small by lia.
  rewrite (day_of_year_days _ _ Hyoe Hleap), (year_of_era_days _ _ Hyoe Hleap).
  rewrite Hmp.
  assert ((if (m + 9) mod 12 <? 10 then (m + 9) mod 12 + 3 else (m + 9) mod 12 - 9) = m) as ->.
  { destruct (Z.ltb_spec ((m + 9) mod 12) 10); Z.div_mod_to_equations; lia. }
  f_equal; [f_equal|].
  - subst y'. destruct (m <=? 2); lia.
  - unfold march_day. lia.
Qed.

(** Every day number is the number of a date of the calendar. *)
Lemma civil_from_days_valid z y m d :
  civil_from_days z = (y, m, d) -> 1 <= m <= 12 /\ 1 <= d <= days_in_month y m.
Proof.
  intros Hz. destruct (civil_from_days_bounds _ _ _ _ Hz) as [Hm Hd]. split; [done|].
  split; [lia|]. revert Hz. unfold civil_from_days.
  set (doe := (z + 719468) mod 146097). set (era := (z + 719468) / 146097).
  assert (0 <= doe < 146097) as Hdoe by (apply Z.mod_pos_bound; lia).
  pose proof (day_of_year_bounds doe Hdoe) as Hdoy.
  pose proof (year_of_era_bounds doe Hdoe) as Hyoe.
  set (mp := (5 * day_of_year doe + 2) / 153).
  assert (0 <= mp <= 11) as Hmp by (subst mp; Z.div_mod_to_equations; lia).
  intros [= Hy Hm' Hd']. unfold days_in_month.
  destruct (decide (mp = 11)) as [Hfeb|Hother].
  - assert (m = 2) as -> by (rewrite Hfeb in Hm'; simpl in Hm'; lia). simpl.
    destruct (leap_year y) eqn:Hleap; [subst mp; Z.div_mod_to_equations; lia|].
    destruct (decide (day_of_year doe = 365)) as [Hlast|Hnot];
      [|subst mp; Z.div_mod_to_equations; lia].
    destruct (day_of_year_leap doe Hdoe Hlast) as [H4 H100].
    assert (leap_year y = true) as Hyes; [|congruence].
    apply leap_year_spec. rewrite Hfeb in Hy. simpl in Hy. subst y.
    clear Hleap. Z.div_mod_to_equations. lia.
  - assert (mp = 0 \/ mp = 1 \/ mp = 2 \/ mp = 3 \/ mp = 4 \/ mp = 5 \/ mp = 6 \/ mp = 7
            \/ mp = 8 \/ mp = 9 \/ mp = 10) as Hcase by lia.
    repeat destruct Hcase as [Hv|Hcase]; try (rename Hcase into Hv);
      rewrite Hv in Hm', Hd'; simpl in Hm'; subst m; simpl;
      unfold mp in Hv; Z.div_mod_to_equations; lia.
Qed.

(** A day number is the number of its date. *)
Lemma days_from_civil_of_days z y m d :
  civil_from_days z = (y, m, d) -> days_from_civil y m d = z.
Proof.
  unfold civil_from_days, days_from_civil. intros [= <- <- <-].
  set (doe := (z + 719468) mod 146097).
  assert (Hdoe : 0 <= doe < 146097) by (apply Z.mod_pos_bound; lia).
  pose proof (year_of_era_bounds doe Hdoe) as Hyoe.
  pose proof (day_of_year_bounds doe Hdoe) as Hdoy.
  set (mp := (5 * day_of_year doe + 2) / 153).
  assert (Hmp : 0 <= mp <= 11) by (subst mp; Z.div_mod_to_equations; lia).
  set (m := if mp <? 10 then mp + 3 else mp - 9).
  assert (Hm : (m + 9) mod 12 = mp /\ ((m <=? 2) = negb (mp <? 10))).
  { subst m. destruct (Z.ltb_spec mp 10); split;
      [Z.div_mod_to_equations; lia | apply Z.leb_gt; lia
      |Z.div_mod_to_equations; lia | apply Z.leb_le; lia]. }
  unfold march_day. destruct Hm as [-> ->].
  assert (Hy : (if negb (mp <? 10)
                then year_of_era doe + (z + 719468) / 146097 * 400
                     + (if negb (mp <? 10) then 1 else 0) - 1
                else year_of_era doe + (z + 719468) / 146097 * 400
                     + (if negb (mp <? 10) then 1 else 0))
               = year_of_era doe + (z + 719468) / 146097 * 400)
    by (destruct (mp <? 10); simpl; lia).
  rewrite Hy, Z.mod_add, Z.div_add, (Z.mod_small (year_of_era doe)),
    (Z.div_small (year_of_era doe)) by lia.
  pose proof (Z.div_mod (z + 719468) 146097) as Hz. fold doe in Hz.
  unfold day_of_year. lia.
Qed.

(** ** What is written in digits reads back *)

Lemma digit_of_char d : 0 <= d < 10 -> digit_of (digit_char d) = Some d.
Proof.
  intros Hd.
  assert (d = 0 \/ d = 1 \/ d = 2 \/ d = 3 \/ d = 4 \/ d = 5 \/ d = 6 \/ d = 7
          \/ d = 8 \/ d = 9) as Hcase by lia.
  repeat destruct Hcase as [->|Hcase]; try subst d; reflexivity.
Qed.

Arguments pad : simpl never.

Lemma read_fixed_step w a l v c d rest :
  read_fixed w a l = Some (v, c :: rest) -> digit_of c = Some d ->
  read_fixed (S w) a l = Some (v * 10 + d, rest).
Proof.
  revert a l. induction w as [|w IH]; intros a l Hread Hc.
  - simpl in Hread. injection Hread as <- ->. simpl. by rewrite Hc.
  - destruct l as [|x l]; [done|]. simpl in Hread |- *.
    destruct (digit_of x) as [dx|]; [|done]. simpl in *. by apply IH.
Qed.

(** [w] digits read as the number they were written from. *)
Lemma read_fixed_pad w n a rest :
  0 <= n < 10 ^ Z.of_nat w ->
  read_fixed w a (pad w n rest) = Some (a * 10 ^ Z.of_nat w + n, rest).
Proof.
  revert n a rest. induction w as [|w IH]; intros n a rest Hn.
  { change (10 ^ Z.of_nat 0) with 1 in *. unfold pad. simpl. do 2 f_equal. lia. }
  rewrite Nat2Z.inj_succ, Z.pow_succ_r in * by lia.
  change (pad (S w) n rest) with (pad w (n / 10) (digit_char (n mod 10) :: rest)).
  pose proof (Z.div_mod n 10 ltac:(lia)). pose proof (Z.mod_pos_bound n 10 ltac:(lia)).
  rewrite (read_fixed_step w a _ (a * 10 ^ Z.of_nat w + n / 10)
             (digit_char (n mod 10)) (n mod 10) rest).
  - do 2 f_equal. lia.
  - apply IH. lia.
  - by apply digit_of_char.
Qed.

Lemma read_digits_pad w n a k rest :
  0 <= n < 10 ^ Z.of_nat w ->
  read_digits a k (pad w n rest) = read_digits (a * 10 ^ Z.of_nat w + n) (k + w) rest.
Proof.
  revert n a k rest. induction w as [|w IH]; intros n a k rest Hn.
  { change (10 ^ Z.of_nat 0) with 1 in *. unfold pad. rewrite Nat.add_0_r. f_equal. lia. }
  rewrite Nat2Z.inj_succ, Z.pow_succ_r in * by lia.
  change (pad (S w) n rest) with (pad w (n / 10) (digit_char (n mod 10) :: rest)).
  pose proof (Z.div_mod n 10 ltac:(lia)). pose proof (Z.mod_pos_bound n 10 ltac:(lia)).
  rewrite IH by lia. simpl. rewrite digit_of_char by done.
  f_equal; lia.
Qed.

(** The digits counted are enough for the number. *)
Lemma digits_needed_enough fuel n :
  0 <= n < 2 ^ Z.of_nat fuel -> n < 10 ^ Z.of_nat (digits_needed fuel n).
Proof.
  revert n. induction fuel as [|fuel IH]; intros n Hn; [simpl in *; lia|].
  rewrite Nat2Z.inj_succ, Z.pow_succ_r in Hn by lia. simpl.
  destruct (Z.ltb_spec n 10); [simpl; lia|].
  rewrite Nat2Z.inj_succ, Z.pow_succ_r by lia.
  pose proof (Z.div_mod n 10 ltac:(lia)). pose proof (Z.mod_pos_bound n 10 ltac:(lia)).
  specialize (IH (n / 10) ltac:(lia)). lia.
Qed.

Lemma year_width_enough n : 0 <= n -> n < 10 ^ Z.of_nat (year_width n) /\ (4 <= year_width n)%nat.
Proof.
  intros Hn. unfold year_width. split; [|apply Nat.le_max_l].
  eapply Z.lt_le_trans; [apply (digits_needed_enough (S (Z.to_nat (Z.log2 n))))|].
  - split; [done|]. rewrite Nat2Z.inj_succ, Z2Nat.id by apply Z.log2_nonneg.
    destruct (decide (n = 0)) as [->|]; [by vm_compute|]. apply Z.log2_spec. lia.
  - apply Z.pow_le_mono_r; [lia|]. apply Nat2Z.inj_le, Nat.le_max_r.
Qed.

Lemma read_digits_stop a k c rest :
  digit_of c = None -> read_digits a k (c :: rest) = (a, k, c :: rest).
Proof. intros Hc. simpl. by rewrite Hc. Qed.

Arguments read_fixed : simpl never.
Arguments read_digits : simpl never.

(** ** What is written reads back *)

Lemma read_year_digits y c rest :
  digit_of c = None -> read_year (year_digits y (c :: rest)) = Some (y, c :: rest).
Proof.
  intros Hc. unfold read_year, year_digits.
  destruct (year_width_enough (Z.abs y) ltac:(lia)) as [Hfit Hwide].
  assert (read_digits 0 0 (pad (year_width (Z.abs y)) (Z.abs y) (c :: rest))
          = (Z.abs y, year_width (Z.abs y), c :: rest)) as Hread.
  { rewrite read_digits_pad by lia. rewrite read_digits_stop by done. by rewrite Z.mul_0_l. }
  destruct (Z.ltb_spec y 0).
  - simpl. rewrite Hread. rewrite bool_decide_eq_true_2 by done. do 2 f_equal. lia.
  - simpl. rewrite Hread. rewrite bool_decide_eq_true_2 by done. do 2 f_equal. lia.
Qed.

Lemma read_date_digits y m d c rest :
  digit_of c = None -> 0 <= m < 100 -> 0 <= d < 100 ->
  read_date (date_digits y m d (c :: rest)) = Some (y, m, d, c :: rest).
Proof.
  intros Hc Hm Hd. unfold read_date, date_digits.
  rewrite read_year_digits by done. simpl.
  rewrite read_fixed_pad by (simpl; lia). simpl.
  rewrite read_fixed_pad by (simpl; lia). done.
Qed.

Lemma read_time_digits r rest :
  0 <= r < us_per_day -> read_time (time_digits r ("Z"%char :: rest)) = Some (r, "Z"%char :: rest).
Proof.
  unfold us_per_day. intros Hr. unfold read_time, time_digits.
  rewrite read_fixed_pad by (simpl; Z.div_mod_to_equations; lia). simpl.
  rewrite read_fixed_pad by (simpl; Z.div_mod_to_equations; lia). simpl.
  rewrite read_fixed_pad by (simpl; Z.div_mod_to_equations; lia). simpl.
  rewrite read_digits_pad by (simpl; Z.div_mod_to_equations; lia).
  rewrite read_digits_stop by done. simpl.
  rewrite bool_decide_eq_true_2 by (Z.div_mod_to_equations; lia).
  do 2 f_equal. Z.div_mod_to_equations. lia.
Qed.

(** The law of the codec: what [iso_format] writes, [iso_parse] reads as
    the same instant, at UTC. *)
Lemma iso_parse_format t : iso_parse (iso_format t) = Some (mk_datetime t 0).
Proof.
  unfold iso_format, iso_parse.
  destruct (civil_from_days (t / us_per_day)) as [[y m] d] eqn:Hcivil.
  destruct (civil_from_days_bounds _ _ _ _ Hcivil) as [Hm Hd].
  rewrite list_ascii_of_string_of_list_ascii.
  rewrite read_date_digits by (done || lia). simpl.
  rewrite read_time_digits by (apply Z.mod_pos_bound; done). simpl.
  rewrite (days_from_civil_of_days _ _ _ _ Hcivil).
  unfold valid_date. rewrite bool_decide_eq_true_2 by (by eapply civil_from_days_valid).
  do 2 f_equal. pose proof (Z.div_mod t us_per_day ltac:(done)). lia.
Qed.

Lemma pad_length w n acc : length (pad w n acc) = (w + length acc)%nat.
Proof.
  revert n acc. induction w as [|w IH]; intros n acc; [done|].
  change (pad (S w) n acc) with (pad w (n / 10) (digit_char (n mod 10) :: acc)).
  rewrite IH. simpl. lia.
Qed.

Lemma iso_format_nonempty t : iso_format t <> "".
Proof.
  unfold iso_format. destruct (civil_from_days _) as [[y m] d].
  intros Hnil%(f_equal list_ascii_of_string).
  rewrite list_ascii_of_string_of_list_ascii in Hnil. apply (f_equal length) in Hnil.
  unfold date_digits, year_digits in Hnil.
  rewrite length_app, pad_length in Hnil. simpl in Hnil. lia.
Qed.

(** ** The codec *)

(** The timestamps of [singer_utils], in ISO 8601. *)
Definition iso_codec : TimeCodec :=
  {| parse_datetime := iso_parse; format_utc := iso_format;
     parse_format_utc := iso_parse_format; format_utc_nonempty := iso_format_nonempty |}.
