(* ===== verification/PostProcess.v ===== *)
(** * The record post-processor

    The per-record hooks of sync.py: [remove_blacklisted_fields] and
    [transform_bulk_data_hook], which the singer [Transformer] calls on every
    datum before it coerces it, and [fix_record_anytype], which repairs the
    fields whose schema declares no type. *)

From Stdlib Require Import ZArith String Ascii List Lia.
From stdpp Require Import base option list strings.
From S2P Require Import Prelude PyValue PyFloat PyNumber.

(** [BLACKLISTED_FIELDS = set(['attributes'])]. *)
Definition BLACKLISTED_FIELDS : list string := ["attributes"].

(** [{k: v for k, v in data.items() if k not in BLACKLISTED_FIELDS}]. *)
Definition remove_blacklisted_fields (data : list (string * value)) : list (string * value) :=
  filter (fun kv => kv.1 ∉ BLACKLISTED_FIELDS) data.

(** [needle in container] for a string [needle]: substring of a string,
    element of a list, key of a dict; anything else is not iterable. *)
Definition py_contains (needle : string) (container : value) : result bool :=
  match container with
  | VStr s => inr (is_substring needle s)
  | VList l => inr (bool_decide (VStr needle ∈ l))
  | VDict d => inr (bool_decide (needle ∈ d.*1))
  | _ => raise_ TypeError "argument is not iterable"
  end.

(** [transform_bulk_data_hook(data, typ, schema)].  [schema['type']] is read
    only when [data == ""]. *)
Definition transform_bulk_data_hook (data : value) (typ : string) (sch : schema) : result value :=
  let result :=
    match data with
    | VDict d => VDict (remove_blacklisted_fields d)
    | _ => data
    end in
  if bool_decide (data = VStr "") then
    match schema_type sch with
    | None => raise_ KeyError "'type'"
    | Some ty =>
        nullable ← py_contains "null" ty;
        mret (if nullable : bool then VNone else result)
    end
  else mret result.

(** [try_cast(val, coercion)]: whatever the coercion raises is swallowed. *)
Definition try_cast (val : value) (coercion : value -> result value) : value :=
  match coercion val with
  | inr r => r
  | inl _ => val
  end.

(** The body of the loop of [fix_record_anytype] for one untyped field. *)
Definition fix_value (v : value) : value :=
  let val := v in
  let val := try_cast v py_int in
  let val := try_cast v py_float in
  let val :=
    if bool_decide (v ∈ [VStr "true"; VStr "false"])
    then VBool (bool_decide (v = VStr "true"))
    else val in
  let val := if bool_decide (v = VStr "") then VNone else val in
  val.

Definition key_error {A} (k : string) : result A :=
  raise_ KeyError ("'" +:+ k +:+ "'").

(** [for k, v in rec.items(): ...]: the items still to visit and the record
    as assigned so far. *)
Fixpoint fix_items (sch : schema) (items rec : list (string * value))
    : result (list (string * value)) :=
  match items with
  | [] => mret rec
  | (k, v) :: items' =>
      match schema_properties sch with
      | None => key_error "properties"
      | Some props =>
          match dict_get k props with
          | None => key_error k
          | Some field =>
              if schema_untyped field
              then fix_items sch items' (dict_set k (fix_value v) rec)
              else fix_items sch items' rec
          end
      end
  end.

(** [fix_record_anytype(rec, schema)]. *)
Definition fix_record_anytype (rec : value) (sch : schema) : result value :=
  match rec with
  | VDict d => VDict <$> fix_items sch d d
  | _ => raise_ AttributeError "object has no attribute 'items'"
  end.

(** ** Reference definitions *)

(** What [fix_record_anytype] does to one item, given the declared fields. *)
Definition fix_field (props : list (string * schema)) (kv : string * value) : string * value :=
  match dict_get kv.1 props with
  | Some field => if schema_untyped field then (kv.1, fix_value kv.2) else kv
  | None => kv
  end.

(** ** Field filtering *)

Lemma remove_blacklisted_fields_cons k v d :
  remove_blacklisted_fields ((k, v) :: d) =
  if decide (k = "attributes") then remove_blacklisted_fields d
  else (k, v) :: remove_blacklisted_fields d.
Proof.
  unfold remove_blacklisted_fields, BLACKLISTED_FIELDS. rewrite filter_cons. simpl.
  destruct (decide (k = "attributes")) as [->|Hne].
  - rewrite decide_False; [done|]. intros Hn. apply Hn. by left.
  - rewrite decide_True; [done|]. by intros ->%list_elem_of_singleton.
Qed.

(** C13: after [remove_blacklisted_fields] the key "attributes" is gone and
    every other key holds the value it held. *)
Theorem remove_blacklisted_fields_get k d :
  dict_get k (remove_blacklisted_fields d) =
  if decide (k = "attributes") then None else dict_get k d.
Proof.
  induction d as [|[k' v] d IH]; [by case_decide|].
  rewrite remove_blacklisted_fields_cons. simpl.
  repeat (case_decide; simpl; simplify_eq); try done; by rewrite IH, ?decide_True, ?decide_False.
Qed.

Lemma remove_blacklisted_fields_sublist d : sublist (remove_blacklisted_fields d) d.
Proof. apply sublist_filter. Qed.

Lemma remove_blacklisted_fields_idemp d :
  remove_blacklisted_fields (remove_blacklisted_fields d) = remove_blacklisted_fields d.
Proof. unfold remove_blacklisted_fields. apply list_filter_filter_l. tauto. Qed.

(** ** The pre-hook *)

Lemma transform_bulk_data_hook_other data typ sch :
  data <> VStr "" ->
  transform_bulk_data_hook data typ sch =
  inr (match data with VDict d => VDict (remove_blacklisted_fields d) | _ => data end).
Proof. intros Hne. unfold transform_bulk_data_hook. by rewrite bool_decide_eq_false_2. Qed.

(** C14: an empty string under a schema whose type admits "null" becomes
    [None]. *)
Theorem transform_bulk_data_hook_nullable typ sch ty :
  schema_type sch = Some ty ->
  py_contains "null" ty = inr true ->
  transform_bulk_data_hook (VStr "") typ sch = inr VNone.
Proof.
  intros Hty Hnull. unfold transform_bulk_data_hook.
  rewrite bool_decide_eq_true_2 by done. by rewrite Hty, Hnull.
Qed.

Lemma transform_bulk_data_hook_nullable_witness :
  transform_bulk_data_hook (VStr "") "string"
    (Schema (Some (VList [VStr "null"; VStr "string"])) None) = inr VNone.
Proof.
  apply (transform_bulk_data_hook_nullable "string" _ (VList [VStr "null"; VStr "string"]));
    reflexivity.
Defined.

(** C40: the hook raises exactly on an empty string whose schema has no
    "type" key, or a type that is not a container. *)
Theorem transform_bulk_data_hook_raises data typ sch :
  is_ok (transform_bulk_data_hook data typ sch) = false <->
  data = VStr "" /\
  (schema_type sch = None \/
   exists ty, schema_type sch = Some ty /\ is_ok (py_contains "null" ty) = false).
Proof.
  destruct (decide (data = VStr "")) as [->|Hne].
  - unfold transform_bulk_data_hook. rewrite bool_decide_eq_true_2 by done.
    destruct (schema_type sch) as [ty|]; simpl.
    + destruct (py_contains "null" ty) as [e|b] eqn:Hc; simpl.
      * split; [|done]. intros _. split; [done|]. right. exists ty. by rewrite Hc.
      * split; [done|]. intros [_ [|(ty' & ? & Hty')]]; simplify_eq.
        by rewrite Hc in Hty'.
    + split; [|done]. intros _. by split; [|left].
  - rewrite transform_bulk_data_hook_other by done. simpl. split; [done|]. by intros [? _].
Qed.

(** ** Untyped-field repair, one value *)

Lemma digit_of_lower c d : digit_of c = Some d -> lower c = c.
Proof.
  unfold digit_of, lower. repeat case_bool_decide; try done. lia.
Qed.

Lemma digit_of_not_letter c d : digit_of c = Some d -> c <> "i"%char /\ c <> "n"%char.
Proof.
  unfold digit_of. case_bool_decide as Hr; [|done]. intros _.
  split; intros ->; change (nat_of_ascii _) with 105%nat in Hr || change (nat_of_ascii _) with 110%nat in Hr; lia.
Qed.

(** Every string [int()] accepts, [float()] accepts, as the float nearest
    to that integer; the sign of the string is the sign of the float, also
    when the integer is zero. *)
Lemma int_of_string_float s z :
  int_of_string s = Some z ->
  exists neg, float_of_string s = Some (round_ratio neg (Z.abs z) 1) /\
    (z <> 0%Z -> neg = (z <? 0)%Z).
Proof.
  unfold int_of_string, float_of_string.
  destruct (read_sign _) as [neg l]. destruct (digitpart l) as [[[v n] rest]|] eqn:Hd; [|done].
  destruct rest; [|done]. intros [= <-]. exists neg.
  pose proof (digitpart_nonneg _ _ _ _ Hd) as Hv.
  destruct l as [|c l']; [done|]. simpl in Hd.
  destruct (digit_of c) as [d|] eqn:Hc; [|done]. injection Hd as Hd.
  pose proof (digit_of_not_letter _ _ Hc) as [Hi Hn].
  simpl map. rewrite (digit_of_lower _ _ Hc). simpl string_of_list_ascii.
  rewrite bool_decide_eq_false_2 by (intros [[=]|[=]]; done).
  rewrite bool_decide_eq_false_2 by (intros [=]; done).
  unfold read_number. simpl digitpart. rewrite Hc, Hd. simpl read_exponent. cbv iota beta.
  unfold float_of_decimal. simpl Z.leb. cbv iota. rewrite Z.pow_0_r, Z.mul_1_r.
  split; [by destruct neg; simpl; rewrite ?Z.abs_opp, Z.abs_eq by lia|].
  destruct neg; simpl; intros Hz; symmetry; [apply Z.ltb_lt|apply Z.ltb_ge]; lia.
Qed.

Lemma VStr_inj s1 s2 : VStr s1 = VStr s2 <-> s1 = s2.
Proof. split; [by intros [= ->]|by intros ->]. Qed.

Lemma bool_literal s : VStr s ∈ [VStr "true"; VStr "false"] <-> s = "true" \/ s = "false".
Proof.
  rewrite !elem_of_cons, elem_of_nil.
  split; [intros [[= ->]|[[= ->]|[]]]; auto|intros [->| ->]; auto].
Qed.

(** An untyped string comes out as [None], a boolean, a float or itself. *)
Lemma fix_value_string_cases s :
  fix_value (VStr s) = VNone \/ (exists b, fix_value (VStr s) = VBool b) \/
  (exists f, fix_value (VStr s) = VFloat f) \/ fix_value (VStr s) = VStr s.
Proof.
  unfold fix_value, try_cast. simpl py_float.
  repeat case_bool_decide; eauto.
  destruct (float_of_string s); simpl; eauto.
Qed.

(** The integer coercion never shows: an untyped string is never repaired
    into an [int]. *)
Lemma fix_value_string_not_int s z : fix_value (VStr s) <> VInt z.
Proof.
  destruct (fix_value_string_cases s) as [H|[[b H]|[[f H]|H]]]; by rewrite H.
Qed.

(** What the repair does to a string, in one expression: the result of
    [int()] is overwritten whether [float()] raises or not, so the integer
    coercion never shows. *)
Lemma fix_value_string s :
  fix_value (VStr s) =
  if bool_decide (s = "") then VNone
  else if bool_decide (s = "true" \/ s = "false") then VBool (bool_decide (s = "true"))
  else match float_of_string s with
       | Some f => VFloat f
       | None => VStr s
       end.
Proof.
  unfold fix_value, try_cast. simpl py_float.
  rewrite (bool_decide_ext _ _ (bool_literal s)), !(bool_decide_ext _ _ (VStr_inj s _)).
  repeat case_bool_decide; try done. by destruct (float_of_string s).
Qed.

Lemma int_of_string_not_literal s z :
  int_of_string s = Some z -> s <> "" /\ ~ (s = "true" \/ s = "false").
Proof.
  intros Hint. split; [intros ->|intros [->| ->]]; by vm_compute in Hint.
Qed.

(** C11: a string that [int()] accepts is repaired into a float, never
    into the integer: the float nearest to the integer, with the sign of
    the string (so "-0" becomes [-0.0]), and the infinity of that sign when
    the integer is too large for a float. *)
Theorem fix_value_int_string s z :
  int_of_string s = Some z ->
  exists neg, fix_value (VStr s) = VFloat (round_ratio neg (Z.abs z) 1) /\
    (z <> 0%Z -> neg = (z <? 0)%Z) /\
    (float_int_limit <= Z.abs z -> fix_value (VStr s) = VFloat (FInf neg))%Z.
Proof.
  intros Hint. destruct (int_of_string_float s z Hint) as (neg & Hfloat & Hneg).
  destruct (int_of_string_not_literal s z Hint) as [Hne Hlit].
  exists neg. rewrite fix_value_string, Hfloat.
  rewrite !bool_decide_eq_false_2 by done. split; [done|]. split; [done|].
  intros Hbig. f_equal. apply round_ratio_overflow; lia.
Qed.

Lemma fix_value_int_string_witness :
  exists neg, fix_value (VStr "42") = VFloat (round_ratio neg (Z.abs 42) 1) /\
    (42 <> 0 -> neg = (42 <? 0))%Z /\
    (float_int_limit <= Z.abs 42 -> fix_value (VStr "42") = VFloat (FInf neg))%Z.
Proof. apply (fix_value_int_string "42" 42). reflexivity. Defined.

(** The inputs the specification lists: "42" gives the float 42.0 where
    the specification says the integer 42; the others are as it says. *)
Example fix_value_spec_inputs :
  fix_value <$> [VStr "42"; VStr "3.14"; VStr "true"; VStr "false"; VStr ""; VStr "hello"] =
  [VFloat (FFin false 0x15000000000000 (-47)); VFloat (FFin false 0x191eb851eb851f (-51));
   VBool true; VBool false; VNone; VStr "hello"].
Proof. by vm_compute. Qed.

(** The sign of a zero, whitespace, a separator that is not whitespace, and
    texts that are floats without being decimal numbers. *)
Example fix_value_corner_inputs :
  fix_value <$> [VStr "-0"; VStr " 42 "; VStr (String (ascii_of_nat 28) "42"); VStr "1_000";
                 VStr "1e400"; VStr "Infinity"; VStr "-inf"; VStr "NaN"] =
  [VFloat (FFin true 0 (-1074)); VFloat (FFin false 0x15000000000000 (-47));
   VStr (String (ascii_of_nat 28) "42"); VFloat (FFin false 0x1f400000000000 (-43));
   VFloat (FInf false); VFloat (FInf false); VFloat (FInf true); VFloat FNan].
Proof. by vm_compute. Qed.

(** ** Untyped-field repair, a value that is not a string *)

Section Integers.
Local Open Scope Z_scope.

(** What is not a string goes through the float coercion alone. *)
Lemma fix_value_other v : (forall s, v <> VStr s) -> fix_value v = try_cast v py_float.
Proof.
  intros Hv. unfold fix_value. rewrite (bool_decide_eq_false_2 (v = VStr "")) by apply Hv.
  rewrite bool_decide_eq_false_2; [done|].
  rewrite !elem_of_cons, elem_of_nil. intros [?|[?|[]]]; by eapply Hv.
Qed.

(** What the repair does to an integer: the float nearest to it, or the
    integer itself when [float()] overflows. *)
Lemma fix_value_int z :
  fix_value (VInt z) =
  if float_int_limit <=? Z.abs z then VInt z else VFloat (float_of_Z z).
Proof.
  rewrite fix_value_other by done. unfold try_cast. rewrite py_float_int.
  by destruct (_ <=? _).
Qed.

(** C20: an untyped field that holds an integer [z].  From
    [2^1024 - 2^970] on in magnitude the nearest binary64 is an infinity:
    [float()] raises [OverflowError], the repair swallows it, and the field
    stays the integer it was.  Below, the field becomes the binary64 float
    nearest to [z]: canonical, of the sign of [z], within half a unit in
    its last place of [z], and [z] itself when [z] has at most 53 bits. *)
Theorem fix_value_int_bounds (z : Z) :
  if float_int_limit <=? Z.abs z then fix_value (VInt z) = VInt z
  else exists m e,
    fix_value (VInt z) = VFloat (FFin (z <? 0) m e) /\ canonical m e /\
    2 * Z.abs (Z.abs z * 2 ^ bias - m * 2 ^ (e + bias)) <= 2 ^ (e + bias) /\
    (Z.abs z <= 2 ^ 53 -> m * 2 ^ (e + bias) = Z.abs z * 2 ^ bias).
Proof.
  rewrite fix_value_int. destruct (Z.leb_spec float_int_limit (Z.abs z)) as [|Hz]; [done|].
  destruct (float_of_Z_cases z) as [(m & e & Hf & Hc & Hnear)|Hinf];
    [|apply float_of_Z_overflow in Hinf; lia].
  exists m, e. rewrite Hf. split_and!; try done. intros Hsmall.
  destruct (float_of_Z_small z Hsmall) as (m' & e' & Hf' & _ & Hval). congruence.
Qed.

(** The two sides of the bound, and an integer of 61 bits that is not a
    float: [float(2**60 + 1) == 2.0**60]. *)
Example fix_value_int_limit :
  fix_value (VInt (float_int_limit - 1)) = VFloat (FFin false (2 ^ 53 - 1) 971) /\
  fix_value (VInt float_int_limit) = VInt float_int_limit /\
  fix_value (VInt (- float_int_limit)) = VInt (- float_int_limit) /\
  fix_value (VInt (2 ^ 60 + 1)) = VFloat (FFin false (2 ^ 52) 8).
Proof. by vm_compute. Qed.

End Integers.

(** ** Untyped-field repair, the record *)

Lemma fix_field_key props kv : (fix_field props kv).1 = kv.1.
Proof. unfold fix_field. repeat case_match; done. Qed.

Lemma fix_field_keys props d : dict_keys (fix_field props <$> d) = dict_keys d.
Proof.
  unfold dict_keys. rewrite <- list_fmap_compose. apply list_fmap_ext.
  intros i kv _. apply fix_field_key.
Qed.

(** The loop, started after a prefix [pre] of the record is done: each item
    is assigned where it stands. *)
Lemma fix_items_map sch props pre items :
  schema_properties sch = Some props ->
  NoDup (dict_keys (pre ++ items)) ->
  Forall (fun kv => is_Some (dict_get kv.1 props)) items ->
  fix_items sch items (pre ++ items) = inr (pre ++ (fix_field props <$> items)).
Proof.
  intros Hprops. revert pre.
  induction items as [|[k v] items IH]; intros pre Hnd Hdecl; [done|].
  apply Forall_cons in Hdecl as [[field Hfield] Hdecl]. simpl in Hfield.
  assert (k ∉ dict_keys pre) as Hk.
  { rewrite dict_keys_app in Hnd. apply NoDup_app in Hnd as (_ & Hdisj & _).
    intros Hin. apply (Hdisj _ Hin). by left. }
  rewrite fmap_cons. simpl fix_items. rewrite Hprops, Hfield.
  unfold fix_field at 1. simpl. rewrite Hfield.
  destruct (schema_untyped field).
  - rewrite dict_set_app_notin by done.
    rewrite (cons_middle _ pre items), (cons_middle _ pre (_ <$> _)), !app_assoc.
    apply IH; [|done]. rewrite <- app_assoc, dict_keys_app in *. done.
  - rewrite (cons_middle _ pre items), (cons_middle _ pre (_ <$> _)), !app_assoc.
    apply IH; [|done]. by rewrite <- app_assoc.
Qed.

(** C37: on a record whose fields are all declared, [fix_record_anytype] is
    the map that repairs the untyped fields and keeps the others, in place. *)
Theorem fix_record_anytype_map d sch props :
  schema_properties sch = Some props ->
  NoDup (dict_keys d) ->
  Forall (fun kv => is_Some (dict_get kv.1 props)) d ->
  fix_record_anytype (VDict d) sch = inr (VDict (fix_field props <$> d)).
Proof.
  intros Hprops Hnd Hdecl. unfold fix_record_anytype.
  pose proof (fix_items_map sch props [] d Hprops Hnd Hdecl) as Hmap.
  simpl in Hmap. by rewrite Hmap.
Qed.

Lemma fix_record_anytype_map_witness :
  fix_record_anytype
    (VDict [("Id", VStr "001"); ("Score", VStr "42"); ("Note", VStr "")])
    (Schema (Some (VStr "object"))
       (Some [("Id", Schema (Some (VStr "string")) None);
              ("Score", Schema None None); ("Note", Schema None None)])) =
  inr (VDict [("Id", VStr "001"); ("Score", VFloat (FFin false 0x15000000000000 (-47))); ("Note", VNone)]).
Proof.
  refine (fix_record_anytype_map
            [("Id", VStr "001"); ("Score", VStr "42"); ("Note", VStr "")]
            (Schema (Some (VStr "object"))
               (Some [("Id", Schema (Some (VStr "string")) None);
                      ("Score", Schema None None); ("Note", Schema None None)]))
            [("Id", Schema (Some (VStr "string")) None);
             ("Score", Schema None None); ("Note", Schema None None)] eq_refl _ _).
  - apply (bool_decide_unpack (NoDup _)). by vm_compute.
  - repeat constructor; by eexists.
Defined.

Lemma fix_items_undeclared sch props items rec k :
  schema_properties sch = Some props ->
  k ∈ dict_keys items -> dict_get k props = None ->
  exists k', fix_items sch items rec = key_error k' /\ dict_get k' props = None.
Proof.
  intros Hprops. revert rec. unfold dict_keys.
  induction items as [|[k1 v1] items IH]; intros rec Hin Hnone; simpl in *.
  - by apply elem_of_nil in Hin.
  - rewrite Hprops. destruct (dict_get k1 props) as [field|] eqn:Hk1; [|eauto].
    apply elem_of_cons in Hin as [->|Hin]; [congruence|].
    destruct (schema_untyped field); eauto.
Qed.

(** C39: a record with a field the schema does not declare makes
    [fix_record_anytype] raise [KeyError]. *)
Theorem fix_record_anytype_undeclared d sch props k :
  schema_properties sch = Some props ->
  k ∈ dict_keys d -> dict_get k props = None ->
  exists k', fix_record_anytype (VDict d) sch = key_error k' /\ dict_get k' props = None.
Proof.
  intros Hprops Hin Hnone. unfold fix_record_anytype.
  destruct (fix_items_undeclared sch props d d k Hprops Hin Hnone) as (k' & -> & Hk').
  by exists k'.
Qed.

Lemma fix_record_anytype_undeclared_witness :
  exists k', fix_record_anytype (VDict [("Id", VStr "001"); ("Extra", VStr "1")])
               (Schema (Some (VStr "object")) (Some [("Id", Schema None None)])) = key_error k'
             /\ dict_get k' [("Id", Schema None None)] = None.
Proof.
  refine (fix_record_anytype_undeclared [("Id", VStr "001"); ("Extra", VStr "1")]
            (Schema (Some (VStr "object")) (Some [("Id", Schema None None)]))
            [("Id", Schema None None)] "Extra" eq_refl _ eq_refl).
  apply (bool_decide_unpack (_ ∈ _)). by vm_compute.
Defined.
