(* ===== verification/Typing.v ===== *)
(** * Well-formed values and the types of repaired fields

    A Python [dict] has one entry per key and a [float] one representation
    per number: the association lists and the mantissas and exponents that
    stand for them are well formed when their keys are distinct and their
    floats canonical.  The hooks of sync.py take well-formed values to well-formed
    values; the repair of an untyped field takes a string to a JSON scalar,
    and an integer to a float as long as it fits one; records that are
    equal as dicts are repaired into records that are equal as dicts. *)

From Stdlib Require Import ZArith String Ascii List Lia.
From stdpp Require Import base option list strings.
From S2P Require Import Prelude PyValue PyFloat PyNumber PostProcess.

Local Open Scope Z_scope.

(** ** Well-formed values *)

Definition wf_float (f : pyfloat) : bool :=
  match f with
  | FFin _ m e => bool_decide (canonical m e)
  | FNan | FInf _ => true
  end.

Fixpoint wf_value (v : value) : bool :=
  match v with
  | VFloat f => wf_float f
  | VList l => forallb wf_value l
  | VDict d => bool_decide (NoDup d.*1) && forallb (fun kv => wf_value kv.2) d
  | VNone | VBool _ | VInt _ | VStr _ | VDatetime _ => true
  end.

(** ** JSON types *)

(** The types of JSON schema, and the one [json.dumps] gives a value; a
    [datetime] has none. *)
Inductive json_type := JNull | JBoolean | JInteger | JNumber | JString | JArray | JObject.

#[export] Instance json_type_eq_dec : EqDecision json_type.
Proof. solve_decision. Defined.

Definition type_of (v : value) : option json_type :=
  match v with
  | VNone => Some JNull
  | VBool _ => Some JBoolean
  | VInt _ => Some JInteger
  | VFloat _ => Some JNumber
  | VStr _ => Some JString
  | VList _ => Some JArray
  | VDict _ => Some JObject
  | VDatetime _ => None
  end.

(** ** Facts: well-formedness *)

Lemma wf_value_dict d :
  wf_value (VDict d) = true <->
  NoDup (dict_keys d) /\ Forall (fun kv => wf_value kv.2 = true) d.
Proof.
  simpl. rewrite andb_true_iff, bool_decide_eq_true, forallb_forall, Forall_forall.
  unfold dict_keys. by setoid_rewrite list_elem_of_In.
Qed.

Lemma wf_float_of_string s f : float_of_string s = Some f -> wf_float f = true.
Proof.
  intros Hf%float_of_string_cases. destruct f; [done..|]. by apply bool_decide_eq_true.
Qed.

Lemma wf_float_of_Z z : wf_float (float_of_Z z) = true.
Proof.
  destruct (float_of_Z_cases z) as [(m & e & -> & Hc & _)| ->]; [|done].
  by apply bool_decide_eq_true.
Qed.

(** Whatever [float()] returns is well formed when its argument is. *)
Lemma py_float_wf v r : wf_value v = true -> py_float v = inr r -> wf_value r = true.
Proof.
  destruct v as [|b|z|f|s|l|d|t]; try done.
  - intros _ [= <-]. apply wf_float_of_Z.
  - rewrite py_float_int. case_match; [done|]. intros _ [= <-]. apply wf_float_of_Z.
  - by intros Hf [= <-].
  - simpl. destruct (float_of_string s) as [f|] eqn:Hf; [|done]. intros _ [= <-].
    by apply (wf_float_of_string s).
Qed.

Lemma fix_value_wf v : wf_value v = true -> wf_value (fix_value v) = true.
Proof.
  intros Hv. unfold fix_value, try_cast. repeat case_bool_decide; try done.
  destruct (py_float v) as [e|r] eqn:Hr; [done|]. by apply (py_float_wf v).
Qed.

Lemma remove_blacklisted_fields_wf d :
  wf_value (VDict d) = true -> wf_value (VDict (remove_blacklisted_fields d)) = true.
Proof.
  rewrite !wf_value_dict. intros [Hnd Hall].
  pose proof (remove_blacklisted_fields_sublist d) as Hsub. split.
  - eapply sublist_NoDup; [done|by apply fmap_sublist].
  - by eapply Forall_sublist.
Qed.

(** Assignment to a key keeps the keys distinct, and the values well
    formed when the new one is. *)
Lemma dict_set_wf k v d :
  wf_value (VDict d) = true -> wf_value v = true -> is_Some (dict_get k d) ->
  wf_value (VDict (dict_set k v d)) = true.
Proof.
  rewrite !wf_value_dict. intros [Hnd Hall] Hv Hk. split; [by rewrite dict_keys_set|].
  clear Hnd Hk. induction Hall as [|[k' v'] d Hkv Hall IH]; simpl; [by repeat constructor|].
  case_decide; constructor; auto.
Qed.

(** The loop of the repair keeps the record well formed and its keys where
    they are. *)
Lemma fix_items_wf sch items rec rec' :
  wf_value (VDict rec) = true ->
  Forall (fun kv => wf_value kv.2 = true /\ is_Some (dict_get kv.1 rec)) items ->
  fix_items sch items rec = inr rec' ->
  wf_value (VDict rec') = true /\ dict_keys rec' = dict_keys rec.
Proof.
  revert rec. induction items as [|[k v] items IH]; intros rec Hrec Hitems; simpl.
  { by intros [= <-]. }
  apply Forall_cons in Hitems as [[Hv Hk] Hitems]. simpl in Hv, Hk.
  destruct (schema_properties sch) as [props|]; [|done].
  destruct (dict_get k props) as [field|]; [|done].
  destruct (schema_untyped field); [|by apply IH].
  intros Hrun. apply IH in Hrun as [Hwf Hkeys].
  - split; [done|]. by rewrite Hkeys, dict_keys_set.
  - apply dict_set_wf; [done|by apply fix_value_wf|done].
  - eapply Forall_impl; [done|]. intros [k1 v1] [Hv1 Hk1]. split; [done|]. simpl in *.
    destruct (decide (k = k1)) as [->|Hne]; [by rewrite dict_get_set_eq|].
    by rewrite dict_get_set_ne.
Qed.

(** ** The hooks keep values well formed *)

(** C18: [fix_record_anytype] takes a well-formed record to a well-formed
    record with the same keys in the same order: no key is added, dropped
    or doubled, and every float it writes is a canonical binary64. *)
Theorem fix_record_anytype_wf rec sch rec' :
  wf_value rec = true -> fix_record_anytype rec sch = inr rec' ->
  wf_value rec' = true /\
  exists d d', rec = VDict d /\ rec' = VDict d' /\ dict_keys d' = dict_keys d.
Proof.
  destruct rec as [| | | | | |d|]; try done. intros Hwf. simpl.
  destruct (fix_items sch d d) as [e|d'] eqn:Hrun; [done|]. intros [= <-].
  apply fix_items_wf in Hrun as [Hwf' Hkeys]; [split; [done|]; by exists d, d'|done|].
  apply wf_value_dict in Hwf as [_ Hall]. rewrite Forall_forall in *.
  intros [k v] Hkv. split; [by apply Hall|]. apply dict_get_is_Some.
  unfold dict_keys. apply list_elem_of_fmap. by exists (k, v).
Qed.

Lemma fix_record_anytype_wf_witness :
  wf_value (VDict [("Id", VStr "001"); ("Score", VFloat (FFin false 0x15000000000000 (-47))); ("Note", VNone)]) = true /\
  exists d d', VDict [("Id", VStr "001"); ("Score", VStr "42"); ("Note", VStr "")] = VDict d /\
    VDict [("Id", VStr "001"); ("Score", VFloat (FFin false 0x15000000000000 (-47))); ("Note", VNone)] = VDict d' /\
    dict_keys d' = dict_keys d.
Proof.
  exact (fix_record_anytype_wf
           (VDict [("Id", VStr "001"); ("Score", VStr "42"); ("Note", VStr "")])
           (Schema (Some (VStr "object"))
              (Some [("Id", Schema (Some (VStr "string")) None);
                     ("Score", Schema None None); ("Note", Schema None None)]))
           _ eq_refl eq_refl).
Defined.

(** The pre-hook takes a well-formed datum to a well-formed datum. *)
Lemma transform_bulk_data_hook_wf data typ sch r :
  wf_value data = true -> transform_bulk_data_hook data typ sch = inr r -> wf_value r = true.
Proof.
  intros Hwf. unfold transform_bulk_data_hook.
  assert (wf_value (match data with
                    | VDict d => VDict (remove_blacklisted_fields d)
                    | _ => data
                    end) = true) as Hres.
  { destruct data; try done. by apply remove_blacklisted_fields_wf. }
  case_bool_decide; [|by intros [= <-]].
  destruct (schema_type sch) as [ty|]; [|done].
  destruct (py_contains "null" ty) as [e|[]]; by intros [= <-].
Qed.

Example transform_bulk_data_hook_wf_example :
  wf_value (VDict [("Id", VStr "001")]) = true.
Proof.
  exact (transform_bulk_data_hook_wf
           (VDict [("attributes", VDict [("type", VStr "Account")]); ("Id", VStr "001")])
           "object" (Schema (Some (VStr "object")) None) _ eq_refl eq_refl).
Defined.

(** ** The type of a repaired field *)

(** The JSON type of what [fix_value] returns, read off its argument. *)
Definition repaired_type (v : value) : option json_type :=
  match v with
  | VStr s =>
      if bool_decide (s = "") then Some JNull
      else if bool_decide (s = "true" \/ s = "false") then Some JBoolean
      else match float_of_string s with
           | Some _ => Some JNumber
           | None => Some JString
           end
  | VInt z => if float_int_limit <=? Z.abs z then Some JInteger else Some JNumber
  | VBool _ | VFloat _ => Some JNumber
  | VNone | VList _ | VDict _ | VDatetime _ => type_of v
  end.

(** C19: the type of a repaired field.  A string becomes null, a boolean,
    a number or stays a string, and never becomes an integer; a boolean and
    an integer that fits a float become numbers; anything else keeps its
    type. *)
Theorem fix_value_type v : type_of (fix_value v) = repaired_type v.
Proof.
  destruct v as [|b|z|f|s|l|d|t]; try done.
  - rewrite fix_value_int. simpl. by destruct (_ <=? _).
  - rewrite fix_value_string. unfold repaired_type.
    repeat case_bool_decide; try done. by destruct (float_of_string s).
Qed.

(** ** The order of the fields

    The hooks take equal dicts to equal dicts: what they do to a record does
    not depend on the order in which the source lists its fields. *)

#[export] Instance remove_blacklisted_fields_proper :
  Proper (dict_equiv ==> dict_equiv) remove_blacklisted_fields.
Proof.
  intros d1 d2 H12 k. unfold remove_blacklisted_fields.
  pose proof (dict_get_filter (V:=value) (fun k => k ∉ BLACKLISTED_FIELDS) k) as Hget.
  cbv beta in Hget. rewrite !Hget. case_decide; [by apply dict_get_proper|done].
Qed.

(** The repair of declared fields, key by key. *)
Lemma dict_get_fix_field props k d :
  dict_get k (fix_field props <$> d) = (fun v => (fix_field props (k, v)).2) <$> dict_get k d.
Proof. apply dict_get_fmap, fix_field_key. Qed.

(** Every field of the record [d] is declared by the properties [props]
    of the schema. *)
Definition declared (props : list (string * schema)) (d : list (string * value)) : Prop :=
  Forall (fun kv => is_Some (dict_get kv.1 props)) d.

Lemma declared_equiv (props : list (string * schema)) (d1 d2 : list (string * value)) :
  dict_equiv d1 d2 -> declared props d1 -> declared props d2.
Proof.
  intros H12. unfold declared. rewrite !Forall_forall. intros Hdecl [k v] Hkv.
  assert (k ∈ dict_keys d1) as [[k' v'] [-> Hin]]%list_elem_of_fmap.
  { apply (dict_equiv_keys _ _ _ H12), list_elem_of_fmap. by exists (k, v). }
  by apply (Hdecl _ Hin).
Qed.

(** C38: on records whose fields are all declared, [fix_record_anytype]
    takes equal dicts to equal dicts: the repaired record does not depend on
    the order of the fields. *)
Theorem fix_record_anytype_proper d1 d2 sch props :
  schema_properties sch = Some props ->
  NoDup (dict_keys d1) -> NoDup (dict_keys d2) ->
  declared props d1 ->
  dict_equiv d1 d2 ->
  exists d1' d2', fix_record_anytype (VDict d1) sch = inr (VDict d1') /\
    fix_record_anytype (VDict d2) sch = inr (VDict d2') /\ dict_equiv d1' d2'.
Proof.
  intros Hprops Hnd1 Hnd2 Hdecl1 H12. pose proof (declared_equiv props _ _ H12 Hdecl1) as Hdecl2.
  exists (fix_field props <$> d1), (fix_field props <$> d2). unfold fix_record_anytype.
  pose proof (fix_items_map sch props [] d1 Hprops Hnd1 Hdecl1) as Hmap1.
  pose proof (fix_items_map sch props [] d2 Hprops Hnd2 Hdecl2) as Hmap2.
  simpl in Hmap1, Hmap2. rewrite Hmap1, Hmap2. repeat split; try done.
  intros k. rewrite !dict_get_fix_field. by setoid_rewrite H12.
Qed.

Lemma fix_record_anytype_proper_witness :
  exists d1' d2',
    fix_record_anytype (VDict [("Id", VStr "001"); ("Score", VStr "42")])
      (Schema None (Some [("Id", Schema (Some (VStr "string")) None); ("Score", Schema None None)]))
      = inr (VDict d1') /\
    fix_record_anytype (VDict [("Score", VStr "42"); ("Id", VStr "001")])
      (Schema None (Some [("Id", Schema (Some (VStr "string")) None); ("Score", Schema None None)]))
      = inr (VDict d2') /\ dict_equiv d1' d2'.
Proof.
  refine (fix_record_anytype_proper
            [("Id", VStr "001"); ("Score", VStr "42")] [("Score", VStr "42"); ("Id", VStr "001")]
            (Schema None (Some [("Id", Schema (Some (VStr "string")) None);
                                ("Score", Schema None None)]))
            [("Id", Schema (Some (VStr "string")) None); ("Score", Schema None None)]
            eq_refl _ _ _ _).
  - apply (bool_decide_unpack (NoDup _)). by vm_compute.
  - apply (bool_decide_unpack (NoDup _)). by vm_compute.
  - repeat constructor; by eexists.
  - intros k. simpl. repeat case_decide; simplify_eq; done.
Defined.
