(* ===== verification/Fixtures.v ===== *)
(** * Concrete collaborators

    Instances of the interfaces of Runtime.v on which the drivers run by
    computation: a codec that writes an instant as its decimal number of
    microseconds, a clock that advances one second per reading, and a
    transformer for flat records that calls the pre-hook the way the singer
    [Transformer] does.  The theorems of the development hold for every
    instance; the witnesses are stated on these. *)

From Stdlib Require Import ZArith String Ascii List Lia DecimalString DecimalZ DecimalPos DecimalFacts.
From stdpp Require Import base option list strings gmap.
From S2P Require Import Prelude PyValue PyNumber Bookmarks Runtime PostProcess.

Local Open Scope Z_scope.

(** ** A decimal codec

    A timestamp is written as its number of microseconds since the epoch in
    decimal; a timestamp in another zone is written ["+<offset>@<instant>"],
    the offset in seconds. *)

Definition decimal_format (t : Z) : string := NilZero.string_of_int (Z.to_int t).

Definition zoned_parse (s : string) : option datetime :=
  n ← String.index 0 "@" s;
  offset ← NilZero.int_of_string (String.substring 0 n s);
  instant ← NilZero.int_of_string (String.substring (S n) (String.length s - S n) s);
  Some (mk_datetime (Z.of_int instant) (Z.of_int offset)).

Definition decimal_parse (s : string) : option datetime :=
  match s with
  | String "+" rest => zoned_parse rest
  | _ => (fun d => mk_datetime (Z.of_int d) 0) <$> NilZero.int_of_string s
  end.

Lemma decimal_format_unzoned t : forall rest, decimal_format t <> String "+" rest.
Proof.
  intros rest. unfold decimal_format. destruct (Z.to_int t) as [d|d]; [by destruct d|done].
Qed.

Lemma decimal_int_of_string_format t :
  NilZero.int_of_string (decimal_format t) = Some (Z.to_int t).
Proof.
  unfold decimal_format. apply NilZero.isi.
  - destruct t as [|p|p]; simpl; try done.
    intros Heq. injection Heq as Heq. by apply (Unsigned.to_uint_nonnil p).
  - destruct t as [|p|p]; simpl; try done.
    intros Heq. injection Heq as Heq. by apply (Unsigned.to_uint_nonnil p).
Qed.

Lemma decimal_parse_format t : decimal_parse (decimal_format t) = Some (mk_datetime t 0).
Proof.
  pose proof (decimal_format_unzoned t) as Hplain. unfold decimal_parse.
  destruct (decimal_format t) as [|c rest] eqn:Hfmt.
  - rewrite <- Hfmt, decimal_int_of_string_format. simpl. by rewrite DecimalZ.of_to.
  - destruct (decide (c = "+"%char)) as [->|Hc]; [by destruct (Hplain rest)|].
    transitivity ((fun d => mk_datetime (Z.of_int d) 0) <$> NilZero.int_of_string (String c rest)).
    { destruct c as [[] [] [] [] [] [] [] []]; try done. }
    rewrite <- Hfmt, decimal_int_of_string_format. simpl. by rewrite DecimalZ.of_to.
Qed.

Lemma decimal_format_nonempty t : decimal_format t <> "".
Proof.
  intros Hempty. pose proof (decimal_parse_format t) as Hparse.
  by rewrite Hempty in Hparse.
Qed.

#[export] Instance decimal_codec : TimeCodec :=
  {| parse_datetime := decimal_parse;
     format_utc := decimal_format;
     parse_format_utc := decimal_parse_format;
     format_utc_nonempty := decimal_format_nonempty |}.

(** ** A clock: one second per reading, from [start] *)

Definition second_clock (start : Z) : Clock := fun n => start + 1000000 * Z.of_nat n.

(** ** A transformer for flat records

    The pre-hook sees the record, then every field the schema declares with
    a type; a field the schema does not declare is dropped, a field declared
    without a type is kept as it is. *)

Definition first_type (ty : value) : string :=
  match ty with
  | VStr s => s
  | VList (VStr s :: _) => s
  | _ => ""
  end.

Fixpoint flat_fields (hook : pre_hook) (props : list (string * schema))
    (d : list (string * value)) : result (list (string * value)) :=
  match d with
  | [] => mret []
  | (k, v) :: d' =>
      match dict_get k props with
      | None => flat_fields hook props d'
      | Some field =>
          v' ← match schema_type field with
               | None => mret v
               | Some ty => hook v (first_type ty) field
               end;
          rest ← flat_fields hook props d';
          mret ((k, v') :: rest)
      end
  end.

Definition flat_transform (hook : pre_hook) (rec : value) (sch : schema) : result value :=
  data ← hook rec "object" sch;
  match data with
  | VDict d => VDict <$> flat_fields hook (default [] (schema_properties sch)) d
  | _ => raise_ SchemaMismatch "not an object"
  end.

#[export] Instance flat_transformer : Transformer := flat_transform.

(** ** A stream and a source to run the drivers on

    The [Account] stream: two fields declared as strings, and [Extra],
    declared without a type, which [fix_record_anytype] repairs.  The clock
    starts at 1 700 000 000 s; the timestamps of the records are decimal
    microseconds, as [decimal_codec] reads them. *)

Definition fixture_clock : Clock := second_clock 1700000000000000.

Definition account_schema : schema :=
  Schema (Some (VStr "object"))
         (Some [("Id", Schema (Some (VStr "string")) None);
                ("SystemModstamp", Schema (Some (VStr "string")) None);
                ("Extra", Schema None None)]).

Definition account_entry : catalog_entry :=
  mk_catalog_entry "Account" "Account" None (Some "SystemModstamp") account_schema.

(** The same stream without a replication key. *)
Definition account_full_table : catalog_entry :=
  mk_catalog_entry "Account" "Account" None None account_schema.

Definition account (id modstamp extra : string) : value :=
  VDict [("attributes", VStr "Account"); ("Id", VStr id);
         ("SystemModstamp", VStr modstamp); ("Extra", VStr extra)].

(** The record [account id modstamp extra] as it is emitted. *)
Definition account_out (id modstamp : string) (extra : value) : value :=
  VDict [("Id", VStr id); ("SystemModstamp", VStr modstamp); ("Extra", extra)].

(** A source that yields [recs] for every query and the listed results for
    the listed batches; its start date is 1 500 000 000 s. *)
Definition fixed_source (chunked : bool) (recs : record_stream)
    (batches : list (value * record_stream)) : salesforce :=
  mk_salesforce chunked
    (fun _ _ => inr (VStr "1500000000000000"))
    (fun _ _ => recs)
    (fun _ batch_id _ =>
       match List.find (fun b => bool_decide (b.1 = batch_id)) batches with
       | Some b => b.2
       | None => ([], Some (Exn TapSalesforceException "no such batch" None))
       end).

(** Three records, the second one older than the first. *)
Definition three_accounts : list value :=
  [account "001" "1600000000000000" "42";
   account "002" "1550000000000000" "true";
   account "003" "1650000000000000" ""].

Definition world0 (st : state) : world := mk_world st [] 0 0.
