(* ===== verification/Version.v ===== *)
(** * The stream version assigner

    [get_stream_version]: the version tag of a pass.  A stream with a
    replication key keeps its bookmarked version; every other call reads the
    clock. *)

From Stdlib Require Import ZArith String List Lia.
From stdpp Require Import base option list strings gmap.
From S2P Require Import Prelude PyValue Bookmarks Runtime Fixtures.

Section Version.
Context `{Clock}.

(** [get_stream_version(catalog_entry, state)].  The [or] reads the clock
    only when the bookmark is falsy; a stream without a replication key reads
    it (again) and returns that reading. *)
Definition get_stream_version (ce : catalog_entry) (st : state) : M value :=
  let bookmarked := get_bookmark st (tap_stream_id ce) VERSION in
  stream_version ← (if truthy bookmarked then mret bookmarked else VInt <$> time_ms);
  match truthy_key (replication_key ce) with
  | Some _ => mret stream_version
  | None => VInt <$> time_ms
  end.

(** The store is only read. *)
Lemma get_stream_version_keeps I ce st :
  (forall w, I w -> I (tick w)) -> se_keeps I (get_stream_version ce st).
Proof.
  intros HI. unfold get_stream_version.
  apply se_keeps_bind; [destruct (truthy _); auto with tap|].
  intros v. destruct (truthy_key _); auto with tap.
Qed.

(** The clock reading in milliseconds. *)
Definition ms_at (n : nat) : Z := Z.quot (clock_at n) 1000.

(** Two readings of the clock never fall in the same millisecond. *)
Definition ms_increasing : Prop := forall n m, (n < m)%nat -> (ms_at n < ms_at m)%Z.

Lemma time_ms_run w : time_ms w = (RET (ms_at (w_tick w)) IN (tick w)).
Proof. reflexivity. Qed.

(** The call, case by case. *)
Lemma get_stream_version_run ce st w :
  get_stream_version ce st w =
  let bookmarked := get_bookmark st (tap_stream_id ce) VERSION in
  match truthy_key (replication_key ce), truthy bookmarked with
  | Some _, true => (RET bookmarked IN w)
  | Some _, false => (RET (VInt (ms_at (w_tick w))) IN (tick w))
  | None, true => (RET (VInt (ms_at (w_tick w))) IN (tick w))
  | None, false => (RET (VInt (ms_at (S (w_tick w)))) IN (tick (tick w)))
  end.
Proof.
  unfold get_stream_version. rewrite se_bind_run. simpl.
  by destruct (truthy _), (truthy_key _).
Qed.

(** C10: a stream with a replication key and a bookmarked version keeps that
    version, and the clock is not read. *)
Theorem get_stream_version_keyed_bookmarked ce st w key :
  truthy_key (replication_key ce) = Some key ->
  truthy (get_bookmark st (tap_stream_id ce) VERSION) = true ->
  get_stream_version ce st w = (RET (get_bookmark st (tap_stream_id ce) VERSION) IN w).
Proof. intros Hkey Hver. rewrite get_stream_version_run. simpl. by rewrite Hkey, Hver. Qed.

(** C32: a stream with a replication key and no version bookmarked (or a
    falsy one, such as 0) gets the clock's milliseconds, read once. *)
Theorem get_stream_version_keyed_fresh ce st w key :
  truthy_key (replication_key ce) = Some key ->
  truthy (get_bookmark st (tap_stream_id ce) VERSION) = false ->
  get_stream_version ce st w = (RET (VInt (ms_at (w_tick w))) IN (tick w)).
Proof. intros Hkey Hver. rewrite get_stream_version_run. simpl. by rewrite Hkey, Hver. Qed.

(** A stream without a replication key gets the last reading of the
    clock whatever is bookmarked; the clock is read twice when no version is
    bookmarked, once otherwise. *)
Lemma get_stream_version_unkeyed ce st w :
  truthy_key (replication_key ce) = None ->
  get_stream_version ce st w =
  if truthy (get_bookmark st (tap_stream_id ce) VERSION)
  then (RET (VInt (ms_at (w_tick w))) IN (tick w))
  else (RET (VInt (ms_at (S (w_tick w)))) IN (tick (tick w))).
Proof.
  intros Hkey. rewrite get_stream_version_run. simpl. by rewrite Hkey.
Qed.

(** Whatever the stream, a version that is returned was bookmarked or was
    read from the clock at a tick of this call. *)
Lemma get_stream_version_cases ce st w v w' :
  get_stream_version ce st w = (RET v IN w') ->
  (v = get_bookmark st (tap_stream_id ce) VERSION /\ w' = w /\
   is_Some (truthy_key (replication_key ce))) \/
  (exists n, (w_tick w <= n < w_tick w')%nat /\ v = VInt (ms_at n)).
Proof.
  rewrite get_stream_version_run. simpl.
  destruct (truthy_key _), (truthy _); intros [= <- <-];
    first [left; by eauto | right; eexists; split; [|done]; simpl; lia].
Qed.

(** The call reads the clock and touches nothing else. *)
Lemma get_stream_version_world ce st w r w' :
  get_stream_version ce st w = (r, w') ->
  w_state w' = w_state w /\ w_out w' = w_out w /\ w_count w' = w_count w /\
  (w_tick w <= w_tick w')%nat.
Proof.
  rewrite get_stream_version_run. simpl.
  destruct (truthy_key _), (truthy _); intros [= <- <-]; simpl; repeat split; lia.
Qed.

(** Version rotation.  Two calls for a stream without a replication
    key, the second one later than the first, return different versions as
    long as the clock moves by a millisecond between readings. *)
Lemma unkeyed_versions_differ ce st1 st2 w1 w2 v1 v2 w1' w2' :
  ms_increasing ->
  truthy_key (replication_key ce) = None ->
  get_stream_version ce st1 w1 = (RET v1 IN w1') ->
  (w_tick w1' <= w_tick w2)%nat ->
  get_stream_version ce st2 w2 = (RET v2 IN w2') ->
  v1 <> v2.
Proof.
  intros Hclock Hkey H1 Hlater H2.
  apply get_stream_version_cases in H1 as [(_ & _ & [? Hk])|(n1 & Hn1 & ->)]; [congruence|].
  apply get_stream_version_cases in H2 as [(_ & _ & [? Hk])|(n2 & Hn2 & ->)]; [congruence|].
  intros [= Heq]. specialize (Hclock n1 n2). lia.
Qed.

End Version.

(** ** Witnesses, on the clock of Fixtures.v *)

Section Witnesses.
#[local] Instance witness_clock : Clock := second_clock 1700000000000000.

Definition keyed_entry : catalog_entry :=
  mk_catalog_entry "Account" "Account" None (Some "SystemModstamp") (Schema None None).

Definition unkeyed_entry : catalog_entry :=
  mk_catalog_entry "Account" "Account" None None (Schema None None).

Lemma get_stream_version_keyed_bookmarked_witness :
  get_stream_version keyed_entry (write_bookmark ∅ "Account" "version" (VInt 1699)) (mk_world ∅ [] 0 0)
  = (RET (VInt 1699) IN (mk_world ∅ [] 0 0)).
Proof.
  exact (get_stream_version_keyed_bookmarked keyed_entry
           (write_bookmark ∅ "Account" "version" (VInt 1699)) (mk_world ∅ [] 0 0)
           "SystemModstamp" eq_refl eq_refl).
Defined.

Lemma get_stream_version_keyed_fresh_witness :
  get_stream_version keyed_entry (write_bookmark ∅ "Account" "version" (VInt 0)) (mk_world ∅ [] 0 0)
  = (RET (VInt 1700000000000) IN (mk_world ∅ [] 0 1)).
Proof.
  exact (get_stream_version_keyed_fresh keyed_entry
           (write_bookmark ∅ "Account" "version" (VInt 0)) (mk_world ∅ [] 0 0)
           "SystemModstamp" eq_refl eq_refl).
Defined.

Example get_stream_version_unkeyed_example :
  get_stream_version unkeyed_entry (write_bookmark ∅ "Account" "version" (VInt 1699)) (mk_world ∅ [] 0 0)
  = (RET (VInt 1700000000000) IN (mk_world ∅ [] 0 1)).
Proof.
  exact (get_stream_version_unkeyed unkeyed_entry
           (write_bookmark ∅ "Account" "version" (VInt 1699)) (mk_world ∅ [] 0 0) eq_refl).
Defined.

Lemma second_clock_ms_increasing start : (0 <= start)%Z -> @ms_increasing (second_clock start).
Proof.
  intros Hs n m Hnm. unfold ms_at, clock_at, second_clock.
  apply Z.quot_lt_upper_bound; [lia|lia|].
  pose proof (Z.quot_rem' (start + 1000000 * Z.of_nat m) 1000).
  pose proof (Z.rem_bound_pos (start + 1000000 * Z.of_nat m) 1000).
  lia.
Qed.

Example unkeyed_versions_differ_example : VInt 1700000001000 <> VInt 1700000003000.
Proof.
  exact (unkeyed_versions_differ unkeyed_entry ∅ ∅ (mk_world ∅ [] 0 0) (mk_world ∅ [] 0 2)
           (VInt 1700000001000) (VInt 1700000003000) (mk_world ∅ [] 0 2) (mk_world ∅ [] 0 4)
           (second_clock_ms_increasing 1700000000000000 ltac:(lia))
           eq_refl eq_refl (le_n 2) eq_refl).
Qed.

End Witnesses.
