(* ===== verification/SyncRecords.v ===== *)
(** * The simple sync driver

    [sync_records]: one pass over the records the source yields for a stream.
    Every record is counted, transformed, repaired and emitted; the bookmark
    policy depends on [sf.pk_chunking] and on the stream's replication key. *)

From Stdlib Require Import ZArith String List Lia.
From stdpp Require Import base option list strings gmap.
From S2P Require Import Prelude PyValue PyNumber Bookmarks Runtime PostProcess Fixtures Version.

(** [rec[key]] on the value a record is. *)
Definition getitem (rec : value) (key : string) : result value :=
  match rec with
  | VDict d =>
      match dict_get key d with
      | Some v => mret v
      | None => key_error key
      end
  | _ => raise_ TypeError "object is not subscriptable"
  end.

(** The key [json.dumps] writes for a field name that may be [None]. *)
Definition py_key (k : option string) : string := default "null" k.

(** A generator runs out, or fails. *)
Definition end_of_stream (failure : option exn) : M unit :=
  match failure with
  | Some e => se_raise e
  | None => mret tt
  end.

Section SyncRecords.
Context `{Clock} `{TimeCodec} `{Transformer} {emitter : Emitter} `{!Reliable}.

(** Count, transform, repair and emit one record: the head of both loop
    bodies of sync.py.  Returns the record as emitted. *)
Definition emit_record (ce : catalog_entry) (stream_version : value) (start_time : datetime)
    (rec : value) : M value :=
  increment;;
  rec ← se_lift (transform transform_bulk_data_hook rec (entry_schema ce));
  rec ← se_lift (fix_record_anytype rec (entry_schema ce));
  write_message (RecordMessage (stream_name ce) rec stream_version start_time);;
  mret rec.

(** [singer_utils.strptime_with_tz(rec[replication_key])]. *)
Definition key_datetime (rec : value) (key : string) : result datetime :=
  getitem rec key ≫= strptime_with_tz.

(** The body of the loop of [sync_records].  [chunked_bookmark] is the local
    variable of that name; its new value is returned. *)
Definition sync_record (sf : salesforce) (ce : catalog_entry) (stream_version : value)
    (start_time chunked_bookmark : datetime) (rec : value) : M datetime :=
  rec ← emit_record ce stream_version start_time rec;
  match truthy_key (replication_key ce) with
  | None => mret chunked_bookmark
  | Some key =>
      replication_key_value ← se_lift (key_datetime rec key);
      if pk_chunking sf then
        if dt_le replication_key_value start_time && dt_gt replication_key_value chunked_bookmark
        then
          chunked_bookmark ← se_lift (key_datetime rec key);
          formatted ← se_lift (strftime chunked_bookmark);
          state ← write_bookmark_m (tap_stream_id ce) JOB_HIGHEST_BOOKMARK_SEEN formatted;
          write_state state;;
          mret chunked_bookmark
        else mret chunked_bookmark
      else if dt_le replication_key_value start_time then
        raw ← se_lift (getitem rec key);
        state ← write_bookmark_m (tap_stream_id ce) key raw;
        write_state state;;
        mret chunked_bookmark
      else mret chunked_bookmark
  end.

(** [for rec in sf.query(catalog_entry, state): ...]. *)
Fixpoint sync_loop (sf : salesforce) (ce : catalog_entry) (stream_version : value)
    (start_time chunked_bookmark : datetime) (recs : list value) : M datetime :=
  match recs with
  | [] => mret chunked_bookmark
  | rec :: recs' =>
      chunked_bookmark ← sync_record sf ce stream_version start_time chunked_bookmark rec;
      sync_loop sf ce stream_version start_time chunked_bookmark recs'
  end.

(** What [sync_records] does once the records are exhausted. *)
Definition finish_pass (sf : salesforce) (ce : catalog_entry)
    (activate_version_message : message) (chunked_bookmark : datetime) : M unit :=
  match truthy_key (replication_key ce) with
  | None =>
      write_message activate_version_message;;
      write_bookmark_m (tap_stream_id ce) VERSION VNone;;
      mret tt
  | Some _ => mret tt
  end;;
  if pk_chunking sf then
    parsed ← se_lift (strptime chunked_bookmark);
    write_bookmark_m (tap_stream_id ce) (py_key (replication_key ce)) parsed;;
    mret tt
  else mret tt.

(** [sync_records(sf, catalog_entry, state, counter)]. *)
Definition sync_records (sf : salesforce) (ce : catalog_entry) : M unit :=
  state ← se_gets w_state;
  start_date ← se_lift (get_start_date sf state ce);
  chunked_bookmark ← se_lift (strptime_with_tz start_date);
  stream_version ← get_stream_version ce state;
  let activate_version_message := ActivateVersionMessage (stream_name ce) stream_version in
  start_time ← now;
  state ← se_gets w_state;
  let '(recs, failure) := query sf ce state in
  chunked_bookmark ← sync_loop sf ce stream_version start_time chunked_bookmark recs;
  end_of_stream failure;;
  finish_pass sf ce activate_version_message chunked_bookmark.

(** ** Facts *)

(** Transform and repair, as a function of the record. *)
Definition process_record (ce : catalog_entry) (rec : value) : result value :=
  transform transform_bulk_data_hook rec (entry_schema ce) ≫=
  fun rec => fix_record_anytype rec (entry_schema ce).

Lemma emit_record_run ce ver start rec w :
  emit_record ce ver start rec w =
  match process_record ce rec with
  | inr r => (RET r IN (emit (RecordMessage (stream_name ce) r ver start) (count_one w)))
  | inl e => (EXN e IN (count_one w))
  end.
Proof.
  unfold emit_record, process_record, mbind, se_bind, sum_bind, se_lift. simpl.
  destruct (transform _ rec _) as [e|r1]; [done|].
  destruct (fix_record_anytype r1 _) as [e|r2]; [done|]. by rewrite write_message_run.
Qed.

(** *** What a pass leaves alone *)

Lemma emit_record_keeps_state P ce ver start rec :
  se_keeps (on_state P) (emit_record ce ver start rec).
Proof. unfold emit_record. keeps. Qed.

(** The store changes only by the bookmark writes of the mode in force. *)
Lemma sync_record_keeps_state P sf ce ver start cb rec :
  (forall st v, pk_chunking sf = true -> P st ->
     P (write_bookmark st (tap_stream_id ce) JOB_HIGHEST_BOOKMARK_SEEN v)) ->
  (forall st key v, pk_chunking sf = false -> truthy_key (replication_key ce) = Some key ->
     P st -> P (write_bookmark st (tap_stream_id ce) key v)) ->
  se_keeps (on_state P) (sync_record sf ce ver start cb rec).
Proof.
  intros Hchunk Hplain. unfold sync_record.
  apply se_keeps_bind; [apply emit_record_keeps_state|intros r].
  keeps; apply se_keeps_write_bookmark_m; intros w Hw; unfold on_state; simpl; eauto.
Qed.

Lemma sync_loop_keeps I sf ce ver start cb recs :
  (forall cb rec, se_keeps I (sync_record sf ce ver start cb rec)) ->
  se_keeps I (sync_loop sf ce ver start cb recs).
Proof. intros Hrec. revert cb. induction recs as [|rec recs IH]; intros cb; simpl; keeps. Qed.

(** *** One record, in direct style *)

Lemma key_datetime_getitem r key t :
  key_datetime r key = inr t -> exists raw, getitem r key = inr raw /\ strptime_with_tz raw = inr t.
Proof.
  unfold key_datetime, mbind, sum_bind. destruct (getitem r key) as [e|raw]; [done|]. eauto.
Qed.

(** The outcome of [sync_record] as a function of the processed record, its
    key and the mode. *)
Lemma sync_record_run sf ce ver start cb rec w :
  sync_record sf ce ver start cb rec w =
  match process_record ce rec with
  | inl e => (EXN e IN (count_one w))
  | inr r =>
      let w1 := emit (RecordMessage (stream_name ce) r ver start) (count_one w) in
      match truthy_key (replication_key ce) with
      | None => (RET cb IN w1)
      | Some key =>
          match key_datetime r key with
          | inl e => (EXN e IN w1)
          | inr t =>
              if pk_chunking sf then
                if dt_le t start && dt_gt t cb then
                  match strftime t with
                  | inr formatted =>
                      (RET t IN (bookmark_and_flush (tap_stream_id ce)
                                   JOB_HIGHEST_BOOKMARK_SEEN formatted w1))
                  | inl e => (EXN e IN w1)
                  end
                else (RET cb IN w1)
              else if dt_le t start then
                match getitem r key with
                | inr raw => (RET cb IN (bookmark_and_flush (tap_stream_id ce) key raw w1))
                | inl e => (EXN e IN w1)
                end
              else (RET cb IN w1)
          end
      end
  end.
Proof.
  unfold sync_record. rewrite se_bind_run, emit_record_run.
  destruct (process_record ce rec) as [e|r]; [done|]. simpl.
  destruct (truthy_key _) as [key|]; [|done].
  rewrite se_bind_run. unfold se_lift at 1.
  destruct (key_datetime r key) as [e|t] eqn:Ht; [done|].
  destruct (pk_chunking sf).
  - destruct (dt_le t start && dt_gt t cb); [|done].
    rewrite se_bind_run. unfold se_lift at 1.
    rewrite se_bind_run. unfold se_lift at 1.
    destruct (strftime t) as [e|formatted]; [done|]. by rewrite bookmark_and_flush_run.
  - destruct (dt_le t start); [|done].
    rewrite se_bind_run. unfold se_lift at 1.
    destruct (getitem r key) as [e|raw]; [done|]. by rewrite bookmark_and_flush_run.
Qed.

(** *** Induction over a pass that returns *)

(** An invariant of the processed records, the watermark and the world that
    every returning step extends holds when the loop returns. *)
Lemma sync_loop_ok_ind (Inv : list value -> datetime -> world -> Prop) sf ce ver start :
  (forall rs cb w rec cb' w', Inv rs cb w ->
     sync_record sf ce ver start cb rec w = (RET cb' IN w') ->
     exists r, process_record ce rec = inr r /\ Inv (rs ++ [r]) cb' w') ->
  forall recs rs cb w cb' w', Inv rs cb w ->
    sync_loop sf ce ver start cb recs w = (RET cb' IN w') ->
    exists rs', Forall2 (fun rec r => process_record ce rec = inr r) recs rs' /\
                Inv (rs ++ rs') cb' w'.
Proof.
  intros Hstep recs. induction recs as [|rec recs IH]; intros rs cb w cb' w' Hinv Hrun.
  - simpl in Hrun. injection Hrun as <- <-. exists []. by rewrite app_nil_r.
  - simpl in Hrun. apply se_bind_inv_ok in Hrun as (cb1 & w1 & Hrec & Hloop).
    destruct (Hstep _ _ _ _ _ _ Hinv Hrec) as (r & Hr & Hinv1).
    destruct (IH _ _ _ _ _ Hinv1 Hloop) as (rs' & Hrs' & Hinv').
    exists (r :: rs'). split; [by constructor|]. by rewrite cons_middle, app_assoc.
Qed.

(** ** Reference definitions: what the bookmarks should be *)

(** The record's key lies within the pass. *)
Definition within_pass (start : datetime) (key : string) (r : value) : bool :=
  match key_datetime r key with
  | inr t => dt_le t start
  | inl _ => false
  end.

(** [rec[key]], when the record has the key. *)
Definition raw_key (key : string) (r : value) : option value :=
  match getitem r key with
  | inr raw => Some raw
  | inl _ => None
  end.

(** The cursor after a keyed, unchunked pass over the records [rs]: the raw
    key of the last record within the pass. *)
Definition cursor_after (key : string) (start : datetime) (rs : list value) (cursor : value)
    : value :=
  fold_left (fun c r => if within_pass start key r then default c (raw_key key r) else c)
            rs cursor.

(** The watermark after a chunked pass over [rs]: it moves to every key
    within the pass and beyond it. *)
Definition watermark_after (key : string) (start : datetime) (rs : list value) (cb : datetime)
    : datetime :=
  fold_left (fun cb r =>
               match key_datetime r key with
               | inr t => if dt_le t start && dt_gt t cb then t else cb
               | inl _ => cb
               end) rs cb.

(** The messages a pass tags: its stream, its version, its start. *)
Definition tagged (ce : catalog_entry) (ver : value) (start : datetime) (m : message) : Prop :=
  match m with
  | RecordMessage name _ v t => name = stream_name ce /\ v = ver /\ t = start
  | ActivateVersionMessage _ _ => False
  | StateMessage _ => True
  end.

(** ** The loop of an unchunked, keyed pass *)

Lemma cursor_after_snoc key start rs r c :
  cursor_after key start (rs ++ [r]) c =
  if within_pass start key r
  then default (cursor_after key start rs c) (raw_key key r)
  else cursor_after key start rs c.
Proof. unfold cursor_after. by rewrite fold_left_app. Qed.

Lemma watermark_after_snoc key start rs r cb :
  watermark_after key start (rs ++ [r]) cb =
  let cb1 := watermark_after key start rs cb in
  match key_datetime r key with
  | inr t => if dt_le t start && dt_gt t cb1 then t else cb1
  | inl _ => cb1
  end.
Proof. unfold watermark_after. by rewrite fold_left_app. Qed.

(** When the loop of an unchunked pass over a keyed stream returns, the
    cursor bookmark is [cursor_after] of the emitted records, and the
    in-memory watermark has not moved. *)
Lemma sync_loop_plain_fold sf ce ver start cb recs w cb' w' key :
  pk_chunking sf = false ->
  truthy_key (replication_key ce) = Some key ->
  sync_loop sf ce ver start cb recs w = (RET cb' IN w') ->
  exists rs, Forall2 (fun rec r => process_record ce rec = inr r) recs rs /\
    cb' = cb /\
    get_bookmark (w_state w') (tap_stream_id ce) key =
    cursor_after key start rs (get_bookmark (w_state w) (tap_stream_id ce) key).
Proof.
  intros Hmode Hkey Hrun.
  pose (Inv := fun rs cb1 w1 => cb1 = cb /\
    get_bookmark (w_state w1) (tap_stream_id ce) key =
    cursor_after key start rs (get_bookmark (w_state w) (tap_stream_id ce) key)).
  destruct (sync_loop_ok_ind Inv sf ce ver start) with (recs := recs)
    (rs := @nil value) (cb := cb) (w := w) (cb' := cb') (w' := w') as (rs & Hrs & Hinv);
    [|by split|done|by exists rs].
  clear Hrun. intros rs cb1 w1 rec cb2 w2 [-> Hcur]. rewrite sync_record_run, Hmode, Hkey.
  destruct (process_record ce rec) as [e|r]; [done|]. intros Hstep. exists r. split; [done|].
  unfold Inv. rewrite cursor_after_snoc. unfold within_pass, raw_key.
  destruct (key_datetime r key) as [e|t]; [done|].
  destruct (dt_le t start).
  - destruct (getitem r key) as [e|raw] eqn:Hraw; [done|]. injection Hstep as <- <-.
    split; [done|]. by store.
  - injection Hstep as <- <-. by split.
Qed.

(** ** The loop of a chunked pass *)

Lemma strftime_ok t formatted :
  strftime t = inr formatted -> formatted = VStr (format_utc (dt_instant t)) /\ dt_offset t = 0%Z.
Proof. unfold strftime. case_bool_decide; [|done]. by intros [= <-]. Qed.

(** The watermark only moves forward. *)
Lemma watermark_after_ge key start rs cb :
  (dt_instant cb <= dt_instant (watermark_after key start rs cb))%Z.
Proof.
  induction rs as [|r rs IH] using rev_ind; [done|].
  rewrite watermark_after_snoc. simpl. destruct (key_datetime r key) as [e|t]; [done|].
  destruct (dt_le t start && dt_gt t _) eqn:Hc; [|done].
  apply andb_true_iff in Hc as [_ Hgt]. unfold dt_gt in Hgt. lia.
Qed.

(** The watermark is an upper bound of every key within the pass, and it is
    the start value or one of those keys. *)
Lemma watermark_after_max key start rs cb :
  (forall r t, r ∈ rs -> key_datetime r key = inr t -> dt_le t start = true ->
     (dt_instant t <= dt_instant (watermark_after key start rs cb))%Z) /\
  (watermark_after key start rs cb = cb \/
   exists r, r ∈ rs /\ key_datetime r key = inr (watermark_after key start rs cb) /\
             within_pass start key r = true).
Proof.
  induction rs as [|r rs [IHub IHin]] using rev_ind.
  - split; [by intros ?? []%elem_of_nil|by left].
  - rewrite watermark_after_snoc. simpl. unfold within_pass, dt_le, dt_gt in *. split.
    + intros r' t [Hin| ->%list_elem_of_singleton]%elem_of_app Ht Hle.
      * specialize (IHub r' t Hin Ht Hle). repeat case_match; simplify_eq; lia.
      * rewrite Ht. repeat case_match; simplify_eq; lia.
    + destruct (key_datetime r key) as [e|t] eqn:Ht.
      * destruct IHin as [->|(r' & ? & ? & ?)]; [by left|right].
        exists r'. by rewrite elem_of_app; eauto.
      * destruct ((_ <=? _)%Z && _) eqn:Hc.
        -- right. exists r. apply andb_true_iff in Hc as [Hle _].
           rewrite elem_of_app, list_elem_of_singleton, Ht. eauto.
        -- destruct IHin as [->|(r' & ? & ? & ?)]; [by left|right].
           exists r'. by rewrite elem_of_app; eauto.
Qed.

(** When the loop of a chunked pass over a keyed stream returns, the
    in-memory watermark is [watermark_after] of the emitted records,
    [JobHighestBookmarkSeen] holds it in the canonical format as soon as it
    moved, and the cursor bookmark is what it was. *)
Lemma sync_loop_chunked_fold sf ce ver start cb recs w cb' w' key :
  pk_chunking sf = true ->
  truthy_key (replication_key ce) = Some key ->
  key <> JOB_HIGHEST_BOOKMARK_SEEN ->
  sync_loop sf ce ver start cb recs w = (RET cb' IN w') ->
  exists rs, Forall2 (fun rec r => process_record ce rec = inr r) recs rs /\
    cb' = watermark_after key start rs cb /\
    get_bookmark (w_state w') (tap_stream_id ce) JOB_HIGHEST_BOOKMARK_SEEN =
      (if decide (cb' = cb)
       then get_bookmark (w_state w) (tap_stream_id ce) JOB_HIGHEST_BOOKMARK_SEEN
       else VStr (format_utc (dt_instant cb'))) /\
    get_bookmark (w_state w') (tap_stream_id ce) key =
      get_bookmark (w_state w) (tap_stream_id ce) key.
Proof.
  intros Hmode Hkey Hne Hrun.
  pose (Inv := fun rs cb1 w1 => cb1 = watermark_after key start rs cb /\
    get_bookmark (w_state w1) (tap_stream_id ce) JOB_HIGHEST_BOOKMARK_SEEN =
      (if decide (cb1 = cb)
       then get_bookmark (w_state w) (tap_stream_id ce) JOB_HIGHEST_BOOKMARK_SEEN
       else VStr (format_utc (dt_instant cb1))) /\
    get_bookmark (w_state w1) (tap_stream_id ce) key =
      get_bookmark (w_state w) (tap_stream_id ce) key).
  destruct (sync_loop_ok_ind Inv sf ce ver start) with (recs := recs)
    (rs := @nil value) (cb := cb) (w := w) (cb' := cb') (w' := w') as (rs & Hrs & Hinv);
    [|by unfold Inv; rewrite decide_True|done|by exists rs].
  clear Hrun. intros rs cb1 w1 rec cb2 w2 (-> & Hjob & Hcur).
  rewrite sync_record_run, Hmode, Hkey.
  destruct (process_record ce rec) as [e|r]; [done|]. intros Hstep. exists r. split; [done|].
  unfold Inv. rewrite watermark_after_snoc. simpl.
  destruct (key_datetime r key) as [e|t]; [done|].
  destruct (dt_le t start && dt_gt t _) eqn:Hc; [|by injection Hstep as <- <-].
  destruct (strftime t) as [e|formatted] eqn:Hfmt; [done|]. injection Hstep as <- <-.
  apply strftime_ok in Hfmt as [-> _]. apply andb_true_iff in Hc as [_ Hgt].
  pose proof (watermark_after_ge key start rs cb). unfold dt_gt in Hgt.
  store.
  rewrite decide_False by (intros ->; lia). done.
Qed.

(** C2: when a chunked pass returns, its watermark is at or beyond where
    it started and beyond every emitted key that lies within the pass, and
    it is where it started or one of those keys: the maximum. *)
Theorem sync_loop_chunked_max sf ce ver start cb recs w cb' w' key :
  pk_chunking sf = true ->
  truthy_key (replication_key ce) = Some key ->
  key <> JOB_HIGHEST_BOOKMARK_SEEN ->
  sync_loop sf ce ver start cb recs w = (RET cb' IN w') ->
  exists rs, Forall2 (fun rec r => process_record ce rec = inr r) recs rs /\
    (dt_instant cb <= dt_instant cb')%Z /\
    (forall r t, r ∈ rs -> key_datetime r key = inr t -> dt_le t start = true ->
       (dt_instant t <= dt_instant cb')%Z) /\
    (cb' = cb \/ exists r, r ∈ rs /\ key_datetime r key = inr cb' /\
                           within_pass start key r = true).
Proof.
  intros Hmode Hkey Hne Hrun.
  destruct (sync_loop_chunked_fold _ _ _ _ _ _ _ _ _ key Hmode Hkey Hne Hrun)
    as (rs & Hrs & -> & _).
  exists rs. split; [done|]. split; [apply watermark_after_ge|apply watermark_after_max].
Qed.

(** When a chunked pass returns, [JobHighestBookmarkSeen] holds the
    watermark in the canonical format if the watermark moved and is what it
    was otherwise; what it holds parses back to the watermark, and the
    cursor bookmark is what it was. *)
Lemma sync_loop_chunked_bookmarks sf ce ver start cb recs w cb' w' key :
  pk_chunking sf = true ->
  truthy_key (replication_key ce) = Some key ->
  key <> JOB_HIGHEST_BOOKMARK_SEEN ->
  sync_loop sf ce ver start cb recs w = (RET cb' IN w') ->
  get_bookmark (w_state w') (tap_stream_id ce) key =
    get_bookmark (w_state w) (tap_stream_id ce) key /\
  if decide (cb' = cb)
  then get_bookmark (w_state w') (tap_stream_id ce) JOB_HIGHEST_BOOKMARK_SEEN =
       get_bookmark (w_state w) (tap_stream_id ce) JOB_HIGHEST_BOOKMARK_SEEN
  else strptime_with_tz (get_bookmark (w_state w') (tap_stream_id ce) JOB_HIGHEST_BOOKMARK_SEEN)
       = inr (mk_datetime (dt_instant cb') 0).
Proof.
  intros Hmode Hkey Hne Hrun.
  destruct (sync_loop_chunked_fold _ _ _ _ _ _ _ _ _ key Hmode Hkey Hne Hrun)
    as (rs & _ & _ & Hjob & Hcur).
  split; [done|]. rewrite Hjob. case_decide; [done|].
  simpl. by rewrite parse_format_utc.
Qed.

(** ** The order of the source *)

(** The keys within the pass come in non-decreasing order. *)
Definition nondecreasing (key : string) (start : datetime) (rs : list value) : Prop :=
  forall i j ri rj ti tj, (i <= j)%nat -> rs !! i = Some ri -> rs !! j = Some rj ->
    key_datetime ri key = inr ti -> key_datetime rj key = inr tj ->
    dt_le ti start = true -> dt_le tj start = true ->
    (dt_instant ti <= dt_instant tj)%Z.

Lemma nondecreasing_snoc key start rs r :
  nondecreasing key start (rs ++ [r]) -> nondecreasing key start rs.
Proof.
  intros Hnd i j ri rj ti tj Hij Hi Hj. apply (Hnd i j ri rj ti tj Hij).
  - by apply lookup_app_l_Some.
  - by apply lookup_app_l_Some.
Qed.

(** Under that order the cursor is the largest key within the pass. *)
Lemma cursor_after_max key start rs c r t :
  nondecreasing key start rs ->
  r ∈ rs -> key_datetime r key = inr t -> dt_le t start = true ->
  exists t', strptime_with_tz (cursor_after key start rs c) = inr t' /\
             (dt_instant t <= dt_instant t')%Z.
Proof.
  revert r t. induction rs as [|r0 rs IH] using rev_ind; intros r t Hnd Hin Ht Hle.
  - by apply elem_of_nil in Hin.
  - rewrite cursor_after_snoc. unfold within_pass, raw_key.
    destruct (key_datetime r0 key) as [e|t0] eqn:Ht0.
    + apply elem_of_app in Hin as [Hin| ->%list_elem_of_singleton]; [|congruence].
      eapply IH; eauto using nondecreasing_snoc.
    + destruct (dt_le t0 start) eqn:Hle0.
      * destruct (key_datetime_getitem _ _ _ Ht0) as (raw & -> & Hraw). simpl.
        exists t0. split; [done|].
        apply list_elem_of_lookup in Hin as [i Hi].
        apply (Hnd i (length rs) r r0 t t0); auto.
        -- apply lookup_lt_Some in Hi. rewrite length_app in Hi. simpl in Hi. lia.
        -- by rewrite lookup_app_r, Nat.sub_diag.
      * apply elem_of_app in Hin as [Hin| ->%list_elem_of_singleton]; [|congruence].
        eapply IH; eauto using nondecreasing_snoc.
Qed.

(** When the keys of the emitted records that lie within the pass come
    in non-decreasing order, the cursor an unchunked pass leaves parses to
    an instant at or beyond each of them. *)
Lemma sync_loop_plain_max sf ce ver start cb recs w cb' w' key :
  pk_chunking sf = false ->
  truthy_key (replication_key ce) = Some key ->
  sync_loop sf ce ver start cb recs w = (RET cb' IN w') ->
  exists rs, Forall2 (fun rec r => process_record ce rec = inr r) recs rs /\
    (nondecreasing key start rs ->
     forall r t, r ∈ rs -> key_datetime r key = inr t -> dt_le t start = true ->
       exists t', strptime_with_tz (get_bookmark (w_state w') (tap_stream_id ce) key) = inr t' /\
                  (dt_instant t <= dt_instant t')%Z).
Proof.
  intros Hmode Hkey Hrun.
  destruct (sync_loop_plain_fold _ _ _ _ _ _ _ _ _ key Hmode Hkey Hrun) as (rs & Hrs & _ & ->).
  exists rs. split; [done|]. intros Hnd r t. by apply cursor_after_max.
Qed.

(** C30: the last record within the pass decides the cursor, whatever came
    before it: a source that yields an older key last moves the cursor
    back. *)
Theorem sync_loop_plain_last_wins sf ce ver start cb recs rec w cb' w' key r raw :
  pk_chunking sf = false ->
  truthy_key (replication_key ce) = Some key ->
  process_record ce rec = inr r ->
  within_pass start key r = true -> raw_key key r = Some raw ->
  sync_loop sf ce ver start cb (recs ++ [rec]) w = (RET cb' IN w') ->
  get_bookmark (w_state w') (tap_stream_id ce) key = raw.
Proof.
  intros Hmode Hkey Hr Hwithin Hraw Hrun.
  destruct (sync_loop_plain_fold _ _ _ _ _ _ _ _ _ key Hmode Hkey Hrun) as (rs & Hrs & _ & ->).
  apply Forall2_app_inv_l in Hrs as (rs1 & rs2 & _ & Hlast & ->).
  apply Forall2_cons_inv_l in Hlast as (r' & rs3 & Hr' & ->%Forall2_nil_inv_l & ->).
  rewrite cursor_after_snoc. assert (r' = r) as -> by congruence.
  by rewrite Hwithin, Hraw.
Qed.

(** ** What every pass emits *)

(** A returning step emitted its record and at most flushed one bookmark. *)
Lemma sync_record_ok_world sf ce ver start cb rec w cb' w' :
  sync_record sf ce ver start cb rec w = (RET cb' IN w') ->
  exists r, process_record ce rec = inr r /\
    let w1 := emit (RecordMessage (stream_name ce) r ver start) (count_one w) in
    w' = w1 \/ exists key v, w' = bookmark_and_flush (tap_stream_id ce) key v w1.
Proof.
  rewrite sync_record_run. destruct (process_record ce rec) as [e|r]; [done|].
  cbv zeta. intros Hrun. exists r. split; [done|].
  repeat case_match; simplify_eq; first [by left | right; by do 2 eexists].
Qed.

(** The trace of a loop that returns: one tagged record message per record
    of the source, in order, and the flushes in between. *)
Lemma sync_loop_trace sf ce ver start cb recs w cb' w' :
  sync_loop sf ce ver start cb recs w = (RET cb' IN w') ->
  exists rs trace, Forall2 (fun rec r => process_record ce rec = inr r) recs rs /\
    w_out w' = w_out w ++ trace /\ emitted trace = rs /\
    Forall (tagged ce ver start) trace /\
    w_count w' = w_count w + length recs /\ w_tick w' = w_tick w.
Proof.
  intros Hrun.
  pose (Inv := fun rs (cb1 : datetime) w1 => exists trace,
    w_out w1 = w_out w ++ trace /\ emitted trace = rs /\ Forall (tagged ce ver start) trace /\
    w_count w1 = w_count w + length rs /\ w_tick w1 = w_tick w).
  destruct (sync_loop_ok_ind Inv sf ce ver start) with (recs := recs)
    (rs := @nil value) (cb := cb) (w := w) (cb' := cb') (w' := w') as (rs & Hrs & Hinv);
    [|by exists []; rewrite app_nil_r|done|].
  - clear Hrun. intros rs cb1 w1 rec cb2 w2 (trace & Hout & Hem & Htag & Hcount & Htick) Hstep.
    apply sync_record_ok_world in Hstep as (r & Hr & [->|(k & v & ->)]);
      exists r; (split; [done|]).
    + exists (trace ++ [RecordMessage (stream_name ce) r ver start]). simpl.
      rewrite Hout, emitted_app, Hem, Forall_app, Forall_singleton, !length_app, app_assoc.
      simpl. repeat split; auto; lia.
    + exists (trace ++ [RecordMessage (stream_name ce) r ver start;
                        StateMessage (write_bookmark (w_state w1) (tap_stream_id ce) k v)]).
      simpl. rewrite Hout, emitted_app, Hem, Forall_app, !length_app, <- !app_assoc.
      simpl. repeat split; auto; try lia. by repeat constructor.
  - destruct Hinv as (trace & ? & ? & ? & Hcount & ?). exists rs, trace.
    rewrite (Forall2_length _ _ _ Hrs). by repeat split.
Qed.

(** When the loop returns, every record of the source was emitted
    once, in the order of the source, as the transformer and the repair left
    it; every message it wrote is a flush or a record tagged with the
    stream, the version and the start of the pass; the counter moved by the
    number of records. *)
Lemma sync_loop_emits sf ce ver start cb recs w cb' w' :
  sync_loop sf ce ver start cb recs w = (RET cb' IN w') ->
  exists rs, Forall2 (fun rec r => process_record ce rec = inr r) recs rs /\
    emitted (w_out w') = emitted (w_out w) ++ rs /\
    Forall (tagged ce ver start) (drop (length (w_out w)) (w_out w')) /\
    w_count w' = w_count w + length recs.
Proof.
  intros Hrun.
  destruct (sync_loop_trace _ _ _ _ _ _ _ _ _ Hrun) as (rs & trace & Hrs & -> & <- & Htag & ? & _).
  exists (emitted trace). by rewrite emitted_app, drop_app_length.
Qed.

(** ** What is flushed *)

Lemma sync_record_keeps_in_sync s0 sf ce ver start cb rec :
  se_keeps (in_sync s0) (sync_record sf ce ver start cb rec).
Proof.
  intros w Hw. rewrite sync_record_run.
  repeat case_match; simpl; auto with tap.
Qed.

(** At every exit of the loop, by return or by exception, the store in
    memory is the last store flushed: no bookmark written by the loop is
    held in memory only. *)
Lemma sync_loop_keeps_in_sync s0 sf ce ver start cb recs :
  se_keeps (in_sync s0) (sync_loop sf ce ver start cb recs).
Proof. apply sync_loop_keeps. intros. apply sync_record_keeps_in_sync. Qed.

(** ** The whole pass *)

(** The pass, in direct style. *)
Lemma sync_records_run sf ce w :
  sync_records sf ce w =
  match get_start_date sf (w_state w) ce ≫= strptime_with_tz,
        get_stream_version ce (w_state w) w with
  | inl e, _ => (EXN e IN w)
  | inr _, (inl e, w1) => (EXN e IN w1)
  | inr cb0, (inr ver, w1) =>
      match sync_loop sf ce ver (mk_datetime (clock_at (w_tick w1)) 0) cb0
              (query sf ce (w_state w)).1 (tick w1) with
      | (inl e, w2) => (EXN e IN w2)
      | (inr cb', w2) =>
          match (query sf ce (w_state w)).2 with
          | Some e => (EXN e IN w2)
          | None => finish_pass sf ce (ActivateVersionMessage (stream_name ce) ver) cb' w2
          end
      end
  end.
Proof.
  unfold sync_records. rewrite se_bind_run. unfold se_gets at 1.
  rewrite se_bind_run. unfold se_lift at 1.
  destruct (get_start_date sf (w_state w) ce) as [e|start_date]; [done|]. simpl.
  rewrite se_bind_run. unfold se_lift at 1.
  destruct (strptime_with_tz start_date) as [e|cb0]; [done|].
  rewrite se_bind_run.
  destruct (get_stream_version ce (w_state w) w) as [[e|ver] w1] eqn:Hver; [done|].
  pose proof (get_stream_version_world _ _ _ _ _ Hver) as (Hst & _).
  rewrite se_bind_run. unfold now at 1. rewrite se_bind_run. unfold se_gets at 1.
  change (w_state (tick w1)) with (w_state w1). rewrite Hst.
  destruct (query sf ce (w_state w)) as [recs failure]. rewrite se_bind_run. simpl.
  destruct (sync_loop _ _ _ _ _ _ _) as [[e|cb'] w2]; [done|].
  rewrite se_bind_run. by destruct failure.
Qed.

(** A pass that returns, taken apart. *)
Lemma sync_records_ok sf ce w w' :
  sync_records sf ce w = (RET tt IN w') ->
  exists start_date cb0 ver w1 recs cb' w2,
    get_start_date sf (w_state w) ce = inr start_date /\
    strptime_with_tz start_date = inr cb0 /\
    get_stream_version ce (w_state w) w = (RET ver IN w1) /\
    query sf ce (w_state w) = (recs, None) /\
    sync_loop sf ce ver (mk_datetime (clock_at (w_tick w1)) 0) cb0 recs (tick w1)
      = (RET cb' IN w2) /\
    finish_pass sf ce (ActivateVersionMessage (stream_name ce) ver) cb' w2 = (RET tt IN w').
Proof.
  rewrite sync_records_run.
  destruct (get_start_date sf (w_state w) ce) as [e|start_date]; [done|]. simpl.
  destruct (strptime_with_tz start_date) as [e|cb0] eqn:Hcb0; [done|].
  destruct (get_stream_version ce (w_state w) w) as [[e|ver] w1]; [done|].
  destruct (query sf ce (w_state w)) as [recs failure]. simpl.
  destruct (sync_loop _ _ _ _ _ _ _) as [[e|cb'] w2] eqn:Hloop; [done|].
  destruct failure as [e|]; [done|]. intros Hfin.
  by exists start_date, cb0, ver, w1, recs, cb', w2.
Qed.

(** The end of an unchunked pass: a stream without a replication key
    announces its version and forgets it. *)
Definition after_pass (ce : catalog_entry) (msg : message) (w : world) : world :=
  match truthy_key (replication_key ce) with
  | None => with_state (fun st => write_bookmark st (tap_stream_id ce) VERSION VNone) (emit msg w)
  | Some _ => w
  end.

Lemma finish_pass_plain_run sf ce msg cb w :
  pk_chunking sf = false -> finish_pass sf ce msg cb w = (RET tt IN (after_pass ce msg w)).
Proof.
  intros Hmode. unfold finish_pass, after_pass. rewrite Hmode, se_bind_run.
  destruct (truthy_key _); [done|]. by rewrite se_bind_run, write_message_run.
Qed.

(** The end of the pass writes the activation, when there is one, and
    nothing else, also when the promotion of the watermark raises. *)
Lemma finish_pass_out sf ce msg cb w :
  w_out (finish_pass sf ce msg cb w).2 = w_out (after_pass ce msg w).
Proof.
  unfold finish_pass, after_pass. rewrite se_bind_run.
  destruct (truthy_key _), (pk_chunking sf); simpl; rewrite ?se_bind_run, ?write_message_run;
    done.
Qed.

(** An unchunked pass that raises leaves in memory the store it flushed
    last: it raised before the end of the loop. *)
Lemma sync_records_raises_in_sync s0 sf ce w e w' :
  pk_chunking sf = false -> in_sync s0 w ->
  sync_records sf ce w = (EXN e IN w') -> in_sync s0 w'.
Proof.
  intros Hmode Hw. rewrite sync_records_run.
  destruct (_ ≫= strptime_with_tz) as [e0|cb0]; [by intros [= <- <-]|].
  destruct (get_stream_version ce (w_state w) w) as [rv w1] eqn:Hver.
  assert (in_sync s0 (tick w1)) as Hw1.
  { apply in_sync_tick.
    exact (se_keeps_run _ _ _ _ _ (get_stream_version_keeps _ ce _ (in_sync_tick s0)) Hw Hver). }
  destruct rv as [e0|ver]; [by intros [= <- <-]|].
  destruct (sync_loop _ _ _ _ _ _ _) as [rl w2] eqn:Hloop.
  pose proof (se_keeps_run _ _ _ _ _
    (sync_loop_keeps _ sf ce _ _ cb0 _ (sync_record_keeps_in_sync s0 sf ce _ _)) Hw1 Hloop).
  destruct rl as [e0|cb']; [by intros [= <- <-]|].
  destruct (query sf ce (w_state w)).2; [by intros [= <- <-]|].
  by rewrite finish_pass_plain_run.
Qed.

Lemma finish_pass_chunked_fails sf ce msg cb :
  pk_chunking sf = true -> se_fails (finish_pass sf ce msg cb).
Proof.
  intros Hmode. unfold finish_pass. rewrite Hmode.
  apply se_fails_bind_r. intros _. apply se_fails_bind_l. apply se_fails_lift.
Qed.

(** C8: with [pk_chunking] set, [sync_records] never returns: when the
    source and every record go through, the promotion of the watermark
    raises, because [singer_utils.strptime] is applied to a [datetime]. *)
Theorem sync_records_chunked_fails sf ce :
  pk_chunking sf = true -> se_fails (sync_records sf ce).
Proof.
  intros Hmode. pose proof (finish_pass_chunked_fails sf ce). unfold sync_records. fails.
Qed.

Lemma finish_pass_keeps_state P sf ce msg cb :
  (forall st, truthy_key (replication_key ce) = None -> P st ->
     P (write_bookmark st (tap_stream_id ce) VERSION VNone)) ->
  se_keeps (on_state P) (finish_pass sf ce msg cb).
Proof.
  intros Hver. unfold finish_pass. apply se_keeps_bind.
  - destruct (truthy_key _) eqn:Hkey; keeps.
    apply se_keeps_write_bookmark_m. intros w Hw. unfold on_state. simpl. auto.
  - intros _. destruct (pk_chunking sf); [|keeps].
    apply se_keeps_bind_fails; [apply se_fails_lift|keeps].
Qed.

(** C1: an unchunked pass over a keyed stream that returns leaves, as the
    cursor bookmark, [cursor_after] of the records it emitted, for the
    start time it read from the clock. *)
Theorem sync_records_plain_cursor sf ce w w' key :
  pk_chunking sf = false ->
  truthy_key (replication_key ce) = Some key ->
  sync_records sf ce w = (RET tt IN w') ->
  exists recs rs n, query sf ce (w_state w) = (recs, None) /\
    Forall2 (fun rec r => process_record ce rec = inr r) recs rs /\
    (w_tick w <= n)%nat /\
    get_bookmark (w_state w') (tap_stream_id ce) key =
    cursor_after key (mk_datetime (clock_at n) 0) rs
      (get_bookmark (w_state w) (tap_stream_id ce) key).
Proof.
  intros Hmode Hkey Hrun.
  apply sync_records_ok in Hrun as (sd & cb0 & ver & w1 & recs & cb' & w2 &
    _ & _ & Hver & Hq & Hloop & Hfin).
  apply get_stream_version_world in Hver as (Hst & _ & _ & Htick).
  destruct (sync_loop_plain_fold _ _ _ _ _ _ _ _ _ key Hmode Hkey Hloop) as (rs & Hrs & _ & Hcur).
  rewrite finish_pass_plain_run in Hfin by done. unfold after_pass in Hfin.
  rewrite Hkey in Hfin. injection Hfin as <-.
  exists recs, rs, (w_tick w1). simpl in Hcur. by rewrite Hst in Hcur.
Qed.

(** C31: a pass over a stream without a replication key that returns has
    emitted its records and then one [ActivateVersionMessage] with the
    version of the pass, a reading of the clock; the store is what it was
    but for the [version] bookmark, now [None]. *)
Theorem sync_records_unkeyed sf ce w w' :
  pk_chunking sf = false ->
  truthy_key (replication_key ce) = None ->
  sync_records sf ce w = (RET tt IN w') ->
  exists n start trace,
    w_out w' = w_out w ++ trace ++ [ActivateVersionMessage (stream_name ce) (VInt (ms_at n))] /\
    Forall (tagged ce (VInt (ms_at n)) start) trace /\ (w_tick w <= n)%nat /\
    w_state w' = write_bookmark (w_state w) (tap_stream_id ce) VERSION VNone.
Proof.
  intros Hmode Hkey Hrun.
  apply sync_records_ok in Hrun as (sd & cb0 & ver & w1 & recs & cb' & w2 &
    _ & _ & Hver & Hq & Hloop & Hfin).
  pose proof (get_stream_version_world _ _ _ _ _ Hver) as (Hst & Hout & _ & _).
  apply get_stream_version_cases in Hver as [(_ & _ & [? ?])|(n & Hn & ->)]; [congruence|].
  pose proof (sync_loop_trace _ _ _ _ _ _ _ _ _ Hloop) as (rs & trace & _ & Htrace & _ & Htag & _).
  assert (w_state w2 = w_state w) as Hst2.
  { rewrite <- Hst.
    apply (se_keeps_run (on_state (fun st => st = w_state w1)) _ _ _ _
             (sync_loop_keeps _ sf ce _ _ cb0 recs
                (fun cb rec => sync_record_keeps_state _ sf ce _ _ cb rec
                   ltac:(intros; congruence) ltac:(intros; congruence)))
             (eq_refl : on_state _ (tick w1)) Hloop). }
  rewrite finish_pass_plain_run in Hfin by done. unfold after_pass in Hfin.
  rewrite Hkey in Hfin. injection Hfin as <-.
  exists n, (mk_datetime (clock_at (w_tick w1)) 0), trace. simpl.
  rewrite Htrace, Hst2. simpl. rewrite Hout, <- app_assoc. repeat split; auto. lia.
Qed.

(** ** A pass on a source that delivers *)

(** The record has a key that parses, when the stream has a key at all. *)
Definition keyed (ce : catalog_entry) (r : value) : Prop :=
  match truthy_key (replication_key ce) with
  | Some key => is_ok (key_datetime r key) = true
  | None => True
  end.

Lemma sync_loop_plain_total sf ce ver start recs rs cb w :
  pk_chunking sf = false ->
  Forall2 (fun rec r => process_record ce rec = inr r) recs rs ->
  Forall (keyed ce) rs ->
  is_ok (sync_loop sf ce ver start cb recs w).1 = true.
Proof.
  intros Hmode Hrs. revert cb w.
  induction Hrs as [|rec r recs rs Hr _ IH]; intros cb w Hkeys; [done|].
  apply Forall_cons in Hkeys as [Hkey Hkeys]. simpl.
  rewrite se_bind_run, sync_record_run, Hr, Hmode. cbv zeta. unfold keyed in Hkey.
  destruct (truthy_key _) as [key|]; [|by apply IH].
  destruct (key_datetime r key) as [e|t] eqn:Ht; [done|].
  destruct (key_datetime_getitem _ _ _ Ht) as (raw & -> & _).
  destruct (dt_le t start); by apply IH.
Qed.

(** An unchunked pass returns when the start date parses, the source
    yields its records without failing, and every record goes through the
    transformer and the repair and carries a key that parses. *)
Lemma sync_records_total sf ce w recs rs :
  pk_chunking sf = false ->
  is_ok (get_start_date sf (w_state w) ce ≫= strptime_with_tz) = true ->
  query sf ce (w_state w) = (recs, None) ->
  Forall2 (fun rec r => process_record ce rec = inr r) recs rs ->
  Forall (keyed ce) rs ->
  is_ok (sync_records sf ce w).1 = true.
Proof.
  intros Hmode Hstart Hq Hrs Hkeys. rewrite sync_records_run, Hq.
  destruct (_ ≫= strptime_with_tz) as [e|cb0]; [done|].
  rewrite get_stream_version_run. cbv zeta.
  pose proof (fun ver w1 => sync_loop_plain_total sf ce ver
                (mk_datetime (clock_at (w_tick w1)) 0) recs rs cb0 (tick w1) Hmode Hrs Hkeys)
    as Hloop.
  destruct (truthy_key _), (truthy _); simpl;
    match goal with |- context [sync_loop _ _ ?ver _ _ _ (tick ?w1)] =>
      specialize (Hloop ver w1); destruct (sync_loop _ _ _ _ _ _ _) as [[?|?] ?]; [done|];
      by rewrite finish_pass_plain_run end.
Qed.

(** A turn of the loop that returns went through the transformer and the
    repair and found a key that parses. *)
Lemma sync_record_ok_keyed sf ce ver start cb rec w cb' w' :
  sync_record sf ce ver start cb rec w = (RET cb' IN w') ->
  exists r, process_record ce rec = inr r /\ keyed ce r.
Proof.
  rewrite sync_record_run. destruct (process_record ce rec) as [e|r]; [done|].
  cbv zeta. intros Hrun. exists r. split; [done|]. unfold keyed.
  destruct (truthy_key _) as [key|]; [|done]. by destruct (key_datetime r key).
Qed.

Lemma sync_loop_ok_keyed sf ce ver start cb recs w cb' w' :
  sync_loop sf ce ver start cb recs w = (RET cb' IN w') ->
  exists rs, Forall2 (fun rec r => process_record ce rec = inr r) recs rs /\
    Forall (keyed ce) rs.
Proof.
  revert cb w. induction recs as [|rec recs IH]; intros cb w Hrun; simpl in Hrun.
  { exists []. by split. }
  apply se_bind_inv_ok in Hrun as (cb1 & w1 & Hrec & Hrest).
  apply sync_record_ok_keyed in Hrec as (r & Hr & Hkey).
  apply IH in Hrest as (rs & Hrs & Hkeys). exists (r :: rs). split; by constructor.
Qed.

(** C24: an unchunked pass returns exactly when the start date parses, the
    source yields its records without failing, and every record goes
    through the transformer and the repair and carries a key that parses.
    Any other record makes the pass raise, after it was written. *)
Theorem sync_records_returns_iff sf ce w :
  pk_chunking sf = false ->
  is_ok (sync_records sf ce w).1 = true <->
  is_ok (get_start_date sf (w_state w) ce ≫= strptime_with_tz) = true /\
  (query sf ce (w_state w)).2 = None /\
  exists rs,
    Forall2 (fun rec r => process_record ce rec = inr r) (query sf ce (w_state w)).1 rs /\
    Forall (keyed ce) rs.
Proof.
  intros Hmode. split.
  - destruct (sync_records sf ce w) as [[e|[]] w'] eqn:Hrun; [done|]. intros _.
    apply sync_records_ok in Hrun
      as (sd & cb0 & ver & w1 & recs & cb' & w2 & -> & Hcb0 & _ & -> & Hloop & _).
    simpl. rewrite Hcb0. split; [done|]. split; [done|]. by apply sync_loop_ok_keyed in Hloop.
  - intros (Hstart & Hfail & rs & Hrs & Hkeys).
    destruct (query sf ce (w_state w)) as [recs failure] eqn:Hq. simpl in *. subst failure.
    by apply (sync_records_total sf ce w recs rs).
Qed.

(** ** Emitted first, recorded after *)

(** What a flush records for the record [r]: its key as it is when the
    pass is unchunked, its key in the canonical format when it is chunked. *)
Definition checkpoint_of (sf : salesforce) (key : string) (r : value) : option (string * value) :=
  if pk_chunking sf
  then match key_datetime r key with
       | inr t => Some (JOB_HIGHEST_BOOKMARK_SEEN, VStr (format_utc (dt_instant t)))
       | inl _ => None
       end
  else match raw_key key r with
       | Some raw => Some (key, raw)
       | None => None
       end.

(** Every flush of the trace records the record written just before it;
    [last] is the record written last before the trace. *)
Fixpoint recorded_after_emitted (sf : salesforce) (id key : string) (last : option value)
    (trace : list message) : Prop :=
  match trace with
  | [] => True
  | RecordMessage _ r _ _ :: trace' => recorded_after_emitted sf id key (Some r) trace'
  | ActivateVersionMessage _ _ :: trace' => recorded_after_emitted sf id key last trace'
  | StateMessage st :: trace' =>
      (exists r field v, last = Some r /\ checkpoint_of sf key r = Some (field, v) /\
         get_bookmark st id field = v) /\
      recorded_after_emitted sf id key last trace'
  end.

Lemma recorded_after_emitted_app sf id key last trace1 trace2 :
  recorded_after_emitted sf id key last trace1 ->
  (forall last', recorded_after_emitted sf id key last' trace2) ->
  recorded_after_emitted sf id key last (trace1 ++ trace2).
Proof.
  intros Htrace1 Htrace2. revert last Htrace1.
  induction trace1 as [|[name r ver t|name ver|st] trace1 IH]; intros last; simpl; auto.
  intros [Hst Htrace1]. auto.
Qed.

(** What holds of a trace holds of what was written of it when it was cut. *)
Lemma recorded_after_emitted_prefix sf id key last trace1 trace2 :
  recorded_after_emitted sf id key last (trace1 ++ trace2) ->
  recorded_after_emitted sf id key last trace1.
Proof.
  revert last. induction trace1 as [|[name r ver t|name ver|st] trace1 IH]; intros last; simpl;
    auto.
  intros [Hst Htrace]. auto.
Qed.

(** One record writes the record, then at most the flush that records it. *)
Lemma sync_record_recorded sf ce ver start cb rec w r w' key :
  truthy_key (replication_key ce) = Some key ->
  sync_record sf ce ver start cb rec w = (r, w') ->
  exists trace, w_out w' = w_out w ++ trace /\
    forall last, recorded_after_emitted sf (tap_stream_id ce) key last trace.
Proof.
  intros Hkey. rewrite sync_record_run, Hkey. unfold checkpoint_of.
  destruct (process_record ce rec) as [e|r1];
    [intros [= <- <-]; exists []; by rewrite app_nil_r|].
  cbv zeta. destruct (key_datetime r1 key) as [e|t] eqn:Ht;
    [intros [= <- <-]; by exists [RecordMessage (stream_name ce) r1 ver start]|].
  assert (forall field v, checkpoint_of sf key r1 = Some (field, v) ->
    exists trace, w_out (bookmark_and_flush (tap_stream_id ce) field v
                           (emit (RecordMessage (stream_name ce) r1 ver start) (count_one w)))
                  = w_out w ++ trace /\
      forall last, recorded_after_emitted sf (tap_stream_id ce) key last trace) as Hflush.
  { intros field v Hcp. eexists [_; _]. simpl. rewrite <- app_assoc. split; [done|].
    intros last. split; [|done]. exists r1, field, v. by store. }
  unfold checkpoint_of, raw_key in Hflush. rewrite Ht in Hflush.
  destruct (pk_chunking sf).
  - destruct (_ && _); [|intros [= <- <-]; by exists [RecordMessage (stream_name ce) r1 ver start]].
    destruct (strftime t) as [e|formatted] eqn:Hfmt;
      [intros [= <- <-]; by exists [RecordMessage (stream_name ce) r1 ver start]|].
    apply strftime_ok in Hfmt as [-> _]. intros [= <- <-]. by apply Hflush.
  - destruct (dt_le t start); [|intros [= <- <-]; by exists [RecordMessage (stream_name ce) r1 ver start]].
    destruct (getitem r1 key) as [e|raw];
      [intros [= <- <-]; by exists [RecordMessage (stream_name ce) r1 ver start]|].
    intros [= <- <-]. by apply Hflush.
Qed.

(** Whatever the outcome of the loop on an output that takes every
    message, every store it flushes records the record written just before
    the flush. *)
Lemma sync_loop_recorded sf ce ver start cb recs w r w' key :
  truthy_key (replication_key ce) = Some key ->
  sync_loop sf ce ver start cb recs w = (r, w') ->
  exists trace, w_out w' = w_out w ++ trace /\
    forall last, recorded_after_emitted sf (tap_stream_id ce) key last trace.
Proof.
  intros Hkey. revert cb w. induction recs as [|rec recs IH]; intros cb w; simpl.
  - intros [= <- <-]. exists []. by rewrite app_nil_r.
  - rewrite se_bind_run. destruct (sync_record _ _ _ _ _ _ _) as [r1 w1] eqn:Hrec.
    destruct (sync_record_recorded _ _ _ _ _ _ _ _ _ _ Hkey Hrec) as (trace1 & Hout1 & Hrec1).
    destruct r1 as [e|cb1]; [intros [= <- <-]; by exists trace1|].
    intros Hloop. destruct (IH _ _ Hloop) as (trace2 & Hout2 & Hrec2).
    exists (trace1 ++ trace2). rewrite Hout2, Hout1, <- app_assoc. split; [done|].
    intros last. by apply recorded_after_emitted_app.
Qed.

End SyncRecords.

(** ** Witnesses, on the collaborators of Fixtures.v

    Three records, the second older than the first, in a pass that starts at
    1 700 000 000 s from a start date of 1 500 000 000 s. *)

Section SyncRecordsWitnesses.
#[local] Existing Instance fixture_clock.
#[local] Existing Instance reliable_emitter.

Definition chunked_source : salesforce := fixed_source true (three_accounts, None) [].
Definition plain_source : salesforce := fixed_source false (three_accounts, None) [].

Definition pass_start : datetime := mk_datetime 1700000000000000 0.
Definition pass_from : datetime := mk_datetime 1500000000000000 0.

Definition chunked_loop : (exn + datetime) * world :=
  sync_loop chunked_source account_entry (VInt 1) pass_start pass_from three_accounts (world0 ∅).

Definition plain_loop : (exn + datetime) * world :=
  sync_loop plain_source account_entry (VInt 1) pass_start pass_from three_accounts (world0 ∅).

Definition plain_pass : (exn + unit) * world :=
  sync_records plain_source account_entry (world0 ∅).

Definition full_table_pass : (exn + unit) * world :=
  sync_records plain_source account_full_table (world0 ∅).

Lemma chunked_loop_returns :
  chunked_loop = (RET (mk_datetime 1650000000000000 0) IN chunked_loop.2).
Proof. by vm_compute. Qed.

Lemma plain_loop_returns : plain_loop = (RET pass_from IN plain_loop.2).
Proof. by vm_compute. Qed.

Lemma plain_pass_returns : plain_pass = (RET tt IN plain_pass.2).
Proof. by vm_compute. Qed.

Lemma full_table_pass_returns : full_table_pass = (RET tt IN full_table_pass.2).
Proof. by vm_compute. Qed.

Lemma sync_loop_chunked_max_witness :
  exists rs, Forall2 (fun rec r => process_record account_entry rec = inr r) three_accounts rs /\
    (dt_instant pass_from <= 1650000000000000)%Z /\
    (forall r t, r ∈ rs -> key_datetime r "SystemModstamp" = inr t -> dt_le t pass_start = true ->
       (dt_instant t <= 1650000000000000)%Z) /\
    (mk_datetime 1650000000000000 0 = pass_from \/
     exists r, r ∈ rs /\ key_datetime r "SystemModstamp" = inr (mk_datetime 1650000000000000 0) /\
               within_pass pass_start "SystemModstamp" r = true).
Proof.
  exact (sync_loop_chunked_max chunked_source account_entry (VInt 1) pass_start pass_from
           three_accounts (world0 ∅) (mk_datetime 1650000000000000 0) chunked_loop.2
           "SystemModstamp" eq_refl eq_refl ltac:(discriminate) chunked_loop_returns).
Defined.

Example sync_loop_chunked_bookmarks_example :
  get_bookmark (w_state chunked_loop.2) "Account" "SystemModstamp" =
    get_bookmark ∅ "Account" "SystemModstamp" /\
  if decide (mk_datetime 1650000000000000 0 = pass_from)
  then get_bookmark (w_state chunked_loop.2) "Account" JOB_HIGHEST_BOOKMARK_SEEN =
       get_bookmark ∅ "Account" JOB_HIGHEST_BOOKMARK_SEEN
  else strptime_with_tz (get_bookmark (w_state chunked_loop.2) "Account" JOB_HIGHEST_BOOKMARK_SEEN)
       = inr (mk_datetime 1650000000000000 0).
Proof.
  exact (sync_loop_chunked_bookmarks chunked_source account_entry (VInt 1) pass_start pass_from
           three_accounts (world0 ∅) (mk_datetime 1650000000000000 0) chunked_loop.2
           "SystemModstamp" eq_refl eq_refl ltac:(discriminate) chunked_loop_returns).
Defined.

Example sync_loop_plain_max_example :
  exists rs, Forall2 (fun rec r => process_record account_entry rec = inr r) three_accounts rs /\
    (nondecreasing "SystemModstamp" pass_start rs ->
     forall r t, r ∈ rs -> key_datetime r "SystemModstamp" = inr t -> dt_le t pass_start = true ->
       exists t', strptime_with_tz (get_bookmark (w_state plain_loop.2) "Account" "SystemModstamp")
                  = inr t' /\ (dt_instant t <= dt_instant t')%Z).
Proof.
  exact (sync_loop_plain_max plain_source account_entry (VInt 1) pass_start pass_from
           three_accounts (world0 ∅) pass_from plain_loop.2 "SystemModstamp"
           eq_refl eq_refl plain_loop_returns).
Defined.

(** The second record is older than the first: the cursor moves back. *)
Definition backward_loop : (exn + datetime) * world :=
  sync_loop plain_source account_entry (VInt 1) pass_start pass_from
    ([account "001" "1600000000000000" "42"] ++ [account "002" "1550000000000000" "true"])
    (world0 ∅).

Lemma backward_loop_returns : backward_loop = (RET pass_from IN backward_loop.2).
Proof. by vm_compute. Qed.

Lemma older_account_processed :
  process_record account_entry (account "002" "1550000000000000" "true")
  = inr (account_out "002" "1550000000000000" (VBool true)).
Proof. by vm_compute. Qed.

Lemma older_account_within_pass :
  within_pass pass_start "SystemModstamp" (account_out "002" "1550000000000000" (VBool true))
  = true.
Proof. by vm_compute. Qed.

Lemma sync_loop_plain_last_wins_witness :
  get_bookmark (w_state backward_loop.2) "Account" "SystemModstamp" = VStr "1550000000000000".
Proof.
  exact (sync_loop_plain_last_wins plain_source account_entry (VInt 1) pass_start pass_from
           [account "001" "1600000000000000" "42"] (account "002" "1550000000000000" "true")
           (world0 ∅) pass_from backward_loop.2 "SystemModstamp"
           (account_out "002" "1550000000000000" (VBool true)) (VStr "1550000000000000")
           eq_refl eq_refl older_account_processed older_account_within_pass eq_refl
           backward_loop_returns).
Defined.

Example sync_loop_emits_example :
  exists rs, Forall2 (fun rec r => process_record account_entry rec = inr r) three_accounts rs /\
    emitted (w_out plain_loop.2) = emitted (w_out (world0 ∅)) ++ rs /\
    Forall (tagged account_entry (VInt 1) pass_start)
           (drop (length (w_out (world0 ∅))) (w_out plain_loop.2)) /\
    w_count plain_loop.2 = (w_count (world0 ∅) + length three_accounts)%nat.
Proof.
  exact (sync_loop_emits plain_source account_entry (VInt 1) pass_start pass_from
           three_accounts (world0 ∅) pass_from plain_loop.2 plain_loop_returns).
Defined.

Lemma sync_records_chunked_fails_witness :
  se_fails (sync_records chunked_source account_entry).
Proof. exact (sync_records_chunked_fails chunked_source account_entry eq_refl). Defined.

Lemma sync_records_plain_cursor_witness :
  exists recs rs n, query plain_source account_entry ∅ = (recs, None) /\
    Forall2 (fun rec r => process_record account_entry rec = inr r) recs rs /\
    (0 <= n)%nat /\
    get_bookmark (w_state plain_pass.2) "Account" "SystemModstamp" =
    cursor_after "SystemModstamp" (mk_datetime (clock_at n) 0) rs
      (get_bookmark ∅ "Account" "SystemModstamp").
Proof.
  exact (sync_records_plain_cursor plain_source account_entry (world0 ∅) plain_pass.2
           "SystemModstamp" eq_refl eq_refl plain_pass_returns).
Defined.

Lemma sync_records_unkeyed_witness :
  exists n start trace,
    w_out full_table_pass.2
    = w_out (world0 ∅) ++ trace ++ [ActivateVersionMessage "Account" (VInt (ms_at n))] /\
    Forall (tagged account_full_table (VInt (ms_at n)) start) trace /\ (0 <= n)%nat /\
    w_state full_table_pass.2 = write_bookmark ∅ "Account" VERSION VNone.
Proof.
  exact (sync_records_unkeyed plain_source account_full_table (world0 ∅) full_table_pass.2
           eq_refl eq_refl full_table_pass_returns).
Defined.

Definition three_accounts_out : list value :=
  [account_out "001" "1600000000000000" (VFloat (FFin false 0x15000000000000 (-47)));
   account_out "002" "1550000000000000" (VBool true);
   account_out "003" "1650000000000000" VNone].

Lemma three_accounts_processed :
  Forall2 (fun rec r => process_record account_entry rec = inr r) three_accounts
    three_accounts_out.
Proof. by repeat constructor. Qed.

Lemma three_accounts_keyed : Forall (keyed account_entry) three_accounts_out.
Proof. by repeat constructor. Qed.

Example sync_records_total_example :
  is_ok (sync_records plain_source account_entry (world0 ∅)).1 = true.
Proof.
  exact (sync_records_total plain_source account_entry (world0 ∅) three_accounts
           three_accounts_out eq_refl eq_refl eq_refl three_accounts_processed
           three_accounts_keyed).
Qed.

Lemma sync_records_returns_iff_witness :
  let w := world0 ∅ in
  is_ok (sync_records plain_source account_entry w).1 = true <->
  is_ok (get_start_date plain_source (w_state w) account_entry ≫= strptime_with_tz) = true /\
  (query plain_source account_entry (w_state w)).2 = None /\
  exists rs,
    Forall2 (fun rec r => process_record account_entry rec = inr r)
      (query plain_source account_entry (w_state w)).1 rs /\
    Forall (keyed account_entry) rs.
Proof. exact (sync_records_returns_iff plain_source account_entry (world0 ∅) eq_refl). Defined.

(** A record whose key does not parse: it is written, and the pass raises. *)
Example unparsable_key_raises :
  let source := fixed_source false ([account "001" "yesterday" "x"], None) [] in
  let run := sync_records source account_entry (world0 ∅) in
  is_ok run.1 = false /\ length (emitted (w_out run.2)) = 1%nat.
Proof. by vm_compute. Qed.

End SyncRecordsWitnesses.
