(* ===== verification/Resume.v ===== *)
(** * The resumable batch-job driver

    [resume_syncing_bulk_query]: drains the batches still listed under
    [BatchIDs] for an in-progress bulk job, one after the other, and after
    each of them records the high watermark, takes the batch off the list
    and flushes the store. *)

From Stdlib Require Import ZArith String Ascii List Lia.
From stdpp Require Import base option list strings gmap.
From S2P Require Import Prelude PyValue PyNumber Bookmarks Runtime PostProcess Fixtures Version SyncRecords.

(** [batch_ids[:]]: a copy of a list, the characters of a string; anything
    else has no slice. *)
Definition slice_all (v : value) : result (list value) :=
  match v with
  | VList l => mret l
  | VStr s => mret ((fun c => VStr (String c "")) <$> list_ascii_of_string s)
  | _ => raise_ TypeError "object is not subscriptable"
  end.

(** [batch_ids.remove(batch_id)].  [batch_ids] is the very list the store
    holds under [BatchIDs]: the removal shows in the store. *)
Definition remove_batch_id (tap_stream_id : string) (batch_id : value) : M unit :=
  fun w =>
    match get_bookmark (w_state w) tap_stream_id BATCH_IDS with
    | VList l =>
        match list_remove value_eqb batch_id l with
        | Some l' =>
            (inr tt, with_state (fun st => write_bookmark st tap_stream_id BATCH_IDS (VList l')) w)
        | None => (raise_ ValueError "list.remove(x): x not in list", w)
        end
    | _ => (raise_ AttributeError "object has no attribute 'remove'", w)
    end.

Section Resume.
Context `{Clock} `{TimeCodec} `{Transformer} {emitter : Emitter} `{!Reliable}.

(** The body of the inner loop: emit the record, then move the in-memory
    watermark when the record's key is within the pass and beyond it. *)
Definition resume_record (ce : catalog_entry) (stream_version : value)
    (start_time current_bookmark : datetime) (rec : value) : M datetime :=
  rec ← emit_record ce stream_version start_time rec;
  match truthy_key (replication_key ce) with
  | None => mret current_bookmark
  | Some key =>
      replication_key_value ← se_lift (key_datetime rec key);
      if dt_le replication_key_value start_time && dt_gt replication_key_value current_bookmark
      then se_lift (key_datetime rec key)
      else mret current_bookmark
  end.

(** [for rec in bulk.get_batch_results(job_id, batch_id, catalog_entry): ...]. *)
Fixpoint drain_batch (ce : catalog_entry) (stream_version : value)
    (start_time current_bookmark : datetime) (recs : list value) : M datetime :=
  match recs with
  | [] => mret current_bookmark
  | rec :: recs' =>
      current_bookmark ← resume_record ce stream_version start_time current_bookmark rec;
      drain_batch ce stream_version start_time current_bookmark recs'
  end.

(** After a batch: watermark, removal, flush, in that order. *)
Definition finish_batch (ce : catalog_entry) (batch_id : value) (current_bookmark : datetime)
    : M unit :=
  formatted ← se_lift (strftime current_bookmark);
  state ← write_bookmark_m (tap_stream_id ce) JOB_HIGHEST_BOOKMARK_SEEN formatted;
  remove_batch_id (tap_stream_id ce) batch_id;;
  state ← se_gets w_state;
  write_state state.

(** [for batch_id in batch_ids[:]: ...]. *)
Fixpoint drain_batches (sf : salesforce) (ce : catalog_entry) (job_id stream_version : value)
    (start_time current_bookmark : datetime) (batches : list value) : M datetime :=
  match batches with
  | [] => mret current_bookmark
  | batch_id :: batches' =>
      let '(recs, failure) := get_batch_results sf job_id batch_id ce in
      current_bookmark ← drain_batch ce stream_version start_time current_bookmark recs;
      end_of_stream failure;;
      finish_batch ce batch_id current_bookmark;;
      drain_batches sf ce job_id stream_version start_time current_bookmark batches'
  end.

(** [resume_syncing_bulk_query(sf, catalog_entry, job_id, state, counter)]. *)
Definition resume_syncing_bulk_query (sf : salesforce) (ce : catalog_entry) (job_id : value)
    : M nat :=
  state ← se_gets w_state;
  let bookmarked := get_bookmark state (tap_stream_id ce) JOB_HIGHEST_BOOKMARK_SEEN in
  current_bookmark ←
    (if truthy bookmarked then mret bookmarked else se_lift (get_start_date sf state ce));
  current_bookmark ← se_lift (strptime_with_tz current_bookmark);
  let batch_ids := get_bookmark state (tap_stream_id ce) BATCH_IDS in
  start_time ← now;
  stream_version ← get_stream_version ce state;
  batches ← se_lift (slice_all batch_ids);
  drain_batches sf ce job_id stream_version start_time current_bookmark batches;;
  se_gets w_count.

(** ** Reference definitions *)

(** The watermark after the records [rs], for any stream: it does not move
    when the stream has no replication key. *)
Definition watermark_of (ce : catalog_entry) (start : datetime) (rs : list value)
    (cb : datetime) : datetime :=
  match truthy_key (replication_key ce) with
  | Some key => watermark_after key start rs cb
  | None => cb
  end.

(** The world after the records [rs] were emitted. *)
Definition after_records (ce : catalog_entry) (ver : value) (start : datetime)
    (rs : list value) (w : world) : world :=
  mk_world (w_state w) (w_out w ++ ((fun r => RecordMessage (stream_name ce) r ver start) <$> rs))
           (w_count w + length rs) (w_tick w).

(** The world after a batch is done: both bookmarks written, then flushed. *)
Definition after_batch (ce : catalog_entry) (formatted : value) (rest : list value) (w : world)
    : world :=
  let st := write_bookmark
              (write_bookmark (w_state w) (tap_stream_id ce) JOB_HIGHEST_BOOKMARK_SEEN formatted)
              (tap_stream_id ce) BATCH_IDS (VList rest) in
  emit (StateMessage st) (with_state (fun _ => st) w).

(** ** One batch, in direct style *)

Lemma resume_record_run ce ver start cb rec w :
  resume_record ce ver start cb rec w =
  match process_record ce rec with
  | inl e => (EXN e IN (count_one w))
  | inr r =>
      let w1 := emit (RecordMessage (stream_name ce) r ver start) (count_one w) in
      match truthy_key (replication_key ce) with
      | None => (RET cb IN w1)
      | Some key =>
          match key_datetime r key with
          | inl e => (EXN e IN w1)
          | inr t => (RET (if dt_le t start && dt_gt t cb then t else cb) IN w1)
          end
      end
  end.
Proof.
  unfold resume_record. rewrite se_bind_run, emit_record_run.
  destruct (process_record ce rec) as [e|r]; [done|]. simpl.
  destruct (truthy_key _) as [key|]; [|done].
  rewrite se_bind_run. unfold se_lift.
  destruct (key_datetime r key) as [e|t] eqn:Ht; [done|].
  by destruct (dt_le t start && dt_gt t cb).
Qed.

Lemma after_records_cons ce ver start r rs w :
  after_records ce ver start rs (emit (RecordMessage (stream_name ce) r ver start) (count_one w))
  = after_records ce ver start (r :: rs) w.
Proof.
  unfold after_records. simpl. rewrite <- app_assoc. f_equal. lia.
Qed.

(** A batch that is drained emitted its records, moved the watermark and
    left the store alone. *)
Lemma drain_batch_ok ce ver start recs cb w cb' w' :
  drain_batch ce ver start cb recs w = (RET cb' IN w') ->
  exists rs, Forall2 (fun rec r => process_record ce rec = inr r) recs rs /\
    cb' = watermark_of ce start rs cb /\ w' = after_records ce ver start rs w.
Proof.
  revert cb w. induction recs as [|rec recs IH]; intros cb w Hrun; simpl in Hrun.
  - injection Hrun as <- <-. exists []. split; [done|]. split.
    + unfold watermark_of. by destruct (truthy_key _).
    + unfold after_records. destruct w. simpl. by rewrite app_nil_r, Nat.add_0_r.
  - apply se_bind_inv_ok in Hrun as (cb1 & w1 & Hrec & Hrest).
    apply IH in Hrest as (rs & Hrs & -> & ->). rewrite resume_record_run in Hrec.
    destruct (process_record ce rec) as [e|r] eqn:Hr; [done|]. cbv zeta in Hrec.
    exists (r :: rs). split; [by constructor|]. unfold watermark_of in *.
    destruct (truthy_key _) as [key|].
    + destruct (key_datetime r key) as [e|t] eqn:Ht; [done|]. injection Hrec as <- <-.
      split; [|apply after_records_cons]. simpl. by rewrite Ht.
    + injection Hrec as <- <-. split; [done|apply after_records_cons].
Qed.

Lemma drain_batch_keeps_state P ce ver start cb recs :
  se_keeps (on_state P) (drain_batch ce ver start cb recs).
Proof.
  revert cb. induction recs as [|rec recs IH]; intros cb; simpl; [keeps|].
  apply se_keeps_bind; [|done]. unfold resume_record.
  apply se_keeps_bind; [apply emit_record_keeps_state|]. intros r. keeps.
Qed.

(** Removing the batch just drained pops the head of the list. *)
Lemma remove_batch_id_head id batch_id rest w :
  get_bookmark (w_state w) id BATCH_IDS = VList (batch_id :: rest) ->
  remove_batch_id id batch_id w =
  (RET tt IN (with_state (fun st => write_bookmark st id BATCH_IDS (VList rest)) w)).
Proof.
  intros Hlist. unfold remove_batch_id.
  by rewrite Hlist, (list_remove_head _ _ _ (value_eqb_refl batch_id)).
Qed.

Lemma finish_batch_run ce batch_id rest cb w :
  get_bookmark (w_state w) (tap_stream_id ce) BATCH_IDS = VList (batch_id :: rest) ->
  finish_batch ce batch_id cb w =
  match strftime cb with
  | inr formatted => (RET tt IN (after_batch ce formatted rest w))
  | inl e => (EXN e IN w)
  end.
Proof.
  intros Hlist. unfold finish_batch. rewrite se_bind_run. unfold se_lift at 1.
  destruct (strftime cb) as [e|formatted]; [done|].
  rewrite se_bind_run, write_bookmark_m_run, se_bind_run.
  rewrite remove_batch_id_head with (rest := rest) by (by store).
  rewrite se_bind_run. unfold se_gets at 1. by rewrite write_state_run.
Qed.

(** ** The list of batches *)

(** One turn of the outer loop, when the store lists the batch first. *)
Lemma drain_batches_cons sf ce job ver start cb batch_id rest w :
  get_bookmark (w_state w) (tap_stream_id ce) BATCH_IDS = VList (batch_id :: rest) ->
  drain_batches sf ce job ver start cb (batch_id :: rest) w =
  match drain_batch ce ver start cb (get_batch_results sf job batch_id ce).1 w with
  | (inl e, w1) => (EXN e IN w1)
  | (inr cb1, w1) =>
      match (get_batch_results sf job batch_id ce).2, strftime cb1 with
      | Some e, _ => (EXN e IN w1)
      | None, inl e => (EXN e IN w1)
      | None, inr formatted =>
          drain_batches sf ce job ver start cb1 rest (after_batch ce formatted rest w1)
      end
  end.
Proof.
  intros Hlist. simpl. destruct (get_batch_results sf job batch_id ce) as [recs failure].
  rewrite se_bind_run. simpl.
  destruct (drain_batch ce ver start cb recs w) as [[e|cb1] w1] eqn:Hdrain; [done|].
  assert (get_bookmark (w_state w1) (tap_stream_id ce) BATCH_IDS = VList (batch_id :: rest)).
  { exact (se_keeps_run (on_state (fun st => get_bookmark st _ _ = _)) _ _ _ _
             (drain_batch_keeps_state _ ce ver start cb recs) Hlist Hdrain). }
  rewrite se_bind_run. destruct failure as [e|]; [done|]. simpl.
  rewrite se_bind_run, (finish_batch_run _ _ rest) by done.
  by destruct (strftime cb1).
Qed.

Lemma after_batch_batch_ids ce formatted rest w :
  get_bookmark (w_state (after_batch ce formatted rest w)) (tap_stream_id ce) BATCH_IDS
  = VList rest.
Proof. unfold after_batch. by store. Qed.

(** Whatever the outcome, the store lists a suffix of the batches it
    listed: all of the batches not yet done; none when the loop returns. *)
Lemma drain_batches_suffix sf ce job ver start batches cb w r w' :
  get_bookmark (w_state w) (tap_stream_id ce) BATCH_IDS = VList batches ->
  drain_batches sf ce job ver start cb batches w = (r, w') ->
  exists finished remaining, batches = finished ++ remaining /\
    get_bookmark (w_state w') (tap_stream_id ce) BATCH_IDS = VList remaining /\
    (is_ok r = true -> remaining = []) /\ (is_ok r = false -> remaining <> []).
Proof.
  revert cb w. induction batches as [|b rest IH]; intros cb w Hlist Hrun.
  - injection Hrun as <- <-. by exists [], [].
  - rewrite drain_batches_cons in Hrun by done.
    destruct (drain_batch _ _ _ _ _ _) as [[e|cb1] w1] eqn:Hdrain.
    { injection Hrun as <- <-. exists [], (b :: rest). repeat split; try done.
      exact (se_keeps_run (on_state (fun st => get_bookmark st _ _ = _)) _ _ _ _
               (drain_batch_keeps_state _ ce ver start cb _) Hlist Hdrain). }
    assert (get_bookmark (w_state w1) (tap_stream_id ce) BATCH_IDS = VList (b :: rest)) as Hw1.
    { exact (se_keeps_run (on_state (fun st => get_bookmark st _ _ = _)) _ _ _ _
               (drain_batch_keeps_state _ ce ver start cb _) Hlist Hdrain). }
    destruct (get_batch_results sf job b ce).2 as [e|];
      [injection Hrun as <- <-; by exists [], (b :: rest)|].
    destruct (strftime cb1) as [e|formatted];
      [injection Hrun as <- <-; by exists [], (b :: rest)|].
    apply IH in Hrun as (finished & remaining & -> & ? & ? & ?);
      [|apply after_batch_batch_ids].
    by exists (b :: finished), remaining.
Qed.

(** ** A resumption that returns *)

(** The batch [b] drains, without failure, to the processed records [rs]. *)
Definition drained (sf : salesforce) (ce : catalog_entry) (job b : value) (rs : list value)
    : Prop :=
  exists recs, get_batch_results sf job b ce = (recs, None) /\
    Forall2 (fun rec r => process_record ce rec = inr r) recs rs.

Lemma watermark_of_app ce start rs1 rs2 cb :
  watermark_of ce start (rs1 ++ rs2) cb = watermark_of ce start rs2 (watermark_of ce start rs1 cb).
Proof.
  unfold watermark_of, watermark_after. destruct (truthy_key _); [apply fold_left_app|done].
Qed.

Lemma emitted_after_records ce ver start rs w :
  emitted (w_out (after_records ce ver start rs w)) = emitted (w_out w) ++ rs.
Proof.
  simpl. rewrite emitted_app. f_equal.
  induction rs as [|r rs IH]; [done|]. cbn. f_equal. exact IH.
Qed.

Lemma emitted_after_batch ce formatted rest w :
  emitted (w_out (after_batch ce formatted rest w)) = emitted (w_out w).
Proof. simpl. by rewrite emitted_app, app_nil_r. Qed.

(** What the outer loop has done when it returns. *)
Lemma drain_batches_ok sf ce job ver start batches cb w cb' w' :
  get_bookmark (w_state w) (tap_stream_id ce) BATCH_IDS = VList batches ->
  drain_batches sf ce job ver start cb batches w = (RET cb' IN w') ->
  exists rss, Forall2 (drained sf ce job) batches rss /\
    cb' = watermark_of ce start (concat rss) cb /\
    emitted (w_out w') = emitted (w_out w) ++ concat rss /\
    w_count w' = w_count w + length (concat rss) /\
    (batches <> [] ->
     get_bookmark (w_state w') (tap_stream_id ce) JOB_HIGHEST_BOOKMARK_SEEN
       = VStr (format_utc (dt_instant cb')) /\
     dt_offset cb' = 0%Z /\ last (w_out w') = Some (StateMessage (w_state w'))).
Proof.
  revert cb w. induction batches as [|b rest IH]; intros cb w Hlist Hrun.
  - injection Hrun as <- <-. exists []. simpl. rewrite app_nil_r, Nat.add_0_r.
    repeat split; try done. unfold watermark_of. by destruct (truthy_key _).
  - rewrite drain_batches_cons in Hrun by done.
    destruct (get_batch_results sf job b ce) as [recs failure] eqn:Hres. simpl in Hrun.
    destruct (drain_batch _ _ _ _ _ _) as [[e|cb1] w1] eqn:Hdrain; [done|].
    apply drain_batch_ok in Hdrain as (rs & Hrs & -> & ->).
    destruct failure as [e|]; [done|].
    destruct (strftime _) as [e|formatted] eqn:Hfmt; [done|].
    apply strftime_ok in Hfmt as [-> Hutc].
    pose proof Hrun as Hrun'.
    apply IH in Hrun as (rss & Hrss & -> & Hem & Hcount & Hjob); [|apply after_batch_batch_ids].
    exists (rs :: rss). simpl. rewrite watermark_of_app, Hem, Hcount, emitted_after_batch,
      emitted_after_records, length_app, <- app_assoc. simpl.
    split; [constructor; [by exists recs|done]|].
    split; [done|]. split; [done|]. split; [simpl; lia|].
    intros _. destruct rest as [|b' rest]; [|by apply Hjob].
    injection Hrun' as <- <-. apply Forall2_nil_inv_l in Hrss as ->. simpl.
    split; [|split; [done|]].
    + by store.
    + by rewrite last_snoc.
Qed.

(** ** What is flushed *)

Lemma drain_batch_keeps_in_sync s0 ce ver start cb recs :
  se_keeps (in_sync s0) (drain_batch ce ver start cb recs).
Proof.
  revert cb. induction recs as [|rec recs IH]; intros cb; simpl; [keeps|].
  apply se_keeps_bind; [|done]. intros w Hw. rewrite resume_record_run.
  repeat case_match; simpl; auto with tap.
Qed.

Lemma in_sync_after_batch s0 ce formatted rest w : in_sync s0 (after_batch ce formatted rest w).
Proof. unfold in_sync, after_batch. simpl. rewrite flushed_app. simpl. by rewrite last_snoc. Qed.

(** The outer loop leaves in memory the store it flushed last, at every exit. *)
Lemma drain_batches_in_sync s0 sf ce job ver start batches cb w r w' :
  get_bookmark (w_state w) (tap_stream_id ce) BATCH_IDS = VList batches ->
  in_sync s0 w ->
  drain_batches sf ce job ver start cb batches w = (r, w') ->
  in_sync s0 w'.
Proof.
  revert cb w. induction batches as [|b rest IH]; intros cb w Hlist Hw Hrun.
  - by injection Hrun as <- <-.
  - rewrite drain_batches_cons in Hrun by done.
    destruct (drain_batch _ _ _ _ _ _) as [[e|cb1] w1] eqn:Hdrain;
      pose proof (se_keeps_run _ _ _ _ _ (drain_batch_keeps_in_sync s0 ce ver start cb _)
                    Hw Hdrain) as Hw1; [by injection Hrun as <- <-|].
    destruct (get_batch_results sf job b ce).2 as [e|]; [by injection Hrun as <- <-|].
    destruct (strftime cb1) as [e|formatted]; [by injection Hrun as <- <-|].
    eapply IH; [apply after_batch_batch_ids|apply in_sync_after_batch|exact Hrun].
Qed.

(** ** The fields the loop writes *)

Lemma remove_batch_id_keeps_state P id batch_id :
  (forall st l, P st -> P (write_bookmark st id BATCH_IDS (VList l))) ->
  se_keeps (on_state P) (remove_batch_id id batch_id).
Proof.
  intros HP w Hw. unfold remove_batch_id. repeat case_match; simpl; auto. by apply HP.
Qed.

Lemma drain_batches_keeps_state P sf ce job ver start cb batches :
  (forall st key val, key = JOB_HIGHEST_BOOKMARK_SEEN \/ key = BATCH_IDS ->
     P st -> P (write_bookmark st (tap_stream_id ce) key val)) ->
  se_keeps (on_state P) (drain_batches sf ce job ver start cb batches).
Proof.
  intros HP. revert cb. induction batches as [|b rest IH]; intros cb; simpl; [keeps|].
  destruct (get_batch_results sf job b ce) as [recs failure].
  apply se_keeps_bind; [apply drain_batch_keeps_state|]. intros cb1.
  apply se_keeps_bind; [unfold end_of_stream; keeps|]. intros _.
  apply se_keeps_bind; [|done]. unfold finish_batch. keeps.
  - apply se_keeps_write_bookmark_m. intros w Hw. apply HP; auto.
  - apply remove_batch_id_keeps_state. intros st l Hst. apply HP; auto.
Qed.

(** ** Only the batches listed are requested *)

Lemma drain_batches_ext sf sf' ce job ver start cb batches w :
  (forall b, b ∈ batches -> get_batch_results sf job b ce = get_batch_results sf' job b ce) ->
  drain_batches sf ce job ver start cb batches w
  = drain_batches sf' ce job ver start cb batches w.
Proof.
  revert cb w. induction batches as [|b rest IH]; intros cb w Hsame; [done|].
  simpl. rewrite <- (Hsame b) by apply list_elem_of_here.
  destruct (get_batch_results sf job b ce) as [recs failure].
  rewrite !se_bind_run. destruct (drain_batch _ _ _ _ _ _) as [[e|cb1] w1]; [done|].
  rewrite !se_bind_run. destruct (end_of_stream failure w1) as [[e|[]] w2]; [done|].
  rewrite !se_bind_run. destruct (finish_batch ce b cb1 w2) as [[e|[]] w3]; [done|].
  apply IH. intros b' Hb'. apply Hsame. by apply list_elem_of_further.
Qed.

(** ** The whole resumption *)

(** Where a resumption starts from: the watermark of the job when one is
    bookmarked, the configured start date otherwise. *)
Definition resume_from (sf : salesforce) (ce : catalog_entry) (st : state) : result datetime :=
  let bookmarked := get_bookmark st (tap_stream_id ce) JOB_HIGHEST_BOOKMARK_SEEN in
  (if truthy bookmarked then inr bookmarked else get_start_date sf st ce) ≫= strptime_with_tz.

(** The start time and the version of a resumption entered in [w], and the
    world in which its first batch is requested. *)
Definition resume_start (w : world) : datetime := mk_datetime (clock_at (w_tick w)) 0.

Definition resume_version (ce : catalog_entry) (w : world) : exn + value :=
  (get_stream_version ce (w_state w) (tick w)).1.

Definition resume_entry (ce : catalog_entry) (w : world) : world :=
  (get_stream_version ce (w_state w) (tick w)).2.

Lemma resume_entry_world ce w :
  w_state (resume_entry ce w) = w_state w /\ w_out (resume_entry ce w) = w_out w /\
  w_count (resume_entry ce w) = w_count w.
Proof.
  unfold resume_entry.
  destruct (get_stream_version ce (w_state w) (tick w)) as [r w1] eqn:Hver.
  apply get_stream_version_world in Hver. simpl in *. tauto.
Qed.

Lemma resume_version_ok ce w : exists ver, resume_version ce w = inr ver.
Proof.
  unfold resume_version. rewrite get_stream_version_run. simpl.
  destruct (truthy_key _), (truthy _); simpl; eauto.
Qed.

(** The resumption, in direct style. *)
Lemma resume_run sf ce job w :
  resume_syncing_bulk_query sf ce job w =
  match resume_from sf ce (w_state w), resume_version ce w,
        slice_all (get_bookmark (w_state w) (tap_stream_id ce) BATCH_IDS) with
  | inl e, _, _ => (EXN e IN w)
  | inr _, inl e, _ | inr _, inr _, inl e => (EXN e IN (resume_entry ce w))
  | inr cb0, inr ver, inr batches =>
      match drain_batches sf ce job ver (resume_start w) cb0 batches (resume_entry ce w) with
      | (inl e, w2) => (EXN e IN w2)
      | (inr _, w2) => (RET (w_count w2) IN w2)
      end
  end.
Proof.
  unfold resume_syncing_bulk_query, resume_from, resume_version, resume_entry.
  rewrite se_bind_run. unfold se_gets at 1. rewrite se_bind_run.
  destruct (truthy _).
  - simpl. rewrite se_bind_run. unfold se_lift at 1.
    destruct (strptime_with_tz _) as [e|cb0]; [done|].
    rewrite se_bind_run. unfold now at 1. rewrite se_bind_run.
    destruct (get_stream_version _ _ _) as [[e|ver] w1]; [done|].
    rewrite se_bind_run. unfold se_lift at 1. simpl.
    destruct (slice_all _) as [e|batches]; [done|]. by rewrite se_bind_run.
  - unfold se_lift at 1. simpl. destruct (get_start_date _ _ _) as [e|sd]; [done|]. simpl.
    rewrite se_bind_run. unfold se_lift at 1.
    destruct (strptime_with_tz _) as [e|cb0]; [done|].
    rewrite se_bind_run. unfold now at 1. rewrite se_bind_run.
    destruct (get_stream_version _ _ _) as [[e|ver] w1]; [done|].
    rewrite se_bind_run. unfold se_lift at 1. simpl.
    destruct (slice_all _) as [e|batches]; [done|]. by rewrite se_bind_run.
Qed.

(** A resumption that returns, taken apart. *)
Lemma resume_ok sf ce job w n w' batches :
  get_bookmark (w_state w) (tap_stream_id ce) BATCH_IDS = VList batches ->
  resume_syncing_bulk_query sf ce job w = (RET n IN w') ->
  exists cb0 ver cb',
    resume_from sf ce (w_state w) = inr cb0 /\ n = w_count w' /\
    drain_batches sf ce job ver (resume_start w) cb0 batches (resume_entry ce w)
      = (RET cb' IN w').
Proof.
  intros Hlist. rewrite resume_run, Hlist. simpl.
  destruct (resume_from _ _ _) as [e|cb0]; [done|].
  destruct (resume_version ce w) as [e|ver]; [done|].
  destruct (drain_batches _ _ _ _ _ _ _ _) as [[e|cb'] w2] eqn:Hrun; [done|].
  intros [= <- <-]. by exists cb0, ver, cb'.
Qed.

Lemma resume_from_written sf ce st t :
  get_bookmark st (tap_stream_id ce) JOB_HIGHEST_BOOKMARK_SEEN = VStr (format_utc t) ->
  resume_from sf ce st = inr (mk_datetime t 0).
Proof.
  intros Hjob. unfold resume_from. rewrite Hjob. simpl.
  rewrite bool_decide_eq_false_2 by apply format_utc_nonempty. simpl.
  by rewrite parse_format_utc.
Qed.

(** C5: a resumption that returns has drained every batch the store
    listed, in the order listed: the records of each went out, the counter
    counts them, and the store lists no batch any more. *)
Theorem resume_drains_all sf ce job w n w' batches :
  get_bookmark (w_state w) (tap_stream_id ce) BATCH_IDS = VList batches ->
  resume_syncing_bulk_query sf ce job w = (RET n IN w') ->
  exists rss, Forall2 (drained sf ce job) batches rss /\
    emitted (w_out w') = emitted (w_out w) ++ concat rss /\
    n = w_count w + length (concat rss) /\
    get_bookmark (w_state w') (tap_stream_id ce) BATCH_IDS = VList [].
Proof.
  intros Hlist Hrun. apply (resume_ok _ _ _ _ _ _ _ Hlist) in Hrun as (cb0 & ver & cb' & _ & -> & Hrun).
  destruct (resume_entry_world ce w) as (Hst & Hout & Hcount). rewrite <- Hst in Hlist.
  destruct (drain_batches_suffix _ _ _ _ _ _ _ _ _ _ Hlist Hrun) as (? & rem & _ & Hrem & Hnil & _).
  apply (drain_batches_ok _ _ _ _ _ _ _ _ _ _ Hlist) in Hrun as (rss & Hrss & _ & Hem & Hn & _).
  exists rss. rewrite Hem, Hn, Hout, Hcount, Hrem, Hnil by done. done.
Qed.

(** C29: after a resumption that had a batch to drain, the store holds
    under [JobHighestBookmarkSeen] the watermark of the records drained, so
    that the next resumption starts from it, and the last message written is
    the flush of that store. *)
Theorem resume_watermark sf ce job w n w' batches :
  get_bookmark (w_state w) (tap_stream_id ce) BATCH_IDS = VList batches ->
  batches <> [] ->
  resume_syncing_bulk_query sf ce job w = (RET n IN w') ->
  exists cb0 rss, resume_from sf ce (w_state w) = inr cb0 /\
    Forall2 (drained sf ce job) batches rss /\
    resume_from sf ce (w_state w')
      = inr (watermark_of ce (resume_start w) (concat rss) cb0) /\
    last (w_out w') = Some (StateMessage (w_state w')).
Proof.
  intros Hlist Hne Hrun.
  apply (resume_ok _ _ _ _ _ _ _ Hlist) in Hrun as (cb0 & ver & cb' & Hfrom & _ & Hrun).
  destruct (resume_entry_world ce w) as (Hst & _). rewrite <- Hst in Hlist.
  apply (drain_batches_ok _ _ _ _ _ _ _ _ _ _ Hlist) in Hrun as (rss & Hrss & Hcb & _ & _ & Hjob).
  destruct (Hjob Hne) as (Hval & Hutc & Hlast). exists cb0, rss.
  rewrite (resume_from_written _ _ _ _ Hval), <- Hutc, <- Hcb. by destruct cb'.
Qed.

(** C27: whatever the outcome of a resumption, the store lists a suffix of
    the batches it listed: the batches before it were drained and taken off
    one by one; the suffix is empty exactly when the resumption returns. *)
Theorem resume_batch_ids_suffix sf ce job w r w' batches :
  get_bookmark (w_state w) (tap_stream_id ce) BATCH_IDS = VList batches ->
  resume_syncing_bulk_query sf ce job w = (r, w') ->
  exists finished remaining, batches = finished ++ remaining /\
    get_bookmark (w_state w') (tap_stream_id ce) BATCH_IDS = VList remaining /\
    (is_ok r = true -> remaining = []) /\
    (remaining = [] -> batches <> [] -> is_ok r = true).
Proof.
  intros Hlist. rewrite resume_run, Hlist. simpl.
  destruct (resume_entry_world ce w) as (Hst & _).
  destruct (resume_from _ _ _) as [e|cb0];
    [intros [= <- <-]; exists [], batches; by repeat split|].
  destruct (resume_version ce w) as [e|ver];
    [intros [= <- <-]; exists [], batches; rewrite Hst; by repeat split|].
  destruct (drain_batches _ _ _ _ _ _ _ _) as [r2 w2] eqn:Hrun. rewrite <- Hst in Hlist.
  destruct (drain_batches_suffix _ _ _ _ _ _ _ _ _ _ Hlist Hrun) as (fin & rem & -> & Hrem & Hok & Herr).
  destruct r2 as [e|cb']; intros [= <- <-]; exists fin, rem; repeat split; auto.
  intros ->. by destruct Herr.
Qed.

(** C7: at every exit of a resumption, by return or by exception, the
    store in memory is the last store flushed: a restart reads the very list
    of batches and the watermark the resumption left. *)
Theorem resume_keeps_in_sync s0 sf ce job w r w' batches :
  get_bookmark (w_state w) (tap_stream_id ce) BATCH_IDS = VList batches ->
  in_sync s0 w ->
  resume_syncing_bulk_query sf ce job w = (r, w') ->
  in_sync s0 w'.
Proof.
  intros Hlist Hw. rewrite resume_run, Hlist. simpl.
  destruct (resume_entry_world ce w) as (Hst & Hout & _).
  assert (in_sync s0 (resume_entry ce w)) as Hw1 by (unfold in_sync; by rewrite Hst, Hout).
  destruct (resume_from _ _ _) as [e|cb0]; [by intros [= <- <-]|].
  destruct (resume_version ce w) as [e|ver]; [by intros [= <- <-]|].
  destruct (drain_batches _ _ _ _ _ _ _ _) as [r2 w2] eqn:Hrun. rewrite <- Hst in Hlist.
  pose proof (drain_batches_in_sync _ _ _ _ _ _ _ _ _ _ _ Hlist Hw1 Hrun).
  by destruct r2; intros [= <- <-].
Qed.

(** The fields a resumption may write.  Whatever the outcome, a
    bookmark of another stream, or a field of this stream other than
    [JobHighestBookmarkSeen] and [BatchIDs], is what it was: a resumption
    writes neither the cursor nor the version. *)
Lemma resume_frame sf ce job id field v :
  (id = tap_stream_id ce -> field <> JOB_HIGHEST_BOOKMARK_SEEN /\ field <> BATCH_IDS) ->
  se_keeps (on_state (fun st => get_bookmark st id field = v))
           (resume_syncing_bulk_query sf ce job).
Proof.
  intros Hfield. unfold resume_syncing_bulk_query. keeps.
  - apply get_stream_version_keeps. auto with tap.
  - apply drain_batches_keeps_state. intros st key val Hkey <-.
    destruct (decide (id = tap_stream_id ce)) as [->|Hid].
    + apply get_write_bookmark_ne_key. destruct (Hfield eq_refl). by intros ->; destruct Hkey.
    + by apply get_write_bookmark_ne_stream.
Qed.

(** A resumption that returned can be run again: the second run finds
    no batch listed, requests none, emits nothing, writes nothing and
    returns the same count. *)
Lemma resume_idempotent sf ce job w n w' batches :
  get_bookmark (w_state w) (tap_stream_id ce) BATCH_IDS = VList batches ->
  resume_syncing_bulk_query sf ce job w = (RET n IN w') ->
  resume_syncing_bulk_query sf ce job w' = (RET n IN (resume_entry ce w')) /\
  w_state (resume_entry ce w') = w_state w' /\ w_out (resume_entry ce w') = w_out w'.
Proof.
  intros Hlist Hrun. split; [|pose proof (resume_entry_world ce w'); tauto].
  apply (resume_ok _ _ _ _ _ _ _ Hlist) in Hrun as (cb0 & ver & cb' & Hfrom & -> & Hrun).
  destruct (resume_entry_world ce w) as (Hst & _). rewrite <- Hst in Hlist.
  destruct (drain_batches_suffix _ _ _ _ _ _ _ _ _ _ Hlist Hrun) as (? & rem & _ & Hrem & Hnil & _).
  assert (exists cb, resume_from sf ce (w_state w') = inr cb) as [cb Hcb].
  { destruct batches as [|b rest]; [injection Hrun as _ <-; rewrite Hst; eauto|].
    apply (drain_batches_ok _ _ _ _ _ _ _ _ _ _ Hlist) in Hrun as (_ & _ & _ & _ & _ & Hjob).
    destruct Hjob as (Hval & _); [done|]. eauto using resume_from_written. }
  rewrite resume_run, Hcb, Hrem, Hnil by done.
  destruct (resume_version_ok ce w') as [ver' ->]. simpl.
  by destruct (resume_entry_world ce w') as (_ & _ & ->).
Qed.

(** A resumption asks the source for the results of the batches the
    store lists and for no other: two sources that agree on those batches
    (and on the start date) give the same run. *)
Lemma resume_only_listed sf sf' ce job w batches :
  get_bookmark (w_state w) (tap_stream_id ce) BATCH_IDS = VList batches ->
  get_start_date sf (w_state w) ce = get_start_date sf' (w_state w) ce ->
  (forall b, b ∈ batches -> get_batch_results sf job b ce = get_batch_results sf' job b ce) ->
  resume_syncing_bulk_query sf ce job w = resume_syncing_bulk_query sf' ce job w.
Proof.
  intros Hlist Hstart Hsame. rewrite !resume_run, Hlist. unfold resume_from. rewrite Hstart.
  simpl. repeat case_match; try done; simplify_eq;
    rewrite (drain_batches_ext sf sf') in * by done; congruence.
Qed.

(** ** A resumption on a source that delivers *)

(** The key of the record is pegged at UTC. *)
Definition utc_keyed (ce : catalog_entry) (r : value) : Prop :=
  match truthy_key (replication_key ce) with
  | Some key => forall t, key_datetime r key = inr t -> dt_offset t = 0%Z
  | None => True
  end.

(** The source delivers the batch: its results end without a failure, and
    every record goes through the transformer and the repair and carries a
    key pegged at UTC. *)
Definition delivers (sf : salesforce) (ce : catalog_entry) (job b : value) : Prop :=
  exists rs, drained sf ce job b rs /\ Forall (keyed ce) rs /\ Forall (utc_keyed ce) rs.

Lemma watermark_of_utc ce start rs cb :
  Forall (utc_keyed ce) rs -> dt_offset cb = 0%Z ->
  dt_offset (watermark_of ce start rs cb) = 0%Z.
Proof.
  unfold watermark_of, utc_keyed. destruct (truthy_key _) as [key|]; [|done].
  intros Hrs. revert cb. induction Hrs as [|r rs Hutc _ IH]; intros cb Hcb; [done|].
  simpl. apply IH. destruct (key_datetime r key) as [e|t]; [done|].
  destruct (_ && _); auto.
Qed.

(** The converse of [drain_batch_ok]: records that go through are drained. *)
Lemma drain_batch_total ce ver start recs rs cb w :
  Forall2 (fun rec r => process_record ce rec = inr r) recs rs ->
  Forall (keyed ce) rs ->
  drain_batch ce ver start cb recs w
  = (RET (watermark_of ce start rs cb) IN (after_records ce ver start rs w)).
Proof.
  intros Hrs. revert cb w.
  induction Hrs as [|rec r recs rs Hr _ IH]; intros cb w Hkeys; simpl.
  - unfold watermark_of, after_records. destruct (truthy_key _), w; simpl.
    all: by rewrite app_nil_r, Nat.add_0_r.
  - apply Forall_cons in Hkeys as [Hkey Hkeys].
    rewrite se_bind_run, resume_record_run, Hr. cbv zeta.
    unfold watermark_of, keyed in *. destruct (truthy_key _) as [key|].
    + simpl. destruct (key_datetime r key) as [e|t]; [done|].
      by rewrite IH, after_records_cons.
    + by rewrite IH, after_records_cons.
Qed.

Lemma drain_batches_total sf ce job ver start batches cb w :
  get_bookmark (w_state w) (tap_stream_id ce) BATCH_IDS = VList batches ->
  dt_offset cb = 0%Z ->
  Forall (delivers sf ce job) batches ->
  is_ok (drain_batches sf ce job ver start cb batches w).1 = true.
Proof.
  intros Hlist Hcb Hall. revert cb w Hlist Hcb.
  induction Hall as [|b rest (rs & (recs & Hres & Hrs) & Hkeys & Hutc) _ IH];
    intros cb w Hlist Hcb; [done|].
  rewrite drain_batches_cons, Hres by done. simpl.
  rewrite (drain_batch_total _ _ _ _ _ _ _ Hrs Hkeys). unfold strftime.
  rewrite bool_decide_eq_true_2 by by apply watermark_of_utc.
  apply IH; [apply after_batch_batch_ids|by apply watermark_of_utc].
Qed.

(** A resumption returns when the store lists batches, its starting
    point parses to a UTC timestamp, and the source delivers every listed
    batch. *)
Lemma resume_total sf ce job w batches cb0 :
  get_bookmark (w_state w) (tap_stream_id ce) BATCH_IDS = VList batches ->
  resume_from sf ce (w_state w) = inr cb0 -> dt_offset cb0 = 0%Z ->
  Forall (delivers sf ce job) batches ->
  is_ok (resume_syncing_bulk_query sf ce job w).1 = true.
Proof.
  intros Hlist Hfrom Hutc Hall. rewrite resume_run, Hlist, Hfrom. simpl.
  destruct (resume_version_ok ce w) as [ver ->].
  destruct (resume_entry_world ce w) as (Hst & _). rewrite <- Hst in Hlist.
  pose proof (drain_batches_total sf ce job ver (resume_start w) _ _ _ Hlist Hutc Hall) as Hok.
  by destruct (drain_batches _ _ _ _ _ _ _ _) as [[e|cb'] w2].
Qed.

(** *** Exactly when a resumption returns *)

(** The watermark in memory at the end of each of the batches [rss], from
    the watermark [cb]. *)
Fixpoint marks (ce : catalog_entry) (start cb : datetime) (rss : list (list value))
    : list datetime :=
  match rss with
  | [] => []
  | rs :: rss' =>
      watermark_of ce start rs cb :: marks ce start (watermark_of ce start rs cb) rss'
  end.

(** The batches drain to [rss] from the watermark [cb]: every record goes
    through and carries a key that parses, and the watermark at the end of
    each batch is pegged at UTC, so that it can be written. *)
Definition drains (sf : salesforce) (ce : catalog_entry) (job : value) (start cb : datetime)
    (batches : list value) (rss : list (list value)) : Prop :=
  Forall2 (drained sf ce job) batches rss /\ Forall (Forall (keyed ce)) rss /\
  Forall (fun t => dt_offset t = 0%Z) (marks ce start cb rss).

(** A batch that is drained found a key that parses in every record. *)
Lemma drain_batch_ok_keyed ce ver start recs cb w cb' w' :
  drain_batch ce ver start cb recs w = (RET cb' IN w') ->
  forall rs, Forall2 (fun rec r => process_record ce rec = inr r) recs rs ->
    Forall (keyed ce) rs.
Proof.
  revert cb w. induction recs as [|rec recs IH]; intros cb w Hrun rs Hrs.
  { apply Forall2_nil_inv_l in Hrs as ->. constructor. }
  apply Forall2_cons_inv_l in Hrs as (r & rs' & Hr & Hrs & ->). simpl in Hrun.
  apply se_bind_inv_ok in Hrun as (cb1 & w1 & Hrec & Hrest).
  constructor; [|by eapply IH]. rewrite resume_record_run, Hr in Hrec. cbv zeta in Hrec.
  unfold keyed. destruct (truthy_key _) as [key|]; [|done]. by destruct (key_datetime r key).
Qed.

Lemma drain_batches_returns_iff sf ce job ver start batches cb w :
  get_bookmark (w_state w) (tap_stream_id ce) BATCH_IDS = VList batches ->
  is_ok (drain_batches sf ce job ver start cb batches w).1 = true <->
  exists rss, drains sf ce job start cb batches rss.
Proof.
  revert cb w. induction batches as [|b rest IH]; intros cb w Hlist.
  { split; [intros _; exists []; by repeat constructor|done]. }
  rewrite drain_batches_cons by done. split.
  - destruct (drain_batch _ _ _ _ _ _) as [[e|cb1] w1] eqn:Hdrain; [done|].
    pose proof Hdrain as (rs & Hrs & -> & ->)%drain_batch_ok.
    pose proof (drain_batch_ok_keyed _ _ _ _ _ _ _ _ Hdrain rs Hrs) as Hkeys.
    destruct (get_batch_results sf job b ce) as [recs failure] eqn:Hres. simpl in *.
    destruct failure as [e|]; [done|].
    destruct (strftime _) as [e|formatted] eqn:Hfmt; [done|].
    apply strftime_ok in Hfmt as [_ Hutc].
    intros (rss & Hall & Hkeyed & Hmarks)%IH; [|apply after_batch_batch_ids].
    exists (rs :: rss). split; [constructor; [by exists recs|done]|]. split; by constructor.
  - intros (rss & Hall & Hkeyed & Hmarks).
    apply Forall2_cons_inv_l in Hall as (rs & rss' & (recs & Hres & Hrs) & Hall & ->).
    apply Forall_cons in Hkeyed as [Hkeys Hkeyed]. simpl in Hmarks.
    apply Forall_cons in Hmarks as [Hutc Hmarks]. rewrite Hres. simpl.
    rewrite (drain_batch_total _ _ _ _ _ _ _ Hrs Hkeys). unfold strftime.
    rewrite bool_decide_eq_true_2 by done.
    apply IH; [apply after_batch_batch_ids|]. by exists rss'.
Qed.

(** C23: a resumption returns exactly when its starting point parses and
    the source delivers every listed batch: the results of each end without
    a failure, every record goes through the transformer and the repair and
    carries a key that parses, and the watermark at the end of each batch
    is pegged at UTC. *)
Theorem resume_returns_iff sf ce job w batches :
  get_bookmark (w_state w) (tap_stream_id ce) BATCH_IDS = VList batches ->
  is_ok (resume_syncing_bulk_query sf ce job w).1 = true <->
  exists cb0 rss, resume_from sf ce (w_state w) = inr cb0 /\
    drains sf ce job (resume_start w) cb0 batches rss.
Proof.
  intros Hlist. rewrite resume_run, Hlist. simpl.
  destruct (resume_entry_world ce w) as (Hst & _). rewrite <- Hst in Hlist.
  destruct (resume_from _ _ _) as [e|cb0]; [split; [done|by intros (? & ? & ? & _)]|].
  destruct (resume_version_ok ce w) as [ver ->].
  pose proof (drain_batches_returns_iff sf ce job ver (resume_start w) batches cb0 _ Hlist)
    as Hiff.
  destruct (drain_batches _ _ _ _ _ _ _ _) as [[e|cb'] w2]; simpl in *.
  - split; [done|]. intros (cb & rss & [= <-] & Hrss). apply Hiff. by exists rss.
  - split; [|done]. intros _. destruct (proj1 Hiff eq_refl) as [rss Hrss]. by exists cb0, rss.
Qed.

(** C34: a batch that moves the watermark to a timestamp not pegged at UTC
    stops the resumption: all its records are emitted, then the watermark
    cannot be formatted, and the batch stays listed, to be drained again. *)
Theorem resume_offset_raises sf ce job w b rest cb0 recs rs :
  get_bookmark (w_state w) (tap_stream_id ce) BATCH_IDS = VList (b :: rest) ->
  resume_from sf ce (w_state w) = inr cb0 ->
  get_batch_results sf job b ce = (recs, None) ->
  Forall2 (fun rec r => process_record ce rec = inr r) recs rs -> Forall (keyed ce) rs ->
  dt_offset (watermark_of ce (resume_start w) rs cb0) <> 0%Z ->
  exists w', resume_syncing_bulk_query sf ce job w
             = (EXN (Exn Exception "datetime must be pegged at UTC tzoneinfo" None) IN w') /\
    emitted (w_out w') = emitted (w_out w) ++ rs /\
    get_bookmark (w_state w') (tap_stream_id ce) BATCH_IDS = VList (b :: rest).
Proof.
  intros Hlist Hfrom Hres Hrs Hkeys Hoff. rewrite resume_run, Hlist, Hfrom. simpl slice_all.
  destruct (resume_version_ok ce w) as [ver ->].
  destruct (resume_entry_world ce w) as (Hst & Hout & _).
  change (mret (b :: rest)) with (@inr exn _ (b :: rest)). cbv iota beta.
  rewrite drain_batches_cons, Hres by by rewrite Hst. simpl.
  rewrite (drain_batch_total _ _ _ _ _ _ _ Hrs Hkeys). unfold strftime.
  rewrite bool_decide_eq_false_2 by done. eexists. split; [done|].
  split; [by rewrite emitted_after_records, Hout|]. simpl. by rewrite Hst.
Qed.

End Resume.

(** ** Witnesses, on the collaborators of Fixtures.v

    A job of two batches, two records in the first and one in the second. *)

Section ResumeWitnesses.
#[local] Existing Instance fixture_clock.
#[local] Existing Instance reliable_emitter.

Definition two_batches : list (value * record_stream) :=
  [(VStr "b1", ([account "001" "1600000000000000" "42";
                 account "002" "1550000000000000" "true"], None));
   (VStr "b2", ([account "003" "1650000000000000" ""], None))].

Definition job_source : salesforce := fixed_source true ([], None) two_batches.

(** The same job on a source that knows one batch more. *)
Definition wider_source : salesforce :=
  fixed_source true ([], None)
    (two_batches ++ [(VStr "b3", ([account "004" "1660000000000000" "x"], None))]).

Definition job_state : state :=
  write_bookmark ∅ "Account" BATCH_IDS (VList [VStr "b1"; VStr "b2"]).

Definition job_run : (exn + nat) * world :=
  resume_syncing_bulk_query job_source account_entry (VStr "job") (world0 job_state).

Lemma job_run_returns : job_run = (RET 3%nat IN job_run.2).
Proof. by vm_compute. Qed.

Lemma resume_drains_all_witness :
  exists rss, Forall2 (drained job_source account_entry (VStr "job")) [VStr "b1"; VStr "b2"] rss /\
    emitted (w_out job_run.2) = emitted (w_out (world0 job_state)) ++ concat rss /\
    3%nat = (w_count (world0 job_state) + length (concat rss))%nat /\
    get_bookmark (w_state job_run.2) "Account" BATCH_IDS = VList [].
Proof.
  exact (resume_drains_all job_source account_entry (VStr "job") (world0 job_state) 3 job_run.2
           [VStr "b1"; VStr "b2"] eq_refl job_run_returns).
Defined.

Lemma resume_watermark_witness :
  exists cb0 rss, resume_from job_source account_entry job_state = inr cb0 /\
    Forall2 (drained job_source account_entry (VStr "job")) [VStr "b1"; VStr "b2"] rss /\
    resume_from job_source account_entry (w_state job_run.2)
      = inr (watermark_of account_entry (resume_start (world0 job_state)) (concat rss) cb0) /\
    last (w_out job_run.2) = Some (StateMessage (w_state job_run.2)).
Proof.
  exact (resume_watermark job_source account_entry (VStr "job") (world0 job_state) 3 job_run.2
           [VStr "b1"; VStr "b2"] eq_refl ltac:(discriminate) job_run_returns).
Defined.

Lemma resume_batch_ids_suffix_witness :
  exists finished remaining, [VStr "b1"; VStr "b2"] = finished ++ remaining /\
    get_bookmark (w_state job_run.2) "Account" BATCH_IDS = VList remaining /\
    (is_ok (@inr exn nat 3%nat) = true -> remaining = []) /\
    (remaining = [] -> [VStr "b1"; VStr "b2"] <> [] -> is_ok (@inr exn nat 3%nat) = true).
Proof.
  exact (resume_batch_ids_suffix job_source account_entry (VStr "job") (world0 job_state)
           (inr 3%nat) job_run.2 [VStr "b1"; VStr "b2"] eq_refl job_run_returns).
Defined.

Lemma resume_keeps_in_sync_witness : in_sync job_state job_run.2.
Proof.
  exact (resume_keeps_in_sync job_state job_source account_entry (VStr "job") (world0 job_state)
           (inr 3%nat) job_run.2 [VStr "b1"; VStr "b2"] eq_refl eq_refl job_run_returns).
Defined.

Example resume_frame_example :
  se_keeps (on_state (fun st => get_bookmark st "Account" "SystemModstamp" = VNone))
           (resume_syncing_bulk_query job_source account_entry (VStr "job")).
Proof.
  apply resume_frame. intros _. split; discriminate.
Defined.

Example resume_idempotent_example :
  resume_syncing_bulk_query job_source account_entry (VStr "job") job_run.2
    = (RET 3%nat IN (resume_entry account_entry job_run.2)) /\
  w_state (resume_entry account_entry job_run.2) = w_state job_run.2 /\
  w_out (resume_entry account_entry job_run.2) = w_out job_run.2.
Proof.
  exact (resume_idempotent job_source account_entry (VStr "job") (world0 job_state) 3 job_run.2
           [VStr "b1"; VStr "b2"] eq_refl job_run_returns).
Qed.

Lemma two_batches_listed b :
  b ∈ [VStr "b1"; VStr "b2"] ->
  get_batch_results job_source (VStr "job") b account_entry
  = get_batch_results wider_source (VStr "job") b account_entry.
Proof.
  intros Hb. repeat (apply elem_of_cons in Hb as [->|Hb]; [reflexivity|]).
  by apply elem_of_nil in Hb.
Qed.

Example resume_only_listed_example :
  resume_syncing_bulk_query job_source account_entry (VStr "job") (world0 job_state)
  = resume_syncing_bulk_query wider_source account_entry (VStr "job") (world0 job_state).
Proof.
  exact (resume_only_listed job_source wider_source account_entry (VStr "job") (world0 job_state)
           [VStr "b1"; VStr "b2"] eq_refl eq_refl two_batches_listed).
Defined.

Lemma two_batches_delivered :
  Forall (delivers job_source account_entry (VStr "job")) [VStr "b1"; VStr "b2"].
Proof.
  repeat apply Forall_cons_2; [| |apply Forall_nil_2].
  - exists [account_out "001" "1600000000000000" (VFloat (FFin false 0x15000000000000 (-47)));
            account_out "002" "1550000000000000" (VBool true)].
    split; [eexists; split; [reflexivity|]; by repeat constructor|].
    split; repeat constructor; by intros t [= <-].
  - exists [account_out "003" "1650000000000000" VNone].
    split; [eexists; split; [reflexivity|]; by repeat constructor|].
    split; repeat constructor; by intros t [= <-].
Qed.

Example resume_total_example :
  is_ok (resume_syncing_bulk_query job_source account_entry (VStr "job") (world0 job_state)).1
  = true.
Proof.
  exact (resume_total job_source account_entry (VStr "job") (world0 job_state)
           [VStr "b1"; VStr "b2"] (mk_datetime 1500000000000000 0) eq_refl eq_refl eq_refl
           two_batches_delivered).
Qed.

Lemma resume_returns_iff_witness :
  let w := world0 job_state in
  is_ok (resume_syncing_bulk_query job_source account_entry (VStr "job") w).1 = true <->
  exists cb0 rss, resume_from job_source account_entry (w_state w) = inr cb0 /\
    drains job_source account_entry (VStr "job") (resume_start w) cb0
      [VStr "b1"; VStr "b2"] rss.
Proof.
  exact (resume_returns_iff job_source account_entry (VStr "job") (world0 job_state)
           [VStr "b1"; VStr "b2"] eq_refl).
Defined.

(** A job whose only record carries a timestamp two hours east of UTC. *)
Definition zoned_source : salesforce :=
  fixed_source true ([], None)
    [(VStr "b1", ([account "001" "+7200@1600000000000000" "42"], None))].

Definition zoned_state : state := write_bookmark ∅ "Account" BATCH_IDS (VList [VStr "b1"]).

Lemma zoned_account_processed :
  Forall2 (fun rec r => process_record account_entry rec = inr r)
    [account "001" "+7200@1600000000000000" "42"]
    [account_out "001" "+7200@1600000000000000" (VFloat (FFin false 0x15000000000000 (-47)))].
Proof. by repeat constructor. Qed.

Lemma zoned_account_keyed :
  Forall (keyed account_entry)
    [account_out "001" "+7200@1600000000000000" (VFloat (FFin false 0x15000000000000 (-47)))].
Proof. by repeat constructor. Qed.

Lemma zoned_watermark :
  dt_offset (watermark_of account_entry (resume_start (world0 zoned_state))
               [account_out "001" "+7200@1600000000000000" (VFloat (FFin false 0x15000000000000 (-47)))]
               (mk_datetime 1500000000000000 0)) <> 0%Z.
Proof. by vm_compute. Qed.

Lemma resume_offset_raises_witness :
  exists w', resume_syncing_bulk_query zoned_source account_entry (VStr "job") (world0 zoned_state)
             = (EXN (Exn Exception "datetime must be pegged at UTC tzoneinfo" None) IN w') /\
    emitted (w_out w') = emitted (w_out (world0 zoned_state))
                         ++ [account_out "001" "+7200@1600000000000000" (VFloat (FFin false 0x15000000000000 (-47)))] /\
    get_bookmark (w_state w') "Account" BATCH_IDS = VList [VStr "b1"].
Proof.
  exact (resume_offset_raises zoned_source account_entry (VStr "job") (world0 zoned_state)
           (VStr "b1") [] (mk_datetime 1500000000000000 0)
           [account "001" "+7200@1600000000000000" "42"]
           [account_out "001" "+7200@1600000000000000" (VFloat (FFin false 0x15000000000000 (-47)))]
           eq_refl eq_refl eq_refl zoned_account_processed zoned_account_keyed zoned_watermark).
Defined.

End ResumeWitnesses.
