(* ===== verification/SyncStream.v ===== *)
(** * The sync orchestrator

    [sync_stream]: runs one pass under a fresh record counter, flushes the
    store when the pass succeeds and translates what it raises otherwise. *)

From Stdlib Require Import ZArith String List Lia.
From stdpp Require Import base option list strings gmap.
From S2P Require Import Prelude PyValue PyNumber Bookmarks Runtime PostProcess Fixtures Version SyncRecords.

(** [with metrics.record_counter(stream) as counter]: a counter at zero. *)
Definition new_counter (w : world) : world :=
  mk_world (w_state w) (w_out w) 0 (w_tick w).

(** The two [except] clauses: a [TapSalesforceException] is raised again as
    its own class with the stream in the message; any other [Exception] is
    wrapped, with the original as its cause; what is not an [Exception]
    passes through. *)
Definition translate_error (stream : string) (ex : exn) : exn :=
  if is_tap_exception (exn_cls ex) then
    Exn (exn_cls ex) ("Error syncing " +:+ stream +:+ ": " +:+ exn_msg ex) None
  else if is_exception (exn_cls ex) then
    Exn Exception ("Unexpected error syncing " +:+ stream +:+ ": " +:+ exn_msg ex) (Some ex)
  else ex.

Section SyncStream.
Context `{Clock} `{TimeCodec} `{Transformer} {emitter : Emitter} `{!Reliable}.

(** [sync_stream(sf, catalog_entry, state)]. *)
Definition sync_stream (sf : salesforce) (ce : catalog_entry) : M nat :=
  se_modify new_counter;;
  se_catch
    (sync_records sf ce;;
     state ← se_gets w_state;
     write_state state)
    (fun ex => se_raise (translate_error (stream ce) ex));;
  se_gets w_count.

(** ** Facts *)

(** The orchestrator, in direct style: the pass runs under a counter at
    zero; what it raises is translated, and nothing is written after it;
    when it returns, the store goes out and the count is returned. *)
Lemma sync_stream_run sf ce w :
  sync_stream sf ce w =
  match sync_records sf ce (new_counter w) with
  | (inl ex, w1) => (EXN (translate_error (stream ce) ex) IN w1)
  | (inr _, w1) => (RET (w_count w1) IN (emit (StateMessage (w_state w1)) w1))
  end.
Proof.
  unfold sync_stream. rewrite se_bind_run. unfold se_modify at 1.
  rewrite se_bind_run. unfold se_catch. rewrite se_bind_run.
  destruct (sync_records sf ce (new_counter w)) as [[ex|[]] w1]; [done|].
  rewrite se_bind_run. unfold se_gets at 1. by rewrite write_state_run.
Qed.

(** C35: what escapes [sync_stream].  The exception is of a tap class, with
    no cause attached; or it is an [Exception] whose cause is the original
    one, which was not of a tap class; or it is not an [Exception] at all
    and passed through untouched. *)
Theorem sync_stream_error_class sf ce w e w' :
  sync_stream sf ce w = (EXN e IN w') ->
  (is_tap_exception (exn_cls e) = true /\ exn_cause e = None) \/
  (exn_cls e = Exception /\
   exists ex, exn_cause e = Some ex /\ is_tap_exception (exn_cls ex) = false /\
     is_exception (exn_cls ex) = true) \/
  is_exception (exn_cls e) = false.
Proof.
  rewrite sync_stream_run.
  destruct (sync_records _ _ _) as [[ex|[]] w1]; [|done]. intros [= <- <-].
  unfold translate_error. destruct (is_tap_exception (exn_cls ex)) eqn:Htap; [by left|].
  destruct (is_exception (exn_cls ex)) eqn:Hexn; [|by right; right].
  right; left. split; [done|]. by exists ex.
Qed.

(** C36: the message of a translated exception names the stream and ends
    with the message of the original. *)
Theorem sync_stream_error_message sf ce w ex w1 :
  sync_records sf ce (new_counter w) = (EXN ex IN w1) ->
  is_exception (exn_cls ex) = true ->
  exists prefix, (prefix = "Error syncing " \/ prefix = "Unexpected error syncing ") /\
    sync_stream sf ce w
    = (EXN (Exn (if is_tap_exception (exn_cls ex) then exn_cls ex else Exception)
                (prefix +:+ stream ce +:+ ": " +:+ exn_msg ex)
                (if is_tap_exception (exn_cls ex) then None else Some ex)) IN w1).
Proof.
  intros Hrun Hexn. rewrite sync_stream_run, Hrun. unfold translate_error. rewrite Hexn.
  destruct (is_tap_exception _);
    [exists "Error syncing "|exists "Unexpected error syncing "]; auto.
Qed.

(** With [pk_chunking] set, [sync_stream] never returns. *)
Lemma sync_stream_chunked_fails sf ce :
  pk_chunking sf = true -> se_fails (sync_stream sf ce).
Proof.
  intros Hmode. pose proof (finish_pass_chunked_fails sf ce).
  unfold sync_stream, sync_records. fails.
Qed.

(** C12: a [sync_stream] that returns was not chunked; the source was
    exhausted without failure; every record of it went out, processed, in
    the order of the source; the count returned is their number; and the
    last message written is the flush of the store as it is in memory. *)
Theorem sync_stream_returns sf ce w n w' :
  sync_stream sf ce w = (RET n IN w') ->
  pk_chunking sf = false /\
  exists recs rs, query sf ce (w_state w) = (recs, None) /\
    Forall2 (fun rec r => process_record ce rec = inr r) recs rs /\
    emitted (w_out w') = emitted (w_out w) ++ rs /\ n = length rs /\
    last (w_out w') = Some (StateMessage (w_state w')).
Proof.
  intros Hrun. destruct (pk_chunking sf) eqn:Hmode.
  { pose proof (finish_pass_chunked_fails sf ce) as Hfin.
    assert (se_fails (sync_stream sf ce)) as Hf by (unfold sync_stream, sync_records; fails).
    specialize (Hf w). by rewrite Hrun in Hf. }
  split; [done|]. rewrite sync_stream_run in Hrun.
  destruct (sync_records _ _ _) as [[ex|[]] w1] eqn:Hpass; [done|]. injection Hrun as <- <-.
  apply sync_records_ok in Hpass as (sd & cb0 & ver & w0 & recs & cb' & w2 &
    _ & _ & Hver & Hq & Hloop & Hfin).
  apply get_stream_version_world in Hver as (Hst & Hout & Hcount & _).
  apply sync_loop_trace in Hloop as (rs & trace & Hrs & Htrace & Hem & _ & Hn & _).
  rewrite finish_pass_plain_run in Hfin by done. unfold after_pass in Hfin.
  exists recs, rs. simpl in *. rewrite last_snoc. repeat split; try done.
  - destruct (truthy_key _); injection Hfin as <-; simpl;
      rewrite ?emitted_app, Htrace, !emitted_app, Hout, Hem; simpl; by rewrite ?app_nil_r.
  - pose proof (Forall2_length _ _ _ Hrs).
    destruct (truthy_key _); injection Hfin as <-; simpl; lia.
Qed.

(** An unchunked [sync_stream] leaves in memory the store it flushed
    last, at every exit: what a restart reads is what the run left. *)
Lemma sync_stream_keeps_in_sync s0 sf ce w r w' :
  pk_chunking sf = false -> in_sync s0 w ->
  sync_stream sf ce w = (r, w') -> in_sync s0 w'.
Proof.
  intros Hmode Hw. rewrite sync_stream_run.
  destruct (sync_records _ _ _) as [[ex|[]] w1] eqn:Hpass; intros [= <- <-].
  - exact (sync_records_raises_in_sync s0 _ _ (new_counter w) _ _ Hmode Hw Hpass).
  - unfold in_sync. simpl. rewrite flushed_app. simpl. by rewrite last_snoc.
Qed.

End SyncStream.

(** ** Witnesses, on the collaborators of Fixtures.v *)

Section SyncStreamWitnesses.
#[local] Existing Instance fixture_clock.
#[local] Existing Instance reliable_emitter.

(** A source that fails, out of quota, after its first record. *)
Definition quota_source : salesforce :=
  fixed_source false
    ([account "001" "1600000000000000" "42"],
     Some (Exn TapSalesforceQuotaExceededException "quota exceeded" None)) [].

Definition strptime_error : exn :=
  Exn TypeError "strptime() argument 1 must be str, not datetime.datetime" None.

Definition chunked_stream : (exn + nat) * world :=
  sync_stream chunked_source account_entry (world0 ∅).

Definition quota_pass : (exn + unit) * world :=
  sync_records quota_source account_entry (new_counter (world0 ∅)).

Definition quota_stream : (exn + nat) * world :=
  sync_stream quota_source account_entry (world0 ∅).

Definition plain_stream : (exn + nat) * world :=
  sync_stream plain_source account_entry (world0 ∅).

Lemma chunked_stream_raises :
  chunked_stream
  = (EXN (Exn Exception
            "Unexpected error syncing Account: strptime() argument 1 must be str, not datetime.datetime"
            (Some strptime_error)) IN chunked_stream.2).
Proof. by vm_compute. Qed.

Lemma quota_pass_raises :
  quota_pass
  = (EXN (Exn TapSalesforceQuotaExceededException "quota exceeded" None) IN quota_pass.2).
Proof. by vm_compute. Qed.

Lemma quota_stream_run : quota_stream = (quota_stream.1, quota_stream.2).
Proof. by destruct quota_stream. Qed.

Lemma plain_stream_returns : plain_stream = (RET 3%nat IN plain_stream.2).
Proof. by vm_compute. Qed.

Lemma sync_stream_error_class_witness :
  (is_tap_exception Exception = true /\ Some strptime_error = None) \/
  (Exception = Exception /\
   exists ex, Some strptime_error = Some ex /\ is_tap_exception (exn_cls ex) = false /\
     is_exception (exn_cls ex) = true) \/
  is_exception Exception = false.
Proof.
  exact (sync_stream_error_class chunked_source account_entry (world0 ∅) _ chunked_stream.2
           chunked_stream_raises).
Defined.

Lemma sync_stream_error_message_witness :
  exists prefix, (prefix = "Error syncing " \/ prefix = "Unexpected error syncing ") /\
    sync_stream quota_source account_entry (world0 ∅)
    = (EXN (Exn TapSalesforceQuotaExceededException
                (prefix +:+ "Account" +:+ ": " +:+ "quota exceeded") None) IN quota_pass.2).
Proof.
  exact (sync_stream_error_message quota_source account_entry (world0 ∅) _ quota_pass.2
           quota_pass_raises eq_refl).
Defined.

Example sync_stream_chunked_fails_example : se_fails (sync_stream chunked_source account_entry).
Proof. exact (sync_stream_chunked_fails chunked_source account_entry eq_refl). Defined.

Lemma sync_stream_returns_witness :
  pk_chunking plain_source = false /\
  exists recs rs, query plain_source account_entry ∅ = (recs, None) /\
    Forall2 (fun rec r => process_record account_entry rec = inr r) recs rs /\
    emitted (w_out plain_stream.2) = emitted (w_out (world0 ∅)) ++ rs /\ 3%nat = length rs /\
    last (w_out plain_stream.2) = Some (StateMessage (w_state plain_stream.2)).
Proof.
  exact (sync_stream_returns plain_source account_entry (world0 ∅) 3 plain_stream.2
           plain_stream_returns).
Defined.

Example sync_stream_keeps_in_sync_example : in_sync ∅ quota_stream.2.
Proof.
  exact (sync_stream_keeps_in_sync ∅ quota_source account_entry (world0 ∅) quota_stream.1
           quota_stream.2 eq_refl eq_refl quota_stream_run).
Defined.

End SyncStreamWitnesses.
