(* ===== verification/Interrupt.v ===== *)
(** * Runs that are cut short

    The output of a pass is a pipe: the consumer may close it, or the
    process may be stopped, after any message.  This file follows a pass
    under an emitter that refuses a write at some point and compares it
    with the pass on an output that takes every message: up to the refused
    write the two runs are the same run, the refused write raises, and
    nothing is written after it.  What holds of every beginning of the
    trace of the whole run therefore holds of the run that is cut
    ([cut_trace]), which is how the files that follow reason about a
    process stopped anywhere. *)

From Stdlib Require Import ZArith String List Lia.
From stdpp Require Import base option list strings gmap.
From S2P Require Import Prelude PyValue Bookmarks Runtime Fixtures Version SyncRecords Resume SyncStream.

(** ** What the writes keep, every run keeps

    A property of the output that holds after every write the emitter lets
    through is an invariant of every driver, whatever its outcome. *)

Section Output.
Context `{Clock} `{TimeCodec} `{Transformer} {emitter : Emitter}.
Context (P : list message -> Prop) (HP : admits P).

#[local] Hint Resolve HP : tap.

Lemma get_stream_version_keeps_out ce st : se_keeps (on_out P) (get_stream_version ce st).
Proof. apply get_stream_version_keeps. auto with tap. Qed.

Lemma emit_record_keeps_out ce ver start rec :
  se_keeps (on_out P) (emit_record ce ver start rec).
Proof. unfold emit_record. keeps. Qed.

Lemma sync_record_keeps_out sf ce ver start cb rec :
  se_keeps (on_out P) (sync_record sf ce ver start cb rec).
Proof. unfold sync_record. pose proof emit_record_keeps_out. keeps. Qed.

Lemma sync_loop_keeps_out sf ce ver start cb recs :
  se_keeps (on_out P) (sync_loop sf ce ver start cb recs).
Proof. apply sync_loop_keeps. intros. apply sync_record_keeps_out. Qed.

Lemma finish_pass_keeps_out sf ce msg cb : se_keeps (on_out P) (finish_pass sf ce msg cb).
Proof. unfold finish_pass. keeps. Qed.

Lemma sync_records_keeps_out sf ce : se_keeps (on_out P) (sync_records sf ce).
Proof.
  pose proof get_stream_version_keeps_out. pose proof sync_loop_keeps_out.
  pose proof finish_pass_keeps_out. unfold sync_records, end_of_stream. keeps.
Qed.

Lemma sync_stream_keeps_out sf ce : se_keeps (on_out P) (sync_stream sf ce).
Proof.
  pose proof sync_records_keeps_out. unfold sync_stream. keeps.
  by apply se_keeps_modify.
Qed.

Lemma resume_record_keeps_out ce ver start cb rec :
  se_keeps (on_out P) (resume_record ce ver start cb rec).
Proof. unfold resume_record. pose proof emit_record_keeps_out. keeps. Qed.

Lemma drain_batch_keeps_out ce ver start cb recs :
  se_keeps (on_out P) (drain_batch ce ver start cb recs).
Proof.
  pose proof resume_record_keeps_out. revert cb.
  induction recs as [|rec recs IH]; intros cb; simpl; keeps.
Qed.

Lemma remove_batch_id_keeps_out id batch_id : se_keeps (on_out P) (remove_batch_id id batch_id).
Proof. intros w Hw. unfold remove_batch_id. by repeat case_match. Qed.

Lemma finish_batch_keeps_out ce batch_id cb : se_keeps (on_out P) (finish_batch ce batch_id cb).
Proof. pose proof remove_batch_id_keeps_out. unfold finish_batch. keeps. Qed.

Lemma drain_batches_keeps_out sf ce job ver start cb batches :
  se_keeps (on_out P) (drain_batches sf ce job ver start cb batches).
Proof.
  pose proof drain_batch_keeps_out. pose proof finish_batch_keeps_out. revert cb.
  induction batches as [|b rest IH]; intros cb; simpl; unfold end_of_stream; keeps.
Qed.

Lemma resume_keeps_out sf ce job : se_keeps (on_out P) (resume_syncing_bulk_query sf ce job).
Proof.
  pose proof drain_batches_keeps_out. pose proof get_stream_version_keeps_out.
  unfold resume_syncing_bulk_query. keeps.
Qed.

End Output.

(** ** A run and the run it is cut from *)

(** A run of [m] only adds to the output. *)
Definition grows {A} (m : M A) : Prop := forall out, se_keeps (on_out (prefix out)) m.

Section Tracks.
Context (E : Emitter).

(** The outcome [r] against the outcome [r'] of the whole run: the same
    outcome; or an exception in [P], raised where [E] refused a write, on
    an output that the whole run extends. *)
Definition cut_of {A} (P : exn -> Prop) (r r' : result A * world) : Prop :=
  r = r' \/
  exists e, r.1 = inl e /\ P e /\ can_write (w_out r.2) = false /\
    w_out r.2 `prefix_of` w_out r'.2.

(** [tracks P m m']: from every world, the run of [m] is cut from the run
    of [m'], which only adds to the output. *)
Definition tracks {A} (P : exn -> Prop) (m m' : M A) : Prop :=
  forall w, w_out w `prefix_of` w_out (m' w).2 /\ cut_of P (m w) (m' w).

Lemma grows_run {A} (m : M A) w : grows m -> w_out w `prefix_of` w_out (m w).2.
Proof. intros Hm. exact (Hm (w_out w) w (reflexivity (w_out w))). Qed.

Lemma tracks_refl {A} P (m : M A) : grows m -> tracks P m m.
Proof. intros Hm w. split; [by apply grows_run|by left]. Qed.

(** What was cut stays cut, whatever would have followed. *)
Lemma cut_of_bind {A B} P (r : result A * world) (k : A -> M B) (r' : result B * world) :
  (exists e, r.1 = inl e /\ P e /\ can_write (w_out r.2) = false /\
     w_out r.2 `prefix_of` w_out r'.2) ->
  cut_of P (let '(x, w1) := r in match x with inl e => (inl e, w1) | inr a => k a w1 end) r'.
Proof.
  intros (e & He & Hcut). right. destruct r as [[e0|a] w1]; simplify_eq/=. by exists e.
Qed.

Lemma tracks_bind {A B} P (m m' : M A) (k k' : A -> M B) :
  tracks P m m' -> (forall a, tracks P (k a) (k' a)) -> tracks P (m ≫= k) (m' ≫= k').
Proof.
  intros Hm Hk w. rewrite !se_bind_run. destruct (Hm w) as [Hgrow [Heq|Hcut]].
  - rewrite Heq. destruct (m' w) as [[e|a] w1]; [by split; [|left]|].
    destruct (Hk a w1) as [Hgrow1 Hcut1]. split; [by etrans|done].
  - destruct Hcut as (e & He & HPe & Hcan & Hpre).
    assert (w_out (m' w).2 `prefix_of`
            w_out (let '(x, w1) := m' w in
                   match x with inl e => (inl e, w1) | inr a => k' a w1 end).2) as Hrest.
    { destruct (m' w) as [[e'|a] w1]; [done|]. apply (Hk a w1). }
    split; [by etrans|]. apply cut_of_bind. exists e. repeat split; try done. by etrans.
Qed.

(** The write itself: it goes through on both sides, or it is refused. *)
Lemma tracks_write_message msg :
  tracks (eq broken_pipe) (write_message (emitter:=E) msg)
         (write_message (emitter:=reliable_emitter) msg).
Proof.
  intros w. rewrite (write_message_cases (H:=E)), (write_message_run (H:=reliable_emitter)).
  split; [by apply prefix_app_r|]. destruct (can_write (w_out w)) eqn:Hcan; [by left|].
  right. exists broken_pipe. repeat split; try done. by apply prefix_app_r.
Qed.

Lemma tracks_write_state st :
  tracks (eq broken_pipe) (write_state (emitter:=E) st)
         (write_state (emitter:=reliable_emitter) st).
Proof. apply tracks_write_message. Qed.

(** A handler that raises again without writing: what was cut stays cut,
    and its exception is the handler's. *)
Lemma tracks_catch {A} P Q (m m' : M A) (h : exn -> M A) :
  tracks P m m' ->
  (forall e, grows (h e)) ->
  (forall e w, P e -> exists e', (h e w).1 = inl e' /\ Q e' /\ w_out (h e w).2 = w_out w) ->
  tracks Q (se_catch m h) (se_catch m' h).
Proof.
  intros Hm Hgrow Hh w. unfold se_catch. destruct (Hm w) as [Hgrow1 [Heq|Hcut]].
  - rewrite Heq. destruct (m' w) as [[e|a] w1]; [|by split; [|left]].
    split; [|by left]. etrans; [done|]. by apply grows_run.
  - destruct Hcut as (e & He & HPe & Hcan & Hpre).
    assert (w_out (m' w).2 `prefix_of`
            w_out (let '(x, w1) := m' w in
                   match x with inl e => h e w1 | inr a => (inr a, w1) end).2) as Hrest.
    { destruct (m' w) as [[e'|a] w1]; [|done]. by apply grows_run. }
    split; [by etrans|]. right. destruct (m w) as [[e0|a] w1]; simplify_eq/=.
    destruct (Hh e w1 HPe) as (e' & He' & HQ & Hout). exists e'. rewrite Hout.
    repeat split; try done. by etrans.
Qed.

End Tracks.

#[export] Hint Resolve tracks_write_message tracks_write_state admits_prefix : tap.

(** [tracks]: walks two runs of the same program along its binds and case
    distinctions; a part that does not write is its own whole run. *)
Ltac tracks :=
  match goal with
  | |- tracks _ _ (_ ≫= _) (_ ≫= _) => apply tracks_bind; [|intros ?]; tracks
  | |- tracks _ _ (if ?b then _ else _) _ => destruct b eqn:?; tracks
  | |- tracks _ _ (match ?x with _ => _ end) _ => destruct x eqn:?; tracks
  | |- tracks _ _ _ _ => first [solve [auto with tap] | apply tracks_refl; intros ?; keeps]
  end.

(** ** The drivers, cut *)

Section Cuts.
Context `{Clock} `{TimeCodec} `{Transformer} (E : Emitter).

(** The program [m], run on [E], is cut from its run on the output that
    takes every message; what it raises when cut is the broken pipe. *)
Definition cuts {A} (m : Emitter -> M A) : Prop :=
  tracks E (eq broken_pipe) (m E) (m reliable_emitter).

Lemma emit_record_cuts ce ver start rec :
  cuts (fun e => emit_record (emitter:=e) ce ver start rec).
Proof. unfold cuts, emit_record. tracks. Qed.

Lemma sync_record_cuts sf ce ver start cb rec :
  cuts (fun e => sync_record (emitter:=e) sf ce ver start cb rec).
Proof. pose proof emit_record_cuts. unfold cuts, sync_record in *. tracks. Qed.

Lemma sync_loop_cuts sf ce ver start cb recs :
  cuts (fun e => sync_loop (emitter:=e) sf ce ver start cb recs).
Proof.
  pose proof sync_record_cuts. unfold cuts in *. revert cb.
  induction recs as [|rec recs IH]; intros cb; simpl; tracks.
Qed.

Lemma finish_pass_cuts sf ce msg cb : cuts (fun e => finish_pass (emitter:=e) sf ce msg cb).
Proof. unfold cuts, finish_pass in *. tracks. Qed.

Lemma sync_records_cuts sf ce : cuts (fun e => sync_records (emitter:=e) sf ce).
Proof.
  pose proof sync_loop_cuts. pose proof finish_pass_cuts.
  pose proof get_stream_version_keeps_out.
  unfold cuts, sync_records, end_of_stream in *. tracks.
Qed.

(** The orchestrator wraps the broken pipe as it wraps any exception that
    is not the tap's own. *)
Lemma sync_stream_tracks sf ce :
  tracks E (eq (translate_error (stream ce) broken_pipe))
    (sync_stream (emitter:=E) sf ce) (sync_stream (emitter:=reliable_emitter) sf ce).
Proof.
  pose proof sync_records_cuts. unfold cuts, sync_stream in *.
  apply tracks_bind; [by apply tracks_refl; intros out; apply se_keeps_modify|intros _].
  apply tracks_bind; [|intros _; tracks].
  apply tracks_catch with (P := eq broken_pipe); [tracks|intros e out; keeps|].
  intros e w <-. by eexists.
Qed.

(** *** The resumption *)

Lemma resume_record_cuts ce ver start cb rec :
  cuts (fun e => resume_record (emitter:=e) ce ver start cb rec).
Proof. pose proof emit_record_cuts. unfold cuts, resume_record in *. tracks. Qed.

Lemma drain_batch_cuts ce ver start cb recs :
  cuts (fun e => drain_batch (emitter:=e) ce ver start cb recs).
Proof.
  pose proof resume_record_cuts. unfold cuts in *. revert cb.
  induction recs as [|rec recs IH]; intros cb; simpl; tracks.
Qed.

Lemma finish_batch_cuts ce batch_id cb :
  cuts (fun e => finish_batch (emitter:=e) ce batch_id cb).
Proof.
  pose proof remove_batch_id_keeps_out. unfold cuts, finish_batch in *. tracks.
Qed.

Lemma drain_batches_cuts sf ce job ver start cb batches :
  cuts (fun e => drain_batches (emitter:=e) sf ce job ver start cb batches).
Proof.
  pose proof drain_batch_cuts. pose proof finish_batch_cuts. unfold cuts in *.
  revert cb. induction batches as [|b rest IH]; intros cb; simpl; unfold end_of_stream; tracks.
Qed.

Lemma resume_cuts sf ce job :
  cuts (fun e => resume_syncing_bulk_query (emitter:=e) sf ce job).
Proof.
  pose proof drain_batches_cuts. pose proof get_stream_version_keeps_out.
  unfold cuts, resume_syncing_bulk_query in *. tracks.
Qed.

End Cuts.

(** ** What a cut run leaves behind *)

(** On the output that takes [c] messages, a run that is cut from another
    has written the first [c] messages of it, or all of them. *)
Lemma cut_of_capped c {A} P (r r' : result A * world) :
  cut_of (capped c) P r r' -> (length (w_out r.2) <= c)%nat -> w_out r.2 = take c (w_out r'.2).
Proof.
  intros [->|(e & _ & _ & Hcan & rest & ->)] Hlen; [by rewrite take_ge|].
  apply bool_decide_eq_false in Hcan. rewrite take_app_length'; [done|lia].
Qed.

Lemma cut_of_prefix E {A} P (r r' : result A * world) :
  cut_of E P r r' -> w_out r.2 `prefix_of` w_out r'.2.
Proof. by intros [->|(e & _ & _ & _ & Hpre)]. Qed.

(** What a cut run wrote and what the whole run wrote after the output
    they started from: the first is the beginning of the second. *)
Lemma tracks_trace E {A} P (m m' : M A) w :
  tracks E P m m' -> grows m ->
  exists trace rest, w_out (m w).2 = w_out w ++ trace /\
    w_out (m' w).2 = w_out w ++ trace ++ rest.
Proof.
  intros Hm Hgrow. destruct (Hm w) as [_ [rest Hrest]%cut_of_prefix].
  destruct (grows_run m w Hgrow) as [trace Htrace].
  exists trace, rest. split; [done|]. by rewrite Hrest, Htrace, <- app_assoc.
Qed.

(** What holds of the trace of the whole run and of every beginning of it
    holds of the trace of the run that is cut. *)
Lemma cut_trace E {A} P (m m' : M A) (Q : list message -> Prop) w :
  tracks E P m m' -> grows m ->
  (forall p l, p `prefix_of` l -> Q l -> Q p) ->
  (exists whole, w_out (m' w).2 = w_out w ++ whole /\ Q whole) ->
  exists trace, w_out (m w).2 = w_out w ++ trace /\ Q trace.
Proof.
  intros Hm Hgrow Hclosed (whole & Hwhole & HQ).
  destruct (tracks_trace E P m m' w Hm Hgrow) as (trace & rest & Hcut & Hall).
  exists trace. split; [done|]. rewrite Hwhole in Hall. apply app_inv_head in Hall as ->.
  apply (Hclosed trace (trace ++ rest)); [by exists rest|done].
Qed.

Section Interrupted.
Context `{Clock} `{TimeCodec} `{Transformer}.

(** ** The watermark of a chunked pass, flush by flush *)

(** The stores [sts] hold watermarks that rise, each beyond the one
    before, from [lo] to [top], none beyond [hi]. *)
Fixpoint rising (id : string) (lo hi : Z) (sts : list state) (top : Z) : Prop :=
  match sts with
  | [] => top = lo
  | st :: sts' =>
      exists t, get_bookmark st id JOB_HIGHEST_BOOKMARK_SEEN = VStr (format_utc t) /\
        (lo < t <= hi)%Z /\ rising id t hi sts' top
  end.

Lemma rising_app id lo hi sts1 sts2 mid top :
  rising id lo hi sts1 mid -> rising id mid hi sts2 top -> rising id lo hi (sts1 ++ sts2) top.
Proof.
  revert lo. induction sts1 as [|st sts1 IH]; intros lo; simpl; [by intros ->|].
  intros (t & Hst & Ht & Hrest) Hsts2. exists t. auto.
Qed.

(** The stores flushed before a stop rise as well. *)
Lemma rising_prefix id lo hi sts1 sts2 top :
  rising id lo hi (sts1 ++ sts2) top -> exists mid, rising id lo hi sts1 mid.
Proof.
  revert lo. induction sts1 as [|st sts1 IH]; intros lo; simpl; [by exists lo|].
  intros (t & Hst & Ht & Hrest). destruct (IH _ Hrest) as [mid Hmid]. exists mid, t. auto.
Qed.

(** One record of a chunked pass flushes nothing, or one store whose
    watermark is the key of the record, beyond the watermark in memory and
    not after the start. *)
Lemma sync_record_rising sf ce ver start cb rec w r w' key :
  pk_chunking sf = true ->
  truthy_key (replication_key ce) = Some key ->
  sync_record (emitter:=reliable_emitter) sf ce ver start cb rec w = (r, w') ->
  exists top, rising (tap_stream_id ce) (dt_instant cb) (dt_instant start) (flushed_by w w') top /\
    forall cb', r = inr cb' -> dt_instant cb' = top.
Proof.
  intros Hmode Hkey. rewrite sync_record_run, Hmode, Hkey.
  assert (forall w1, w_out w1 = w_out w ++ [RecordMessage (stream_name ce)
            (match process_record ce rec with inr r1 => r1 | inl _ => VNone end) ver start] ->
          flushed_by w w1 = []) as Hnone.
  { intros w1 Hout. by rewrite (flushed_by_trace _ _ _ Hout). }
  destruct (process_record ce rec) as [e|r1];
    [intros [= <- <-]; exists (dt_instant cb); unfold flushed_by; by rewrite drop_all|].
  cbv zeta. destruct (key_datetime r1 key) as [e|t];
    [intros [= <- <-]; exists (dt_instant cb); by rewrite Hnone|].
  destruct (dt_le t start && dt_gt t cb) eqn:Hc;
    [|intros [= <- <-]; exists (dt_instant cb); rewrite Hnone by done; split; [done|];
      by intros ? [= <-]].
  destruct (strftime t) as [e|formatted] eqn:Hfmt;
    [intros [= <- <-]; exists (dt_instant cb); by rewrite Hnone|].
  apply strftime_ok in Hfmt as [-> _]. apply andb_true_iff in Hc as [Hle Hgt].
  unfold dt_le, dt_gt in *. intros [= <- <-]. exists (dt_instant t).
  erewrite flushed_by_trace by (simpl; by rewrite <- app_assoc). simpl.
  split; [|by intros ? [= <-]]. exists (dt_instant t). split; [by store|]. split; [lia|done].
Qed.

(** Whatever the outcome of the loop of a chunked pass on an output that
    takes every message, the watermarks it flushes rise from the one it
    started with, and the last is the watermark it returns. *)
Lemma sync_loop_rising sf ce ver start cb recs w r w' key :
  pk_chunking sf = true ->
  truthy_key (replication_key ce) = Some key ->
  sync_loop (emitter:=reliable_emitter) sf ce ver start cb recs w = (r, w') ->
  exists top, rising (tap_stream_id ce) (dt_instant cb) (dt_instant start) (flushed_by w w') top /\
    forall cb', r = inr cb' -> dt_instant cb' = top.
Proof.
  intros Hmode Hkey. revert cb w. induction recs as [|rec recs IH]; intros cb w; simpl.
  { intros [= <- <-]. exists (dt_instant cb). unfold flushed_by. rewrite drop_all.
    split; [done|]. by intros ? [= <-]. }
  rewrite se_bind_run. destruct (sync_record _ _ _ _ _ _ _) as [r1 w1] eqn:Hrec.
  destruct (sync_record_rising _ _ _ _ _ _ _ _ _ _ Hmode Hkey Hrec) as (mid & Hrise1 & Hmid).
  destruct r1 as [e|cb1]; [intros [= <- <-]; exists mid; split; [done|]; by intros|].
  intros Hloop. destruct (IH _ _ Hloop) as (top & Hrise2 & Htop).
  rewrite (Hmid cb1 eq_refl) in Hrise2. exists top. split; [|done].
  rewrite (flushed_by_split w w1 w'); [by eapply rising_app| |].
  - exact (se_keeps_run _ _ _ _ _ (sync_record_keeps_out _ (admits_prefix _) sf ce ver start cb rec)
             (reflexivity (w_out w)) Hrec).
  - exact (se_keeps_run _ _ _ _ _ (sync_loop_keeps_out _ (admits_prefix _) sf ce ver start cb1 recs)
             (reflexivity (w_out w1)) Hloop).
Qed.


(** The run of [m] from [w] wrote [trace]. *)
Definition wrote {A} (m : M A) (w : world) (trace : list message) : Prop :=
  w_out (m w).2 = w_out w ++ trace.

(** The output [out] ends where [E] refused a write, within [whole]. *)
Definition stopped_at (E : Emitter) (out whole : list message) : Prop :=
  can_write out = false /\ out `prefix_of` whole.

(** C9: a pass on an output that refuses a write.  Up to the refused
    write it is the pass on the output that takes every message, and it has
    the outcome of that pass when no write is refused; the refused write
    ends it with the exception [sync_stream] makes of any failure that is
    not the tap's own, the broken pipe as its cause, and nothing is written
    after it. *)
Theorem sync_stream_broken_pipe (E : Emitter) sf ce w :
  let whole := sync_stream (emitter:=reliable_emitter) sf ce w in
  sync_stream (emitter:=E) sf ce w = whole \/
  exists w', sync_stream (emitter:=E) sf ce w =
      (EXN (Exn Exception
              ("Unexpected error syncing " +:+ stream ce +:+ ": [Errno 32] Broken pipe")
              (Some broken_pipe)) IN w') /\
    stopped_at E (w_out w') (w_out whole.2).
Proof.
  destruct (sync_stream_tracks E sf ce w) as [_ [Heq|(e & He & <- & Hcan & Hpre)]]; [by left|].
  right. destruct (sync_stream sf ce w) as [r w']. exists w'. by simplify_eq/=.
Qed.

(** A pass that is stopped after [c] messages in all has written the
    first [c] messages of the whole pass, and all of them when the whole
    pass writes no more: every beginning of the output of a pass is the
    output of a pass that was stopped, and a stopped pass writes nothing
    else. *)
Lemma sync_stream_capped c sf ce w :
  (length (w_out w) <= c)%nat ->
  w_out (sync_stream (emitter:=capped c) sf ce w).2 =
  take c (w_out (sync_stream (emitter:=reliable_emitter) sf ce w).2).
Proof.
  intros Hlen. apply (cut_of_capped c (eq (translate_error (stream ce) broken_pipe))).
  - apply sync_stream_tracks.
  - by apply (sync_stream_keeps_out (emitter:=capped c) _ (admits_capped c)).
Qed.

(** The resumption, stopped after [c] messages in all, has written
    the first [c] messages of the whole resumption. *)
Lemma resume_capped c sf ce job w :
  (length (w_out w) <= c)%nat ->
  w_out (resume_syncing_bulk_query (emitter:=capped c) sf ce job w).2 =
  take c (w_out (resume_syncing_bulk_query (emitter:=reliable_emitter) sf ce job w).2).
Proof.
  intros Hlen. apply (cut_of_capped c (eq broken_pipe)).
  - apply (resume_cuts (capped c)).
  - by apply (resume_keeps_out (emitter:=capped c) _ (admits_capped c)).
Qed.

(** C17: on any output, and whatever the outcome of the loop, every store
    it flushes records the record written just before the flush: wherever
    the pass is stopped, nothing is recorded that was not emitted, and the
    store a restart reads records the last record the consumer was sent
    before it. *)
Theorem sync_loop_cut_recorded (E : Emitter) sf ce ver start cb recs w key :
  truthy_key (replication_key ce) = Some key ->
  exists trace, wrote (sync_loop (emitter:=E) sf ce ver start cb recs) w trace /\
    forall last, recorded_after_emitted sf (tap_stream_id ce) key last trace.
Proof.
  intros Hkey.
  destruct (tracks_trace E _ _ _ w (sync_loop_cuts E sf ce ver start cb recs))
    as (trace & rest & Hcut & Hwhole).
  { intros out. apply sync_loop_keeps_out, admits_prefix. }
  destruct (sync_loop (emitter:=reliable_emitter) sf ce ver start cb recs w) as [r' w'] eqn:Hrun.
  destruct (sync_loop_recorded _ _ _ _ _ _ _ _ _ _ Hkey Hrun) as (trace' & Hout' & Hrec).
  exists trace. split; [done|]. intros last. simpl in Hwhole.
  rewrite Hout' in Hwhole. apply app_inv_head in Hwhole as ->.
  by eapply recorded_after_emitted_prefix.
Qed.

(** C22: wherever a chunked pass is stopped and whatever it raises, the
    watermarks of the stores it flushed rise, each beyond the one before
    and beyond the watermark the pass started with, and none is after the
    start of the pass: the watermark a restart finds never moved back. *)
Theorem sync_loop_watermark_rises (E : Emitter) sf ce ver start cb recs w key :
  pk_chunking sf = true ->
  truthy_key (replication_key ce) = Some key ->
  exists top,
    rising (tap_stream_id ce) (dt_instant cb) (dt_instant start)
      (flushed_by w (sync_loop (emitter:=E) sf ce ver start cb recs w).2) top.
Proof.
  intros Hmode Hkey.
  destruct (tracks_trace E _ _ _ w (sync_loop_cuts E sf ce ver start cb recs))
    as (trace & rest & Hcut & Hwhole).
  { intros out. apply sync_loop_keeps_out, admits_prefix. }
  destruct (sync_loop_rising sf ce ver start cb recs w _ _ key Hmode Hkey
              (surjective_pairing _)) as (top & Hrise & _).
  rewrite (flushed_by_trace _ _ _ Hwhole), flushed_app in Hrise.
  rewrite (flushed_by_trace _ _ _ Hcut). by eapply rising_prefix.
Qed.

End Interrupted.

(** ** Witnesses, on the collaborators of Fixtures.v *)

Section InterruptedWitnesses.
#[local] Existing Instance fixture_clock.

(** The unchunked pass over the three accounts writes a record and a flush
    for each account within the pass, and the final flush.  Stopped after
    two messages, it raises the wrapped broken pipe. *)
Definition stopped_stream : (exn + nat) * world :=
  sync_stream (emitter:=capped 2) plain_source account_entry (world0 ∅).

Example stopped_stream_raises :
  stopped_stream.1 =
  inl (Exn Exception "Unexpected error syncing Account: [Errno 32] Broken pipe"
         (Some broken_pipe)) /\
  length (w_out stopped_stream.2) = 2%nat.
Proof. by vm_compute. Qed.

Example sync_stream_capped_example :
  w_out stopped_stream.2 =
  take 2 (w_out (sync_stream (emitter:=reliable_emitter) plain_source account_entry
                   (world0 ∅)).2).
Proof. exact (sync_stream_capped 2 plain_source account_entry (world0 ∅) (le_0_n 2)). Qed.

Example resume_capped_example :
  w_out (resume_syncing_bulk_query (emitter:=capped 4) job_source account_entry (VStr "job")
           (world0 job_state)).2 =
  take 4 (w_out (resume_syncing_bulk_query (emitter:=reliable_emitter) job_source
                   account_entry (VStr "job") (world0 job_state)).2).
Proof.
  exact (resume_capped 4 job_source account_entry (VStr "job") (world0 job_state) (le_0_n 4)).
Defined.

Lemma sync_loop_cut_recorded_witness :
  exists trace,
    w_out (sync_loop (emitter:=capped 3) chunked_source account_entry (VInt 1) pass_start
             pass_from three_accounts (world0 ∅)).2 = w_out (world0 ∅) ++ trace /\
    forall last, recorded_after_emitted chunked_source "Account" "SystemModstamp" last trace.
Proof.
  exact (sync_loop_cut_recorded (capped 3) chunked_source account_entry (VInt 1) pass_start
           pass_from three_accounts (world0 ∅) "SystemModstamp" eq_refl).
Defined.

Lemma sync_loop_watermark_rises_witness :
  exists top,
    rising "Account" (dt_instant pass_from) (dt_instant pass_start)
      (flushed_by (world0 ∅)
         (sync_loop (emitter:=capped 3) chunked_source account_entry (VInt 1) pass_start
            pass_from three_accounts (world0 ∅)).2) top.
Proof.
  exact (sync_loop_watermark_rises (capped 3) chunked_source account_entry (VInt 1) pass_start
           pass_from three_accounts (world0 ∅) "SystemModstamp" eq_refl eq_refl).
Defined.

End InterruptedWitnesses.
