(* ===== verification/Frame.v ===== *)
(** * The fields a pass writes

    A pass of [sync_stream] owns a few fields of its stream in the store:
    the version of a stream without a replication key, and the field of the
    bookmark policy in force.  This file shows that nothing else is ever
    written, in memory or on the output: the store in memory at the end of
    a pass and every store the pass flushed, wherever it was stopped, hold
    under every other field of every stream what the pass found there. *)

From Stdlib Require Import ZArith String List Lia.
From stdpp Require Import base option list strings gmap.
From S2P Require Import Prelude PyValue Bookmarks Runtime Fixtures Version SyncRecords SyncStream Interrupt.

Section Frame.
Context `{Clock} `{TimeCodec} `{Transformer}.

(** The fields of its stream that a pass may write: [version] when the
    stream has no replication key; [JobHighestBookmarkSeen] when the pass is
    chunked, the replication key when it is not. *)
Definition owned (sf : salesforce) (ce : catalog_entry) (field : string) : Prop :=
  (field = VERSION /\ truthy_key (replication_key ce) = None) \/
  (if pk_chunking sf then field = JOB_HIGHEST_BOOKMARK_SEEN
   else truthy_key (replication_key ce) = Some field).

(** [P] survives every write to a field the pass owns. *)
Definition pass_closed (sf : salesforce) (ce : catalog_entry) (P : state -> Prop) : Prop :=
  forall st field v, owned sf ce field -> P st ->
    P (write_bookmark st (tap_stream_id ce) field v).

(** [P] holds of the store in memory and of the stores flushed after the
    first [n]. *)
Definition kept_since (n : nat) (P : state -> Prop) (w : world) : Prop :=
  P (w_state w) /\ Forall P (drop n (flushed (w_out w))).

(** ** Facts: the store in memory, on any output *)

Section Memory.
Context {emitter : Emitter}.
Context (sf : salesforce) (ce : catalog_entry) (P : state -> Prop) (HP : pass_closed sf ce P).

Lemma sync_records_keeps_state : se_keeps (on_state P) (sync_records sf ce).
Proof.
  unfold sync_records. keeps.
  - apply get_stream_version_keeps. auto with tap.
  - apply sync_loop_keeps. intros. apply sync_record_keeps_state.
    + intros st v Hmode. apply HP. right. by rewrite Hmode.
    + intros st key v Hmode Hkey. apply HP. right. by rewrite Hmode.
  - unfold end_of_stream. keeps.
  - apply finish_pass_keeps_state. intros st Hkey. apply HP. by left.
Qed.

Lemma sync_stream_keeps_state : se_keeps (on_state P) (sync_stream sf ce).
Proof.
  pose proof sync_records_keeps_state. unfold sync_stream. keeps. by apply se_keeps_modify.
Qed.

End Memory.

(** ** Facts: the stores flushed, on an output that takes every message *)

Section Flushed.
Context (n : nat) (sf : salesforce) (ce : catalog_entry).
Context (P : state -> Prop) (HP : pass_closed sf ce P).

#[local] Existing Instance reliable_emitter.

Lemma kept_since_same w w' :
  w_state w' = w_state w -> flushed (w_out w') = flushed (w_out w) ->
  kept_since n P w -> kept_since n P w'.
Proof. unfold kept_since. by intros -> ->. Qed.

Lemma kept_since_emit m w :
  flushed [m] = [] -> kept_since n P w -> kept_since n P (emit m w).
Proof. intros Hm. apply kept_since_same; [done|]. simpl. by rewrite flushed_app, Hm, app_nil_r. Qed.

(** A bookmark written and flushed at once. *)
Lemma kept_since_bookmark_and_flush field v w :
  owned sf ce field -> kept_since n P w ->
  kept_since n P (bookmark_and_flush (tap_stream_id ce) field v w).
Proof.
  intros Hfield [Hst Hout]. split; simpl; [by apply HP|].
  rewrite flushed_app, drop_app. apply Forall_app. split; [done|].
  apply Forall_drop. repeat constructor. by apply HP.
Qed.

(** The store in memory, flushed as it is. *)
Lemma kept_since_flush w : kept_since n P w -> kept_since n P (emit (StateMessage (w_state w)) w).
Proof.
  intros [Hst Hout]. split; [done|]. simpl.
  rewrite flushed_app, drop_app. apply Forall_app. split; [done|].
  apply Forall_drop. by repeat constructor.
Qed.

#[local] Hint Resolve kept_since_same kept_since_emit : tap.

Lemma sync_record_kept ver start cb rec :
  se_keeps (kept_since n P) (sync_record sf ce ver start cb rec).
Proof.
  intros w Hw. rewrite sync_record_run.
  assert (kept_since n P (count_one w)) as Hcount by (by apply (kept_since_same w)).
  destruct (process_record ce rec) as [e|r]; [done|]. cbv zeta.
  assert (kept_since n P (emit (RecordMessage (stream_name ce) r ver start) (count_one w)))
    as Hrec by (by apply kept_since_emit).
  destruct (truthy_key _) as [key|] eqn:Hkey; [|done].
  destruct (key_datetime r key) as [e|t]; [done|].
  destruct (pk_chunking sf) eqn:Hmode.
  - repeat case_match; try done. apply kept_since_bookmark_and_flush; [|done].
    right. by rewrite Hmode.
  - repeat case_match; try done. apply kept_since_bookmark_and_flush; [|done].
    right. by rewrite Hmode.
Qed.

Lemma finish_pass_kept msg cb :
  flushed [msg] = [] -> se_keeps (kept_since n P) (finish_pass sf ce msg cb).
Proof.
  intros Hmsg. unfold finish_pass. apply se_keeps_bind.
  - destruct (truthy_key _) eqn:Hkey; keeps.
    apply se_keeps_write_bookmark_m. intros w [Hst Hout]. split; [|done]. apply HP; [|done].
    by left.
  - intros _. destruct (pk_chunking sf); [|keeps].
    apply se_keeps_bind_fails; [apply se_fails_lift|keeps].
Qed.

Lemma sync_records_kept : se_keeps (kept_since n P) (sync_records sf ce).
Proof.
  pose proof finish_pass_kept. unfold sync_records. keeps.
  - apply get_stream_version_keeps. intros w. by apply kept_since_same.
  - apply sync_loop_keeps. intros. apply sync_record_kept.
  - unfold end_of_stream. keeps.
Qed.

Lemma sync_stream_kept : se_keeps (kept_since n P) (sync_stream sf ce).
Proof.
  intros w Hw. rewrite sync_stream_run.
  assert (kept_since n P (new_counter w)) as Hnew by (by apply (kept_since_same w)).
  pose proof (sync_records_kept _ Hnew) as Hpass.
  destruct (sync_records sf ce (new_counter w)) as [[e|[]] w1]; [done|].
  by apply kept_since_flush.
Qed.

End Flushed.

(** What a pass flushes on an output that takes every message. *)
Lemma sync_stream_flushed_whole sf ce P w :
  pass_closed sf ce P -> P (w_state w) ->
  exists trace, w_out (sync_stream (emitter:=reliable_emitter) sf ce w).2 = w_out w ++ trace /\
    Forall P (flushed trace).
Proof.
  intros HP Hw.
  destruct (sync_stream_kept (length (flushed (w_out w))) sf ce P HP w) as [_ Hout].
  { split; [done|]. by rewrite drop_all. }
  destruct (grows_run (sync_stream (emitter:=reliable_emitter) sf ce) w) as [trace Htrace].
  { intros out. apply sync_stream_keeps_out, admits_prefix. }
  exists trace. split; [done|]. by rewrite Htrace, flushed_app, drop_app_length in Hout.
Qed.

(** On any output, a pass flushes a beginning of that. *)
Lemma sync_stream_flushed_keep (E : Emitter) sf ce P w :
  pass_closed sf ce P -> P (w_state w) ->
  Forall P (flushed_by w (sync_stream (emitter:=E) sf ce w).2).
Proof.
  intros HP Hw.
  destruct (cut_trace E _ _ _ (fun trace => Forall P (flushed trace)) w
              (sync_stream_tracks E sf ce)) as (trace & Hout & Htrace).
  - intros out. apply sync_stream_keeps_out, admits_prefix.
  - intros p l [k ->]. rewrite flushed_app. by intros [? _]%Forall_app.
  - by apply sync_stream_flushed_whole.
  - by rewrite (flushed_by_trace _ _ _ Hout).
Qed.

(** A field that the pass does not own is a field that its writes keep. *)
Lemma not_owned_closed sf ce id field v :
  (id = tap_stream_id ce -> ~ owned sf ce field) ->
  pass_closed sf ce (fun st => get_bookmark st id field = v).
Proof.
  intros Hfield st key val Hkey <-. destruct (decide (id = tap_stream_id ce)) as [->|Hid].
  - apply get_write_bookmark_ne_key. intros ->. by apply Hfield.
  - by apply get_write_bookmark_ne_stream.
Qed.

(** C33: the fields a pass may write.  On any output and whatever its
    outcome, a pass of [sync_stream] changes no bookmark of another stream
    and, of its own stream, only the fields it owns: [version] when the
    stream has no replication key, [JobHighestBookmarkSeen] when the pass is
    chunked, the replication key when it is not.  Every other field is what
    it was, in the store in memory and in every store the pass flushed. *)
Theorem sync_stream_frame (E : Emitter) sf ce w id field :
  (id = tap_stream_id ce -> ~ owned sf ce field) ->
  let kept st := get_bookmark st id field = get_bookmark (w_state w) id field in
  kept (w_state (sync_stream (emitter:=E) sf ce w).2) /\
  Forall kept (flushed_by w (sync_stream (emitter:=E) sf ce w).2).
Proof.
  intros Hfield kept.
  pose proof (not_owned_closed sf ce id field (get_bookmark (w_state w) id field) Hfield)
    as Hclosed.
  split.
  - by apply (sync_stream_keeps_state sf ce _ Hclosed w).
  - by apply sync_stream_flushed_keep.
Qed.

End Frame.

(** ** Witnesses *)

Section FrameWitnesses.
#[local] Existing Instance fixture_clock.

(** A chunked pass over the three accounts, stopped after four messages:
    it has flushed a watermark and never wrote the cursor. *)
Lemma sync_stream_frame_witness :
  let w := world0 ∅ in
  let run := sync_stream (emitter:=capped 4) chunked_source account_entry w in
  let kept st :=
    get_bookmark st "Account" "SystemModstamp" = get_bookmark (w_state w) "Account" "SystemModstamp" in
  kept (w_state run.2) /\ Forall kept (flushed_by w run.2).
Proof.
  refine (sync_stream_frame (capped 4) chunked_source account_entry (world0 ∅)
            "Account" "SystemModstamp" _).
  by intros _ [[[=] _]|[=]].
Defined.

Example chunked_pass_flushes : length (flushed_by (world0 ∅) (sync_stream (emitter:=capped 4)
    chunked_source account_entry (world0 ∅)).2) = 1%nat.
Proof. by vm_compute. Qed.

(** Nothing writes the version of a keyed stream: a pass that finds none
    tags its records with a reading of the clock and leaves the store
    without one, and the next pass reads the clock again. *)
Example keyed_version_not_stored :
  let run := sync_stream (emitter:=reliable_emitter) plain_source account_entry (world0 ∅) in
  let next := sync_stream (emitter:=reliable_emitter) plain_source account_entry
                (mk_world (w_state run.2) [] 0 (w_tick run.2)) in
  get_bookmark (w_state run.2) "Account" VERSION = VNone /\
  exists r t r' t',
    w_out run.2 !! 0%nat = Some (RecordMessage "Account" r (VInt 1700000000000) t) /\
    w_out next.2 !! 0%nat = Some (RecordMessage "Account" r' (VInt 1700000002000) t').
Proof. split; [by vm_compute|]. do 4 eexists. split; by vm_compute. Qed.

End FrameWitnesses.
