(* ===== verification/Activation.v ===== *)
(** * Activation of a version

    A stream without a replication key is copied whole at every pass under
    a new version, and the pass ends with an [ActivateVersionMessage]: the
    consumer then drops what it holds of older versions.  This file shows
    that the message is safe to act on: wherever the pass is stopped, an
    activation in its output comes after every record of the source, all of
    them written under the version it activates. *)

From Stdlib Require Import ZArith String List Lia.
From stdpp Require Import base option list strings gmap.
From S2P Require Import Prelude PyValue Bookmarks Runtime Fixtures Version SyncRecords SyncStream Interrupt.

Section Activation.
Context `{Clock} `{TimeCodec} `{Transformer}.

(** The messages [body] are the whole table: the source answered the query
    from the store [st] without failure, and [body] holds a record message
    for each of its records, in order, under the version [ver], and nothing
    else but flushes. *)
Definition whole_table (sf : salesforce) (ce : catalog_entry) (st : state)
    (ver : value) (start : datetime) (body : list message) : Prop :=
  Forall (tagged ce ver start) body /\ (query sf ce st).2 = None /\
  Forall2 (fun rec r => process_record ce rec = inr r) (query sf ce st).1 (emitted body).

(** The messages of a pass over the source [sf] from the store [st], whole
    or cut: records and flushes of one version; then, for a stream without
    a replication key whose source delivered every record, the activation
    of that version and what follows it. *)
Definition pass_shape (sf : salesforce) (ce : catalog_entry) (st : state)
    (trace : list message) : Prop :=
  exists ver start,
    Forall (tagged ce ver start) trace \/
    exists body rest,
      trace = body ++ ActivateVersionMessage (stream_name ce) ver :: rest /\
      Forall (tagged ce ver start) rest /\
      truthy_key (replication_key ce) = None /\ whole_table sf ce st ver start body.

#[local] Existing Instance reliable_emitter.

(** ** Facts: what a pass writes, whatever its outcome *)

(** One turn of the loop writes its record and at most one flush. *)
Lemma sync_record_tagged sf ce ver start cb rec w r w' :
  sync_record sf ce ver start cb rec w = (r, w') ->
  exists trace, w_out w' = w_out w ++ trace /\ Forall (tagged ce ver start) trace.
Proof.
  rewrite sync_record_run.
  destruct (process_record ce rec) as [e|r1]; [intros [= <- <-]; exists []; by rewrite app_nil_r|].
  cbv zeta. intros Hrun.
  set (w1 := emit (RecordMessage (stream_name ce) r1 ver start) (count_one w)) in *.
  assert (w' = w1 \/ exists key v, w' = bookmark_and_flush (tap_stream_id ce) key v w1)
    as [->|(key & v & ->)] by (repeat case_match; simplify_eq; eauto).
  - eexists [_]. split; [done|]. by repeat constructor.
  - eexists [_; _]. simpl. rewrite <- app_assoc. split; [done|]. by repeat constructor.
Qed.

Lemma sync_loop_tagged sf ce ver start cb recs w r w' :
  sync_loop sf ce ver start cb recs w = (r, w') ->
  exists trace, w_out w' = w_out w ++ trace /\ Forall (tagged ce ver start) trace.
Proof.
  revert cb w. induction recs as [|rec recs IH]; intros cb w; simpl.
  { intros [= <- <-]. exists []. by rewrite app_nil_r. }
  rewrite se_bind_run. destruct (sync_record _ _ _ _ _ _ _) as [r1 w1] eqn:Hrec.
  apply sync_record_tagged in Hrec as (trace1 & Hout1 & Htag1).
  destruct r1 as [e|cb1]; [intros [= <- <-]; by exists trace1|].
  intros (trace2 & Hout2 & Htag2)%IH. exists (trace1 ++ trace2).
  rewrite Hout2, Hout1, <- app_assoc. split; [done|]. by apply Forall_app.
Qed.

(** ** Facts: the shape of a pass *)

Lemma pass_shape_tagged sf ce st ver start trace :
  Forall (tagged ce ver start) trace -> pass_shape sf ce st trace.
Proof. intros Htag. exists ver, start. by left. Qed.

Lemma pass_shape_nil sf ce st : pass_shape sf ce st [].
Proof. by apply (pass_shape_tagged _ _ _ VNone (mk_datetime 0 0)). Qed.

(** A flush may follow. *)
Lemma pass_shape_flush sf ce st trace s :
  pass_shape sf ce st trace -> pass_shape sf ce st (trace ++ [StateMessage s]).
Proof.
  intros (ver & start & [Htag|(body & rest & -> & Hrest & Hshape)]); exists ver, start.
  - left. apply Forall_app. split; [done|]. by repeat constructor.
  - right. exists body, (rest ++ [StateMessage s]). rewrite <- app_assoc.
    split; [done|]. split; [|done].
    apply Forall_app. split; [done|]. by repeat constructor.
Qed.

(** Every beginning of a pass is a pass that was cut. *)
Lemma pass_shape_prefix sf ce st p trace :
  p `prefix_of` trace -> pass_shape sf ce st trace -> pass_shape sf ce st p.
Proof.
  intros Hp (ver & start & [Htag|(body & rest & -> & Hrest & Hkey & Hbody)]);
    exists ver, start.
  { left. by eapply Forall_prefix. }
  pose proof Hbody as (Htag & _).
  apply prefix_app_cases in Hp as [Hp|(p' & -> & Hp)]; [left; by eapply Forall_prefix|].
  destruct p' as [|m p']; [left; by rewrite app_nil_r|].
  pose proof (prefix_cons_inv_1 _ _ _ _ Hp) as ->. apply prefix_cons_inv_2 in Hp.
  right. exists body, p'. split; [done|]. split; [|done]. by eapply Forall_prefix.
Qed.

(** The pass, whatever its outcome. *)
Lemma sync_records_shape sf ce w :
  exists trace, w_out (sync_records sf ce w).2 = w_out w ++ trace /\
    pass_shape sf ce (w_state w) trace.
Proof.
  assert (exists trace, w_out w = w_out w ++ trace /\ pass_shape sf ce (w_state w) trace)
    as Hnil by (exists []; rewrite app_nil_r; split; [done|apply pass_shape_nil]).
  rewrite sync_records_run. destruct (_ ≫= strptime_with_tz) as [e|cb0]; [done|].
  destruct (get_stream_version ce (w_state w) w) as [[e|ver] w1] eqn:Hver;
    pose proof (get_stream_version_world _ _ _ _ _ Hver) as (_ & Hout & _);
    [simpl; by rewrite Hout|].
  destruct (sync_loop _ _ _ _ _ _ _) as [r2 w2] eqn:Hloop.
  pose proof (sync_loop_tagged _ _ _ _ _ _ _ _ _ Hloop) as (trace & Hout2 & Htag).
  simpl in Hout2. rewrite Hout in Hout2.
  destruct r2 as [e|cb']; [exists trace; eauto using pass_shape_tagged|].
  destruct (query sf ce (w_state w)).2 as [e|] eqn:Hfail;
    [exists trace; eauto using pass_shape_tagged|].
  rewrite finish_pass_out. unfold after_pass.
  destruct (truthy_key _) eqn:Hkey; [exists trace; eauto using pass_shape_tagged|].
  exists (trace ++ [ActivateVersionMessage (stream_name ce) ver]). simpl.
  rewrite Hout2, <- app_assoc. split; [done|].
  exists ver, (mk_datetime (clock_at (w_tick w1)) 0). right. exists trace, [].
  split; [done|]. split; [done|]. split; [done|]. split; [done|]. split; [done|].
  apply sync_loop_trace in Hloop as (rs & trace' & Hrs & Hout' & <- & _).
  simpl in Hout'. rewrite Hout, Hout2 in Hout'. by apply app_inv_head in Hout' as <-.
Qed.

(** The stream: the pass, and the flush that follows when it returns. *)
Lemma sync_stream_shape sf ce w :
  exists trace, w_out (sync_stream sf ce w).2 = w_out w ++ trace /\
    pass_shape sf ce (w_state w) trace.
Proof.
  rewrite sync_stream_run.
  destruct (sync_records_shape sf ce (new_counter w)) as (trace & Hout & Hshape).
  destruct (sync_records sf ce (new_counter w)) as [[e|[]] w1]; simpl in *; [by exists trace|].
  exists (trace ++ [StateMessage (w_state w1)]). rewrite Hout, <- app_assoc.
  split; [done|]. by apply pass_shape_flush.
Qed.

(** On any output, the stream writes a beginning of that. *)
Lemma sync_stream_cut_shape (E : Emitter) sf ce w :
  exists trace, w_out (sync_stream (emitter:=E) sf ce w).2 = w_out w ++ trace /\
    pass_shape sf ce (w_state w) trace.
Proof.
  apply (cut_trace E _ _ _ _ w (sync_stream_tracks E sf ce)).
  - intros out. apply sync_stream_keeps_out, admits_prefix.
  - apply pass_shape_prefix.
  - apply sync_stream_shape.
Qed.

(** An activation is not tagged. *)
Lemma tagged_not_activation ce ver start name v trace :
  Forall (tagged ce ver start) trace -> ActivateVersionMessage name v ∉ trace.
Proof. intros Htag Hin. by apply (proj1 (Forall_forall _ _) Htag) in Hin. Qed.

(** C16: an activation is safe to act on.  Wherever a pass of
    [sync_stream] is stopped, an [ActivateVersionMessage] among the messages
    it wrote is the only one, names the stream of the pass, and comes after
    the whole table: a record message for every record of the source, which
    ended without failure, all of them under the version that is
    activated. *)
Theorem activation_after_records (E : Emitter) sf ce w trace name ver :
  w_out (sync_stream (emitter:=E) sf ce w).2 = w_out w ++ trace ->
  ActivateVersionMessage name ver ∈ trace ->
  exists start body rest,
    trace = body ++ ActivateVersionMessage (stream_name ce) ver :: rest /\
    name = stream_name ce /\ whole_table sf ce (w_state w) ver start body /\
    Forall (tagged ce ver start) rest.
Proof.
  intros Hout Hin. destruct (sync_stream_cut_shape E sf ce w) as (trace' & Hout' & Hshape).
  rewrite Hout in Hout'. apply app_inv_head in Hout' as <-.
  destruct Hshape as (ver0 & start & [Htag|(body & rest & -> & Hrest & _ & Hbody)]);
    [by apply tagged_not_activation with (name := name) (v := ver) in Htag|].
  pose proof Hbody as (Htag & _).
  apply elem_of_app in Hin as [Hin|Hin];
    [by apply tagged_not_activation with (name := name) (v := ver) in Htag|].
  apply elem_of_cons in Hin as [[= -> ->]|Hin];
    [|by apply tagged_not_activation with (name := name) (v := ver) in Hrest].
  by exists start, body, rest.
Qed.

End Activation.

(** ** Witnesses *)

Section ActivationWitnesses.
#[local] Existing Instance fixture_clock.

(** A pass over the full table of three accounts, stopped after four
    messages: the three records and the activation. *)
Definition full_table_stream : (exn + nat) * world :=
  sync_stream (emitter:=capped 4) plain_source account_full_table (world0 ∅).

Lemma full_table_stream_activates :
  ActivateVersionMessage "Account" (VInt 1700000001000) ∈ w_out full_table_stream.2.
Proof. apply list_elem_of_lookup. exists 3%nat. by vm_compute. Qed.

Lemma activation_after_records_witness :
  exists start body rest,
    w_out full_table_stream.2
      = body ++ ActivateVersionMessage (stream_name account_full_table) (VInt 1700000001000)
                  :: rest /\
    "Account" = stream_name account_full_table /\
    whole_table plain_source account_full_table (w_state (world0 ∅)) (VInt 1700000001000)
      start body /\
    Forall (tagged account_full_table (VInt 1700000001000) start) rest.
Proof.
  exact (activation_after_records (capped 4) plain_source account_full_table (world0 ∅)
           (w_out full_table_stream.2) "Account" (VInt 1700000001000) eq_refl
           full_table_stream_activates).
Defined.

(** A source that fails after its records: the pass writes the records and
    no activation. *)
Example failed_source_not_activated :
  let failing := fixed_source false
                   (three_accounts, Some (Exn TapSalesforceException "quota" None)) [] in
  let run := sync_stream (emitter:=reliable_emitter) failing account_full_table (world0 ∅) in
  length (emitted (w_out run.2)) = 3%nat /\
  Forall (fun m => match m with ActivateVersionMessage _ _ => False | _ => True end) (w_out run.2).
Proof. split; [by vm_compute|]. vm_compute. by repeat constructor. Qed.

End ActivationWitnesses.
