(* ===== verification/Restart.v ===== *)
(** * Resumption across restarts

    A job is resumed by a sequence of runs of [resume_syncing_bulk_query],
    each of which may be stopped after any message or end by an exception;
    the next run starts from the store that was flushed last.  This file
    reads the stores a run flushes off its output, describes those of a
    whole run (one per finished batch, each listing one batch fewer and a
    watermark further on), shows that a run on any output flushes the first
    of them, and follows the store along any number of restarts. *)

From Stdlib Require Import ZArith String Ascii List Lia.
From stdpp Require Import base option list strings gmap relations.
From S2P Require Import Prelude PyValue Bookmarks Runtime Fixtures Version SyncRecords Resume Interrupt.

(** ** The job, abstractly

    What the store says of a job: the batches still to drain, in order, and
    the watermark if one was written.  A job moves by finishing its first
    batch, which writes a watermark at or beyond the one before. *)

Record job_view := mk_job_view { pending : list value; mark : option Z }.

Definition mark_le (m : option Z) (t : Z) : Prop :=
  match m with
  | Some t0 => (t0 <= t)%Z
  | None => True
  end.

Inductive job_step : job_view -> job_view -> Prop :=
| job_finish b rest m t :
    mark_le m t -> job_step (mk_job_view (b :: rest) m) (mk_job_view rest (Some t)).

Lemma mark_le_trans m t t' : mark_le m t -> (t <= t')%Z -> mark_le m t'.
Proof. destruct m; simpl; [lia|done]. Qed.

Lemma job_step_pending j j' : job_step j j' -> exists b, pending j = b :: pending j'.
Proof. intros [b rest m t _]. by exists b. Qed.

Lemma job_step_mark j j' t0 :
  job_step j j' -> mark j = Some t0 -> exists t, mark j' = Some t /\ (t0 <= t)%Z.
Proof. intros [b rest m t Hle] Hm. simpl in *. subst m. by exists t. Qed.

(** A job only loses batches, from the front. *)
Lemma job_steps_suffix j j' : rtc job_step j j' -> pending j' `suffix_of` pending j.
Proof.
  induction 1 as [j|j j1 j' Hstep _ IH]; [done|].
  destruct (job_step_pending _ _ Hstep) as [b ->]. by apply suffix_cons_r.
Qed.

(** Its watermark, once written, never moves back. *)
Lemma job_steps_mark j j' t0 :
  rtc job_step j j' -> mark j = Some t0 -> exists t, mark j' = Some t /\ (t0 <= t)%Z.
Proof.
  intros Hsteps. revert t0. induction Hsteps as [j|j j1 j' Hstep _ IH]; intros t0 Hm.
  - by exists t0.
  - destruct (job_step_mark _ _ _ Hstep Hm) as (t1 & Hm1 & Hle1).
    destruct (IH _ Hm1) as (t & Hm' & Hle). exists t. split; [done|lia].
Qed.

(** It is done after as many steps as it has batches. *)
Lemma job_steps_length n j j' :
  nsteps job_step n j j' -> (n + length (pending j') = length (pending j))%nat.
Proof.
  induction 1 as [j|n j j1 j' Hstep _ IH]; [done|].
  destruct (job_step_pending _ _ Hstep) as [b ->]. simpl. lia.
Qed.

Section Restart.
Context `{Clock} `{TimeCodec} `{Transformer}.

(** The store [s] holds the job [j] of the stream [id]. *)
Definition holds_job (id : string) (j : job_view) (s : state) : Prop :=
  get_bookmark s id BATCH_IDS = VList (pending j) /\
  match mark j with
  | Some t => get_bookmark s id JOB_HIGHEST_BOOKMARK_SEEN = VStr (format_utc t)
  | None => True
  end.

(** The flushes of the batches done, one after the other: each store lists
    the batches after the one just done and holds a watermark at or beyond
    the one before. *)
Fixpoint checkpoints (id : string) (from : Z) (batches : list value) (sts : list state)
    {struct sts} : Prop :=
  match sts, batches with
  | [], _ => True
  | st :: sts', _ :: rest =>
      exists t, (from <= t)%Z /\
        get_bookmark st id JOB_HIGHEST_BOOKMARK_SEEN = VStr (format_utc t) /\
        get_bookmark st id BATCH_IDS = VList rest /\
        checkpoints id t rest sts'
  | _ :: _, [] => False
  end.

(** The store that a restart finds after a run of the resumption on the
    store [s]: the one the run flushed last, whatever the source did and
    wherever the output [E] stopped the run. *)
Inductive restart (ce : catalog_entry) (job : value) : state -> state -> Prop :=
| restart_last (E : Emitter) sf w r w' s' :
    resume_syncing_bulk_query (emitter:=E) sf ce job w = (r, w') ->
    last (flushed_by w w') = Some s' ->
    restart ce job (w_state w) s'.

(** The lemmas on the flushes of one run are on the run that writes every
    message. *)
#[local] Existing Instance reliable_emitter.

(** ** Facts: the flushes of one run *)

Lemma drain_batch_flushed F ce ver start cb recs :
  se_keeps (fun w => flushed (w_out w) = F) (drain_batch ce ver start cb recs).
Proof.
  revert cb. induction recs as [|rec recs IH]; intros cb; simpl; [keeps|].
  apply se_keeps_bind; [|done]. intros w Hw. rewrite resume_record_run.
  repeat case_match; simpl; rewrite ?flushed_app; simpl; by rewrite ?app_nil_r.
Qed.

Lemma watermark_of_ge ce start rs cb :
  (dt_instant cb <= dt_instant (watermark_of ce start rs cb))%Z.
Proof. unfold watermark_of. destruct (truthy_key _); [apply watermark_after_ge|done]. Qed.

Lemma checkpoints_weaken id from from' batches sts :
  (from' <= from)%Z -> checkpoints id from batches sts -> checkpoints id from' batches sts.
Proof.
  destruct sts as [|st sts], batches as [|b rest]; simpl; try done.
  intros Hle (t & Ht & Hrest). exists t. split; [lia|done].
Qed.

(** The outer loop flushes one checkpoint per batch it finishes. *)
Lemma drain_batches_checkpoints sf ce job ver start batches cb w r w' :
  get_bookmark (w_state w) (tap_stream_id ce) BATCH_IDS = VList batches ->
  drain_batches sf ce job ver start cb batches w = (r, w') ->
  exists sts, flushed (w_out w') = flushed (w_out w) ++ sts /\
    checkpoints (tap_stream_id ce) (dt_instant cb) batches sts /\
    (length sts <= length batches)%nat /\
    (is_ok r = true -> length sts = length batches).
Proof.
  revert cb w. induction batches as [|b rest IH]; intros cb w Hlist Hrun.
  - injection Hrun as <- <-. exists []. by rewrite app_nil_r.
  - rewrite drain_batches_cons in Hrun by done.
    destruct (drain_batch _ _ _ _ _ _) as [r1 w1] eqn:Hdrain.
    pose proof (se_keeps_run _ _ _ _ _ (drain_batch_flushed _ ce ver start cb _) eq_refl Hdrain)
      as Hf1.
    destruct r1 as [e|cb1];
      [injection Hrun as <- <-; exists []; rewrite app_nil_r; simpl; by auto with lia|].
    apply drain_batch_ok in Hdrain as (rs & _ & Hcb1 & _).
    destruct (get_batch_results sf job b ce).2 as [e|];
      [injection Hrun as <- <-; exists []; rewrite app_nil_r; simpl; by auto with lia|].
    destruct (strftime cb1) as [e|formatted] eqn:Hfmt;
      [injection Hrun as <- <-; exists []; rewrite app_nil_r; simpl; by auto with lia|].
    apply strftime_ok in Hfmt as [-> _].
    apply IH in Hrun as (sts & Hf & Hcp & Hle & Hlen); [|apply after_batch_batch_ids].
    exists (w_state (after_batch ce (VStr (format_utc (dt_instant cb1))) rest w1) :: sts).
    split; [|split; [|split]].
    + rewrite Hf. simpl. rewrite flushed_app, Hf1, <- app_assoc. done.
    + simpl. exists (dt_instant cb1). rewrite Hcb1 at 1. split; [apply watermark_of_ge|].
      split; [by store|]. split; [by store|done].
    + simpl. lia.
    + intros Hok. simpl. by rewrite Hlen.
Qed.

(** A checkpoint lists a proper suffix of the batches and holds a
    watermark at or beyond the start. *)
Lemma checkpoints_elem id from batches sts st :
  checkpoints id from batches sts -> st ∈ sts ->
  exists rest t, get_bookmark st id BATCH_IDS = VList rest /\
    rest `suffix_of` batches /\ (length rest < length batches)%nat /\
    get_bookmark st id JOB_HIGHEST_BOOKMARK_SEEN = VStr (format_utc t) /\ (from <= t)%Z.
Proof.
  revert from batches. induction sts as [|st' sts IH]; intros from batches Hcp Hin.
  - by apply elem_of_nil in Hin.
  - destruct batches as [|b rest]; [done|]. destruct Hcp as (t & Ht & Hjob & Hlist & Hcp).
    apply elem_of_cons in Hin as [->|Hin].
    + exists rest, t. split; [done|]. split; [by apply suffix_cons_r|]. simpl.
      split; [lia|done].
    + destruct (IH _ _ Hcp Hin) as (rest' & t' & ? & ? & ? & ? & ?).
      exists rest', t'. split; [done|]. split; [by apply suffix_cons_r|]. simpl.
      split; [lia|]. split; [done|lia].
Qed.

(** What one run of the resumption flushes, from wherever it starts. *)
Lemma resume_checkpoints sf ce job w r w' batches from :
  get_bookmark (w_state w) (tap_stream_id ce) BATCH_IDS = VList batches ->
  (forall cb0, resume_from sf ce (w_state w) = inr cb0 -> (from <= dt_instant cb0)%Z) ->
  resume_syncing_bulk_query sf ce job w = (r, w') ->
  checkpoints (tap_stream_id ce) from batches (flushed_by w w').
Proof.
  intros Hlist Hfrom. rewrite resume_run, Hlist. simpl.
  destruct (resume_entry_world ce w) as (Hst & Hout & _).
  assert (checkpoints (tap_stream_id ce) from batches (flushed_by w (resume_entry ce w))) as Hnil.
  { unfold flushed_by. rewrite Hout, drop_all. exact I. }
  destruct (resume_from _ _ _) as [e|cb0];
    [intros [= <- <-]; unfold flushed_by; rewrite drop_all; exact I|].
  destruct (resume_version ce w) as [e|ver]; [by intros [= <- <-]|].
  destruct (drain_batches _ _ _ _ _ _ _ _) as [r2 w2] eqn:Hrun. rewrite <- Hst in Hlist.
  apply (drain_batches_checkpoints _ _ _ _ _ _ _ _ _ _ Hlist) in Hrun as (sts & Hf & Hcp & _).
  rewrite Hout in Hf. intros Hr.
  assert (w' = w2) as -> by (by destruct r2; injection Hr as _ <-).
  rewrite (flushed_by_app _ _ _ Hf). eapply checkpoints_weaken; [|done]. by apply Hfrom.
Qed.

(** ** Restarts refine the job *)

(** The checkpoints of a run are the stores of a job that finishes its
    batches one after the other. *)
Lemma checkpoints_job_steps id m from batches sts st :
  checkpoints id from batches sts -> mark_le m from -> st ∈ sts ->
  exists j', tc job_step (mk_job_view batches m) j' /\ holds_job id j' st.
Proof.
  revert m from batches. induction sts as [|st' sts IH]; intros m from batches Hcp Hm Hin.
  - by apply elem_of_nil in Hin.
  - destruct batches as [|b rest]; [done|]. destruct Hcp as (t & Ht & Hjob & Hlist & Hcp).
    pose proof (job_finish b rest m t (mark_le_trans _ _ _ Hm Ht)) as Hstep.
    apply elem_of_cons in Hin as [->|Hin].
    + exists (mk_job_view rest (Some t)). split; [by apply tc_once|done].
    + destruct (IH (Some t) t rest Hcp ltac:(simpl; lia) Hin) as (j' & Hsteps & Hj').
      exists j'. split; [by eapply tc_l|done].
Qed.

(** What a run on any output flushes, the whole run flushes. *)
Lemma resume_flushed_whole (E : Emitter) sf ce job w s' :
  s' ∈ flushed_by w (resume_syncing_bulk_query (emitter:=E) sf ce job w).2 ->
  s' ∈ flushed_by w (resume_syncing_bulk_query (emitter:=reliable_emitter) sf ce job w).2.
Proof.
  destruct (tracks_trace E _ _ _ w (resume_cuts E sf ce job))
    as (trace & rest & Hcut & Hwhole).
  { intros out. apply resume_keeps_out, admits_prefix. }
  rewrite (flushed_by_trace w _ trace Hcut), (flushed_by_trace w _ (trace ++ rest) Hwhole).
  rewrite flushed_app, elem_of_app. auto.
Qed.

(** One restart: the store found holds the job some batches further on. *)
Lemma restart_simulation ce job s s' j :
  restart ce job s s' -> holds_job (tap_stream_id ce) j s ->
  exists j', tc job_step j j' /\ holds_job (tap_stream_id ce) j' s'.
Proof.
  intros [E sf w r w' s1 Hrun Hlast%last_Some_elem_of] [Hlist Hjob].
  replace w' with (resume_syncing_bulk_query (emitter:=E) sf ce job w).2 in Hlast
    by (by rewrite Hrun).
  apply resume_flushed_whole in Hlast. destruct j as [batches m]. simpl in *.
  pose (from := default (match resume_from sf ce (w_state w) with
                         | inr cb0 => dt_instant cb0 | inl _ => 0%Z end) m).
  refine (checkpoints_job_steps _ m from _ _ _ _ _ Hlast); [|by destruct m; simpl].
  eapply (resume_checkpoints sf ce job w); [done| |apply surjective_pairing].
  intros cb0 Hcb0. subst from.
  destruct m as [t0|]; simpl; [|by rewrite Hcb0].
  rewrite (resume_from_written _ _ _ _ Hjob) in Hcb0. by injection Hcb0 as <-.
Qed.

(** C6: the stores found along any number of restarts are stores of the
    job as it finishes its batches in order: resumption, with kills and
    failures anywhere, refines the abstract job. *)
Theorem restarts_refine_job ce job s s' j :
  rtc (restart ce job) s s' -> holds_job (tap_stream_id ce) j s ->
  exists j', rtc job_step j j' /\ holds_job (tap_stream_id ce) j' s'.
Proof.
  apply (rtc_simulation (restart ce job) job_step (holds_job (tap_stream_id ce))).
  intros s1 s2 j1. apply restart_simulation.
Qed.

(** Along any number of restarts of a job, the store lists a suffix
    of the batches the job started with, and the watermark it holds, once one
    was written, never moves back. *)
Lemma restarts_resumable ce job s s' batches m :
  rtc (restart ce job) s s' ->
  holds_job (tap_stream_id ce) (mk_job_view batches m) s ->
  exists rest m', holds_job (tap_stream_id ce) (mk_job_view rest m') s' /\
    rest `suffix_of` batches /\
    (forall t0, m = Some t0 -> exists t, m' = Some t /\ (t0 <= t)%Z).
Proof.
  intros Hsteps Hs.
  destruct (rtc_simulation _ _ (holds_job (tap_stream_id ce))
              (fun s1 s2 j1 => restart_simulation ce job s1 s2 j1)
              _ _ _ Hsteps Hs) as ([rest m'] & Hjob & Hs').
  exists rest, m'. split; [done|]. split; [apply (job_steps_suffix _ _ Hjob)|].
  intros t0. apply (job_steps_mark _ _ t0 Hjob).
Qed.

(** C25: each restart that finds a new store finds one batch fewer at
    least: a job of [n] batches is done after at most [n] such restarts,
    whatever the source does. *)
Theorem restarts_bounded ce job n s s' batches :
  nsteps (restart ce job) n s s' ->
  get_bookmark s (tap_stream_id ce) BATCH_IDS = VList batches ->
  exists rest, get_bookmark s' (tap_stream_id ce) BATCH_IDS = VList rest /\
    (n + length rest <= length batches)%nat.
Proof.
  intros Hsteps Hs.
  destruct (nsteps_simulation _ _ (holds_job (tap_stream_id ce))
              (fun s1 s2 j1 => restart_simulation ce job s1 s2 j1)
              _ _ _ (mk_job_view batches None) Hsteps (conj Hs I))
    as (k & [rest m'] & Hk & Hjob & Hs').
  apply job_steps_length in Hjob. exists rest. split; [apply Hs'|]. simpl in Hjob. lia.
Qed.

End Restart.

(** ** Witnesses, on the job of Resume.v *)

Section RestartWitnesses.
#[local] Existing Instance fixture_clock.

(** The job of Resume.v writes five messages: two records and a flush for
    the first batch, a record and a flush for the second.  Stopped after
    four, it leaves the flush of the first batch for a restart to find. *)
Definition stopped_job_run : (exn + nat) * world :=
  resume_syncing_bulk_query (emitter:=capped 4) job_source account_entry (VStr "job")
    (world0 job_state).

Definition after_first_batch : state :=
  default ∅ (last (flushed_by (world0 job_state) stopped_job_run.2)).

Lemma stopped_job_run_raises : stopped_job_run.1 = inl broken_pipe.
Proof. by vm_compute. Qed.

Lemma after_first_batch_last :
  last (flushed_by (world0 job_state) stopped_job_run.2) = Some after_first_batch.
Proof.
  unfold after_first_batch. destruct (last _) eqn:Hlast; [done|].
  apply last_None, (f_equal length) in Hlast. by vm_compute in Hlast.
Qed.

Lemma job_restart : restart account_entry (VStr "job") job_state after_first_batch.
Proof.
  exact (restart_last account_entry (VStr "job") (capped 4) job_source (world0 job_state)
           stopped_job_run.1 stopped_job_run.2 after_first_batch
           (surjective_pairing stopped_job_run) after_first_batch_last).
Qed.

Definition whole_job : job_view := mk_job_view [VStr "b1"; VStr "b2"] None.

Lemma restarts_refine_job_witness :
  exists j', rtc job_step whole_job j' /\ holds_job "Account" j' after_first_batch.
Proof.
  exact (restarts_refine_job account_entry (VStr "job") job_state after_first_batch whole_job
           (rtc_once _ _ job_restart) (conj eq_refl I)).
Defined.

Example restarts_resumable_example :
  exists rest m', holds_job "Account" (mk_job_view rest m') after_first_batch /\
    rest `suffix_of` [VStr "b1"; VStr "b2"] /\
    (forall t0, @None Z = Some t0 -> exists t, m' = Some t /\ (t0 <= t)%Z).
Proof.
  exact (restarts_resumable account_entry (VStr "job") job_state after_first_batch
           [VStr "b1"; VStr "b2"] None (rtc_once _ _ job_restart) (conj eq_refl I)).
Qed.

Lemma restarts_bounded_witness :
  exists rest, get_bookmark after_first_batch "Account" BATCH_IDS = VList rest /\
    (1 + length rest <= length [VStr "b1"; VStr "b2"])%nat.
Proof.
  exact (restarts_bounded account_entry (VStr "job") 1 job_state after_first_batch
           [VStr "b1"; VStr "b2"] (nsteps_once _ _ job_restart) eq_refl).
Defined.

End RestartWitnesses.
