(* ===== verification/Handover.v ===== *)
(** * From a chunked pass to the resumption

    A chunked pass of [sync_stream] flushes a watermark under
    [JobHighestBookmarkSeen] whenever a record moves it; when the pass is
    stopped, the job behind it is picked up by
    [resume_syncing_bulk_query], which reads that watermark back.  This
    file joins the two drivers: the store a stopped chunked pass leaves
    holds a watermark beyond the start date, the resumption starts from
    exactly that instant, and no restart of the job moves it back. *)

From Stdlib Require Import ZArith String List Lia.
From stdpp Require Import base option list strings gmap relations.
From S2P Require Import Prelude PyValue Bookmarks Runtime Fixtures Version SyncRecords Resume SyncStream Interrupt Restart.

Section Handover.
Context `{Clock} `{TimeCodec} `{Transformer}.

(** The stores flushed along [trace] hold watermarks that rise from [lo]. *)
Definition rises_from (id : string) (lo : Z) (trace : list message) : Prop :=
  exists hi top, rising id lo hi (flushed trace) top.

(** The store [s] hands the job over at the instant [t]: every store that
    holds the same watermark makes the resumption start from [t], and every
    store found along the restarts of the job holds a watermark at or
    beyond [t]. *)
Definition hands_over (ce : catalog_entry) (s : state) (t : Z) : Prop :=
  forall s1, get_bookmark s1 (tap_stream_id ce) JOB_HIGHEST_BOOKMARK_SEEN
             = get_bookmark s (tap_stream_id ce) JOB_HIGHEST_BOOKMARK_SEEN ->
    (forall sf, resume_from sf ce s1 = inr (mk_datetime t 0)) /\
    (forall job batches s2,
       get_bookmark s1 (tap_stream_id ce) BATCH_IDS = VList batches ->
       rtc (restart ce job) s1 s2 ->
       exists t', get_bookmark s2 (tap_stream_id ce) JOB_HIGHEST_BOOKMARK_SEEN
                  = VStr (format_utc t') /\ (t <= t')%Z).

#[local] Existing Instance reliable_emitter.

(** ** Facts *)

Lemma rises_from_nil id lo : rises_from id lo [].
Proof. by exists lo, lo. Qed.

Lemma rises_from_prefix id lo p trace :
  p `prefix_of` trace -> rises_from id lo trace -> rises_from id lo p.
Proof.
  intros [k ->] (hi & top & Hrise). rewrite flushed_app in Hrise.
  apply rising_prefix in Hrise as [mid Hmid]. by exists hi, mid.
Qed.

(** The last of the stores holds the top, which lies beyond the start. *)
Lemma rising_last id lo hi sts top s :
  rising id lo hi sts top -> last sts = Some s ->
  get_bookmark s id JOB_HIGHEST_BOOKMARK_SEEN = VStr (format_utc top) /\ (lo < top)%Z.
Proof.
  revert lo. induction sts as [|st sts IH]; intros lo; simpl; [done|].
  intros (t & Hst & Ht & Hrest). rewrite last_cons.
  destruct (last sts) as [s'|] eqn:Hlast.
  - intros [= ->]. destruct (IH _ Hrest eq_refl) as [Hs Htop]. split; [done|lia].
  - intros [= <-]. apply last_None in Hlast as ->. simpl in Hrest. subst top.
    split; [done|lia].
Qed.

(** A chunked pass on an output that takes every message. *)
Lemma sync_stream_rises sf ce w key cb0 :
  pk_chunking sf = true -> truthy_key (replication_key ce) = Some key ->
  get_start_date sf (w_state w) ce ≫= strptime_with_tz = inr cb0 ->
  exists trace, w_out (sync_stream sf ce w).2 = w_out w ++ trace /\
    rises_from (tap_stream_id ce) (dt_instant cb0) trace.
Proof.
  intros Hmode Hkey Hstart. rewrite sync_stream_run, sync_records_run.
  change (w_state (new_counter w)) with (w_state w). rewrite Hstart.
  destruct (get_stream_version ce (w_state w) (new_counter w)) as [[e|ver] w1] eqn:Hver;
    pose proof (get_stream_version_world _ _ _ _ _ Hver) as (_ & Hout1 & _); simpl in Hout1;
    [exists []; rewrite app_nil_r; split; [done|apply rises_from_nil]|].
  destruct (sync_loop _ _ _ _ _ _ _) as [r2 w2] eqn:Hloop.
  destruct (sync_loop_rising _ _ _ _ _ _ _ _ _ _ Hmode Hkey Hloop) as (top & Hrise & _).
  destruct (se_keeps_run _ _ _ _ _ (sync_loop_keeps_out _ (admits_prefix _) sf ce _ _ cb0 _)
              (reflexivity _) Hloop) as [trace Htrace].
  rewrite (flushed_by_trace _ _ _ Htrace) in Hrise. simpl in Htrace. rewrite Hout1 in Htrace.
  assert (exists trace, w_out w2 = w_out w ++ trace /\
            rises_from (tap_stream_id ce) (dt_instant cb0) trace) as Hw2
    by (exists trace; split; [done|by eexists _, top]).
  destruct r2 as [e|cb']; [done|]. destruct (query sf ce (w_state w)).2 as [e|]; [done|].
  pose proof (finish_pass_chunked_fails sf ce (ActivateVersionMessage (stream_name ce) ver)
                cb' Hmode w2) as Hfails.
  pose proof (finish_pass_out sf ce (ActivateVersionMessage (stream_name ce) ver) cb' w2)
    as Hfin.
  destruct (finish_pass _ _ _ _ _) as [[e|[]] w3]; [|done].
  simpl in *. unfold after_pass in Hfin. by rewrite Hkey in Hfin; rewrite Hfin.
Qed.

(** A chunked pass on any output. *)
Lemma sync_stream_cut_rises (E : Emitter) sf ce w key cb0 :
  pk_chunking sf = true -> truthy_key (replication_key ce) = Some key ->
  get_start_date sf (w_state w) ce ≫= strptime_with_tz = inr cb0 ->
  exists trace, w_out (sync_stream (emitter:=E) sf ce w).2 = w_out w ++ trace /\
    rises_from (tap_stream_id ce) (dt_instant cb0) trace.
Proof.
  intros Hmode Hkey Hstart. apply (cut_trace E _ _ _ _ w (sync_stream_tracks E sf ce)).
  - intros out. apply sync_stream_keeps_out, admits_prefix.
  - apply rises_from_prefix.
  - by eapply sync_stream_rises.
Qed.

(** A store that holds a watermark hands the job over at that instant. *)
Lemma watermark_hands_over ce s t :
  get_bookmark s (tap_stream_id ce) JOB_HIGHEST_BOOKMARK_SEEN = VStr (format_utc t) ->
  hands_over ce s t.
Proof.
  intros Hs s1 Hs1. rewrite Hs in Hs1. split; [intros sf; by apply resume_from_written|].
  intros job batches s2 Hlist Hruns.
  destruct (rtc_simulation _ _ (holds_job (tap_stream_id ce))
              (fun a b j => restart_simulation ce job a b j)
              _ _ (mk_job_view batches (Some t)) Hruns (conj Hlist Hs1)) as (j' & Hsteps & Hj').
  destruct (job_steps_mark _ _ t Hsteps eq_refl) as (t' & Hmark & Hle).
  destruct Hj' as [_ Hj']. rewrite Hmark in Hj'. by exists t'.
Qed.

(** C26: from a chunked pass to the resumption.  Wherever a chunked pass of
    [sync_stream] is stopped, the store it flushed last holds a watermark
    beyond the start date of the stream; a resumption from a store with
    that watermark starts from exactly that instant, and no store found
    along the restarts of the job holds an earlier one. *)
Theorem chunked_stop_hands_over (E : Emitter) sf ce w key cb0 s :
  pk_chunking sf = true -> truthy_key (replication_key ce) = Some key ->
  get_start_date sf (w_state w) ce ≫= strptime_with_tz = inr cb0 ->
  last (flushed_by w (sync_stream (emitter:=E) sf ce w).2) = Some s ->
  exists top, (dt_instant cb0 < top)%Z /\ hands_over ce s top.
Proof.
  intros Hmode Hkey Hstart Hlast.
  destruct (sync_stream_cut_rises E sf ce w key cb0 Hmode Hkey Hstart)
    as (trace & Hout & hi & top & Hrise).
  rewrite (flushed_by_trace _ _ _ Hout) in Hlast.
  destruct (rising_last _ _ _ _ _ _ Hrise Hlast) as [Hs Htop].
  exists top. split; [done|]. by apply watermark_hands_over.
Qed.

End Handover.

(** ** Witnesses *)

Section HandoverWitnesses.
#[local] Existing Instance fixture_clock.

(** A chunked pass over the three accounts, stopped after four messages:
    the first record, the flush of its watermark, and two more records. *)
Definition chunked_stop : (exn + nat) * world :=
  sync_stream (emitter:=capped 4) chunked_source account_entry (world0 ∅).

Definition handed : state := default ∅ (last (flushed_by (world0 ∅) chunked_stop.2)).

Lemma chunked_stop_last : last (flushed_by (world0 ∅) chunked_stop.2) = Some handed.
Proof.
  unfold handed. destruct (last _) eqn:Hlast; [done|].
  apply last_None, (f_equal length) in Hlast. by vm_compute in Hlast.
Qed.

Example handed_watermark :
  get_bookmark handed "Account" JOB_HIGHEST_BOOKMARK_SEEN = VStr "1600000000000000".
Proof. by vm_compute. Qed.

Lemma chunked_stop_hands_over_witness :
  exists top, (dt_instant pass_from < top)%Z /\ hands_over account_entry handed top.
Proof.
  exact (chunked_stop_hands_over (capped 4) chunked_source account_entry (world0 ∅)
           "SystemModstamp" pass_from handed eq_refl eq_refl eq_refl chunked_stop_last).
Defined.

End HandoverWitnesses.
