(* ===== verification/Delivery.v ===== *)
(** * No record is skipped

    The simple cursor mechanism from end to end: passes of [sync_stream]
    over a keyed, unchunked stream, each started from the store the pass
    before flushed last and stopped after any message, against a source
    that honours the cursor (it yields what it holds from the cursor on,
    oldest key first).  Whatever lies before the cursor a restart finds
    was sent to the consumer, and a pass that returns sends the rest. *)

From Stdlib Require Import ZArith String List Lia.
From stdpp Require Import base option list strings gmap relations sorting.
From S2P Require Import Prelude PyValue Bookmarks Runtime Fixtures Version SyncRecords SyncStream Interrupt.

Local Open Scope Z_scope.

Section PlainTrace.
Context `{Clock} `{TimeCodec} `{Transformer}.
Context (ce : catalog_entry) (key : string).

(** ** The trace of an unchunked, keyed pass

    Over records that carry their key [t] in the canonical format: each
    record, then the flush of its key when it is not after the start. *)

Definition mark (st : state) (t : Z) : state :=
  write_bookmark st (tap_stream_id ce) key (VStr (format_utc t)).

Fixpoint plain_trace (ver : value) (start : datetime) (st : state) (trs : list (Z * value))
    : list message :=
  match trs with
  | [] => []
  | (t, r) :: trs' =>
      RecordMessage (stream_name ce) r ver start ::
      if t <=? dt_instant start
      then StateMessage (mark st t) :: plain_trace ver start (mark st t) trs'
      else plain_trace ver start st trs'
  end.

(** The store after those records. *)
Definition plain_store (start : datetime) (st : state) (trs : list (Z * value)) : state :=
  fold_left (fun st tr => if tr.1 <=? dt_instant start then mark st tr.1 else st) trs st.

(** The raw record [rec] is processed into [tr.2], which carries the key
    [tr.1] in the canonical format. *)
Definition stamped (rec : value) (tr : Z * value) : Prop :=
  process_record ce rec = inr tr.2 /\ getitem tr.2 key = inr (VStr (format_utc tr.1)).

Lemma stamped_key_datetime rec tr :
  stamped rec tr -> key_datetime tr.2 key = inr (mk_datetime tr.1 0).
Proof.
  intros [_ Hraw]. unfold key_datetime. rewrite Hraw. simpl. by rewrite parse_format_utc.
Qed.

(** The loop on an output that takes every message writes that trace and
    leaves that store. *)
Lemma sync_loop_plain_trace sf ver start cb recs trs w :
  pk_chunking sf = false ->
  truthy_key (replication_key ce) = Some key ->
  Forall2 stamped recs trs ->
  sync_loop (emitter:=reliable_emitter) sf ce ver start cb recs w =
  (RET cb IN (mk_world (plain_store start (w_state w) trs)
                       (w_out w ++ plain_trace ver start (w_state w) trs)
                       (w_count w + length trs) (w_tick w))).
Proof.
  intros Hmode Hkey Hrecs. revert w.
  induction Hrecs as [|rec [t r] recs trs Hrec _ IH]; intros w; simpl.
  { rewrite app_nil_r, Nat.add_0_r. by destruct w. }
  rewrite se_bind_run, sync_record_run, Hmode, Hkey.
  pose proof (stamped_key_datetime _ _ Hrec) as Ht. destruct Hrec as [Hr Hraw]. simpl in *.
  rewrite Hr, Ht, Hraw. cbv zeta. unfold dt_le at 1. simpl.
  destruct (t <=? dt_instant start); rewrite IH; simpl;
    by rewrite <- ?app_assoc, ?Nat.add_succ_r.
Qed.

(** ** The pass, stopped anywhere *)

(** The trace of the whole pass: the loop, then the flush of the store. *)
Definition pass_trace (ver : value) (start : datetime) (st : state) (trs : list (Z * value))
    : list message :=
  plain_trace ver start st trs ++ [StateMessage (plain_store start st trs)].

Lemma pass_trace_cons ver start st t r trs :
  pass_trace ver start st ((t, r) :: trs) =
  RecordMessage (stream_name ce) r ver start ::
  if t <=? dt_instant start
  then StateMessage (mark st t) :: pass_trace ver start (mark st t) trs
  else pass_trace ver start st trs.
Proof. unfold pass_trace. simpl. by destruct (t <=? _). Qed.

Lemma plain_store_cons start st t r trs :
  plain_store start st ((t, r) :: trs) =
  plain_store start (if t <=? dt_instant start then mark st t else st) trs.
Proof. done. Qed.

(** Of a pass that was stopped, the consumer has the first [n] records and
    the store that a restart reads is the store after the first [m] of
    them, [m <= n]: what is recorded was sent. *)
Lemma pass_trace_cut ver start st trs p :
  p `prefix_of` pass_trace ver start st trs ->
  exists n m, (m <= n)%nat /\ emitted p = (take n trs).*2 /\
    default st (last (flushed p)) = plain_store start st (take m trs).
Proof.
  revert st p. induction trs as [|[t r] trs IH]; intros st p Hp.
  { exists 0%nat, 0%nat. destruct p as [|m0 p]; [done|].
    pose proof (prefix_cons_inv_1 _ _ _ _ Hp) as ->.
    apply prefix_cons_inv_2, prefix_nil_inv in Hp as ->. done. }
  rewrite pass_trace_cons in Hp. destruct p as [|m0 p]; [by exists 0%nat, 0%nat|].
  pose proof (prefix_cons_inv_1 _ _ _ _ Hp) as ->. apply prefix_cons_inv_2 in Hp.
  rewrite emitted_record, flushed_record. destruct (t <=? dt_instant start) eqn:Ht.
  - destruct p as [|m1 p]; [exists 1%nat, 0%nat; split; [lia|done]|].
    pose proof (prefix_cons_inv_1 _ _ _ _ Hp) as ->. apply prefix_cons_inv_2 in Hp.
    destruct (IH _ _ Hp) as (n & m & Hmn & Hem & Hst). exists (S n), (S m).
    rewrite emitted_state, flushed_state, default_last_cons, Hem, Hst.
    rewrite !firstn_cons, plain_store_cons, Ht. split; [lia|done].
  - destruct (IH _ _ Hp) as (n & m & Hmn & Hem & Hst). exists (S n), (S m).
    rewrite Hem, Hst, !firstn_cons, plain_store_cons, Ht. split; [lia|done].
Qed.

(** The store after some records holds the cursor it held, or the key of
    one of them. *)
Lemma plain_store_cursor start st trs :
  get_bookmark (plain_store start st trs) (tap_stream_id ce) key =
    get_bookmark st (tap_stream_id ce) key \/
  exists i tr, trs !! i = Some tr /\
    get_bookmark (plain_store start st trs) (tap_stream_id ce) key = VStr (format_utc tr.1).
Proof.
  induction trs as [|[t r] trs IH] using rev_ind; [by left|].
  unfold plain_store. rewrite fold_left_app. simpl. destruct (t <=? dt_instant start).
  - right. exists (length trs), (t, r). rewrite lookup_app_r, Nat.sub_diag by done.
    split; [done|]. unfold mark. by store.
  - destruct IH as [Hst|(i & tr & Hi & Hst)]; [by left|right].
    exists i, tr. split; [by apply lookup_app_l_Some|done].
Qed.

End PlainTrace.

(** ** A source that honours the cursor *)

Section Delivery.
Context `{Clock} `{TimeCodec} `{Transformer}.
Context (sf : salesforce) (ce : catalog_entry) (key : string).

(** What the source holds: raw records with the instant of their key. *)
Context (data : list (Z * value)).

(** The instant the cursor bookmark of a store parses to. *)
Definition cursor (st : state) : option Z :=
  match get_bookmark st (tap_stream_id ce) key with
  | VStr s => dt_instant <$> parse_datetime s
  | _ => None
  end.

(** [t] is at the cursor [c] or after it; [t] is before it. *)
Definition from_cursor (c : option Z) (t : Z) : Prop :=
  match c with
  | Some c => c <= t
  | None => True
  end.

Definition before_cursor (t : Z) (c : option Z) : Prop :=
  match c with
  | Some c => t < c
  | None => False
  end.

#[local] Instance from_cursor_dec c t : Decision (from_cursor c t).
Proof. destruct c; simpl; apply _. Defined.

(** What the source yields from the cursor [c] on. *)
Definition since (c : option Z) : list (Z * value) := filter (fun tr => from_cursor c tr.1) data.

(** A raw record as the consumer gets it. *)
Definition processed (rec : value) : value :=
  match process_record ce rec with
  | inr r => r
  | inl _ => VNone
  end.

Definition sent (c : option Z) : list (Z * value) := (fun tr => (tr.1, processed tr.2)) <$> since c.

(** The contract: the stream is keyed and not chunked; the start date
    parses; the source holds its records oldest key first; each goes through
    the transformer and the repair and carries its key in the canonical
    format; a query yields the records from the cursor of the store on. *)
Record honours_cursor : Prop := {
  hc_plain : pk_chunking sf = false;
  hc_key : truthy_key (replication_key ce) = Some key;
  hc_start : forall st, is_ok (get_start_date sf st ce ≫= strptime_with_tz) = true;
  hc_sorted : StronglySorted Z.le data.*1;
  hc_stamped : Forall (fun tr => stamped ce key tr.2 (tr.1, processed tr.2)) data;
  hc_query : forall st, query sf ce st = ((since (cursor st)).*2, None)
}.

Context (Hsource : honours_cursor).

Lemma since_stamped c : Forall2 (stamped ce key) (since c).*2 (sent c).
Proof.
  unfold sent. apply Forall2_fmap, Forall_Forall2_diag.
  eapply Forall_sublist; [apply sublist_filter|apply (hc_stamped Hsource)].
Qed.

(** The pass on an output that takes every message: it returns, having
    written the trace of the records from the cursor on. *)
Lemma pass_whole w :
  exists ver start w',
    sync_stream (emitter:=reliable_emitter) sf ce w
      = (RET (length (sent (cursor (w_state w)))) IN w') /\
    w_out w' = w_out w ++ pass_trace ce key ver start (w_state w) (sent (cursor (w_state w))).
Proof.
  pose proof (hc_plain Hsource) as Hmode. pose proof (hc_key Hsource) as Hkey.
  rewrite sync_stream_run, sync_records_run, (hc_query Hsource), get_stream_version_run.
  pose proof (hc_start Hsource (w_state (new_counter w))) as Hstart.
  destruct (_ ≫= strptime_with_tz) as [e|cb0]; [done|]. cbv zeta. rewrite Hkey.
  destruct (truthy _); simpl;
    rewrite (sync_loop_plain_trace ce key sf _ _ _ _ _ _ Hmode Hkey (since_stamped _));
    rewrite finish_pass_plain_run by done; unfold after_pass; rewrite Hkey; simpl;
    do 3 eexists; (split; [done|]); unfold pass_trace, emit; cbn [w_out];
    by rewrite <- app_assoc.
Qed.

Lemma emitted_plain_trace ver start st trs :
  emitted (pass_trace ce key ver start st trs) = trs.*2.
Proof.
  unfold pass_trace. rewrite emitted_app, app_nil_r. revert st.
  induction trs as [|[t r] trs IH]; intros st; [done|]. simpl plain_trace.
  rewrite emitted_record. destruct (t <=? _); by rewrite ?emitted_state, IH.
Qed.

(** A pass on any output: the consumer has the first [n] records from the
    cursor on, all of them when the pass returns; the store a restart reads
    is the store after the first [m <= n] of them. *)
Lemma pass_cut (E : Emitter) w :
  let run := sync_stream (emitter:=E) sf ce w in
  let trs := sent (cursor (w_state w)) in
  exists start n m, (m <= n)%nat /\
    emitted_by w run.2 = (take n trs).*2 /\
    default (w_state w) (last (flushed_by w run.2))
      = plain_store ce key start (w_state w) (take m trs) /\
    (is_ok run.1 = true -> emitted_by w run.2 = trs.*2).
Proof.
  intros run trs. destruct (pass_whole w) as (ver & start & w' & Hwhole & Hout).
  destruct (sync_stream_tracks E sf ce w) as [_ Hcut]. fold run in Hcut.
  destruct (tracks_trace E _ _ _ w (sync_stream_tracks E sf ce))
    as (trace & rest & Htrace & Hall).
  { intros out. apply sync_stream_keeps_out, admits_prefix. }
  fold run in Htrace. rewrite Hwhole in Hall, Hcut. simpl in Hall. rewrite Hout in Hall.
  apply app_inv_head in Hall.
  destruct (pass_trace_cut ce key ver start (w_state w) trs trace) as (n & m & Hmn & Hem & Hst).
  { exists rest. exact Hall. }
  exists start, n, m. rewrite (emitted_by_trace _ _ _ Htrace), (flushed_by_trace _ _ _ Htrace).
  repeat split; try done. intros Hok.
  destruct Hcut as [Heq|(e & He & _)]; [|by rewrite He in Hok].
  rewrite Heq in Htrace. simpl in Htrace. rewrite Hout in Htrace.
  apply app_inv_head in Htrace as <-. apply emitted_plain_trace.
Qed.

(** ** Passes, one after the other *)

(** A pass, on any output, from the store [s] with [seen] sent so far: the
    next pass starts from the store this one flushed last, or from [s] when
    it flushed none. *)
Inductive pass : state * list value -> state * list value -> Prop :=
| pass_run (E : Emitter) w seen :
    pass (w_state w, seen)
         (default (w_state w) (last (flushed_by w (sync_stream (emitter:=E) sf ce w).2)),
          seen ++ emitted_by w (sync_stream (emitter:=E) sf ce w).2).

(** Every record before the cursor of the store was sent. *)
Definition delivered (st : state) (seen : list value) : Prop :=
  forall tr, tr ∈ data -> before_cursor tr.1 (cursor st) -> processed tr.2 ∈ seen.

Lemma cursor_same st st' :
  get_bookmark st' (tap_stream_id ce) key = get_bookmark st (tap_stream_id ce) key ->
  cursor st' = cursor st.
Proof. unfold cursor. by intros ->. Qed.

Lemma cursor_canonical st t :
  get_bookmark st (tap_stream_id ce) key = VStr (format_utc t) -> cursor st = Some t.
Proof. unfold cursor. intros ->. by rewrite parse_format_utc. Qed.

Lemma sent_sorted c : StronglySorted Z.le (sent c).*1.
Proof.
  unfold sent. rewrite <- list_fmap_compose.
  apply (StronglySorted_sublist _ _ data.*1); [|apply (hc_sorted Hsource)].
  apply fmap_sublist, sublist_filter.
Qed.

Lemma elem_of_sent c tr :
  tr ∈ data -> from_cursor c tr.1 -> (tr.1, processed tr.2) ∈ sent c.
Proof.
  intros Hin Hfrom. unfold sent, since. apply list_elem_of_fmap. exists tr.
  split; [done|]. by apply list_elem_of_filter.
Qed.

(** The cursor of the store after the first [m] records from [c] on: what
    it was, or the key of one of those records. *)
Lemma plain_store_cursor_sent start st m :
  let st' := plain_store ce key start st (take m (sent (cursor st))) in
  cursor st' = cursor st \/
  exists i t r, (i < m)%nat /\ sent (cursor st) !! i = Some (t, r) /\ cursor st' = Some t.
Proof.
  simpl. destruct (plain_store_cursor ce key start st (take m (sent (cursor st))))
    as [Heq|(i & [t r] & Hi & Heq)].
  - left. by apply cursor_same.
  - right. apply lookup_take_Some in Hi as [Hi Him]. exists i, t, r.
    repeat split; try done. by apply cursor_canonical.
Qed.

Lemma not_before_cursor t c : ~ before_cursor t c -> from_cursor c t.
Proof. destruct c; simpl; [lia|done]. Qed.

#[local] Instance before_cursor_dec t c : Decision (before_cursor t c).
Proof. destruct c; simpl; apply _. Defined.

(** One pass: what lies before the cursor a restart finds was sent. *)
Lemma pass_delivered x y : pass x y -> delivered x.1 x.2 -> delivered y.1 y.2.
Proof.
  intros [E w seen] Hold. simpl in *.
  destruct (pass_cut E w) as (start & n & m & Hmn & Hem & Hst & _).
  rewrite Hem, Hst. intros tr Hin Hbefore. rewrite elem_of_app.
  destruct (decide (before_cursor tr.1 (cursor (w_state w)))) as [Hb|Hb]; [left; by apply Hold|].
  destruct (plain_store_cursor_sent start (w_state w) m) as [Hc|(i & t & r & Him & Hi & Hc)];
    rewrite Hc in Hbefore; [done|]. right.
  apply not_before_cursor, (elem_of_sent _ _ Hin), list_elem_of_lookup in Hb as [k Hk].
  pose proof (StronglySorted_lookup_lt fst _ _ _ _ _ (sent_sorted _) Hk Hi Hbefore).
  apply list_elem_of_fmap. exists (tr.1, processed tr.2). split; [done|].
  apply list_elem_of_lookup. exists k. rewrite lookup_take_lt by lia. done.
Qed.

(** Across passes that are stopped after any message and started again
    from the store flushed last, every record the source holds before the
    cursor of the store was sent: the cursor never passes a record that was
    not emitted. *)
Lemma passes_delivered x y : rtc pass x y -> delivered x.1 x.2 -> delivered y.1 y.2.
Proof. induction 1; eauto using pass_delivered. Qed.

(** One pass: the cursor does not move back. *)
Lemma pass_cursor x y c :
  pass x y -> cursor x.1 = Some c -> exists c', cursor y.1 = Some c' /\ c <= c'.
Proof.
  intros [E w seen] Hc. simpl in *.
  destruct (pass_cut E w) as (start & n & m & _ & _ & -> & _).
  destruct (plain_store_cursor_sent start (w_state w) m) as [->|(i & t & r & _ & Hi & ->)].
  - exists c. split; [done|lia].
  - exists t. split; [done|]. apply list_elem_of_lookup_2 in Hi.
    apply list_elem_of_fmap in Hi as (tr & [= -> _] & Htr).
    apply list_elem_of_filter in Htr as [Hfrom _]. by rewrite Hc in Hfrom.
Qed.

(** C3: no record is skipped.  After any number of stopped passes from a
    store without cursor, a pass that returns has sent, with the passes
    before it, every record the source holds. *)
Theorem no_record_skipped (E : Emitter) s0 w seen n w' :
  rtc pass (s0, []) (w_state w, seen) -> cursor s0 = None ->
  sync_stream (emitter:=E) sf ce w = (RET n IN w') ->
  forall tr, tr ∈ data -> processed tr.2 ∈ seen ++ emitted_by w w'.
Proof.
  intros Hpasses Hnone Hrun tr Hin. rewrite elem_of_app.
  apply passes_delivered in Hpasses; [|by intros tr0 _; simpl; rewrite Hnone].
  simpl in Hpasses.
  destruct (decide (before_cursor tr.1 (cursor (w_state w)))) as [Hb|Hb]; [left; by apply Hpasses|].
  right. destruct (pass_cut E w) as (_ & _ & _ & _ & _ & _ & Hall).
  rewrite Hrun in Hall. simpl in Hall. rewrite Hall by done.
  apply list_elem_of_fmap. exists (tr.1, processed tr.2). split; [done|].
  by apply elem_of_sent, not_before_cursor.
Qed.

(** C21: across such passes the cursor, once written, never moves back,
    wherever the passes are stopped. *)
Theorem passes_cursor_monotone s seen s' seen' c :
  rtc pass (s, seen) (s', seen') -> cursor s = Some c ->
  exists c', cursor s' = Some c' /\ c <= c'.
Proof.
  intros Hpasses. remember (s, seen) as x eqn:Hx. remember (s', seen') as y eqn:Hy.
  revert s seen c Hx. induction Hpasses as [x|x [s1 seen1] y Hpass _ IH]; intros s seen c -> Hc.
  - injection Hy as -> ->. exists c. split; [done|lia].
  - destruct (pass_cursor _ _ c Hpass Hc) as (c1 & Hc1 & Hle).
    destruct (IH Hy s1 seen1 c1 eq_refl Hc1) as (c' & Hc' & Hle'). exists c'. split; [done|lia].
Qed.

End Delivery.

(** ** Witnesses: a ledger of three accounts *)

Section DeliveryWitnesses.
#[local] Existing Instance fixture_clock.

(** What the source holds, oldest key first. *)
Definition ledger : list (Z * value) :=
  [(1550000000000000, account "002" "1550000000000000" "true");
   (1600000000000000, account "001" "1600000000000000" "42");
   (1650000000000000, account "003" "1650000000000000" "")].

(** A source that answers a query with the ledger from the cursor on. *)
Definition ledger_source : salesforce :=
  mk_salesforce false
    (fun _ _ => inr (VStr "1500000000000000"))
    (fun ce st => ((since ledger (cursor ce "SystemModstamp" st)).*2, None))
    (fun _ _ _ => ([], None)).

Lemma ledger_honours : honours_cursor ledger_source account_entry "SystemModstamp" ledger.
Proof.
  split.
  - done.
  - done.
  - by intros st; vm_compute.
  - apply (bool_decide_unpack (StronglySorted Z.le _)). by vm_compute.
  - repeat apply Forall_cons_2; [..|apply Forall_nil_2]; by vm_compute.
  - done.
Qed.

(** A pass stopped after three messages: two records were sent, and the
    flush of the first is what a restart finds. *)
Definition first_pass : (exn + nat) * world :=
  sync_stream (emitter:=capped 3) ledger_source account_entry (world0 ∅).

Definition after_first_pass : state := default ∅ (last (flushed_by (world0 ∅) first_pass.2)).

Definition seen_first_pass : list value := [] ++ emitted_by (world0 ∅) first_pass.2.

Lemma first_pass_stopped : pass ledger_source account_entry (∅, []) (after_first_pass, seen_first_pass).
Proof. exact (pass_run ledger_source account_entry (capped 3) (world0 ∅) []). Qed.

Example first_pass_cursor :
  cursor account_entry "SystemModstamp" after_first_pass = Some 1550000000000000 /\
  length seen_first_pass = 2%nat.
Proof. by vm_compute. Qed.

(** The pass that follows, on an output that takes every message. *)
Definition second_pass : (exn + nat) * world :=
  sync_stream (emitter:=reliable_emitter) ledger_source account_entry (world0 after_first_pass).

Lemma second_pass_returns : second_pass = (RET 3%nat IN second_pass.2).
Proof. by vm_compute. Qed.

(** The second record went out in the first pass, which was stopped before
    its flush: the second pass sends it again. *)
Example stopped_pass_resends :
  let r := account_out "001" "1600000000000000" (VFloat (FFin false 0x15000000000000 (-47))) in
  r ∈ seen_first_pass /\ r ∈ emitted_by (world0 after_first_pass) second_pass.2.
Proof. split; apply (bool_decide_unpack _); by vm_compute. Qed.

Example passes_delivered_example :
  delivered account_entry "SystemModstamp" ledger after_first_pass seen_first_pass.
Proof.
  apply (passes_delivered ledger_source account_entry "SystemModstamp" ledger ledger_honours
           (∅, []) (after_first_pass, seen_first_pass) (rtc_once _ _ first_pass_stopped)).
  by intros tr _.
Qed.

Lemma no_record_skipped_witness :
  Forall (fun tr => processed account_entry tr.2 ∈
                      seen_first_pass ++ emitted_by (world0 after_first_pass) second_pass.2)
         ledger.
Proof.
  apply Forall_forall.
  exact (no_record_skipped ledger_source account_entry "SystemModstamp" ledger ledger_honours
           reliable_emitter ∅ (world0 after_first_pass) seen_first_pass 3 second_pass.2
           (rtc_once _ _ first_pass_stopped) eq_refl second_pass_returns).
Defined.

Lemma second_pass_run :
  pass ledger_source account_entry (after_first_pass, seen_first_pass)
    (default after_first_pass (last (flushed_by (world0 after_first_pass) second_pass.2)),
     seen_first_pass ++ emitted_by (world0 after_first_pass) second_pass.2).
Proof.
  exact (pass_run ledger_source account_entry reliable_emitter (world0 after_first_pass)
           seen_first_pass).
Qed.

Lemma after_first_pass_cursor :
  cursor account_entry "SystemModstamp" after_first_pass = Some 1550000000000000.
Proof. by vm_compute. Qed.

Lemma passes_cursor_monotone_witness :
  exists c', cursor account_entry "SystemModstamp"
               (default after_first_pass
                  (last (flushed_by (world0 after_first_pass) second_pass.2))) = Some c' /\
    1550000000000000 <= c'.
Proof.
  exact (passes_cursor_monotone ledger_source account_entry "SystemModstamp" ledger
           ledger_honours _ _ _ _ 1550000000000000 (rtc_once _ _ second_pass_run)
           after_first_pass_cursor).
Defined.

End DeliveryWitnesses.
