(* ===== verification/JobDelivery.v ===== *)
(** * Batch jobs across restarts: no batch is skipped

    A job is drained by runs of [resume_syncing_bulk_query], each on an
    output that may close after any message; the next run starts from the
    store flushed last.  This file describes what one run writes (the
    records of a batch, then a store that lists the batches after it, batch
    after batch), shows that the description holds of every beginning of
    such a trace, and follows the records sent along any number of runs:
    a batch leaves the list of the store only after all of its records
    were sent, so a job that ends has sent every record of every batch.
    In the other direction, a run sends nothing but the records of the
    batches still listed, in order and from the first on. *)

From Stdlib Require Import ZArith String Ascii List Lia.
From stdpp Require Import base option list strings gmap relations.
From S2P Require Import Prelude PyValue Bookmarks Runtime Fixtures Version SyncRecords Resume Interrupt Restart.

Section JobDelivery.
Context `{Clock} `{TimeCodec} `{Transformer}.
Context (sf : salesforce) (ce : catalog_entry) (job : value).

(** ** What a run writes *)

(** The trace of a run over [batches], whole or cut: for each batch done,
    its records and then a store that lists the batches after it; at the
    end, records that no store follows. *)
Fixpoint job_trace (batches : list value) (trace : list message) : Prop :=
  match batches with
  | [] => flushed trace = []
  | b :: rest =>
      flushed trace = [] \/
      exists seg st trace', trace = seg ++ StateMessage st :: trace' /\
        flushed seg = [] /\ drained sf ce job b (emitted seg) /\
        get_bookmark st (tap_stream_id ce) BATCH_IDS = VList rest /\
        job_trace rest trace'
  end.

(** The batches that left the list of the store [st] since the job
    started with [batches], and the records of each, have been [seen]. *)
Definition job_sent (batches : list value) (st : state) (seen : list value) : Prop :=
  exists done pending rss, batches = done ++ pending /\
    get_bookmark st (tap_stream_id ce) BATCH_IDS = VList pending /\
    Forall2 (drained sf ce job) done rss /\ concat rss ⊆ seen.

(** A run, on any output, from the store [w_state w] with [seen] sent so
    far: the next run starts from the store this one flushed last, or from
    the same store when it flushed none. *)
Inductive job_pass : state * list value -> state * list value -> Prop :=
| job_pass_run (E : Emitter) w seen :
    job_pass (w_state w, seen)
      (default (w_state w)
         (last (flushed_by w (resume_syncing_bulk_query (emitter:=E) sf ce job w).2)),
       seen ++ emitted_by w (resume_syncing_bulk_query (emitter:=E) sf ce job w).2).

(** The records of the batches [pending], as the source delivers them,
    one batch after the other. *)
Definition job_records (pending : list value) : list value :=
  concat ((fun b => (get_batch_results sf job b ce).1) <$> pending).

(** The records [rs] were sent for a beginning of the raw records [raw]:
    one for each, in order. *)
Definition sent_from (raw : list value) (rs : list value) : Prop :=
  exists recs, recs `prefix_of` raw /\
    Forall2 (fun rec r => process_record ce rec = inr r) recs rs.

#[local] Existing Instance reliable_emitter.

(** ** Facts: traces *)

Lemma job_trace_quiet batches trace : flushed trace = [] -> job_trace batches trace.
Proof. destruct batches; simpl; auto. Qed.

Lemma flushed_prefix_nil p trace : p `prefix_of` trace -> flushed trace = [] -> flushed p = [].
Proof. intros [k ->]. rewrite flushed_app. by intros [? _]%app_eq_nil. Qed.

(** Every beginning of the trace of a run is the trace of a run. *)
Lemma job_trace_prefix batches p trace :
  p `prefix_of` trace -> job_trace batches trace -> job_trace batches p.
Proof.
  revert p trace. induction batches as [|b rest IH]; intros p trace Hp; simpl.
  - by apply flushed_prefix_nil.
  - intros [Hquiet|(seg & st & trace' & -> & Hseg & Hb & Hst & Hrest)].
    { left. by eapply flushed_prefix_nil. }
    apply prefix_app_cases in Hp as [Hp|(p' & -> & Hp)].
    { left. by eapply flushed_prefix_nil. }
    destruct p' as [|m p']; [left; by rewrite app_nil_r|].
    pose proof (prefix_cons_inv_1 _ _ _ _ Hp) as ->. apply prefix_cons_inv_2 in Hp.
    right. exists seg, st, p'. eauto 10.
Qed.

(** What the trace of a run says of the store flushed last and of the
    records written: the batches done, each with all of its records. *)
Lemma job_trace_last batches trace :
  job_trace batches trace ->
  exists done pending rss, batches = done ++ pending /\
    Forall2 (drained sf ce job) done rss /\ concat rss ⊆ emitted trace /\
    match last (flushed trace) with
    | Some st => get_bookmark st (tap_stream_id ce) BATCH_IDS = VList pending
    | None => done = []
    end.
Proof.
  revert trace. induction batches as [|b rest IH]; intros trace; simpl.
  - intros ->. exists [], [], []. split_and!; [done|constructor|set_solver|done].
  - intros [->|(seg & st & trace' & -> & Hseg & Hb & Hst & Hrest)].
    { exists [], (b :: rest), []. split_and!; [done|constructor|set_solver|done]. }
    destruct (IH _ Hrest) as (done & pending & rss & -> & Hdone & Hsub & Hlast).
    exists (b :: done), pending, (emitted seg :: rss).
    rewrite flushed_app, emitted_app, Hseg, flushed_state, emitted_state. simpl.
    split; [done|]. split; [by constructor|].
    split; [intros r [?|?]%elem_of_app; apply elem_of_app; auto|].
    rewrite last_cons. destruct (last (flushed trace')); [done|]. by subst done.
Qed.

(** ** Facts: one run *)

(** A batch writes records only. *)
Lemma drain_batch_trace ver start cb recs w r w' :
  drain_batch ce ver start cb recs w = (r, w') ->
  exists seg, w_out w' = w_out w ++ seg /\ flushed seg = [].
Proof.
  intros Hrun.
  pose proof (se_keeps_run _ _ _ _ _ (drain_batch_flushed _ ce ver start cb recs) eq_refl Hrun)
    as Hflushed.
  destruct (se_keeps_run _ _ _ _ _
              (drain_batch_keeps_out _ (admits_prefix (w_out w)) ce ver start cb recs)
              (reflexivity (w_out w)) Hrun) as [seg Hseg].
  exists seg. split; [done|]. cbv beta in Hflushed. rewrite Hseg, flushed_app in Hflushed.
  by apply (inj (app (flushed (w_out w)))); rewrite app_nil_r.
Qed.

(** The outer loop writes the trace of a run over the batches listed. *)
Lemma drain_batches_job_trace ver start batches cb w r w' :
  get_bookmark (w_state w) (tap_stream_id ce) BATCH_IDS = VList batches ->
  drain_batches sf ce job ver start cb batches w = (r, w') ->
  exists trace, w_out w' = w_out w ++ trace /\ job_trace batches trace.
Proof.
  revert cb w. induction batches as [|b rest IH]; intros cb w Hlist Hrun.
  - injection Hrun as <- <-. exists []. by rewrite app_nil_r.
  - rewrite drain_batches_cons in Hrun by done.
    destruct (get_batch_results sf job b ce) as [recs failure] eqn:Hres. simpl in Hrun.
    destruct (drain_batch _ _ _ _ _ _) as [r1 w1] eqn:Hdrain.
    destruct (drain_batch_trace _ _ _ _ _ _ _ Hdrain) as (seg & Hseg & Hquiet).
    destruct r1 as [e|cb1]; [injection Hrun as <- <-; exists seg; by eauto using job_trace_quiet|].
    apply drain_batch_ok in Hdrain as (rs & Hrs & _ & Hw1).
    destruct failure as [e|]; [injection Hrun as <- <-; exists seg; by eauto using job_trace_quiet|].
    destruct (strftime cb1) as [e|formatted]; [injection Hrun as <- <-; exists seg; by eauto using job_trace_quiet|].
    apply IH in Hrun as (trace' & Hout & Htrace'); [|apply after_batch_batch_ids].
    exists (seg ++ StateMessage (w_state (after_batch ce formatted rest w1)) :: trace').
    split; [rewrite Hout; simpl; rewrite Hseg, <- !app_assoc; done|].
    right. eexists seg, _, trace'. split; [done|]. split; [done|].
    split; [|split; [apply after_batch_batch_ids|done]].
    exists recs. split; [done|].
    replace (emitted seg) with rs; [done|].
    pose proof (emitted_after_records ce ver start rs w) as Hem.
    rewrite <- Hw1, Hseg, emitted_app in Hem. by apply (inj (app (emitted (w_out w)))).
Qed.

(** So does the resumption, which writes nothing before its first batch. *)
Lemma resume_job_trace batches w :
  get_bookmark (w_state w) (tap_stream_id ce) BATCH_IDS = VList batches ->
  exists trace, w_out (resume_syncing_bulk_query sf ce job w).2 = w_out w ++ trace /\
    job_trace batches trace.
Proof.
  intros Hlist. rewrite resume_run, Hlist. simpl.
  destruct (resume_entry_world ce w) as (Hst & Hout & _).
  assert (exists trace, w_out w = w_out w ++ trace /\ job_trace batches trace) as Hnil.
  { exists []. rewrite app_nil_r. split; [done|]. by apply job_trace_quiet. }
  destruct (resume_from _ _ _) as [e|cb0]; [done|].
  destruct (resume_version ce w) as [e|ver]; [simpl; by rewrite Hout|].
  destruct (drain_batches _ _ _ _ _ _ _ _) as [r2 w2] eqn:Hrun. rewrite <- Hst in Hlist.
  apply (drain_batches_job_trace _ _ _ _ _ _ _ Hlist) in Hrun as (trace & Htrace & Hjob).
  rewrite Hout in Htrace. exists trace. by destruct r2.
Qed.

(** On any output, the resumption writes a beginning of that trace. *)
Lemma resume_cut_job_trace (E : Emitter) batches w :
  get_bookmark (w_state w) (tap_stream_id ce) BATCH_IDS = VList batches ->
  exists trace, w_out (resume_syncing_bulk_query (emitter:=E) sf ce job w).2 = w_out w ++ trace /\
    job_trace batches trace.
Proof.
  intros Hlist. apply (cut_trace E _ _ _ _ w (resume_cuts E sf ce job)).
  - intros out. apply resume_keeps_out, admits_prefix.
  - apply job_trace_prefix.
  - by apply resume_job_trace.
Qed.

(** A resumption that returns, on any output, wrote the records of every
    batch the store listed. *)
Lemma resume_returns_sent (E : Emitter) pending w n w' :
  get_bookmark (w_state w) (tap_stream_id ce) BATCH_IDS = VList pending ->
  resume_syncing_bulk_query (emitter:=E) sf ce job w = (RET n IN w') ->
  exists rss, Forall2 (drained sf ce job) pending rss /\ emitted_by w w' = concat rss.
Proof.
  intros Hlist Hrun. destruct (resume_cuts E sf ce job w) as [_ [Hwhole|(e & He & _)]];
    [|by rewrite Hrun in He].
  rewrite Hrun in Hwhole. symmetry in Hwhole.
  apply (resume_ok _ _ _ _ _ _ _ Hlist) in Hwhole as (cb0 & ver & cb' & _ & _ & Hdrain).
  destruct (resume_entry_world ce w) as (Hst & Hout & _). rewrite <- Hst in Hlist.
  apply (drain_batches_ok _ _ _ _ _ _ _ _ _ _ Hlist) in Hdrain as (rss & Hrss & _ & Hem & _).
  exists rss. split; [done|]. unfold emitted_by. by rewrite Hem, Hout, drop_app_length.
Qed.

(** ** Runs, one after the other *)

Lemma job_sent_start batches st :
  get_bookmark st (tap_stream_id ce) BATCH_IDS = VList batches -> job_sent batches st [].
Proof. intros Hlist. exists [], batches, []. split_and!; [done|done|constructor|done]. Qed.

(** One run: the batches it takes off the list went out whole. *)
Lemma job_pass_sent batches x y :
  job_pass x y -> job_sent batches x.1 x.2 -> job_sent batches y.1 y.2.
Proof.
  intros [E w seen] (done & pending & rss & -> & Hlist & Hdone & Hseen). simpl in *.
  destruct (resume_cut_job_trace E pending w Hlist) as (trace & Hout & Htrace).
  rewrite (flushed_by_trace _ _ _ Hout), (emitted_by_trace _ _ _ Hout).
  destruct (job_trace_last _ _ Htrace) as (done1 & pending1 & rss1 & -> & Hdone1 & Hsub & Hlast).
  exists (done ++ done1), pending1, (rss ++ rss1). rewrite app_assoc, concat_app.
  split; [done|]. split; [|split; [by apply Forall2_app|]].
  - destruct (last (flushed trace)); simpl; [done|]. by subst done1.
  - intros r [?|?]%elem_of_app; apply elem_of_app; auto.
Qed.

Lemma job_passes_sent batches x y :
  rtc job_pass x y -> job_sent batches x.1 x.2 -> job_sent batches y.1 y.2.
Proof. induction 1; eauto using job_pass_sent. Qed.

(** C15: whatever the runs of a job did and wherever their outputs
    closed, a batch that the store no longer lists was drained whole and
    every record of it was sent: the store never drops a batch whose records
    did not all go out. *)
Theorem batches_sent_before_dropped batches s0 st seen :
  get_bookmark s0 (tap_stream_id ce) BATCH_IDS = VList batches ->
  rtc job_pass (s0, []) (st, seen) ->
  job_sent batches st seen.
Proof.
  intros Hlist Hruns. apply (job_passes_sent batches _ _ Hruns), job_sent_start, Hlist.
Qed.

(** C4: no record of a job is skipped.  After any number of runs, each
    stopped anywhere, a run that returns has completed the job: every batch
    that the store listed at the start was drained without failure, and
    every record of every batch was sent by one of the runs. *)
Theorem no_batch_skipped (E : Emitter) batches s0 w seen n w' :
  get_bookmark s0 (tap_stream_id ce) BATCH_IDS = VList batches ->
  rtc job_pass (s0, []) (w_state w, seen) ->
  resume_syncing_bulk_query (emitter:=E) sf ce job w = (RET n IN w') ->
  exists rss, Forall2 (drained sf ce job) batches rss /\
    concat rss ⊆ seen ++ emitted_by w w'.
Proof.
  intros Hlist Hruns Hrun.
  destruct (job_passes_sent batches _ _ Hruns (job_sent_start _ _ Hlist))
    as (done & pending & rss & -> & Hpending & Hdone & Hseen). simpl in *.
  destruct (resume_returns_sent E pending w n w' Hpending Hrun) as (rss' & Hrss' & ->).
  exists (rss ++ rss'). split; [by apply Forall2_app|]. rewrite concat_app.
  intros r [?|?]%elem_of_app; apply elem_of_app; auto.
Qed.

(** ** What a run sends

    A run sends the records of the batches listed, in the order of the
    list, from the first record of the first batch as far as it gets. *)

Lemma sent_from_nil raw : sent_from raw [].
Proof. exists []. split; [apply prefix_nil|constructor]. Qed.

Lemma sent_from_app raw1 raw2 rs1 rs2 :
  Forall2 (fun rec r => process_record ce rec = inr r) raw1 rs1 ->
  sent_from raw2 rs2 -> sent_from (raw1 ++ raw2) (rs1 ++ rs2).
Proof.
  intros Hrs1 (recs & Hpre & Hrs2). exists (raw1 ++ recs).
  split; [by apply prefix_app|by apply Forall2_app].
Qed.

Lemma sent_from_app_r raw1 raw2 rs : sent_from raw1 rs -> sent_from (raw1 ++ raw2) rs.
Proof. intros (recs & Hpre & Hrs). exists recs. split; [by apply prefix_app_r|done]. Qed.

(** What was sent for a beginning of the output was sent from the same
    records. *)
Lemma sent_from_prefix raw p trace :
  p `prefix_of` trace -> sent_from raw (emitted trace) -> sent_from raw (emitted p).
Proof.
  intros [k ->] (recs & Hpre & Hrs). rewrite emitted_app in Hrs.
  apply Forall2_app_inv_r in Hrs as (recs1 & recs2 & Hrs1 & _ & ->).
  exists recs1. split; [|done]. by eapply prefix_app_l.
Qed.

(** One batch, whatever its outcome. *)
Lemma drain_batch_sent ver start cb recs w r w' :
  drain_batch ce ver start cb recs w = (r, w') ->
  exists trace, w_out w' = w_out w ++ trace /\ sent_from recs (emitted trace).
Proof.
  revert cb w. induction recs as [|rec recs IH]; intros cb w; simpl.
  { intros [= <- <-]. exists []. rewrite app_nil_r. split; [done|apply sent_from_nil]. }
  rewrite se_bind_run, resume_record_run.
  destruct (process_record ce rec) as [e|r1] eqn:Hr1.
  { intros [= <- <-]. exists []. rewrite app_nil_r. split; [done|apply sent_from_nil]. }
  cbv zeta. set (w1 := emit (RecordMessage (stream_name ce) r1 ver start) (count_one w)).
  intros Hrun.
  assert (w' = w1 \/ exists cb1, drain_batch ce ver start cb1 recs w1 = (r, w'))
    as [->|[cb1 (trace & Hout & Hsent)%IH]] by (repeat case_match; simplify_eq; eauto).
  - exists [RecordMessage (stream_name ce) r1 ver start]. split; [done|].
    apply (sent_from_app_r [rec] recs [r1]). exists [rec]. by repeat constructor.
  - exists (RecordMessage (stream_name ce) r1 ver start :: trace).
    rewrite Hout. simpl. rewrite <- app_assoc. split; [done|].
    by apply (sent_from_app [rec] recs [r1]); [repeat constructor|].
Qed.

(** The batches, whatever the outcome. *)
Lemma drain_batches_sent ver start batches cb w r w' :
  get_bookmark (w_state w) (tap_stream_id ce) BATCH_IDS = VList batches ->
  drain_batches sf ce job ver start cb batches w = (r, w') ->
  exists trace, w_out w' = w_out w ++ trace /\ sent_from (job_records batches) (emitted trace).
Proof.
  revert cb w. induction batches as [|b rest IH]; intros cb w Hlist Hrun.
  { injection Hrun as <- <-. exists []. rewrite app_nil_r. split; [done|apply sent_from_nil]. }
  rewrite drain_batches_cons in Hrun by done. unfold job_records. simpl.
  destruct (drain_batch _ _ _ _ _ _) as [r1 w1] eqn:Hdrain.
  pose proof (drain_batch_sent _ _ _ _ _ _ _ Hdrain) as (trace1 & Hout1 & Hsent1).
  destruct r1 as [e|cb1];
    [injection Hrun as <- <-; exists trace1; split; [done|by apply sent_from_app_r]|].
  apply drain_batch_ok in Hdrain as (rs & Hrs & _ & Hw1).
  destruct (get_batch_results sf job b ce).2 as [e|];
    [injection Hrun as <- <-; exists trace1; split; [done|by apply sent_from_app_r]|].
  destruct (strftime cb1) as [e|formatted];
    [injection Hrun as <- <-; exists trace1; split; [done|by apply sent_from_app_r]|].
  apply IH in Hrun as (trace2 & Hout2 & Hsent2); [|apply after_batch_batch_ids].
  exists (trace1 ++ StateMessage (w_state (after_batch ce formatted rest w1)) :: trace2).
  split; [rewrite Hout2; simpl; rewrite Hout1, <- !app_assoc; done|].
  rewrite emitted_app, emitted_state. apply sent_from_app; [|done].
  pose proof (emitted_after_records ce ver start rs w) as Hem.
  rewrite <- Hw1, Hout1, emitted_app in Hem. by apply (inj (app (emitted (w_out w)))) in Hem as ->.
Qed.

Lemma resume_sent batches w :
  get_bookmark (w_state w) (tap_stream_id ce) BATCH_IDS = VList batches ->
  exists trace, w_out (resume_syncing_bulk_query sf ce job w).2 = w_out w ++ trace /\
    sent_from (job_records batches) (emitted trace).
Proof.
  intros Hlist. rewrite resume_run, Hlist. simpl.
  destruct (resume_entry_world ce w) as (Hst & Hout & _).
  assert (exists trace, w_out w = w_out w ++ trace /\
            sent_from (job_records batches) (emitted trace)) as Hnil.
  { exists []. rewrite app_nil_r. split; [done|apply sent_from_nil]. }
  destruct (resume_from _ _ _) as [e|cb0]; [done|].
  destruct (resume_version ce w) as [e|ver]; [simpl; by rewrite Hout|].
  destruct (drain_batches _ _ _ _ _ _ _ _) as [r2 w2] eqn:Hrun. rewrite <- Hst in Hlist.
  apply (drain_batches_sent _ _ _ _ _ _ _ Hlist) in Hrun as (trace & Htrace & Hsent).
  rewrite Hout in Htrace. exists trace. by destruct r2.
Qed.

(** On any output, the run sends a beginning of that. *)
Lemma resume_cut_sent (E : Emitter) pending w :
  get_bookmark (w_state w) (tap_stream_id ce) BATCH_IDS = VList pending ->
  exists trace,
    w_out (resume_syncing_bulk_query (emitter:=E) sf ce job w).2 = w_out w ++ trace /\
    sent_from (job_records pending) (emitted trace).
Proof.
  intros Hlist.
  apply (cut_trace E _ _ _ (fun trace => sent_from (job_records pending) (emitted trace)) w
           (resume_cuts E sf ce job)).
  - intros out. apply resume_keeps_out, admits_prefix.
  - intros p l. apply sent_from_prefix.
  - by apply resume_sent.
Qed.

(** C28: a run of the resumption, wherever it is stopped, sends the
    records of the batches that the store lists, in the order of the list,
    from the first on and each once: no record of a batch that is no longer
    listed is sent again, and a run that finds no batch listed sends
    nothing. *)
Theorem resume_sends_listed (E : Emitter) pending w :
  get_bookmark (w_state w) (tap_stream_id ce) BATCH_IDS = VList pending ->
  sent_from (job_records pending)
    (emitted_by w (resume_syncing_bulk_query (emitter:=E) sf ce job w).2).
Proof.
  intros Hlist. destruct (resume_cut_sent E pending w Hlist) as (trace & Hout & Hsent).
  by rewrite (emitted_by_trace _ _ _ Hout).
Qed.

End JobDelivery.

(** ** Witnesses, on the job of Resume.v *)

Section JobDeliveryWitnesses.
#[local] Existing Instance fixture_clock.

(** The run of Restart.v, stopped after four messages: the two records of
    the first batch, its flush, and the record of the second batch. *)
Definition job_after_stop : state :=
  default job_state (last (flushed_by (world0 job_state) stopped_job_run.2)).

Definition job_seen_stop : list value := [] ++ emitted_by (world0 job_state) stopped_job_run.2.

Lemma job_stopped :
  job_pass job_source account_entry (VStr "job") (job_state, []) (job_after_stop, job_seen_stop).
Proof.
  exact (job_pass_run job_source account_entry (VStr "job") (capped 4) (world0 job_state) []).
Qed.

(** The run that follows, on an output that takes every message. *)
Definition second_job_run : (exn + nat) * world :=
  resume_syncing_bulk_query (emitter:=reliable_emitter) job_source account_entry (VStr "job")
    (world0 job_after_stop).

Lemma second_job_run_returns : second_job_run = (RET 1%nat IN second_job_run.2).
Proof.
  rewrite (surjective_pairing second_job_run) at 1. by f_equal.
Qed.

(** The record of the second batch went out in the first run, which was
    stopped before the flush of that batch: the second run, which finds the
    batch listed, sends it again. *)
Example stopped_batch_resends :
  exists r, r ∈ emitted_by (world0 job_state) stopped_job_run.2 /\
    emitted_by (world0 job_after_stop) second_job_run.2 = [r].
Proof. eexists. split; [|by vm_compute]. apply (bool_decide_unpack _). by vm_compute. Qed.

Lemma batches_sent_before_dropped_witness :
  job_sent job_source account_entry (VStr "job") [VStr "b1"; VStr "b2"]
    job_after_stop job_seen_stop.
Proof.
  exact (batches_sent_before_dropped job_source account_entry (VStr "job")
           [VStr "b1"; VStr "b2"] job_state job_after_stop job_seen_stop eq_refl
           (rtc_once _ _ job_stopped)).
Defined.

Lemma no_batch_skipped_witness :
  exists rss,
    Forall2 (drained job_source account_entry (VStr "job")) [VStr "b1"; VStr "b2"] rss /\
    concat rss ⊆ job_seen_stop ++ emitted_by (world0 job_after_stop) second_job_run.2.
Proof.
  exact (no_batch_skipped job_source account_entry (VStr "job") reliable_emitter
           [VStr "b1"; VStr "b2"] job_state (world0 job_after_stop) job_seen_stop 1
           second_job_run.2 eq_refl (rtc_once _ _ job_stopped) second_job_run_returns).
Defined.

Lemma resume_sends_listed_witness :
  sent_from account_entry
    (job_records job_source account_entry (VStr "job") [VStr "b1"; VStr "b2"])
    (emitted_by (world0 job_state) stopped_job_run.2).
Proof.
  exact (resume_sends_listed job_source account_entry (VStr "job") (capped 4)
           [VStr "b1"; VStr "b2"] (world0 job_state) eq_refl).
Defined.

(** The second run finds the second batch only and sends nothing of the
    first. *)
Example second_job_run_sends :
  get_bookmark job_after_stop "Account" BATCH_IDS = VList [VStr "b2"] /\
  sent_from account_entry (job_records job_source account_entry (VStr "job") [VStr "b2"])
    (emitted_by (world0 job_after_stop) second_job_run.2).
Proof.
  assert (get_bookmark job_after_stop "Account" BATCH_IDS = VList [VStr "b2"]) as Hlist
    by (by vm_compute).
  split; [done|].
  destruct (resume_cut_sent job_source account_entry (VStr "job") reliable_emitter
              [VStr "b2"] (world0 job_after_stop) Hlist) as (trace & Hout & Hsent).
  unfold second_job_run. by rewrite (emitted_by_trace _ _ _ Hout).
Qed.

End JobDeliveryWitnesses.
