(* ===== verification/IsoRuns.v ===== *)
(** * The drivers on ISO 8601 timestamps

    The drivers of sync.py, run by computation on the timestamps Salesforce
    sends, read and written by [iso_codec]: a resumed job that returns, one
    that stops on a timestamp that is not at UTC, and a pass of
    [sync_stream] over a keyed stream. *)

From Stdlib Require Import ZArith String Ascii List Lia.
From stdpp Require Import base option list strings gmap.
From S2P Require Import Prelude PyValue PyFloat PyNumber Bookmarks Runtime IsoTime PostProcess.
From S2P Require Import Fixtures Version SyncRecords Resume SyncStream.

(** ** The stream and the sources *)

(** A source whose start date is 2017-07-14, with the records [recs] for
    every query and the listed results for the listed batches. *)
Definition iso_source (chunked : bool) (recs : record_stream)
    (batches : list (value * record_stream)) : salesforce :=
  mk_salesforce chunked
    (fun _ _ => inr (VStr "2017-07-14T02:40:00Z"))
    (fun _ _ => recs)
    (get_batch_results (fixed_source chunked recs batches)).

Definition iso_accounts : list value :=
  [account "001" "2020-09-13T12:26:40.000+0000" "42";
   account "002" "2020-09-13T12:26:41.500+0000" "true"].

(** The same instant as the first, written two hours east of UTC. *)
Definition iso_zoned_account : value := account "003" "2020-09-13T14:26:40.000+02:00" "".

Definition iso_job_state : state := write_bookmark ∅ "Account" BATCH_IDS (VList [VStr "b1"]).

(** The drivers on the ISO codec, the clock and the transformer of the
    fixtures, and an output that takes every message. *)
Definition iso_resume (sf : salesforce) : M nat :=
  @resume_syncing_bulk_query fixture_clock iso_codec flat_transformer reliable_emitter
    sf account_entry (VStr "job").

Definition iso_sync_stream (sf : salesforce) : M nat :=
  @sync_stream fixture_clock iso_codec flat_transformer reliable_emitter sf account_entry.

(** ** The format and the reader *)

Example iso_format_example : iso_format 1600000001500000 = "2020-09-13T12:26:41.500000Z".
Proof. by vm_compute. Qed.

Example iso_parse_examples :
  iso_parse <$> ["2020-09-13T12:26:41.500000Z"; "2020-09-13T12:26:41.500+0000";
                 "2020-09-13T14:26:41.5+02:00"; "2020-09-13 12:26:41"; "2020-09-13";
                 "2020-02-29T00:00:00Z"; "2019-02-29T00:00:00Z"; "2020-09-13T24:00:00Z";
                 "13/09/2020"] =
  [Some (mk_datetime 1600000001500000 0); Some (mk_datetime 1600000001500000 0);
   Some (mk_datetime 1600000001500000 7200); Some (mk_datetime 1600000001000000 0);
   Some (mk_datetime 1599955200000000 0); Some (mk_datetime 1582934400000000 0);
   None; None; None].
Proof. by vm_compute. Qed.

(** ** A resumed job *)

(** The job returns, having sent both records; the store lists no batch
    and holds the watermark in the canonical format. *)
Example iso_job_returns :
  let run := iso_resume (iso_source true ([], None) [(VStr "b1", (iso_accounts, None))])
               (world0 iso_job_state) in
  run.1 = inr 2%nat /\
  get_bookmark (w_state run.2) "Account" BATCH_IDS = VList [] /\
  get_bookmark (w_state run.2) "Account" JOB_HIGHEST_BOOKMARK_SEEN
    = VStr "2020-09-13T12:26:41.500000Z".
Proof. by vm_compute. Qed.

(** The next run starts from that watermark. *)
Example iso_job_resumes :
  let run := iso_resume (iso_source true ([], None) [(VStr "b1", (iso_accounts, None))])
               (world0 iso_job_state) in
  @resume_from iso_codec (iso_source true ([], None) []) account_entry (w_state run.2)
  = inr (mk_datetime 1600000001500000 0).
Proof. by vm_compute. Qed.

(** A record whose key is written with an offset stops the job after it was
    sent: the watermark it becomes cannot be formatted, and the batch stays
    listed. *)
Example iso_job_zoned_raises :
  let run := iso_resume (iso_source true ([], None) [(VStr "b1", ([iso_zoned_account], None))])
               (world0 iso_job_state) in
  run.1 = inl (Exn Exception "datetime must be pegged at UTC tzoneinfo" None) /\
  length (emitted (w_out run.2)) = 1%nat /\
  get_bookmark (w_state run.2) "Account" BATCH_IDS = VList [VStr "b1"].
Proof. by vm_compute. Qed.

(** ** A pass of the simple driver *)

(** The cursor is the key of the last record as the source wrote it, not
    its canonical form. *)
Example iso_stream_returns :
  let run := iso_sync_stream (iso_source false (iso_accounts, None) []) (world0 ∅) in
  run.1 = inr 2%nat /\
  get_bookmark (w_state run.2) "Account" "SystemModstamp" = VStr "2020-09-13T12:26:41.500+0000".
Proof. by vm_compute. Qed.

(** A chunked pass stores the watermark in the canonical format, and does
    not return: the promotion at its end raises. *)
Example iso_chunked_stream :
  let run := iso_sync_stream (iso_source true (iso_accounts, None) []) (world0 ∅) in
  is_ok run.1 = false /\
  get_bookmark (w_state run.2) "Account" JOB_HIGHEST_BOOKMARK_SEEN
    = VStr "2020-09-13T12:26:41.500000Z" /\
  get_bookmark (w_state run.2) "Account" "SystemModstamp" = VNone.
Proof. by vm_compute. Qed.
